(** * FileBufferedChannel: a shallow embedding and its verification

    This development models [ServerKit/FileBufferedChannel.h]: the buffer
    queue, the mode machine, the reader and the writer (mover) state
    machines, and the error handler.  The channel is an event-driven object:
    every public entry point and every I/O completion handler runs to
    completion on the event loop thread.  Each of them is embedded as a
    function from the state of the object to a result, and the event loop
    as a step function over a type of events.

    Conventions.
    - [unsigned int nbuffers: 27] and [boost::uint32_t bytesBuffered] are
      integers in [Z] with the wrap-around written out; the [boost::int32_t]
      cursors of [findBufferForReadProcessing] likewise.  The 64-bit file
      cursors [readOffset] and [written] are plain [Z].
    - [assert] and [P_ASSERT_EQ] are not executed (as in a build with
      NDEBUG); the properties they check are proved instead.
    - Dereferencing a null [inFileMode], [readRequest] or [writerRequest]
      is the result [Crash].
    - The user callbacks (data callback, flushed callbacks) do not call
      back into the channel: a call of one is recorded, in the log of the
      underlying channel or in [flushed], and the tests of the generation
      and of the mode that follow it in the source are kept.  What a
      callback that feeds, resets or destroys the object would do is
      outside the model, and the statements that depend on it say so. *)

From Stdlib Require Import ZArith List Bool Lia.
From Stdlib.Strings Require Import Byte.
Import ListNotations.
Open Scope Z_scope.

(** ** Results of running a piece of the channel's code *)

Inductive Res (A : Type) : Type :=
| Ok (a : A)
| OutOfFuel
| Crash.
Arguments Ok {A} a.
Arguments OutOfFuel {A}.
Arguments Crash {A}.

Definition bind {A B : Type} (r : Res A) (k : A -> Res B) : Res B :=
  match r with
  | Ok a => k a
  | OutOfFuel => OutOfFuel
  | Crash => Crash
  end.

Notation "x <- r ;; k" := (bind r (fun x => k))
  (at level 61, r at next level, right associativity).

(** ** Buffers *)

Definition mbuf := list byte.

Definition size (b : mbuf) : Z := Z.of_nat (length b).

Definition empty (b : mbuf) : bool :=
  match b with
  | [] => true
  | _ :: _ => false
  end.

Fixpoint total_size (q : list mbuf) : Z :=
  match q with
  | [] => 0
  | b :: q' => size b + total_size q'
  end.

(** ** Types and constants of the class *)

Inductive Mode := IN_MEMORY_MODE | IN_FILE_MODE | ERROR | ERROR_WAITING.

Inductive ReaderState :=
| RS_INACTIVE
| RS_FEEDING
| RS_FEEDING_EOF
| RS_WAITING_FOR_CHANNEL_IDLE
| RS_READING_FROM_FILE
| RS_TERMINATED.

Inductive WriterState := WS_INACTIVE | WS_CREATING_FILE | WS_MOVING | WS_TERMINATED.

Definition MAX_MEMORY_BUFFERING : Z := 4294967295.
Definition MAX_BUFFERS : Z := 134217727.

(** [mode >= ERROR] *)
Definition mode_ge_ERROR (m : Mode) : bool :=
  match m with
  | ERROR | ERROR_WAITING => true
  | IN_MEMORY_MODE | IN_FILE_MODE => false
  end.

Definition Mode_eqb (a b : Mode) : bool :=
  match a, b with
  | IN_MEMORY_MODE, IN_MEMORY_MODE | IN_FILE_MODE, IN_FILE_MODE
  | ERROR, ERROR | ERROR_WAITING, ERROR_WAITING => true
  | _, _ => false
  end.

Definition ReaderState_eqb (a b : ReaderState) : bool :=
  match a, b with
  | RS_INACTIVE, RS_INACTIVE | RS_FEEDING, RS_FEEDING
  | RS_FEEDING_EOF, RS_FEEDING_EOF
  | RS_WAITING_FOR_CHANNEL_IDLE, RS_WAITING_FOR_CHANNEL_IDLE
  | RS_READING_FROM_FILE, RS_READING_FROM_FILE
  | RS_TERMINATED, RS_TERMINATED => true
  | _, _ => false
  end.

Definition WriterState_eqb (a b : WriterState) : bool :=
  match a, b with
  | WS_INACTIVE, WS_INACTIVE | WS_CREATING_FILE, WS_CREATING_FILE
  | WS_MOVING, WS_MOVING | WS_TERMINATED, WS_TERMINATED => true
  | _, _ => false
  end.

(** Machine integers. *)
Definition uint32 (x : Z) : Z := x mod 2 ^ 32.
Definition uint27 (x : Z) : Z := x mod 2 ^ 27.
Definition int32 (x : Z) : Z := (x + 2 ^ 31) mod 2 ^ 32 - 2 ^ 31.

(** ** The configuration

    [FileBufferedChannelConfig] is declared in [ServerKit/Context.h]; the
    record has the fields the class reads.  [mbuf_pool_data_size] stands
    for [mbuf_pool_data_size(&ctx->mbuf_pool)], and [EEXIST] for the
    platform's errno constant. *)
Record FileBufferedChannelConfig := {
  threshold : Z;
  delayInFileModeSwitching : Z;
  autoTruncateFile : bool;
  autoStartMover : bool;
  mbuf_pool_data_size : Z;
  EEXIST : Z
}.

(** ** The underlying channel *)

(** What the downstream consumer has been handed, in order. *)
Inductive Delivery :=
| Data (b : mbuf)
| Eof
| Err (e : Z).

(** The answer of the data callback to a non-empty buffer: it consumed the
    buffer and wants more, it consumed it and wants no more, or it will call
    [consumed] later. *)
Inductive Response := Consumed | ConsumedEnd | NotYet.

Inductive State := IDLE | CALLING | EOF_REACHED.

Record Channel := {
  state : State;
  generation : Z;
  log : list Delivery
}.

(** ** I/O requests in flight *)

(** The arguments of the outstanding [eio_read]. *)
Record ReadContext := {
  rc_size : Z;
  rc_offset : Z
}.

Record MoveContext := {
  mc_buffer : mbuf;
  mc_written : Z
}.

(** The writer's outstanding request: the [eio_busy] timer or the
    [eio_open] of a [FileCreationContext], or the [eio_write] of a
    [MoveContext] with the data and file offset it was issued with. *)
Inductive IOContext :=
| FileCreationDelay
| FileCreationOpen
| Move (mc : MoveContext) (req_data : mbuf) (req_offset : Z).

(** [file] is the content of the spill file behind [fd]. *)
Record InFileMode := {
  fd : Z;
  readRequest : option ReadContext;
  writerState : WriterState;
  writerRequest : option IOContext;
  readOffset : Z;
  written : Z;
  file : list byte
}.

Definition new_InFileMode : InFileMode :=
  {| fd := -1; readRequest := None; writerState := WS_INACTIVE;
     writerRequest := None; readOffset := 0; written := 0; file := [] |}.

Inductive FlushEvent := BuffersFlushed | DataFlushed.

(** ** The object *)

Record FBC := {
  channel : Channel;
  mode : Mode;
  readerState : ReaderState;
  nbuffers : Z;
  errcode : Z;
  bytesBuffered : Z;
  firstBuffer : mbuf;
  moreBuffers : list mbuf;
  inFileMode : option InFileMode;
  flushed : list FlushEvent
}.

(** Field updates. *)
Definition set_channel (c : Channel) (s : FBC) : FBC :=
  {| channel := c; mode := mode s; readerState := readerState s;
     nbuffers := nbuffers s; errcode := errcode s;
     bytesBuffered := bytesBuffered s; firstBuffer := firstBuffer s;
     moreBuffers := moreBuffers s; inFileMode := inFileMode s;
     flushed := flushed s |}.

Definition set_mode (m : Mode) (s : FBC) : FBC :=
  {| channel := channel s; mode := m; readerState := readerState s;
     nbuffers := nbuffers s; errcode := errcode s;
     bytesBuffered := bytesBuffered s; firstBuffer := firstBuffer s;
     moreBuffers := moreBuffers s; inFileMode := inFileMode s;
     flushed := flushed s |}.

Definition set_readerState (r : ReaderState) (s : FBC) : FBC :=
  {| channel := channel s; mode := mode s; readerState := r;
     nbuffers := nbuffers s; errcode := errcode s;
     bytesBuffered := bytesBuffered s; firstBuffer := firstBuffer s;
     moreBuffers := moreBuffers s; inFileMode := inFileMode s;
     flushed := flushed s |}.

Definition set_errcode (e : Z) (s : FBC) : FBC :=
  {| channel := channel s; mode := mode s; readerState := readerState s;
     nbuffers := nbuffers s; errcode := e;
     bytesBuffered := bytesBuffered s; firstBuffer := firstBuffer s;
     moreBuffers := moreBuffers s; inFileMode := inFileMode s;
     flushed := flushed s |}.

Definition set_queue (n bytes : Z) (first : mbuf) (more : list mbuf) (s : FBC) : FBC :=
  {| channel := channel s; mode := mode s; readerState := readerState s;
     nbuffers := n; errcode := errcode s;
     bytesBuffered := bytes; firstBuffer := first;
     moreBuffers := more; inFileMode := inFileMode s;
     flushed := flushed s |}.

Definition set_inFileMode (i : option InFileMode) (s : FBC) : FBC :=
  {| channel := channel s; mode := mode s; readerState := readerState s;
     nbuffers := nbuffers s; errcode := errcode s;
     bytesBuffered := bytesBuffered s; firstBuffer := firstBuffer s;
     moreBuffers := moreBuffers s; inFileMode := i;
     flushed := flushed s |}.

Definition add_flushed (f : FlushEvent) (s : FBC) : FBC :=
  {| channel := channel s; mode := mode s; readerState := readerState s;
     nbuffers := nbuffers s; errcode := errcode s;
     bytesBuffered := bytesBuffered s; firstBuffer := firstBuffer s;
     moreBuffers := moreBuffers s; inFileMode := inFileMode s;
     flushed := flushed s ++ [f] |}.

Definition set_fd (x : Z) (i : InFileMode) : InFileMode :=
  {| fd := x; readRequest := readRequest i; writerState := writerState i;
     writerRequest := writerRequest i; readOffset := readOffset i;
     written := written i; file := file i |}.

Definition set_readRequest (r : option ReadContext) (i : InFileMode) : InFileMode :=
  {| fd := fd i; readRequest := r; writerState := writerState i;
     writerRequest := writerRequest i; readOffset := readOffset i;
     written := written i; file := file i |}.

Definition set_writerState (w : WriterState) (i : InFileMode) : InFileMode :=
  {| fd := fd i; readRequest := readRequest i; writerState := w;
     writerRequest := writerRequest i; readOffset := readOffset i;
     written := written i; file := file i |}.

Definition set_writerRequest (r : option IOContext) (i : InFileMode) : InFileMode :=
  {| fd := fd i; readRequest := readRequest i; writerState := writerState i;
     writerRequest := r; readOffset := readOffset i;
     written := written i; file := file i |}.

Definition set_cursors (ro w : Z) (i : InFileMode) : InFileMode :=
  {| fd := fd i; readRequest := readRequest i; writerState := writerState i;
     writerRequest := writerRequest i; readOffset := ro;
     written := w; file := file i |}.

Definition set_file (f : list byte) (i : InFileMode) : InFileMode :=
  {| fd := fd i; readRequest := readRequest i; writerState := writerState i;
     writerRequest := writerRequest i; readOffset := readOffset i;
     written := written i; file := f |}.

(** [inFileMode->...]: a null pointer crashes. *)
Definition deref {A : Type} (s : FBC) (k : InFileMode -> Res A) : Res A :=
  match inFileMode s with
  | Some i => k i
  | None => Crash
  end.

(** The whole queue, front first. *)
Definition queue (s : FBC) : list mbuf :=
  if nbuffers s =? 0 then [] else firstBuffer s :: moreBuffers s.

(** ** The spill file *)

(** [pwrite]: the file after [data] has been written at offset [off]; a gap
    between the end of the file and [off] reads as zero bytes. *)
Definition write_at (f : list byte) (off : Z) (data : list byte) : list byte :=
  let o := Z.to_nat off in
  firstn o (f ++ repeat x00 (o - length f)) ++ data
    ++ skipn (o + length data) f.

(** [pread]: the [n] bytes at offset [off], fewer at the end of the file. *)
Definition read_at (f : list byte) (off n : Z) : list byte :=
  firstn (Z.to_nat n) (skipn (Z.to_nat off) f).

(** ** Example configurations, consumers and states *)

Definition example_config : FileBufferedChannelConfig :=
  {| threshold := 4; delayInFileModeSwitching := 0;
     autoTruncateFile := false; autoStartMover := true;
     mbuf_pool_data_size := 16; EEXIST := 17 |}.

(** A consumer that never finishes a buffer before the data callback
    returns, and one that always does. *)
Definition busy_consumer (seen : list Delivery) (b : mbuf) : Response := NotYet.
Definition eager_consumer (seen : list Delivery) (b : mbuf) : Response := Consumed.

Definition buf_ab : mbuf := ["a"; "b"]%byte.
Definition buf_cdef : mbuf := ["c"; "d"; "e"; "f"]%byte.

(** After [feed("ab")], [feed("cdef")] and the creation of the spill file,
    with the busy consumer: in-file mode, the mover writing "cdef". *)
Definition example_moving : FBC :=
  {| channel := {| state := CALLING; generation := 0; log := [Data buf_ab] |};
     mode := IN_FILE_MODE; readerState := RS_WAITING_FOR_CHANNEL_IDLE;
     nbuffers := 1; errcode := 0; bytesBuffered := 4;
     firstBuffer := buf_cdef; moreBuffers := [];
     inFileMode :=
       Some {| fd := 5; readRequest := None; writerState := WS_MOVING;
               writerRequest :=
                 Some (Move {| mc_buffer := buf_cdef; mc_written := 0 |}
                            buf_cdef 0);
               readOffset := 0; written := 0; file := [] |};
     flushed := [BuffersFlushed] |}.

(** After [feedError(5)] on a fresh object. *)
Definition example_error : FBC :=
  {| channel := {| state := EOF_REACHED; generation := 0; log := [Err 5] |};
     mode := ERROR; readerState := RS_TERMINATED; nbuffers := 0;
     errcode := 5; bytesBuffered := 0; firstBuffer := []; moreBuffers := [];
     inFileMode := None; flushed := [] |}.

(** After [feed("ab")] and [feedError(5)] with the busy consumer. *)
Definition example_error_waiting : FBC :=
  {| channel := {| state := CALLING; generation := 0; log := [Data buf_ab] |};
     mode := ERROR_WAITING; readerState := RS_TERMINATED; nbuffers := 0;
     errcode := 5; bytesBuffered := 0; firstBuffer := []; moreBuffers := [];
     inFileMode := None; flushed := [BuffersFlushed] |}.

(** [example_moving] after [deinitialize()]. *)
Definition example_deinitialized : FBC :=
  {| channel := {| state := CALLING; generation := 1; log := [Data buf_ab] |};
     mode := IN_MEMORY_MODE; readerState := RS_INACTIVE; nbuffers := 0;
     errcode := 0; bytesBuffered := 0; firstBuffer := []; moreBuffers := [];
     inFileMode := None; flushed := [BuffersFlushed] |}.

(** [example_config] with [autoTruncateFile] turned on. *)
Definition example_config_truncate : FileBufferedChannelConfig :=
  {| threshold := 4; delayInFileModeSwitching := 0;
     autoTruncateFile := true; autoStartMover := true;
     mbuf_pool_data_size := 16; EEXIST := 17 |}.

(** After [feed("ab")], [feed("cdef")] and one acknowledgement, with the
    busy consumer: the reader has served "cdef" from memory ahead of the
    writer, which is still creating the file. *)
Definition example_ahead : FBC :=
  {| channel := {| state := CALLING; generation := 0;
                   log := [Data buf_ab; Data buf_cdef] |};
     mode := IN_FILE_MODE; readerState := RS_WAITING_FOR_CHANNEL_IDLE;
     nbuffers := 1; errcode := 0; bytesBuffered := 4;
     firstBuffer := buf_cdef; moreBuffers := [];
     inFileMode :=
       Some {| fd := -1; readRequest := None; writerState := WS_CREATING_FILE;
               writerRequest := Some FileCreationOpen;
               readOffset := 4; written := -4; file := [] |};
     flushed := [BuffersFlushed] |}.

(** [example_ahead] after the second acknowledgement: the reader found
    nothing more to serve and switched back to in-memory mode. *)
Definition example_switched : FBC :=
  {| channel := {| state := IDLE; generation := 0;
                   log := [Data buf_ab; Data buf_cdef] |};
     mode := IN_MEMORY_MODE; readerState := RS_INACTIVE; nbuffers := 0;
     errcode := 0; bytesBuffered := 0; firstBuffer := []; moreBuffers := [];
     inFileMode := None; flushed := [BuffersFlushed; DataFlushed] |}.

(** [example_error_waiting] after a discarded [feed], the acknowledgement
    that hands over the error, a second [feedError] and [reinitialize]. *)
Definition example_error_fed : FBC :=
  {| channel := {| state := IDLE; generation := 1;
                   log := [Data buf_ab; Err 5] |};
     mode := ERROR_WAITING; readerState := RS_TERMINATED; nbuffers := 0;
     errcode := 5; bytesBuffered := 0; firstBuffer := []; moreBuffers := [];
     inFileMode := None; flushed := [BuffersFlushed] |}.

(** After [feed("ab")], [feed("cdef")], the creation of the file, a failed
    write and the acknowledgement of "ab", with the busy consumer. *)
Definition example_write_failed : FBC :=
  {| channel := {| state := EOF_REACHED; generation := 0;
                   log := [Data buf_ab; Err 28] |};
     mode := ERROR_WAITING; readerState := RS_TERMINATED; nbuffers := 1;
     errcode := 28; bytesBuffered := 4; firstBuffer := buf_cdef;
     moreBuffers := []; inFileMode := None; flushed := [BuffersFlushed] |}.

(** After [feed("ab")] with the busy consumer. *)
Definition example_fed_ab : FBC :=
  {| channel := {| state := CALLING; generation := 0; log := [Data buf_ab] |};
     mode := IN_MEMORY_MODE; readerState := RS_WAITING_FOR_CHANNEL_IDLE;
     nbuffers := 0; errcode := 0; bytesBuffered := 0; firstBuffer := [];
     moreBuffers := []; inFileMode := None; flushed := [BuffersFlushed] |}.

(** The in-file record once "cdef" has been written to the file in full,
    and the same with the read of it outstanding. *)
Definition example_written_record : InFileMode :=
  {| fd := 5; readRequest := None; writerState := WS_INACTIVE;
     writerRequest := None; readOffset := 0; written := 4; file := buf_cdef |}.

Definition example_reading_record : InFileMode :=
  {| fd := 5; readRequest := Some {| rc_size := 4; rc_offset := 0 |};
     writerState := WS_INACTIVE; writerRequest := None; readOffset := 0;
     written := 4; file := buf_cdef |}.

(** [example_moving] after the write of "cdef" has completed in full. *)
Definition example_written : FBC :=
  {| channel := {| state := CALLING; generation := 0; log := [Data buf_ab] |};
     mode := IN_FILE_MODE; readerState := RS_WAITING_FOR_CHANNEL_IDLE;
     nbuffers := 0; errcode := 0; bytesBuffered := 0; firstBuffer := [];
     moreBuffers := []; inFileMode := Some example_written_record;
     flushed := [BuffersFlushed; BuffersFlushed] |}.

(** [example_written] after the acknowledgement of "ab": the reader is
    reading "cdef" from the file. *)
Definition example_reading : FBC :=
  {| channel := {| state := IDLE; generation := 0; log := [Data buf_ab] |};
     mode := IN_FILE_MODE; readerState := RS_READING_FROM_FILE;
     nbuffers := 0; errcode := 0; bytesBuffered := 0; firstBuffer := [];
     moreBuffers := []; inFileMode := Some example_reading_record;
     flushed := [BuffersFlushed; BuffersFlushed] |}.

(** [example_moving] after the write of "cdef" has completed in two
    parts, both at offset 0, a read of the two bytes the file holds and
    two acknowledgements: the reader is reading at offset 2, where the
    file ends. *)
Definition example_short_file_record : InFileMode :=
  {| fd := 5; readRequest := Some {| rc_size := 2; rc_offset := 2 |};
     writerState := WS_INACTIVE; writerRequest := None; readOffset := 2;
     written := 2; file := ["e"; "f"]%byte |}.

Definition example_short_file : FBC :=
  {| channel := {| state := IDLE; generation := 0;
                   log := [Data buf_ab; Data ["e"; "f"]%byte] |};
     mode := IN_FILE_MODE; readerState := RS_READING_FROM_FILE;
     nbuffers := 0; errcode := 0; bytesBuffered := 0; firstBuffer := [];
     moreBuffers := []; inFileMode := Some example_short_file_record;
     flushed := [BuffersFlushed; BuffersFlushed] |}.

(** After [feed("ab")] and [feed("")] with the busy consumer, and the same
    after the acknowledgement of "ab" and a discarded [feed("cdef")]. *)
Definition example_sentinel : FBC :=
  {| channel := {| state := CALLING; generation := 0; log := [Data buf_ab] |};
     mode := IN_MEMORY_MODE; readerState := RS_WAITING_FOR_CHANNEL_IDLE;
     nbuffers := 1; errcode := 0; bytesBuffered := 0; firstBuffer := [];
     moreBuffers := []; inFileMode := None; flushed := [BuffersFlushed] |}.

Definition example_sentinel_fed : FBC :=
  {| channel := {| state := EOF_REACHED; generation := 0;
                   log := [Data buf_ab; Eof] |};
     mode := IN_MEMORY_MODE; readerState := RS_TERMINATED;
     nbuffers := 1; errcode := 0; bytesBuffered := 0; firstBuffer := [];
     moreBuffers := []; inFileMode := None;
     flushed := [BuffersFlushed; DataFlushed] |}.

(** The in-file record of [example_moving]. *)
Definition example_moving_record : InFileMode :=
  {| fd := 5; readRequest := None; writerState := WS_MOVING;
     writerRequest :=
       Some (Move {| mc_buffer := buf_cdef; mc_written := 0 |} buf_cdef 0);
     readOffset := 0; written := 0; file := [] |}.

(** A consumer that is busy with the first buffer it is handed and keeps
    up with every later one. *)
Definition slow_start_consumer (seen : list Delivery) (b : mbuf) : Response :=
  match seen with
  | [] => NotYet
  | _ :: _ => Consumed
  end.

(** After [feed("ab")] and [feed("cdef")] with [autoTruncateFile] on and
    the consumer busy with "ab": in-file mode, the file being created,
    "cdef" queued and pending. *)
Definition example_queued_record : InFileMode :=
  {| fd := -1; readRequest := None; writerState := WS_CREATING_FILE;
     writerRequest := Some FileCreationOpen;
     readOffset := 0; written := 0; file := [] |}.

Definition example_queued : FBC :=
  {| channel := {| state := CALLING; generation := 0; log := [Data buf_ab] |};
     mode := IN_FILE_MODE; readerState := RS_WAITING_FOR_CHANNEL_IDLE;
     nbuffers := 1; errcode := 0; bytesBuffered := 4;
     firstBuffer := buf_cdef; moreBuffers := [];
     inFileMode := Some example_queued_record;
     flushed := [BuffersFlushed] |}.

Definition buf_gh : mbuf := ["g"; "h"]%byte.

(** After [feed("ab")], [feed("cdef")], the creation of the file, the
    write of "cdef", [feed("gh")] and the acknowledgement of "ab", with
    the busy consumer: the read of "cdef" and the write of "gh" are both
    in flight, and "gh" is queued. *)
Definition example_both_requests_record : InFileMode :=
  {| fd := 5; readRequest := Some {| rc_size := 4; rc_offset := 0 |};
     writerState := WS_MOVING;
     writerRequest :=
       Some (Move {| mc_buffer := buf_gh; mc_written := 0 |} buf_gh 4);
     readOffset := 0; written := 4; file := buf_cdef |}.

Definition example_both_requests : FBC :=
  {| channel := {| state := IDLE; generation := 0; log := [Data buf_ab] |};
     mode := IN_FILE_MODE; readerState := RS_READING_FROM_FILE;
     nbuffers := 1; errcode := 0; bytesBuffered := 2;
     firstBuffer := buf_gh; moreBuffers := [];
     inFileMode := Some example_both_requests_record;
     flushed := [BuffersFlushed; BuffersFlushed] |}.

(** After [feed("ab")], [feed("cdef")], one acknowledgement, [feed("gh")]
    and [feed("")], with the busy consumer and the file not yet created:
    the reader has served "cdef" from memory and is 4 bytes ahead of the
    writer; "gh" and the sentinel are queued behind "cdef". *)
Definition example_walk_record : InFileMode :=
  {| fd := -1; readRequest := None; writerState := WS_CREATING_FILE;
     writerRequest := Some FileCreationOpen;
     readOffset := 4; written := -4; file := [] |}.

Definition example_walk : FBC :=
  {| channel := {| state := CALLING; generation := 0;
                   log := [Data buf_ab; Data buf_cdef] |};
     mode := IN_FILE_MODE; readerState := RS_WAITING_FOR_CHANNEL_IDLE;
     nbuffers := 3; errcode := 0; bytesBuffered := 6;
     firstBuffer := buf_cdef; moreBuffers := [buf_gh; []];
     inFileMode := Some example_walk_record;
     flushed := [BuffersFlushed] |}.

(** After one more acknowledgement: "gh" has been served too, and only the
    sentinel is left to serve. *)
Definition example_walk_sentinel_record : InFileMode :=
  {| fd := -1; readRequest := None; writerState := WS_CREATING_FILE;
     writerRequest := Some FileCreationOpen;
     readOffset := 6; written := -6; file := [] |}.

Definition example_walk_sentinel : FBC :=
  {| channel := {| state := CALLING; generation := 0;
                   log := [Data buf_ab; Data buf_cdef; Data buf_gh] |};
     mode := IN_FILE_MODE; readerState := RS_WAITING_FOR_CHANNEL_IDLE;
     nbuffers := 3; errcode := 0; bytesBuffered := 6;
     firstBuffer := buf_cdef; moreBuffers := [buf_gh; []];
     inFileMode := Some example_walk_sentinel_record;
     flushed := [BuffersFlushed] |}.


Section Machine.

Variable config : FileBufferedChannelConfig.

(** The data callback installed on the underlying channel, as a function of
    what the consumer has seen so far and the buffer it is handed. *)
Variable dataCallback : list Delivery -> mbuf -> Response.

(** ** The underlying channel (ServerKit/Channel.h) *)

(** Modelled from the spec: [Channel::acceptingInput], true iff the channel
    is idle. *)
Definition acceptingInput (c : Channel) : bool :=
  match state c with
  | IDLE => true
  | CALLING | EOF_REACHED => false
  end.

(** Modelled from the spec: [Channel::mayAcceptInputLater], true unless the
    channel has ended. *)
Definition mayAcceptInputLater (c : Channel) : bool :=
  match state c with
  | IDLE | CALLING => true
  | EOF_REACHED => false
  end.

(** Modelled from the spec: [Channel::isIdle]. *)
Definition isIdle (c : Channel) : bool := acceptingInput c.

(** Modelled from the spec: [Channel::ended]. *)
Definition Channel_ended (c : Channel) : bool :=
  match state c with
  | EOF_REACHED => true
  | IDLE | CALLING => false
  end.

(** Modelled from the spec: [Channel::feedWithoutRefGuard], the single-slot
    delivery.  The buffer is handed to the data callback; an empty buffer
    signals the end of the stream and ends the channel. *)
Definition Channel_feedWithoutRefGuard (buffer : mbuf) (c : Channel) : Channel :=
  if empty buffer then
    {| state := EOF_REACHED; generation := generation c;
       log := log c ++ [Eof] |}
  else
    {| state := match dataCallback (log c) buffer with
                | Consumed => IDLE
                | ConsumedEnd => EOF_REACHED
                | NotYet => CALLING
                end;
       generation := generation c;
       log := log c ++ [Data buffer] |}.

(** Modelled from the spec: [Channel::feedError], which hands the error to
    the data callback and ends the channel. *)
Definition Channel_feedError (e : Z) (c : Channel) : Channel :=
  {| state := EOF_REACHED; generation := generation c;
     log := log c ++ [Err e] |}.

(** Modelled from the spec: the state change of [Channel::consumed], the
    asynchronous acknowledgement of the buffer being processed. *)
Definition Channel_consumed (end_ : bool) (c : Channel) : Channel :=
  {| state := if end_ then EOF_REACHED else IDLE;
     generation := generation c; log := log c |}.

(** Modelled from the spec: [Channel::reinitialize], which makes the channel
    idle again and bumps the generation. *)
Definition Channel_reinitialize (c : Channel) : Channel :=
  {| state := IDLE; generation := uint32 (generation c + 1); log := log c |}.

(** Modelled from the spec: [Channel::deinitialize], which bumps the
    generation. *)
Definition Channel_deinitialize (c : Channel) : Channel :=
  {| state := state c; generation := uint32 (generation c + 1);
     log := log c |}.

(** ** Buffer manipulation *)

Definition clearBuffers (s : FBC) : FBC := set_queue 0 0 [] [] s.

Definition pushBuffer (buffer : mbuf) (s : FBC) : FBC :=
  let first := if nbuffers s =? 0 then buffer else firstBuffer s in
  let more := if nbuffers s =? 0 then moreBuffers s
              else moreBuffers s ++ [buffer] in
  set_queue (uint27 (nbuffers s + 1))
            (uint32 (bytesBuffered s + size buffer)) first more s.

Definition callBuffersFlushedCallback (s : FBC) : FBC :=
  add_flushed BuffersFlushed s.

Definition callDataFlushedCallback (s : FBC) : FBC :=
  add_flushed DataFlushed s.

Definition popBuffer (s : FBC) : FBC :=
  let bytes := uint32 (bytesBuffered s - size (firstBuffer s)) in
  let n := uint27 (nbuffers s - 1) in
  match moreBuffers s with
  | [] => callBuffersFlushedCallback (set_queue n bytes [] [] s)
  | b :: more => set_queue n bytes b more s
  end.

Definition hasBuffers (s : FBC) : bool := nbuffers s >? 0.

Definition peekBuffer (s : FBC) : mbuf := firstBuffer s.

Definition peekLastBuffer (s : FBC) : mbuf :=
  if nbuffers s <=? 1 then firstBuffer s else last (moreBuffers s) [].

Definition ended (s : FBC) : bool :=
  (hasBuffers s && empty (peekLastBuffer s))
  || mode_ge_ERROR (mode s) || Channel_ended (channel s).

Definition passedThreshold (s : FBC) : bool :=
  bytesBuffered s >=? threshold config.

(** ** Cancellation and errors *)

Definition cancelReader (s : FBC) : Res FBC :=
  match readerState s with
  | RS_FEEDING | RS_FEEDING_EOF | RS_WAITING_FOR_CHANNEL_IDLE => Ok s
  | RS_READING_FROM_FILE =>
      deref s (fun i =>
        match readRequest i with
        | None => Crash
        | Some _ => Ok (set_inFileMode (Some (set_readRequest None i)) s)
        end)
  | RS_INACTIVE | RS_TERMINATED => Ok s
  end.

Definition cancelWriter (s : FBC) : Res FBC :=
  deref s (fun i =>
    match writerState i with
    | WS_INACTIVE =>
        Ok (set_inFileMode (Some (set_writerState WS_INACTIVE i)) s)
    | WS_CREATING_FILE | WS_MOVING =>
        match writerRequest i with
        | None => Crash
        | Some _ =>
            Ok (set_inFileMode
                  (Some (set_writerState WS_INACTIVE
                           (set_writerRequest None i))) s)
        end
    | WS_TERMINATED => Ok s
    end).

Definition setError (e : Z) (s : FBC) : Res FBC :=
  if mode_ge_ERROR (mode s) then Ok s
  else
    s1 <- cancelReader s ;;
    s2 <- (if Mode_eqb (mode s1) IN_FILE_MODE then cancelWriter s1 else Ok s1) ;;
    let s3 := set_inFileMode None
                (set_errcode e (set_readerState RS_TERMINATED s2)) in
    if acceptingInput (channel s3) then
      Ok (set_channel (Channel_feedError e (channel s3)) (set_mode ERROR s3))
    else
      Ok (set_mode ERROR_WAITING s3).

Definition feedErrorWhenChannelIdleOrEnded (s : FBC) : FBC :=
  if isIdle (channel s) then
    set_channel (Channel_feedError (errcode s) (channel s)) s
  else s.

(** ** Switching to or resetting in-file mode, file creator, mover *)

Definition createBufferFile (s : FBC) : Res FBC :=
  deref s (fun i =>
    let req := if delayInFileModeSwitching config =? 0
               then FileCreationOpen else FileCreationDelay in
    Ok (set_inFileMode
          (Some (set_writerRequest (Some req)
                   (set_writerState WS_CREATING_FILE i))) s)).

Definition switchToInFileMode (s : FBC) : Res FBC :=
  createBufferFile
    (set_inFileMode (Some new_InFileMode) (set_mode IN_FILE_MODE s)).

Definition switchToInMemoryMode (s : FBC) : Res FBC :=
  s1 <- cancelWriter s ;;
  Ok (set_inFileMode None (set_mode IN_MEMORY_MODE (clearBuffers s1))).

Definition bufferFileDoneDelaying (s : FBC) : Res FBC :=
  deref s (fun i =>
    Ok (set_inFileMode (Some (set_writerRequest (Some FileCreationOpen) i)) s)).

Definition moveNextBufferToFile (s : FBC) : Res FBC :=
  deref s (fun i =>
    if nbuffers s =? 0 then
      Ok (set_inFileMode (Some (set_writerState WS_INACTIVE i)) s)
    else if empty (peekBuffer s) then
      Ok (set_inFileMode (Some (set_writerState WS_TERMINATED i)) s)
    else
      let moveContext := {| mc_buffer := peekBuffer s; mc_written := 0 |} in
      Ok (set_inFileMode
            (Some (set_writerRequest
                     (Some (Move moveContext (mc_buffer moveContext)
                                 (readOffset i + written i)))
                     (set_writerState WS_MOVING i))) s)).

Definition bufferFileCreated (result errcode : Z) (s : FBC) : Res FBC :=
  deref s (fun i =>
    let s1 := set_inFileMode (Some (set_writerRequest None i)) s in
    if negb (result =? -1) then
      deref s1 (fun i1 =>
        moveNextBufferToFile (set_inFileMode (Some (set_fd result i1)) s1))
    else if errcode =? EEXIST config then
      deref s1 (fun i1 =>
        createBufferFile
          (set_inFileMode (Some (set_writerState WS_INACTIVE i1)) s1))
    else
      setError errcode s1).

(** The [generation != this->generation || mode >= ERROR] test after a
    callback, for the generation sampled in [generation0]. *)
Definition callbackReset (generation0 : Z) (s : FBC) : bool :=
  negb (generation0 =? generation (channel s)) || mode_ge_ERROR (mode s).

Definition bufferWrittenToFile (moveContext : MoveContext)
    (result errcode : Z) (s : FBC) : Res FBC :=
  if negb (result =? -1) then
    let moveContext :=
      {| mc_buffer := mc_buffer moveContext;
         mc_written := mc_written moveContext + result |} in
    if mc_written moveContext =? size (mc_buffer moveContext) then
      let generation0 := generation (channel s) in
      deref s (fun i =>
        let s1 := set_inFileMode
                    (Some (set_cursors (readOffset i)
                             (written i + size (mc_buffer moveContext)) i)) s in
        let s2 := popBuffer s1 in
        if callbackReset generation0 s2 then Ok s2
        else
          deref s2 (fun i2 =>
            moveNextBufferToFile
              (set_inFileMode (Some (set_writerRequest None i2)) s2)))
    else
      deref s (fun i =>
        Ok (set_inFileMode
              (Some (set_writerRequest
                       (Some (Move moveContext
                                (skipn (Z.to_nat (mc_written moveContext))
                                       (mc_buffer moveContext))
                                (readOffset i + written i))) i)) s))
  else
    deref s (fun i =>
      setError errcode
        (set_inFileMode
           (Some (set_writerState WS_TERMINATED (set_writerRequest None i))) s)).

(** ** Reader *)

Definition terminateReaderBecauseOfEOF (s : FBC) : FBC :=
  callDataFlushedCallback (set_readerState RS_TERMINATED s).

Definition readNextWhenChannelIdle (s : FBC) : FBC :=
  set_readerState RS_WAITING_FOR_CHANNEL_IDLE s.

Definition feedChannel (buffer : mbuf) (s : FBC) : FBC :=
  set_channel (Channel_feedWithoutRefGuard buffer (channel s)) s.

Definition readNextChunkFromFile (s : FBC) : Res FBC :=
  deref s (fun i =>
    let sz := Z.min (written i) (mbuf_pool_data_size config) in
    let readContext := {| rc_size := sz; rc_offset := readOffset i |} in
    Ok (set_inFileMode (Some (set_readRequest (Some readContext) i))
          (set_readerState RS_READING_FROM_FILE s))).

Fixpoint find_in_moreBuffers (target offset : Z) (it : list mbuf) : mbuf * bool :=
  match it with
  | [] => ([], false)
  | b :: rest =>
      if (offset =? target) || empty b then (b, true)
      else find_in_moreBuffers target (int32 (offset + size b)) rest
  end.

(** Returns (mbuf, found). *)
Definition findBufferForReadProcessing (s : FBC) : Res (mbuf * bool) :=
  if nbuffers s =? 0 then Ok ([], false)
  else
    deref s (fun i =>
      let target := int32 (- written i) in
      let offset := 0 in
      if offset =? target then Ok (firstBuffer s, true)
      else
        Ok (find_in_moreBuffers target (int32 (offset + size (firstBuffer s)))
              (moreBuffers s))).

(** One pass through the body of [readNextWithoutRefGuard]: it returns, or
    it jumps back to the label [begin]. *)
Inductive Pass :=
| Return (r : Res FBC)
| GotoBegin (s : FBC).

(** The three-way test that follows every data feed. *)
Definition afterFeeding (s : FBC) : Pass :=
  if acceptingInput (channel s) then GotoBegin s
  else if mayAcceptInputLater (channel s) then
    Return (Ok (readNextWhenChannelIdle s))
  else Return (Ok (terminateReaderBecauseOfEOF s)).

Definition readNext_pass (s : FBC) : Pass :=
  let generation0 := generation (channel s) in
  match mode s with
  | IN_MEMORY_MODE =>
      if negb (hasBuffers s) then
        Return (Ok (callDataFlushedCallback (set_readerState RS_INACTIVE s)))
      else if empty (peekBuffer s) then
        let s1 := feedChannel (peekBuffer s)
                    (set_readerState RS_FEEDING_EOF s) in
        if callbackReset generation0 s1 then Return (Ok s1)
        else Return (Ok (terminateReaderBecauseOfEOF s1))
      else
        let buffer := peekBuffer s in
        let s1 := popBuffer s in
        if callbackReset generation0 s1 then Return (Ok s1)
        else
          let s2 := feedChannel buffer (set_readerState RS_FEEDING s1) in
          if callbackReset generation0 s2 then Return (Ok s2)
          else afterFeeding s2
  | IN_FILE_MODE =>
      match inFileMode s with
      | None => Return Crash
      | Some i =>
          if written i >? 0 then Return (readNextChunkFromFile s)
          else
            match findBufferForReadProcessing s with
            | OutOfFuel => Return OutOfFuel
            | Crash => Return Crash
            | Ok result =>
                if negb (snd result) then
                  let s1 := set_readerState RS_INACTIVE s in
                  Return (s2 <- (if autoTruncateFile config
                                 then switchToInMemoryMode s1 else Ok s1) ;;
                          Ok (callDataFlushedCallback s2))
                else if empty (fst result) then
                  let s1 := feedChannel (fst result)
                              (set_readerState RS_FEEDING_EOF s) in
                  if callbackReset generation0 s1 then Return (Ok s1)
                  else Return (Ok (terminateReaderBecauseOfEOF s1))
                else
                  let s1 :=
                    set_inFileMode
                      (Some (set_cursors (readOffset i + size (fst result))
                               (written i - size (fst result)) i)) s in
                  let s2 := feedChannel (fst result)
                              (set_readerState RS_FEEDING s1) in
                  if callbackReset generation0 s2 then Return (Ok s2)
                  else afterFeeding s2
            end
      end
  | ERROR | ERROR_WAITING => Return Crash
  end.

(** The loop: one unit of [fuel] per pass. *)
Fixpoint readNextWithoutRefGuard (fuel : nat) (s : FBC) : Res FBC :=
  match fuel with
  | O => OutOfFuel
  | S fuel' =>
      match readNext_pass s with
      | Return r => r
      | GotoBegin s' => readNextWithoutRefGuard fuel' s'
      end
  end.

(** Every pass through [begin:] but the last serves a queued buffer, so the
    loop runs at most [nbuffers + 1] times. *)
Definition readNext (s : FBC) : Res FBC :=
  readNextWithoutRefGuard (S (Z.to_nat (nbuffers s))) s.

Definition channelHasBecomeIdle (s : FBC) : Res FBC := readNext s.

Definition channelEndedWhileWaitingForItToBecomeIdle (s : FBC) : FBC :=
  terminateReaderBecauseOfEOF s.

(** [buffer] is the pool buffer after [eio_read] has filled it. *)
Definition nextChunkDoneReading (buffer : mbuf) (result errcode : Z)
    (s : FBC) : Res FBC :=
  deref s (fun i =>
    let s1 := set_inFileMode (Some (set_readRequest None i)) s in
    if negb (result =? -1) then
      let generation0 := generation (channel s1) in
      let buffer := firstn (Z.to_nat result) buffer in
      deref s1 (fun i1 =>
        let s2 := set_inFileMode
                    (Some (set_cursors (readOffset i1 + size buffer)
                             (written i1 - size buffer) i1)) s1 in
        let s3 := feedChannel buffer (set_readerState RS_FEEDING s2) in
        if callbackReset generation0 s3 then Ok s3
        else if acceptingInput (channel s3) then
          readNext (set_readerState RS_INACTIVE s3)
        else if mayAcceptInputLater (channel s3) then
          Ok (readNextWhenChannelIdle s3)
        else Ok (terminateReaderBecauseOfEOF s3))
    else
      setError errcode s1).

Definition onChannelConsumed (s : FBC) : Res FBC :=
  if ReaderState_eqb (readerState s) RS_WAITING_FOR_CHANNEL_IDLE then
    if acceptingInput (channel s) then channelHasBecomeIdle s
    else Ok (channelEndedWhileWaitingForItToBecomeIdle s)
  else if Mode_eqb (mode s) ERROR_WAITING then
    Ok (feedErrorWhenChannelIdleOrEnded s)
  else Ok s.

(** ** Public entry points *)

Definition feedWithoutRefGuard (buffer : mbuf) (s : FBC) : Res FBC :=
  if ended s then Ok s
  else
    let s1 := pushBuffer buffer s in
    s2 <- (if Mode_eqb (mode s1) IN_MEMORY_MODE && passedThreshold s1 then
             switchToInFileMode s1
           else if Mode_eqb (mode s1) IN_FILE_MODE then
             deref s1 (fun i =>
               if WriterState_eqb (writerState i) WS_INACTIVE
                  && autoStartMover config
               then moveNextBufferToFile s1 else Ok s1)
           else Ok s1) ;;
    if ReaderState_eqb (readerState s2) RS_INACTIVE then
      if acceptingInput (channel s2) then
        readNextWithoutRefGuard (S (Z.to_nat (nbuffers s2))) s2
      else Ok (readNextWhenChannelIdle s2)
    else Ok s2.

Definition feed (buffer : mbuf) (s : FBC) : Res FBC :=
  feedWithoutRefGuard buffer s.

Definition feedError (e : Z) (s : FBC) : Res FBC := setError e s.

Definition reinitialize (s : FBC) : FBC :=
  set_channel (Channel_reinitialize (channel s)) s.

Definition deinitialize (s : FBC) : Res FBC :=
  s1 <- cancelReader s ;;
  s2 <- (if Mode_eqb (mode s1) IN_FILE_MODE then cancelWriter s1 else Ok s1) ;;
  let s3 := clearBuffers s2 in
  let s4 := set_errcode 0
              (set_readerState RS_INACTIVE (set_mode IN_MEMORY_MODE s3)) in
  let s5 := match inFileMode s4 with
            | Some _ => set_inFileMode None s4
            | None => s4
            end in
  Ok (set_channel (Channel_deinitialize (channel s5)) s5).

(** [Channel::consumed] acknowledges the buffer the data callback was
    handed and then notifies through [consumedCallback], which the
    constructor sets to [onChannelConsumed]. *)
Definition consumed (sz : Z) (end_ : bool) (s : FBC) : Res FBC :=
  match state (channel s) with
  | CALLING => onChannelConsumed (set_channel (Channel_consumed end_ (channel s)) s)
  | IDLE | EOF_REACHED => Ok s
  end.

Definition getMode (s : FBC) : Mode := mode s.

Definition getReaderState (s : FBC) : ReaderState := readerState s.

Definition getWriterState (s : FBC) : Res WriterState :=
  deref s (fun i => Ok (writerState i)).

Definition getBytesBuffered (s : FBC) : Z := bytesBuffered s.

(** ** The event loop *)

Inductive Event :=
| EvFeed (buffer : mbuf)
| EvFeedError (e : Z)
| EvReinitialize
| EvDeinitialize
| EvConsumed (sz : Z) (end_ : bool)
| EvDoneDelaying
| EvFileCreated (result errcode : Z)
| EvWritten (result errcode : Z)
| EvRead (result errcode : Z).

(** The state a constructor leaves. *)
Definition init : FBC :=
  {| channel := {| state := IDLE; generation := 0; log := [] |};
     mode := IN_MEMORY_MODE; readerState := RS_INACTIVE; nbuffers := 0;
     errcode := 0; bytesBuffered := 0; firstBuffer := []; moreBuffers := [];
     inFileMode := None; flushed := [] |}.

(** One event.  The completion of a request that is no longer the reader's
    or the writer's current one was cancelled, and its callback returns
    without touching the object.  A completed [eio_write] has put the first
    [result] bytes of its data into the file before its callback runs. *)
Definition step (ev : Event) (s : FBC) : Res FBC :=
  match ev with
  | EvFeed buffer => feed buffer s
  | EvFeedError e => feedError e s
  | EvReinitialize => Ok (reinitialize s)
  | EvDeinitialize => deinitialize s
  | EvConsumed sz end_ => consumed sz end_ s
  | EvDoneDelaying =>
      match inFileMode s with
      | Some i =>
          match writerRequest i with
          | Some FileCreationDelay => bufferFileDoneDelaying s
          | _ => Ok s
          end
      | None => Ok s
      end
  | EvFileCreated result errcode =>
      match inFileMode s with
      | Some i =>
          match writerRequest i with
          | Some FileCreationOpen => bufferFileCreated result errcode s
          | _ => Ok s
          end
      | None => Ok s
      end
  | EvWritten result errcode =>
      match inFileMode s with
      | Some i =>
          match writerRequest i with
          | Some (Move moveContext data off) =>
              let f := if result =? -1 then file i
                       else write_at (file i) off
                              (firstn (Z.to_nat result) data) in
              bufferWrittenToFile moveContext result errcode
                (set_inFileMode (Some (set_file f i)) s)
          | _ => Ok s
          end
      | None => Ok s
      end
  | EvRead result errcode =>
      match inFileMode s with
      | Some i =>
          match readRequest i with
          | Some readContext =>
              nextChunkDoneReading
                (read_at (file i) (rc_offset readContext) (rc_size readContext))
                result errcode s
          | None => Ok s
          end
      | None => Ok s
      end
  end.

(** What the callers and the I/O engine can do: [feed] within the limits
    [pushBuffer] asserts, error codes other than 0, [consumed] while a data
    callback is outstanding, a completion for the request in flight, with a
    result of -1 or a byte count the request allows ([pread] returns 0 only
    at the end of the file). *)
Definition enabled (ev : Event) (s : FBC) : bool :=
  match ev with
  | EvFeed buffer =>
      ended s
      || ((bytesBuffered s + size buffer <=? MAX_MEMORY_BUFFERING)
          && (nbuffers s <? MAX_BUFFERS))
  | EvFeedError e => negb (e =? 0)
  | EvReinitialize | EvDeinitialize => true
  | EvConsumed _ _ =>
      match state (channel s) with CALLING => true | _ => false end
  | EvDoneDelaying =>
      match inFileMode s with
      | Some i =>
          match writerRequest i with
          | Some FileCreationDelay => true
          | _ => false
          end
      | None => false
      end
  | EvFileCreated result errcode =>
      match inFileMode s with
      | Some i =>
          match writerRequest i with
          | Some FileCreationOpen =>
              if result =? -1 then negb (errcode =? 0) else 0 <=? result
          | _ => false
          end
      | None => false
      end
  | EvWritten result errcode =>
      match inFileMode s with
      | Some i =>
          match writerRequest i with
          | Some (Move _ data _) =>
              if result =? -1 then negb (errcode =? 0)
              else (0 <=? result) && (result <=? size data)
          | _ => false
          end
      | None => false
      end
  | EvRead result errcode =>
      match inFileMode s with
      | Some i =>
          match readRequest i with
          | Some rc =>
              if result =? -1 then negb (errcode =? 0)
              else
                let avail := size (read_at (file i) (rc_offset rc) (rc_size rc)) in
                (0 <=? result) && (result <=? avail)
                && ((0 <? result) || (avail =? 0))
          | None => false
          end
      | None => false
      end
  end.

Inductive reachable : FBC -> Prop :=
| reachable_init : reachable init
| reachable_step (s s' : FBC) (ev : Event) :
    reachable s -> enabled ev s = true -> step ev s = Ok s' -> reachable s'.

(** Running a list of events. *)
Fixpoint run (evs : list Event) (s : FBC) : Res FBC :=
  match evs with
  | [] => Ok s
  | ev :: evs' => s' <- step ev s ;; run evs' s'
  end.

(** Every event of the list is enabled when its turn comes. *)
Fixpoint enabled_all (evs : list Event) (s : FBC) : bool :=
  match evs with
  | [] => true
  | ev :: evs' =>
      enabled ev s
      && match step ev s with
         | Ok s' => enabled_all evs' s'
         | _ => true
         end
  end.

(** ** Invariants *)

(** The invariants [verifyInvariants] asserts on every path. *)
Record global_invariants (s : FBC) : Prop := {
  gi_errcode : errcode s = 0 <-> mode_ge_ERROR (mode s) = false;
  gi_inFileMode : inFileMode s <> None <-> mode s = IN_FILE_MODE;
  gi_error : mode_ge_ERROR (mode s) = true ->
             readerState s = RS_TERMINATED /\ inFileMode s = None
}.

(** Only the last buffer of the queue can be the empty sentinel. *)
Fixpoint sentinel_last (q : list mbuf) : Prop :=
  match q with
  | [] => True
  | b :: q' => (q' = [] \/ b <> []) /\ sentinel_last q'
  end.

(** [w] bytes are exactly the first few buffers of the queue. *)
Definition aligned (w : Z) (q : list mbuf) : Prop :=
  exists k : nat, (k <= length q)%nat /\ total_size (firstn k q) = w.

(** The counters describe the queue and respect the limits. *)
Record queue_ok (s : FBC) : Prop := {
  q_count : nbuffers s = Z.of_nat (length (queue s));
  q_more : nbuffers s = 0 -> moreBuffers s = [];
  q_bytes : bytesBuffered s = total_size (queue s);
  q_max_buffers : nbuffers s <= MAX_BUFFERS;
  q_max_bytes : bytesBuffered s <= MAX_MEMORY_BUFFERING
}.

(** The read request exists iff the reader is reading from the file, and
    asks for no more than is unread at the read cursor. *)
Definition reader_ok (s : FBC) (i : InFileMode) : Prop :=
  match readRequest i with
  | Some rc =>
      readerState s = RS_READING_FROM_FILE
      /\ rc_size rc <= written i /\ 0 < written i
      /\ rc_offset rc = readOffset i
  | None => readerState s <> RS_READING_FROM_FILE
  end.

(** The writer request exists iff the writer is creating the file or
    moving; a move is of the front buffer of the queue, written at the
    write cursor [readOffset + written]. *)
Definition writer_ok (s : FBC) (i : InFileMode) : Prop :=
  match writerState i, writerRequest i with
  | WS_INACTIVE, None | WS_TERMINATED, None => True
  | WS_CREATING_FILE, Some FileCreationDelay
  | WS_CREATING_FILE, Some FileCreationOpen => True
  | WS_MOVING, Some (Move mc data off) =>
      0 < nbuffers s /\ mc_buffer mc = firstBuffer s
      /\ 0 <= mc_written mc < size (mc_buffer mc)
      /\ data = skipn (Z.to_nat (mc_written mc)) (mc_buffer mc)
      /\ off = readOffset i + written i
  | _, _ => False
  end.

Record Inv (s : FBC) : Prop := {
  inv_queue : queue_ok s;
  inv_sentinel : sentinel_last (queue s);
  inv_global : global_invariants s;
  inv_reading : readerState s = RS_READING_FROM_FILE -> mode s = IN_FILE_MODE;
  inv_reader : forall i, inFileMode s = Some i -> reader_ok s i;
  inv_writer : forall i, inFileMode s = Some i -> writer_ok s i;
  inv_aligned : forall i, inFileMode s = Some i -> written i <= 0 ->
                aligned (- written i) (queue s)
}.

(** ** The served buffer, in the words of the specification *)

(** Walk the queue counting sizes until the cumulative size equals the
    target; that buffer, or an earlier one if it is empty, is the one
    served. *)
Fixpoint walk_queue (target cumulative : Z) (q : list mbuf) : option mbuf :=
  match q with
  | [] => None
  | b :: q' =>
      if (cumulative =? target) || empty b then Some b
      else walk_queue target (cumulative + size b) q'
  end.

Definition served_result (o : option mbuf) : mbuf * bool :=
  match o with
  | Some b => (b, true)
  | None => ([], false)
  end.

(** What the consumer sees when the buffer is fed to the underlying
    channel. *)
Definition delivery (b : mbuf) : Delivery :=
  if empty b then Eof else Data b.

(** The state a pass of the reader ends in. *)
Definition pass_state (p : Pass) : option FBC :=
  match p with
  | Return (Ok s) => Some s
  | Return _ => None
  | GotoBegin s => Some s
  end.

(** The reader, in state [sm], finds no buffer to serve with
    [written <= 0] and everything queued already delivered, and switches
    back to in-memory mode, which leaves [s']. *)
Definition reader_switch (sm s' : FBC) : Prop :=
  exists im s2,
    mode sm = IN_FILE_MODE /\ inFileMode sm = Some im /\ written im <= 0
    /\ findBufferForReadProcessing sm = Ok ([], false)
    /\ - written im = total_size (queue sm)
    /\ switchToInMemoryMode (set_readerState RS_INACTIVE sm) = Ok s2
    /\ s' = callDataFlushedCallback s2.

(** ** The byte stream *)

(** The bytes the consumer has been handed, in order. *)
Fixpoint delivered (l : list Delivery) : list byte :=
  match l with
  | [] => []
  | Data b :: l' => b ++ delivered l'
  | _ :: l' => delivered l'
  end.

(** The buffers a list of events feeds, in order. *)
Fixpoint fed (evs : list Event) : list mbuf :=
  match evs with
  | [] => []
  | EvFeed b :: evs' => b :: fed evs'
  | _ :: evs' => fed evs'
  end.

(** The bytes accepted and not yet handed to the consumer: the unread part
    of the file followed by the queue, or, when the reader is ahead of the
    writer, the queue without the [-written] bytes already served. *)
Definition pending (s : FBC) : list byte :=
  match inFileMode s with
  | None => concat (queue s)
  | Some i =>
      if 0 <=? written i then
        read_at (file i) (readOffset i) (written i) ++ concat (queue s)
      else skipn (Z.to_nat (- written i)) (concat (queue s))
  end.

Definition stream (s : FBC) : list byte :=
  delivered (log (channel s)) ++ pending s.

Definition is_data (d : Delivery) : bool :=
  match d with
  | Data _ => true
  | _ => false
  end.

(** An environment without faults: the consumer acknowledges without
    ending the channel, the file is created (possibly after retries on
    EEXIST), every write completes in full and no read fails; no error is
    fed and the object is not reset. *)
Definition fault_free (ev : Event) (s : FBC) : bool :=
  match ev with
  | EvFeed _ | EvDoneDelaying => true
  | EvFeedError _ | EvReinitialize | EvDeinitialize => false
  | EvConsumed _ end_ => negb end_
  | EvFileCreated result errcode =>
      negb (result =? -1) || (errcode =? EEXIST config)
  | EvWritten result _ =>
      match inFileMode s with
      | Some i =>
          match writerRequest i with
          | Some (Move _ data _) => result =? size data
          | _ => true
          end
      | None => true
      end
  | EvRead result _ => negb (result =? -1)
  end.

(** Every event of the list is enabled and free of faults when its turn
    comes. *)
Fixpoint fault_free_run (evs : list Event) (s : FBC) : bool :=
  match evs with
  | [] => true
  | ev :: evs' =>
      enabled ev s && fault_free ev s
      && match step ev s with
         | Ok s' => fault_free_run evs' s'
         | _ => true
         end
  end.

(** Everything queued has been served. *)
Definition drained (s : FBC) : Prop :=
  match inFileMode s with
  | None => total_size (queue s) = 0
  | Some i => written i <= 0 /\ - written i = total_size (queue s)
  end.

(** The reader at rest between events, and the underlying channel. *)
Definition at_rest (s : FBC) : Prop :=
  match readerState s with
  | RS_INACTIVE =>
      state (channel s) = IDLE /\ drained s /\ ~ In [] (queue s)
  | RS_WAITING_FOR_CHANNEL_IDLE => state (channel s) = CALLING
  | RS_READING_FROM_FILE => state (channel s) = IDLE
  | RS_TERMINATED =>
      state (channel s) = EOF_REACHED /\ drained s /\ In [] (queue s)
  | RS_FEEDING | RS_FEEDING_EOF => False
  end.

(** The consumer has seen data only, and then the end of the stream iff the
    reader has terminated. *)
Definition log_ok (s : FBC) : Prop :=
  exists ds, forallb is_data ds = true
    /\ log (channel s)
       = ds ++ match readerState s with
               | RS_TERMINATED => [Eof]
               | _ => []
               end.

(** The file holds everything up to the write cursor; moves start at the
    beginning of a buffer and reads ask for at least one byte. *)
Definition file_ok (s : FBC) : Prop :=
  forall i, inFileMode s = Some i ->
    0 <= readOffset i
    /\ 0 <= readOffset i + written i <= Z.of_nat (length (file i))
    /\ (forall mc data off, writerRequest i = Some (Move mc data off) ->
        mc_written mc = 0)
    /\ (forall rc, readRequest i = Some rc -> 0 < rc_size rc).

Record Good (s : FBC) : Prop := {
  good_inv : Inv s;
  good_mode : mode_ge_ERROR (mode s) = false;
  good_rest : at_rest s;
  good_log : log_ok s;
  good_file : file_ok s
}.

(** What holds each time the reader arrives at [begin:]. *)
Record LoopInv (s : FBC) : Prop := {
  li_inv : Inv s;
  li_mode : mode_ge_ERROR (mode s) = false;
  li_idle : state (channel s) = IDLE;
  li_reader : readerState s <> RS_READING_FROM_FILE
              /\ readerState s <> RS_TERMINATED;
  li_log : forallb is_data (log (channel s)) = true;
  li_file : file_ok s
}.

(** The position of the first buffer at which the cumulative size is the
    target. *)
Fixpoint served_count (target cumulative : Z) (q : list mbuf) : nat :=
  match q with
  | [] => 0
  | b :: q' =>
      if cumulative =? target then 0
      else S (served_count target (cumulative + size b) q')
  end.

(** A bound on the passes the reader still makes. *)
Definition remaining (s : FBC) : nat :=
  match inFileMode s with
  | None => length (queue s)
  | Some i => length (queue s) - served_count (- written i) 0 (queue s)
  end.

(** What a pass of the reader achieves in a fault-free run: it leaves the
    stream and the sentinel where they were, and either comes to rest or
    goes round with fewer buffers to serve. *)
Definition pass_good (s : FBC) (p : Pass) : Prop :=
  match p with
  | Return (Ok s') =>
      Good s' /\ stream s' = stream s
      /\ (In [] (queue s') <-> In [] (queue s))
  | Return _ => False
  | GotoBegin s1 =>
      LoopInv s1 /\ stream s1 = stream s
      /\ (In [] (queue s1) <-> In [] (queue s))
      /\ (remaining s1 < remaining s)%nat
  end.

(** What an event achieves in a fault-free run: the object is at rest
    again, the stream has grown by the buffer fed, and the sentinel is
    queued iff it was or has just been fed. *)
Definition step_good (ev : Event) (s s' : FBC) : Prop :=
  Good s'
  /\ stream s' = stream s ++ match ev with
                            | EvFeed b => b
                            | _ => []
                            end
  /\ (In [] (queue s') <-> In [] (queue s) \/ ev = EvFeed []).

(** ** Auxiliary predicates of the proofs *)

(** The invariant does not look at the underlying channel or at the record
    of flushed callbacks. *)
Definition same_core (s s' : FBC) : Prop :=
  mode s' = mode s /\ readerState s' = readerState s
  /\ nbuffers s' = nbuffers s /\ errcode s' = errcode s
  /\ bytesBuffered s' = bytesBuffered s /\ firstBuffer s' = firstBuffer s
  /\ moreBuffers s' = moreBuffers s /\ inFileMode s' = inFileMode s.

(** The state differs from another in the in-file record only. *)
Definition only_ifm (s s1 : FBC) : Prop := s1 = set_inFileMode (inFileMode s1) s.

(** Everything the invariant says of a state in in-file mode, the writer
    apart. *)
Record pre_file (s : FBC) (i : InFileMode) : Prop := {
  pf_queue : queue_ok s;
  pf_sentinel : sentinel_last (queue s);
  pf_mode : mode s = IN_FILE_MODE;
  pf_errcode : errcode s = 0;
  pf_ifm : inFileMode s = Some i;
  pf_reader : reader_ok s i;
  pf_aligned : written i <= 0 -> aligned (- written i) (queue s)
}.

(** What a pass of the reader leaves: the invariant, and a reader that is
    not reading from the file when the loop goes round. *)
Definition pass_Inv (p : Pass) : Prop :=
  match p with
  | Return (Ok s') => Inv s'
  | Return _ => True
  | GotoBegin s' => Inv s' /\ readerState s' <> RS_READING_FROM_FILE
  end.

(** ** The assertions and the destructor *)

(** [inFileMode != NULL] *)
Definition hasInFileMode (s : FBC) : bool :=
  match inFileMode s with
  | Some _ => true
  | None => false
  end.

(** [verifyInvariants], as compiled without NDEBUG: the result is [true]
    when every assertion passes, [false] when one fails, and the
    assertions on the reader's request dereference [inFileMode]. *)
Definition verifyInvariants (s : FBC) : Res bool :=
  if mode_ge_ERROR (mode s)
     && negb (ReaderState_eqb (readerState s) RS_TERMINATED
              && negb (hasInFileMode s))
  then Ok false
  else
    reader <- match readerState s with
              | RS_INACTIVE | RS_FEEDING | RS_FEEDING_EOF => Ok true
              | RS_WAITING_FOR_CHANNEL_IDLE =>
                  Ok (negb (mode_ge_ERROR (mode s)))
              | RS_READING_FROM_FILE =>
                  if Mode_eqb (mode s) IN_FILE_MODE then
                    deref s (fun i =>
                      Ok (match readRequest i with
                          | Some _ => true
                          | None => false
                          end && (written i >? 0)))
                  else Ok false
              | RS_TERMINATED => Ok true
              end ;;
    Ok (reader
        && Bool.eqb (errcode s =? 0) (negb (mode_ge_ERROR (mode s)))
        && Bool.eqb (hasInFileMode s) (Mode_eqb (mode s) IN_FILE_MODE)).

(** [~FileBufferedChannel] *)
Definition FileBufferedChannel_destructor (s : FBC) : Res FBC :=
  s1 <- cancelReader s ;;
  if Mode_eqb (mode s1) IN_FILE_MODE then cancelWriter s1 else Ok s1.

(** [~InFileMode]: the two assertions, and the descriptor it closes. *)
Definition InFileMode_destructor (i : InFileMode) : bool * option Z :=
  (match readRequest i, writerRequest i with
   | None, None => true
   | _, _ => false
   end,
   if fd i =? -1 then None else Some (fd i)).

(** ** Cancellation of the requests in flight

    A request in flight is an [IOContext] on the heap, to which the object
    points through [readRequest] or [writerRequest] and eio through the
    request's data.  [cancelReader] and [cancelWriter] call [cancel()] on
    the context before the object forgets it; the static completion
    callbacks test [isCanceled()] and return without calling into the
    object.  Of an [IOContext] the record below has [req], NULL or the
    eio request with the flag that [EIO_CANCELLED] reads and [eio_cancel]
    sets, and [canceled]; the accesses are taken in the order the mutex
    and the atomic give them. *)
Record IOContextFlags := {
  req : option bool;
  canceled : bool
}.

Definition IOContext_cancel (c : IOContextFlags) : IOContextFlags :=
  {| req := match req c with
            | Some _ => Some true
            | None => None
            end;
     canceled := true |}.

Definition isCanceled (c : IOContextFlags) : bool :=
  match req c with
  | Some cancelled => cancelled
  | None => false
  end || canceled c.

Definition eioFinished (c : IOContextFlags) : IOContextFlags :=
  {| req := None; canceled := canceled c |}.

(** The completion callbacks: [_nextChunkDoneReading] and the others run
    on completion of the eio request and hand over to their
    [..._onEventLoopThread], which calls the handler of the object; a
    cancelled context is deleted instead, on either level. *)
Definition nextChunkDoneReading_onEventLoopThread (c : IOContextFlags)
    (buffer : mbuf) (result errcode : Z) (s : FBC) : Res FBC :=
  if isCanceled c then Ok s
  else nextChunkDoneReading buffer result errcode s.

Definition nextChunkDoneReading_callback (c : IOContextFlags)
    (buffer : mbuf) (result errcode : Z) (s : FBC) : Res FBC :=
  let c := eioFinished c in
  if isCanceled c then Ok s
  else nextChunkDoneReading_onEventLoopThread c buffer result errcode s.

Definition bufferFileDoneDelaying_onEventLoopThread (c : IOContextFlags)
    (s : FBC) : Res FBC :=
  if isCanceled c then Ok s else bufferFileDoneDelaying s.

Definition bufferFileDoneDelaying_callback (c : IOContextFlags)
    (s : FBC) : Res FBC :=
  let c := eioFinished c in
  if isCanceled c then Ok s
  else bufferFileDoneDelaying_onEventLoopThread c s.

(** When the creation was cancelled and has succeeded, the file is
    unlinked and closed; the object is not involved. *)
Definition bufferFileCreated_onEventLoopThread (c : IOContextFlags)
    (result errcode : Z) (s : FBC) : Res FBC :=
  if isCanceled c then Ok s else bufferFileCreated result errcode s.

Definition bufferFileCreated_callback (c : IOContextFlags)
    (result errcode : Z) (s : FBC) : Res FBC :=
  let c := eioFinished c in
  if isCanceled c then Ok s
  else bufferFileCreated_onEventLoopThread c result errcode s.

Definition bufferWrittenToFile_onEventLoopThread (c : IOContextFlags)
    (moveContext : MoveContext) (result errcode : Z) (s : FBC) : Res FBC :=
  if isCanceled c then Ok s
  else bufferWrittenToFile moveContext result errcode s.

Definition bufferWrittenToFile_callback (c : IOContextFlags)
    (moveContext : MoveContext) (result errcode : Z) (s : FBC) : Res FBC :=
  let c := eioFinished c in
  if isCanceled c then Ok s
  else bufferWrittenToFile_onEventLoopThread c moveContext result errcode s.

(** A request of the object, in the record of the calls to [cancel()]. *)
Inductive Request :=
| ReadRequest (readContext : ReadContext)
| WriterRequest (writerRequest : IOContext).

(** The requests the object has in flight. *)
Definition outstanding (s : FBC) : list Request :=
  match inFileMode s with
  | None => []
  | Some i =>
      match readRequest i with
      | Some rc => [ReadRequest rc]
      | None => []
      end
      ++ match writerRequest i with
         | Some w => [WriterRequest w]
         | None => []
         end
  end.

(** [cancelReader], [cancelWriter] and [deinitialize] once more, this time
    with the requests on which they call [cancel()], in order. *)
Definition cancelReader_requests (s : FBC) : Res (FBC * list Request) :=
  match readerState s with
  | RS_FEEDING | RS_FEEDING_EOF | RS_WAITING_FOR_CHANNEL_IDLE => Ok (s, [])
  | RS_READING_FROM_FILE =>
      deref s (fun i =>
        match readRequest i with
        | None => Crash
        | Some rc =>
            Ok (set_inFileMode (Some (set_readRequest None i)) s,
                [ReadRequest rc])
        end)
  | RS_INACTIVE | RS_TERMINATED => Ok (s, [])
  end.

Definition cancelWriter_requests (s : FBC) : Res (FBC * list Request) :=
  deref s (fun i =>
    match writerState i with
    | WS_INACTIVE =>
        Ok (set_inFileMode (Some (set_writerState WS_INACTIVE i)) s, [])
    | WS_CREATING_FILE | WS_MOVING =>
        match writerRequest i with
        | None => Crash
        | Some w =>
            Ok (set_inFileMode
                  (Some (set_writerState WS_INACTIVE
                           (set_writerRequest None i))) s,
                [WriterRequest w])
        end
    | WS_TERMINATED => Ok (s, [])
    end).

Definition deinitialize_requests (s : FBC) : Res (FBC * list Request) :=
  r1 <- cancelReader_requests s ;;
  r2 <- (if Mode_eqb (mode (fst r1)) IN_FILE_MODE
         then cancelWriter_requests (fst r1) else Ok (fst r1, [])) ;;
  let s3 := clearBuffers (fst r2) in
  let s4 := set_errcode 0
              (set_readerState RS_INACTIVE (set_mode IN_MEMORY_MODE s3)) in
  let s5 := match inFileMode s4 with
            | Some _ => set_inFileMode None s4
            | None => s4
            end in
  Ok (set_channel (Channel_deinitialize (channel s5)) s5, snd r1 ++ snd r2).

(** ** What the reader leaves alone *)

(** The fields of the in-file record that belong to the writer. *)
Definition same_writer (i i' : InFileMode) : Prop :=
  fd i' = fd i /\ writerState i' = writerState i
  /\ writerRequest i' = writerRequest i /\ file i' = file i.

(** The buffer queue and its counters. *)
Definition same_queue (s s' : FBC) : Prop :=
  nbuffers s' = nbuffers s /\ bytesBuffered s' = bytesBuffered s
  /\ firstBuffer s' = firstBuffer s /\ moreBuffers s' = moreBuffers s.

(** What a run of the reader does to the rest of the object.  In in-memory
    mode it stays in in-memory mode.  In in-file mode it leaves the queue
    and the writer's fields alone and moves the read cursor forward over
    the write cursor [readOffset + written], which stays; or it has found
    nothing to serve and has switched back to in-memory mode. *)
Definition reader_frame (s s' : FBC) : Prop :=
  errcode s' = errcode s
  /\ generation (channel s') = generation (channel s)
  /\ (In [] (queue s) -> In [] (queue s'))
  /\ match inFileMode s with
     | None => inFileMode s' = None /\ mode s' = mode s
     | Some i =>
         (inFileMode s' = None /\ mode s' = IN_MEMORY_MODE
          /\ autoTruncateFile config = true /\ nbuffers s' = 0
          /\ ~ In [] (queue s))
         \/ (exists i', inFileMode s' = Some i' /\ same_writer i i'
               /\ readOffset i <= readOffset i'
               /\ readOffset i' + written i' = readOffset i + written i
               /\ same_queue s s' /\ mode s' = mode s)
     end.

(** The reader's loop always comes back to [begin:] with an idle channel
    and fewer buffers to serve, and a pass that returns leaves the reader
    reading from the file only with the channel still idle. *)
Definition pass_returns (s : FBC) (p : Pass) : Prop :=
  match p with
  | Return (Ok s') =>
      readerState s' = RS_READING_FROM_FILE -> state (channel s') = IDLE
  | Return _ => False
  | GotoBegin s' =>
      state (channel s') = IDLE /\ mode_ge_ERROR (mode s') = false
      /\ (remaining s' < remaining s)%nat
  end.

(** ** Invariants of the file descriptor and of the writer states *)

(** The descriptor is -1 exactly while the file is being created, nothing
    has been written by then, and the read cursor is never negative. *)
Definition fd_ok (i : InFileMode) : Prop :=
  (writerState i = WS_CREATING_FILE <-> fd i = -1)
  /\ -1 <= fd i
  /\ (fd i = -1 -> readOffset i + written i = 0)
  /\ 0 <= readOffset i
  /\ 0 <= readOffset i + written i.

(** The invariants the comments on [WriterState] give, and what
    WS_TERMINATED means for the queue. *)
Definition writer_state_ok (s : FBC) (i : InFileMode) : Prop :=
  match writerState i with
  | WS_INACTIVE => autoStartMover config = true -> nbuffers s = 0
  | WS_CREATING_FILE => passedThreshold s = true
  | WS_MOVING => 0 < nbuffers s /\ peekBuffer s <> []
  | WS_TERMINATED => queue s = [[]]
  end.

(** The two completions whose handlers do not return: a failed creation
    of the file with an error other than EEXIST, and a failed read. *)
Definition io_failure (ev : Event) : bool :=
  match ev with
  | EvFileCreated result errcode =>
      (result =? -1) && negb (errcode =? EEXIST config)
  | EvRead result _ => result =? -1
  | _ => false
  end.

(** The underlying channel is idle while the reader reads from the file,
    and the in-file record satisfies the two invariants above. *)
Record Inv2 (s : FBC) : Prop := {
  inv2_reading : readerState s = RS_READING_FROM_FILE ->
                 state (channel s) = IDLE;
  inv2_fd : forall i, inFileMode s = Some i -> fd_ok i;
  inv2_writer : forall i, inFileMode s = Some i -> writer_state_ok s i
}.

(** ** The switch back to in-memory mode, tied to the run *)

(** The states in which the reader, started in [s], arrives at [begin:]. *)
Inductive reader_reaches : FBC -> FBC -> Prop :=
| reaches_start (s : FBC) : reader_reaches s s
| reaches_round (s s1 sm : FBC) :
    readNext_pass s = GotoBegin s1 -> reader_reaches s1 sm ->
    reader_reaches s sm.

(** The reader, started in [s0], has gone round, serving buffers from
    memory, to a state [sm] with the queue of [s0] in which every byte
    pending in [s0] had been handed to the consumer; there it has found
    nothing left to serve and, [autoTruncateFile] being on, has switched
    back to in-memory mode and returned, which left [s']. *)
Definition switched_from (s0 s' : FBC) : Prop :=
  autoTruncateFile config = true
  /\ exists sm, reader_reaches s0 sm /\ readNext_pass sm = Return (Ok s')
       /\ Inv sm /\ reader_switch sm s'
       /\ queue sm = queue s0
       /\ delivered (log (channel sm)) = stream s0.

(** The same for the handler of the event [ev], called in [s]: it has
    started the reader in a state [s0] with the queue of [s] and the
    buffer fed, if any, in which the bytes handed over and pending were
    those of [s] and those fed. *)
Definition switched_by (ev : Event) (s s' : FBC) : Prop :=
  exists s0,
    readNext s0 = Ok s'
    /\ queue s0 = queue s ++ fed [ev]
    /\ stream s0 = stream s ++ concat (fed [ev])
    /\ switched_from s0 s'.

(** ** Runs with errors *)

(** An environment whose only faults are errors: besides the events free
    of faults, an error is fed or a write to the file fails. *)
Definition error_only (ev : Event) (s : FBC) : bool :=
  fault_free ev s
  || match ev with
     | EvFeedError _ => true
     | EvWritten result _ => result =? -1
     | _ => false
     end.

(** Every event of the list is enabled and at worst an error when its
    turn comes. *)
Fixpoint error_only_run (evs : list Event) (s : FBC) : bool :=
  match evs with
  | [] => true
  | ev :: evs' =>
      enabled ev s && error_only ev s
      && match step ev s with
         | Ok s' => error_only_run evs' s'
         | _ => true
         end
  end.

(** The bytes [F] fed so far begin with the bytes handed to the consumer:
    with no error set they go on with the bytes pending, and all of them
    are accounted for unless the sentinel is queued. *)
Definition prefix_state (s : FBC) (F : list byte) : Prop :=
  (Good s
   /\ exists rest, F = stream s ++ rest /\ (In [] (queue s) \/ rest = []))
  \/ (mode_ge_ERROR (mode s) = true
      /\ exists rest, F = delivered (log (channel s)) ++ rest).

(** Since a state in an error mode with the log [l] and the error code
    [e], the consumer has been handed nothing more, or the error alone,
    which ended the underlying channel. *)
Definition after_error (l : list Delivery) (e : Z) (s : FBC) : Prop :=
  mode_ge_ERROR (mode s) = true /\ errcode s = e
  /\ (log (channel s) = l
      \/ (log (channel s) = l ++ [Err e]
          /\ state (channel s) = EOF_REACHED)).

(** * Verification *)

(** ** Tactics *)

Ltac inv H := inversion H; subst; try clear H.

(** Case analysis on the scrutinees of the matches in a hypothesis. *)
Ltac split_match H :=
  repeat match type of H with
  | context [match ?x with _ => _ end] =>
      let E := fresh "E" in destruct x eqn:E; try discriminate H
  end.

Ltac bool_hyps :=
  repeat match goal with
  | H : _ && _ = true |- _ => apply andb_true_iff in H; destruct H
  | H : _ || _ = false |- _ => apply orb_false_iff in H; destruct H
  | H : negb _ = true |- _ => apply negb_true_iff in H
  | H : negb _ = false |- _ => apply negb_false_iff in H
  | H : (_ =? _) = true |- _ => apply Z.eqb_eq in H
  | H : (_ =? _) = false |- _ => apply Z.eqb_neq in H
  | H : (_ <=? _) = true |- _ => apply Z.leb_le in H
  | H : (_ <=? _) = false |- _ => apply Z.leb_gt in H
  | H : (_ <? _) = true |- _ => apply Z.ltb_lt in H
  | H : (_ <? _) = false |- _ => apply Z.ltb_ge in H
  | H : (_ >? _) = true |- _ => rewrite Z.gtb_ltb in H
  | H : (_ >? _) = false |- _ => rewrite Z.gtb_ltb in H
  | H : (_ >=? _) = true |- _ => rewrite Z.geb_leb in H
  | H : (_ >=? _) = false |- _ => rewrite Z.geb_leb in H
  end.

(** ** Sizes and the queue *)

Lemma size_nonneg (b : mbuf) : 0 <= size b.
Proof. unfold size. lia. Qed.

Lemma size_zero_iff (b : mbuf) : size b = 0 <-> b = [].
Proof.
  unfold size. destruct b; simpl; split; intros; try reflexivity;
    try discriminate; lia.
Qed.

Lemma empty_true_iff (b : mbuf) : empty b = true <-> b = [].
Proof. destruct b; simpl; split; intros; congruence. Qed.

Lemma empty_false_iff (b : mbuf) : empty b = false <-> b <> [].
Proof. destruct b; simpl; split; intros; congruence. Qed.

Lemma size_app (a b : mbuf) : size (a ++ b) = size a + size b.
Proof. unfold size. rewrite length_app. lia. Qed.

Lemma total_size_nonneg (q : list mbuf) : 0 <= total_size q.
Proof.
  induction q as [|b q IH]; simpl; [lia|].
  pose proof (size_nonneg b). lia.
Qed.

Lemma total_size_app (q r : list mbuf) :
  total_size (q ++ r) = total_size q + total_size r.
Proof. induction q as [|b q IH]; simpl; lia. Qed.

Lemma total_size_concat (q : list mbuf) : size (concat q) = total_size q.
Proof.
  induction q as [|b q IH]; simpl; [reflexivity|].
  rewrite size_app. lia.
Qed.

Lemma total_size_firstn_le (k : nat) (q : list mbuf) :
  total_size (firstn k q) <= total_size q.
Proof.
  revert k. induction q as [|b q IH]; intros [|k]; simpl; try lia.
  - pose proof (size_nonneg b). pose proof (total_size_nonneg q). lia.
  - specialize (IH k). lia.
Qed.

Lemma uint32_small (x : Z) : 0 <= x <= MAX_MEMORY_BUFFERING -> uint32 x = x.
Proof. unfold uint32, MAX_MEMORY_BUFFERING. intros. apply Z.mod_small. lia. Qed.

Lemma uint27_small (x : Z) : 0 <= x <= MAX_BUFFERS -> uint27 x = x.
Proof. unfold uint27, MAX_BUFFERS. intros. apply Z.mod_small. lia. Qed.

Lemma int32_inj_small (x y : Z) :
  0 <= x <= MAX_MEMORY_BUFFERING -> 0 <= y <= MAX_MEMORY_BUFFERING ->
  int32 x = int32 y -> x = y.
Proof.
  unfold int32, MAX_MEMORY_BUFFERING. intros Hx Hy H.
  assert (E : (x + 2 ^ 31) mod 2 ^ 32 = (y + 2 ^ 31) mod 2 ^ 32) by lia.
  clear H.
  destruct (Z_lt_ge_dec x (2 ^ 31)); destruct (Z_lt_ge_dec y (2 ^ 31)).
  - rewrite !Z.mod_small in E by lia. lia.
  - rewrite (Z.mod_small (x + 2 ^ 31)) in E by lia.
    replace (y + 2 ^ 31) with ((y - 2 ^ 31) + 1 * 2 ^ 32) in E by lia.
    rewrite Z.mod_add, Z.mod_small in E by lia. lia.
  - rewrite (Z.mod_small (y + 2 ^ 31)) in E by lia.
    replace (x + 2 ^ 31) with ((x - 2 ^ 31) + 1 * 2 ^ 32) in E by lia.
    rewrite Z.mod_add, Z.mod_small in E by lia. lia.
  - replace (y + 2 ^ 31) with ((y - 2 ^ 31) + 1 * 2 ^ 32) in E by lia.
    replace (x + 2 ^ 31) with ((x - 2 ^ 31) + 1 * 2 ^ 32) in E by lia.
    rewrite !Z.mod_add, !Z.mod_small in E by lia. lia.
Qed.

Lemma int32_add_int32 (x y : Z) : int32 (int32 x + y) = int32 (x + y).
Proof.
  unfold int32. f_equal.
  replace ((x + 2 ^ 31) mod 2 ^ 32 - 2 ^ 31 + y + 2 ^ 31)
    with ((x + 2 ^ 31) mod 2 ^ 32 + y) by lia.
  rewrite Zplus_mod_idemp_l. f_equal. lia.
Qed.

Lemma int32_zero : int32 0 = 0.
Proof. reflexivity. Qed.

Lemma sentinel_last_app (q : list mbuf) (b : mbuf) :
  sentinel_last q -> (q = [] \/ last q [] <> []) ->
  sentinel_last (q ++ [b]).
Proof.
  induction q as [|a q IH]; simpl; intros Hs Hl.
  - split; [left; reflexivity | exact I].
  - destruct Hs as [Ha Hq]. destruct Hl as [Hl|Hl]; [discriminate|].
    destruct q as [|a' q'].
    + simpl in *. split; [right; exact Hl|]. split; [left; reflexivity | exact I].
    + split.
      * right. destruct Ha as [Ha|Ha]; [discriminate | exact Ha].
      * apply IH; [exact Hq | right; exact Hl].
Qed.

Lemma sentinel_last_empty_in (q : list mbuf) :
  sentinel_last q -> In [] q -> last q [] = [].
Proof.
  induction q as [|a q IH]; simpl; intros Hs Hin; [reflexivity|].
  destruct Hs as [Ha Hq]. destruct q as [|a' q'].
  - destruct Hin as [Hin|[]]. exact Hin.
  - destruct Hin as [Hin|Hin].
    + destruct Ha as [Ha|Ha]; [discriminate | congruence].
    + apply IH; assumption.
Qed.

Lemma queue_nonempty (s : FBC) :
  nbuffers s <> 0 -> queue s = firstBuffer s :: moreBuffers s.
Proof.
  intros H. unfold queue. destruct (nbuffers s =? 0) eqn:E; [|reflexivity].
  apply Z.eqb_eq in E. contradiction.
Qed.

Lemma queue_empty (s : FBC) : nbuffers s = 0 -> queue s = [].
Proof. intros H. unfold queue. rewrite H. reflexivity. Qed.

Lemma queue_ok_nbuffers_nonneg (s : FBC) : queue_ok s -> 0 <= nbuffers s.
Proof. intros [H _ _ _ _]. rewrite H. lia. Qed.

Lemma queue_ok_count_more (s : FBC) :
  queue_ok s -> nbuffers s <> 0 ->
  nbuffers s = 1 + Z.of_nat (length (moreBuffers s)).
Proof.
  intros [H _ _ _ _] Hn. rewrite (queue_nonempty s Hn) in H.
  simpl length in H. lia.
Qed.

Lemma peekLastBuffer_last (s : FBC) :
  queue_ok s -> nbuffers s <> 0 -> peekLastBuffer s = last (queue s) [].
Proof.
  intros Hq Hn. pose proof (queue_ok_count_more s Hq Hn) as Hc.
  rewrite (queue_nonempty s Hn). unfold peekLastBuffer.
  destruct (moreBuffers s) as [|b more] eqn:Em.
  - simpl in Hc. replace (nbuffers s <=? 1) with true
      by (symmetry; apply Z.leb_le; lia). reflexivity.
  - replace (nbuffers s <=? 1) with false
      by (symmetry; apply Z.leb_gt; simpl length in Hc; lia).
    reflexivity.
Qed.

(** [ended] is false: the queue does not end in the sentinel. *)
Lemma not_ended_queue (s : FBC) :
  queue_ok s -> ended s = false ->
  queue s = [] \/ last (queue s) [] <> [].
Proof.
  intros Hq He. unfold ended in He. bool_hyps.
  destruct (Z.eq_dec (nbuffers s) 0) as [Hn|Hn].
  - left. apply queue_empty. exact Hn.
  - right. rewrite <- (peekLastBuffer_last s Hq Hn).
    pose proof (queue_ok_nbuffers_nonneg s Hq).
    unfold hasBuffers in H. apply andb_false_iff in H.
    destruct H as [H|H].
    + rewrite Z.gtb_ltb in H. apply Z.ltb_ge in H. lia.
    + apply empty_false_iff. exact H.
Qed.

Lemma queue_pushBuffer (buffer : mbuf) (s : FBC) :
  queue_ok s -> nbuffers s < MAX_BUFFERS ->
  queue (pushBuffer buffer s) = queue s ++ [buffer].
Proof.
  intros Hq Hlim. pose proof (queue_ok_nbuffers_nonneg s Hq) as Hn.
  unfold queue at 1. unfold pushBuffer. simpl.
  rewrite uint27_small by lia.
  replace (nbuffers s + 1 =? 0) with false by (symmetry; apply Z.eqb_neq; lia).
  destruct (nbuffers s =? 0) eqn:E.
  - apply Z.eqb_eq in E. rewrite (queue_empty s E).
    rewrite (q_more s Hq E). reflexivity.
  - apply Z.eqb_neq in E. rewrite (queue_nonempty s E). reflexivity.
Qed.

Lemma queue_ok_pushBuffer (buffer : mbuf) (s : FBC) :
  queue_ok s -> nbuffers s < MAX_BUFFERS ->
  bytesBuffered s + size buffer <= MAX_MEMORY_BUFFERING ->
  queue_ok (pushBuffer buffer s).
Proof.
  intros Hq Hlim Hbytes.
  pose proof (queue_ok_nbuffers_nonneg s Hq) as Hn.
  pose proof (queue_pushBuffer buffer s Hq Hlim) as Hpush.
  pose proof (size_nonneg buffer) as Hsz.
  pose proof (total_size_nonneg (queue s)) as Htot.
  destruct Hq as [Hc Hm Hb Hmb Hmm].
  assert (En : nbuffers (pushBuffer buffer s) = nbuffers s + 1).
  { unfold pushBuffer. simpl. apply uint27_small. lia. }
  assert (Eb : bytesBuffered (pushBuffer buffer s)
               = bytesBuffered s + size buffer).
  { unfold pushBuffer. simpl. apply uint32_small. lia. }
  constructor.
  - rewrite Hpush, En, length_app. simpl. lia.
  - rewrite En. lia.
  - rewrite Hpush, Eb, total_size_app. simpl. lia.
  - rewrite En. lia.
  - rewrite Eb. lia.
Qed.

Lemma queue_popBuffer (s : FBC) :
  queue_ok s -> nbuffers s <> 0 -> queue (popBuffer s) = tl (queue s).
Proof.
  intros Hq Hn. pose proof (queue_ok_count_more s Hq Hn) as Hc.
  pose proof (q_max_buffers s Hq) as Hmax.
  rewrite (queue_nonempty s Hn). simpl tl.
  unfold queue, popBuffer.
  destruct (moreBuffers s) as [|b more] eqn:Em; simpl length in Hc.
  - simpl. replace (nbuffers s) with 1 by lia. reflexivity.
  - rewrite Nat2Z.inj_succ in Hc. simpl.
    rewrite uint27_small by lia.
    replace (nbuffers s - 1 =? 0) with false
      by (symmetry; apply Z.eqb_neq; lia).
    reflexivity.
Qed.

Lemma queue_ok_popBuffer (s : FBC) :
  queue_ok s -> nbuffers s <> 0 -> queue_ok (popBuffer s).
Proof.
  intros Hq Hn. pose proof (queue_ok_count_more s Hq Hn) as Hc.
  pose proof (queue_popBuffer s Hq Hn) as Hpop.
  pose proof (queue_ok_nbuffers_nonneg s Hq) as Hnn.
  destruct Hq as [Hcount Hm Hb Hmb Hmm].
  rewrite (queue_nonempty s Hn) in *. simpl tl in Hpop.
  simpl total_size in Hb.
  pose proof (size_nonneg (firstBuffer s)) as Hsz.
  pose proof (total_size_nonneg (moreBuffers s)) as Htot.
  assert (En : nbuffers (popBuffer s) = nbuffers s - 1).
  { unfold popBuffer. destruct (moreBuffers s); simpl;
      apply uint27_small; lia. }
  assert (Eb : bytesBuffered (popBuffer s)
               = bytesBuffered s - size (firstBuffer s)).
  { unfold popBuffer. destruct (moreBuffers s); simpl;
      apply uint32_small; lia. }
  constructor.
  - rewrite Hpop, En. lia.
  - intros H0. unfold popBuffer. destruct (moreBuffers s) eqn:Em;
      simpl; [reflexivity|]. rewrite En in H0. simpl length in Hc. lia.
  - rewrite Hpop, Eb. lia.
  - rewrite En. lia.
  - rewrite Eb. lia.
Qed.

(** What [popBuffer] and [pushBuffer] leave alone. *)
Lemma popBuffer_fields (s : FBC) :
  channel (popBuffer s) = channel s /\ mode (popBuffer s) = mode s
  /\ readerState (popBuffer s) = readerState s
  /\ errcode (popBuffer s) = errcode s
  /\ inFileMode (popBuffer s) = inFileMode s.
Proof. unfold popBuffer. destruct (moreBuffers s); simpl; auto. Qed.

Lemma pushBuffer_fields (buffer : mbuf) (s : FBC) :
  channel (pushBuffer buffer s) = channel s
  /\ mode (pushBuffer buffer s) = mode s
  /\ readerState (pushBuffer buffer s) = readerState s
  /\ errcode (pushBuffer buffer s) = errcode s
  /\ inFileMode (pushBuffer buffer s) = inFileMode s
  /\ flushed (pushBuffer buffer s) = flushed s.
Proof. unfold pushBuffer. simpl. auto 10. Qed.

(** ** The invariant is kept *)

Lemma same_core_queue (s s' : FBC) : same_core s s' -> queue s' = queue s.
Proof.
  intros (_ & _ & Hn & _ & _ & Hf & Hm & _). unfold queue.
  rewrite Hn, Hf, Hm. reflexivity.
Qed.

Lemma Inv_core (s s' : FBC) : same_core s s' -> Inv s -> Inv s'.
Proof.
  intros Hc HI. pose proof (same_core_queue s s' Hc) as Hq.
  destruct Hc as (Hmode & Hr & Hn & He & Hb & Hf & Hm & Hi).
  destruct HI as [[Q1 Q2 Q3 Q4 Q5] HS [G1 G2 G3] HR Hrd Hwr Hal].
  constructor.
  - constructor; rewrite ?Hq, ?Hn, ?Hb, ?Hm; assumption.
  - rewrite Hq. exact HS.
  - constructor; rewrite ?Hmode, ?He, ?Hi, ?Hr; assumption.
  - rewrite Hr, Hmode. exact HR.
  - intros i Ei. rewrite Hi in Ei. specialize (Hrd i Ei).
    unfold reader_ok in *. rewrite Hr. exact Hrd.
  - intros i Ei. rewrite Hi in Ei. specialize (Hwr i Ei).
    unfold writer_ok in *. rewrite Hn, Hf. exact Hwr.
  - intros i Ei. rewrite Hi in Ei. rewrite Hq. apply Hal. exact Ei.
Qed.

Lemma Inv_init : Inv init.
Proof.
  constructor.
  - constructor; simpl; unfold MAX_BUFFERS, MAX_MEMORY_BUFFERING;
      try reflexivity; try lia.
  - exact I.
  - constructor; simpl.
    + split; reflexivity.
    + split; [intros H; contradiction H; reflexivity | discriminate].
    + discriminate.
  - discriminate.
  - discriminate.
  - discriminate.
  - discriminate.
Qed.

Lemma Inv_set_channel (c : Channel) (s : FBC) : Inv s -> Inv (set_channel c s).
Proof. apply Inv_core. unfold same_core. simpl. auto 10. Qed.

Lemma Inv_add_flushed (f : FlushEvent) (s : FBC) : Inv s -> Inv (add_flushed f s).
Proof. apply Inv_core. unfold same_core. simpl. auto 10. Qed.

Lemma Inv_feedChannel (b : mbuf) (s : FBC) : Inv s -> Inv (feedChannel b s).
Proof. apply Inv_set_channel. Qed.

(** The reader moves between states other than reading from the file while
    no read request is outstanding. *)
Lemma Inv_set_readerState (r : ReaderState) (s : FBC) :
  Inv s -> mode_ge_ERROR (mode s) = false ->
  r <> RS_READING_FROM_FILE ->
  readerState s <> RS_READING_FROM_FILE ->
  Inv (set_readerState r s).
Proof.
  intros [HQ HS [G1 G2 G3] HR Hrd Hwr Hal] Hm Hr Hs.
  constructor; simpl; try assumption.
  - destruct HQ. constructor; assumption.
  - constructor; simpl; try assumption. intros H. congruence.
  - intros H. contradiction.
  - intros i Ei. specialize (Hrd i Ei). unfold reader_ok in *. simpl.
    destruct (readRequest i); [destruct Hrd; contradiction | exact Hr].
Qed.

(** ** Finding the buffer to serve *)

Lemma find_in_moreBuffers_walk (q : list mbuf) (t c : Z) :
  0 <= t <= MAX_MEMORY_BUFFERING -> 0 <= c ->
  c + total_size q <= MAX_MEMORY_BUFFERING ->
  find_in_moreBuffers (int32 t) (int32 c) q = served_result (walk_queue t c q).
Proof.
  revert c. induction q as [|b q IH]; intros c Ht Hc Hsum; simpl;
    [reflexivity|].
  simpl in Hsum. pose proof (size_nonneg b) as Hb.
  pose proof (total_size_nonneg q) as Hq.
  assert (E : (int32 c =? int32 t) = (c =? t)).
  { destruct (c =? t) eqn:Ect.
    - apply Z.eqb_eq in Ect. subst. apply Z.eqb_refl.
    - apply Z.eqb_neq. intros H. apply Z.eqb_neq in Ect. apply Ect.
      apply int32_inj_small; [lia | lia | exact H]. }
  rewrite E. destruct ((c =? t) || empty b); [reflexivity|].
  rewrite int32_add_int32. apply IH; lia.
Qed.

Lemma walk_queue_cons (t c : Z) (b : mbuf) (q : list mbuf) :
  walk_queue t c (b :: q)
  = if (c =? t) || empty b then Some b else walk_queue t (c + size b) q.
Proof. reflexivity. Qed.

Lemma walk_none (q : list mbuf) (t c : Z) :
  walk_queue t c q = None ->
  (exists k : nat, (k <= length q)%nat /\ c + total_size (firstn k q) = t) ->
  t = c + total_size q /\ ~ In [] q.
Proof.
  revert c. induction q as [|b q IH]; intros c Hw [k [Hk Ht]]; simpl in *.
  - destruct k; simpl in Ht; [|lia]. split; [lia | intros []].
  - destruct ((c =? t) || empty b) eqn:E; [discriminate|]. bool_hyps.
    destruct k as [|k]; simpl in Ht; [lia|].
    destruct (IH (c + size b) Hw) as [IH1 IH2].
    { exists k. split; [lia | lia]. }
    split; [lia|]. intros [Hin|Hin]; [|contradiction].
    subst b. discriminate.
Qed.

Lemma walk_some_nonempty (q : list mbuf) (t c : Z) (b : mbuf) :
  walk_queue t c q = Some b -> b <> [] ->
  exists q1 q2, q = q1 ++ b :: q2 /\ c + total_size q1 = t.
Proof.
  revert c. induction q as [|a q IH]; intros c Hw Hb; simpl in *;
    [discriminate|].
  destruct ((c =? t) || empty a) eqn:E.
  - inv Hw. apply orb_true_iff in E. destruct E as [E|E].
    + apply Z.eqb_eq in E. exists [], q. simpl. split; [reflexivity | lia].
    + apply empty_true_iff in E. contradiction.
  - destruct (IH _ Hw Hb) as (q1 & q2 & Hq & Hs).
    exists (a :: q1), q2. simpl. subst q. split; [reflexivity | lia].
Qed.

Lemma walk_some_empty (q : list mbuf) (t c : Z) :
  walk_queue t c q = Some [] -> sentinel_last q ->
  (exists k : nat, (k <= length q)%nat /\ c + total_size (firstn k q) = t) ->
  t = c + total_size q.
Proof.
  revert c. induction q as [|a q IH]; intros c Hw Hs [k [Hk Ht]]; simpl in *;
    [discriminate|].
  destruct Hs as [Ha Hs].
  destruct ((c =? t) || empty a) eqn:E.
  - inv Hw. destruct Ha as [Ha|Ha]; [|contradiction Ha; reflexivity].
    subst q. destruct k as [|[|k]]; simpl in *; lia.
  - bool_hyps. destruct k as [|k]; simpl in Ht; [lia|].
    rewrite (IH (c + size a) Hw Hs); [lia|].
    exists k. split; lia.
Qed.

Lemma walk_finds_sentinel (q : list mbuf) (t c : Z) :
  In [] q -> exists b, walk_queue t c q = Some b.
Proof.
  revert c. induction q as [|a q IH]; intros c Hin; simpl in *; [contradiction|].
  destruct ((c =? t) || empty a) eqn:E; [eexists; reflexivity|].
  destruct Hin as [Hin|Hin]; [|apply IH; exact Hin].
  subst a. simpl in E. rewrite orb_true_r in E. discriminate.
Qed.

Lemma aligned_bounds (w : Z) (q : list mbuf) :
  aligned w q -> 0 <= w <= total_size q.
Proof.
  intros [k [Hk Hw]]. subst w. split.
  - apply total_size_nonneg.
  - apply total_size_firstn_le.
Qed.

(** Under the invariant the code's search is the walk of the
    specification. *)
Lemma findBufferForReadProcessing_walk (s : FBC) (i : InFileMode) :
  Inv s -> inFileMode s = Some i -> written i <= 0 ->
  findBufferForReadProcessing s
  = Ok (served_result (walk_queue (- written i) 0 (queue s))).
Proof.
  intros HI Ei Hw. unfold findBufferForReadProcessing, deref.
  destruct (nbuffers s =? 0) eqn:En.
  - apply Z.eqb_eq in En. rewrite (queue_empty s En). reflexivity.
  - apply Z.eqb_neq in En. rewrite Ei.
    pose proof (inv_aligned s HI i Ei Hw) as Hal.
    pose proof (aligned_bounds _ _ Hal) as Hb.
    pose proof (inv_sentinel s HI) as Hs.
    pose proof (q_bytes s (inv_queue s HI)) as Hbytes.
    pose proof (q_max_bytes s (inv_queue s HI)) as Hmax.
    rewrite (queue_nonempty s En) in *. simpl in Hb, Hs, Hbytes.
    rewrite walk_queue_cons.
    pose proof (size_nonneg (firstBuffer s)) as Hf.
    pose proof (total_size_nonneg (moreBuffers s)) as Hm.
    destruct (0 =? - written i) eqn:E0.
    + apply Z.eqb_eq in E0. rewrite <- E0. rewrite int32_zero. reflexivity.
    + apply Z.eqb_neq in E0.
      assert (E1 : (0 =? int32 (- written i)) = false).
      { apply Z.eqb_neq. intros H. apply E0.
        apply int32_inj_small; unfold MAX_MEMORY_BUFFERING in *;
          [lia | lia | rewrite int32_zero; exact H]. }
      rewrite E1.
      destruct (empty (firstBuffer s)) eqn:Ee.
      * exfalso. apply empty_true_iff in Ee. destruct Hs as [[Hs|Hs] _].
        -- rewrite Hs in Hb. rewrite Ee in Hb. simpl in Hb.
           unfold size in Hb. simpl in Hb. lia.
        -- contradiction.
      * cbn [orb]. rewrite <- (find_in_moreBuffers_walk (moreBuffers s));
          [reflexivity | lia | lia | lia].
Qed.

(** ** Cancellation, errors and resets *)

Lemma only_ifm_refl (s : FBC) : only_ifm s s.
Proof. unfold only_ifm. destruct s; reflexivity. Qed.

Lemma only_ifm_set (o : option InFileMode) (s : FBC) :
  only_ifm s (set_inFileMode o s).
Proof. unfold only_ifm. reflexivity. Qed.

Lemma only_ifm_trans (s s1 s2 : FBC) :
  only_ifm s s1 -> only_ifm s1 s2 -> only_ifm s s2.
Proof. unfold only_ifm. intros H1 H2. rewrite H2. rewrite H1. reflexivity. Qed.

Lemma cancelReader_only_ifm (s s1 : FBC) :
  cancelReader s = Ok s1 -> only_ifm s s1.
Proof.
  unfold cancelReader, deref. intros H.
  destruct (readerState s); try (inv H; apply only_ifm_refl).
  destruct (inFileMode s) as [i|]; [|discriminate].
  destruct (readRequest i); inv H. apply only_ifm_set.
Qed.

Lemma cancelWriter_only_ifm (s s1 : FBC) :
  cancelWriter s = Ok s1 -> only_ifm s s1.
Proof.
  unfold cancelWriter, deref. intros H.
  destruct (inFileMode s) as [i|]; [|discriminate].
  destruct (writerState i); try (inv H; apply only_ifm_set);
    try (inv H; apply only_ifm_refl);
    destruct (writerRequest i); inv H; apply only_ifm_set.
Qed.

(** Under the invariant the requests to cancel exist. *)
Lemma cancelReader_returns (s : FBC) :
  Inv s -> exists s1, cancelReader s = Ok s1.
Proof.
  intros HI. unfold cancelReader, deref.
  destruct (readerState s) eqn:Er; try (eexists; reflexivity).
  pose proof (inv_reading s HI Er) as Hm.
  pose proof (inv_global s HI) as [_ G2 _].
  destruct (inFileMode s) as [i|] eqn:Ei.
  - pose proof (inv_reader s HI i Ei) as Hr. unfold reader_ok in Hr.
    destruct (readRequest i); [eexists; reflexivity | contradiction].
  - apply G2 in Hm. contradiction.
Qed.

Lemma cancelWriter_returns (s : FBC) :
  Inv s -> mode s = IN_FILE_MODE -> exists s1, cancelWriter s = Ok s1.
Proof.
  intros HI Hm. unfold cancelWriter, deref.
  pose proof (inv_global s HI) as [_ G2 _].
  destruct (inFileMode s) as [i|] eqn:Ei.
  - pose proof (inv_writer s HI i Ei) as Hw. unfold writer_ok in Hw.
    destruct (writerState i); try (eexists; reflexivity);
      destruct (writerRequest i); try contradiction; eexists; reflexivity.
  - apply G2 in Hm. contradiction.
Qed.

Lemma cancelWriter_Inv (s s1 : FBC) :
  Inv s -> cancelWriter s = Ok s1 -> Inv s1.
Proof.
  intros HI H. unfold cancelWriter, deref in H.
  destruct (inFileMode s) as [i|] eqn:Ei; [|discriminate].
  pose proof (inv_writer s HI i Ei) as Hw.
  pose proof (inv_reader s HI i Ei) as Hr.
  pose proof (inv_aligned s HI i Ei) as Ha.
  destruct HI as [HQ HS [G1 G2 G3] HR Hrd Hwr Hal].
  assert (K : forall i1, readRequest i1 = readRequest i ->
                readOffset i1 = readOffset i -> written i1 = written i ->
                writerState i1 = WS_INACTIVE -> writerRequest i1 = None ->
                Inv (set_inFileMode (Some i1) s)).
  { intros i1 K1 K2 K3 K4 K5. constructor; simpl; try assumption.
    - destruct HQ. constructor; assumption.
    - constructor; simpl; try assumption.
      + split; [intros _; apply G2; congruence | discriminate].
      + intros Hm. destruct (G3 Hm) as [_ Hn]. congruence.
    - intros i2 E2. inv E2. unfold reader_ok in *. simpl.
      rewrite K1, K2, K3. exact Hr.
    - intros i2 E2. inv E2. unfold writer_ok. rewrite K4, K5. exact I.
    - intros i2 E2. inv E2. rewrite K3. exact Ha. }
  destruct (writerState i) eqn:Ew.
  - inv H. unfold writer_ok in Hw. rewrite Ew in Hw.
    destruct (writerRequest i) eqn:Eq; [contradiction|].
    apply K; simpl; auto.
  - destruct (writerRequest i); inv H. apply K; reflexivity.
  - destruct (writerRequest i); inv H. apply K; reflexivity.
  - inv H. constructor; try assumption. constructor; assumption.
Qed.

(** After an error is set the object is in an error mode, with the error
    code stored, the reader terminated and the in-file record dropped. *)
Lemma setError_Inv (e : Z) (s s' : FBC) :
  Inv s -> e <> 0 -> setError e s = Ok s' -> Inv s'.
Proof.
  intros HI He H. unfold setError in H.
  destruct (mode_ge_ERROR (mode s)) eqn:Em; [inv H; exact HI|].
  unfold bind in H.
  destruct (cancelReader s) as [s1| |] eqn:E1; try discriminate.
  pose proof (cancelReader_only_ifm _ _ E1) as O1.
  destruct (if Mode_eqb (mode s1) IN_FILE_MODE then cancelWriter s1 else Ok s1)
    as [s2| |] eqn:E2; try discriminate.
  assert (O2 : only_ifm s s2).
  { destruct (Mode_eqb (mode s1) IN_FILE_MODE).
    - eapply only_ifm_trans; [exact O1|]. eapply cancelWriter_only_ifm; eassumption.
    - inv E2. exact O1. }
  unfold only_ifm in O2. rewrite O2 in H. simpl in H.
  destruct HI as [HQ HS [G1 G2 G3] HR Hrd Hwr Hal].
  assert (K : forall m c, mode_ge_ERROR m = true ->
      Inv {| channel := c; mode := m; readerState := RS_TERMINATED;
             nbuffers := nbuffers s; errcode := e;
             bytesBuffered := bytesBuffered s; firstBuffer := firstBuffer s;
             moreBuffers := moreBuffers s; inFileMode := None;
             flushed := flushed s |}).
  { intros m c Hm. constructor; simpl; try assumption; try discriminate.
    - destruct HQ. constructor; assumption.
    - constructor; simpl.
      + split; intros; congruence.
      + split; [intros K; contradiction K; reflexivity |
                intros K; rewrite K in Hm; discriminate].
      + intros _. split; reflexivity. }
  destruct (acceptingInput (channel s)); inv H; apply K; reflexivity.
Qed.

Lemma setError_returns (e : Z) (s : FBC) :
  Inv s -> exists s', setError e s = Ok s'.
Proof.
  intros HI. unfold setError.
  destruct (mode_ge_ERROR (mode s)) eqn:Em; [eexists; reflexivity|].
  destruct (cancelReader_returns s HI) as [s1 E1]. rewrite E1. simpl.
  pose proof (cancelReader_only_ifm _ _ E1) as O1.
  assert (exists s2, (if Mode_eqb (mode s1) IN_FILE_MODE
                      then cancelWriter s1 else Ok s1) = Ok s2) as [s2 E2].
  { destruct (Mode_eqb (mode s1) IN_FILE_MODE) eqn:Em1; [|eexists; reflexivity].
    unfold cancelWriter, deref.
    unfold cancelReader, deref in E1.
    destruct (readerState s) eqn:Er;
      try (inv E1; destruct (cancelWriter_returns s1 HI) as [s2 E2];
           [destruct (mode s1); try discriminate; reflexivity |
            exists s2; exact E2]).
    destruct (inFileMode s) as [i|] eqn:Ei; [|discriminate].
    pose proof (inv_writer s HI i Ei) as Hw. unfold writer_ok in Hw.
    destruct (readRequest i); inv E1. simpl.
    destruct (writerState i); try (eexists; reflexivity);
      destruct (writerRequest i); try contradiction; eexists; reflexivity. }
  rewrite E2. simpl.
  destruct (acceptingInput _); eexists; reflexivity.
Qed.

(** The invariant, mode by mode. *)
Lemma Inv_in_memory (s : FBC) :
  queue_ok s -> sentinel_last (queue s) ->
  mode s = IN_MEMORY_MODE -> errcode s = 0 -> inFileMode s = None ->
  readerState s <> RS_READING_FROM_FILE ->
  Inv s.
Proof.
  intros HQ HS Hm He Hi Hr. constructor; try assumption.
  - constructor; rewrite ?Hm, ?Hi; simpl.
    + split; intros; [reflexivity | assumption].
    + split; [intros K; contradiction K; reflexivity | discriminate].
    + discriminate.
  - intros K. contradiction.
  - intros i Ei. congruence.
  - intros i Ei. congruence.
  - intros i Ei. congruence.
Qed.

Lemma Inv_in_file (s : FBC) (i : InFileMode) :
  queue_ok s -> sentinel_last (queue s) ->
  mode s = IN_FILE_MODE -> errcode s = 0 -> inFileMode s = Some i ->
  reader_ok s i -> writer_ok s i ->
  (written i <= 0 -> aligned (- written i) (queue s)) ->
  Inv s.
Proof.
  intros HQ HS Hm He Hi Hr Hw Ha. constructor; try assumption.
  - constructor; rewrite ?Hm, ?Hi; simpl.
    + split; intros; [reflexivity | assumption].
    + split; [reflexivity | discriminate].
    + discriminate.
  - intros _. exact Hm.
  - intros i1 Ei. assert (i1 = i) by congruence. subst. exact Hr.
  - intros i1 Ei. assert (i1 = i) by congruence. subst. exact Hw.
  - intros i1 Ei. assert (i1 = i) by congruence. subst. exact Ha.
Qed.

Lemma Inv_errcode_zero (s : FBC) :
  Inv s -> mode_ge_ERROR (mode s) = false -> errcode s = 0.
Proof. intros HI Hm. apply (gi_errcode s (inv_global s HI)). exact Hm. Qed.

Lemma Inv_ifm_some (s : FBC) :
  Inv s -> mode s = IN_FILE_MODE -> exists i, inFileMode s = Some i.
Proof.
  intros HI Hm. apply (gi_inFileMode s (inv_global s HI)) in Hm.
  destruct (inFileMode s) as [i|]; [exists i; reflexivity | contradiction].
Qed.

Lemma Inv_ifm_none (s : FBC) :
  Inv s -> mode s <> IN_FILE_MODE -> inFileMode s = None.
Proof.
  intros HI Hm. destruct (inFileMode s) as [i|] eqn:Ei; [|reflexivity].
  exfalso. apply Hm. apply (gi_inFileMode s (inv_global s HI)).
  rewrite Ei. discriminate.
Qed.

Lemma Inv_ifm_mode (s : FBC) (i : InFileMode) :
  Inv s -> inFileMode s = Some i -> mode s = IN_FILE_MODE.
Proof.
  intros HI Ei. apply (gi_inFileMode s (inv_global s HI)).
  rewrite Ei. discriminate.
Qed.

(** [deinitialize] returns, from every state of the invariant, and leaves
    the state of a fresh object with the generation bumped. *)
Lemma deinitialize_returns (s : FBC) :
  Inv s ->
  exists s', deinitialize s = Ok s'
    /\ mode s' = IN_MEMORY_MODE /\ readerState s' = RS_INACTIVE
    /\ errcode s' = 0 /\ nbuffers s' = 0 /\ bytesBuffered s' = 0
    /\ firstBuffer s' = [] /\ moreBuffers s' = []
    /\ inFileMode s' = None
    /\ generation (channel s') = uint32 (generation (channel s) + 1).
Proof.
  intros HI. unfold deinitialize.
  destruct (cancelReader_returns s HI) as [s1 E1]. rewrite E1. simpl.
  pose proof (cancelReader_only_ifm _ _ E1) as O1.
  assert (exists s2, (if Mode_eqb (mode s1) IN_FILE_MODE
                      then cancelWriter s1 else Ok s1) = Ok s2
                     /\ only_ifm s s2) as [s2 [E2 O2]].
  { destruct (Mode_eqb (mode s1) IN_FILE_MODE) eqn:Em1;
      [|exists s1; split; [reflexivity | exact O1]].
    assert (Hm : mode s = IN_FILE_MODE).
    { rewrite O1 in Em1. simpl in Em1.
      destruct (mode s); try discriminate; reflexivity. }
    destruct (Inv_ifm_some s HI Hm) as [i Ei].
    pose proof (inv_writer s HI i Ei) as Hw. unfold writer_ok in Hw.
    assert (exists i1, inFileMode s1 = Some i1
              /\ writerState i1 = writerState i
              /\ writerRequest i1 = writerRequest i) as (i1 & Ei1 & W1 & W2).
    { unfold cancelReader, deref in E1. rewrite Ei in E1.
      destruct (readerState s); try solve [inv E1; exists i; auto].
      destruct (readRequest i); inv E1. simpl. eexists. split; [reflexivity|].
      simpl. auto. }
    unfold cancelWriter, deref. rewrite Ei1, W1, W2.
    destruct (writerState i); destruct (writerRequest i); try contradiction;
      eexists; (split; [reflexivity|]);
      try (eapply only_ifm_trans; [exact O1 | apply only_ifm_set]);
      exact O1. }
  rewrite E2. simpl. unfold only_ifm in O2. rewrite O2. simpl.
  destruct (inFileMode s2); eexists; (split; [reflexivity|]); simpl; auto 10.
Qed.

Lemma deinitialize_Inv (s s' : FBC) :
  Inv s -> deinitialize s = Ok s' -> Inv s'.
Proof.
  intros HI H. destruct (deinitialize_returns s HI)
    as (s1 & E & Hm & Hr & He & Hn & Hb & Hf & Hmo & Hi & _).
  rewrite E in H. inv H.
  assert (Hq : queue s' = []) by (apply queue_empty; exact Hn).
  apply Inv_in_memory; try assumption.
  - constructor; rewrite ?Hq, ?Hn, ?Hb; simpl;
      unfold MAX_BUFFERS, MAX_MEMORY_BUFFERING; try reflexivity; try lia.
    intros _. exact Hmo.
  - rewrite Hq. exact I.
  - rewrite Hr. discriminate.
Qed.

Lemma reinitialize_Inv (s : FBC) : Inv s -> Inv (reinitialize s).
Proof. apply Inv_set_channel. Qed.

(** ** Alignment of the read cursor with the queue *)

Lemma aligned_zero (q : list mbuf) : aligned 0 q.
Proof. exists 0%nat. split; [lia | reflexivity]. Qed.

Lemma aligned_push (w : Z) (q : list mbuf) (b : mbuf) :
  aligned w q -> aligned w (q ++ [b]).
Proof.
  intros [k [Hk Hw]]. exists k. split.
  - rewrite length_app. lia.
  - rewrite firstn_app. replace (k - length q)%nat with 0%nat by lia.
    simpl. rewrite app_nil_r. exact Hw.
Qed.

Lemma aligned_pop (w : Z) (b : mbuf) (q : list mbuf) :
  aligned w (b :: q) -> w <> 0 -> aligned (w - size b) q.
Proof.
  intros [k [Hk Hw]] H0. destruct k as [|k]; simpl in *; [lia|].
  exists k. split; lia.
Qed.

Lemma aligned_serve (w : Z) (q q1 q2 : list mbuf) (b : mbuf) :
  q = q1 ++ b :: q2 -> total_size q1 = w -> aligned (w + size b) q.
Proof.
  intros Hq Hw. exists (S (length q1)). subst q. split.
  - rewrite length_app. simpl. lia.
  - replace (q1 ++ b :: q2) with ((q1 ++ [b]) ++ q2)
      by (rewrite <- app_assoc; reflexivity).
    assert (Hl : length (q1 ++ [b]) = S (length q1))
      by (rewrite length_app; simpl; lia).
    rewrite firstn_app, Hl, Nat.sub_diag.
    rewrite firstn_all2 by lia.
    simpl. rewrite app_nil_r, total_size_app. simpl. lia.
Qed.

Lemma sentinel_last_tl (q : list mbuf) : sentinel_last q -> sentinel_last (tl q).
Proof. destruct q; simpl; [auto | intros [_ H]; exact H]. Qed.

(** ** The writer *)

Lemma Inv_pre_file (s : FBC) (i : InFileMode) :
  Inv s -> inFileMode s = Some i -> pre_file s i.
Proof.
  intros HI Ei. pose proof (Inv_ifm_mode s i HI Ei) as Hm. constructor.
  - apply inv_queue. exact HI.
  - apply inv_sentinel. exact HI.
  - exact Hm.
  - apply Inv_errcode_zero; [exact HI | rewrite Hm; reflexivity].
  - exact Ei.
  - apply inv_reader; assumption.
  - apply inv_aligned; assumption.
Qed.

Lemma pre_file_Inv (s : FBC) (i : InFileMode) :
  pre_file s i -> writer_ok s i -> Inv s.
Proof. intros [] Hw. eapply Inv_in_file; eassumption. Qed.

(** Changing the writer's fields keeps the rest. *)
Lemma pre_file_writer (s : FBC) (i i1 : InFileMode) :
  pre_file s i ->
  readRequest i1 = readRequest i -> readOffset i1 = readOffset i ->
  written i1 = written i ->
  pre_file (set_inFileMode (Some i1) s) i1.
Proof.
  intros [HQ HS Hm He Hi Hr Ha] K1 K2 K3. constructor; simpl; try assumption.
  - destruct HQ. constructor; assumption.
  - reflexivity.
  - unfold reader_ok in *. simpl. rewrite K1, K2, K3. exact Hr.
  - rewrite K3. exact Ha.
Qed.

Lemma createBufferFile_Inv (s s' : FBC) (i : InFileMode) :
  pre_file s i -> createBufferFile s = Ok s' -> Inv s'.
Proof.
  intros HP H. unfold createBufferFile, deref in H.
  rewrite (pf_ifm s i HP) in H. inv H.
  eapply pre_file_Inv.
  - eapply pre_file_writer; [exact HP | reflexivity ..].
  - unfold writer_ok. simpl.
    destruct (delayInFileModeSwitching config =? 0); exact I.
Qed.

Lemma moveNextBufferToFile_Inv (s s' : FBC) (i : InFileMode) :
  pre_file s i -> writerRequest i = None ->
  moveNextBufferToFile s = Ok s' -> Inv s'.
Proof.
  intros HP Hreq H. unfold moveNextBufferToFile, deref in H.
  rewrite (pf_ifm s i HP) in H.
  pose proof (queue_ok_nbuffers_nonneg s (pf_queue s i HP)) as Hn.
  destruct (nbuffers s =? 0) eqn:En.
  - inv H. eapply pre_file_Inv.
    + eapply pre_file_writer; [exact HP | reflexivity ..].
    + unfold writer_ok. simpl. rewrite Hreq. exact I.
  - apply Z.eqb_neq in En. destruct (empty (peekBuffer s)) eqn:Ee.
    + inv H. eapply pre_file_Inv.
      * eapply pre_file_writer; [exact HP | reflexivity ..].
      * unfold writer_ok. simpl. rewrite Hreq. exact I.
    + inv H. eapply pre_file_Inv.
      * eapply pre_file_writer; [exact HP | reflexivity ..].
      * unfold writer_ok. simpl. unfold peekBuffer in *.
        apply empty_false_iff in Ee.
        assert (size (firstBuffer s) <> 0)
          by (intros K; apply size_zero_iff in K; contradiction).
        pose proof (size_nonneg (firstBuffer s)).
        repeat split; try lia.
Qed.

Lemma switchToInFileMode_Inv (s s' : FBC) :
  Inv s -> mode s = IN_MEMORY_MODE -> switchToInFileMode s = Ok s' -> Inv s'.
Proof.
  intros HI Hm H. unfold switchToInFileMode in H.
  eapply createBufferFile_Inv; [|exact H].
  pose proof (inv_queue s HI) as HQ. constructor; simpl.
  - destruct HQ. constructor; assumption.
  - apply (inv_sentinel s HI).
  - reflexivity.
  - apply Inv_errcode_zero; [exact HI | rewrite Hm; reflexivity].
  - reflexivity.
  - unfold reader_ok. simpl. intros K.
    pose proof (inv_reading s HI K). congruence.
  - intros _. apply aligned_zero.
Qed.

Lemma switchToInMemoryMode_Inv (s s' : FBC) :
  Inv s -> mode s = IN_FILE_MODE -> readerState s <> RS_READING_FROM_FILE ->
  switchToInMemoryMode s = Ok s' ->
  Inv s' /\ mode s' = IN_MEMORY_MODE /\ readerState s' = readerState s
  /\ channel s' = channel s.
Proof.
  intros HI Hm Hr H. unfold switchToInMemoryMode, bind in H.
  destruct (cancelWriter s) as [s1| |] eqn:E1; try discriminate.
  pose proof (cancelWriter_only_ifm _ _ E1) as O1. inv H.
  unfold only_ifm in O1. rewrite O1. simpl.
  split; [|auto]. apply Inv_in_memory; simpl; try reflexivity.
  - constructor; simpl; unfold MAX_BUFFERS, MAX_MEMORY_BUFFERING;
      try reflexivity; try lia.
  - apply Inv_errcode_zero; [exact HI | rewrite Hm; reflexivity].
  - exact Hr.
Qed.

Lemma switchToInMemoryMode_returns (s : FBC) :
  Inv s -> mode s = IN_FILE_MODE -> exists s', switchToInMemoryMode s = Ok s'.
Proof.
  intros HI Hm. unfold switchToInMemoryMode.
  destruct (cancelWriter_returns s HI Hm) as [s1 E1]. rewrite E1.
  simpl. eexists. reflexivity.
Qed.

Lemma bufferFileDoneDelaying_Inv (s s' : FBC) (i : InFileMode) :
  Inv s -> inFileMode s = Some i -> writerRequest i = Some FileCreationDelay ->
  bufferFileDoneDelaying s = Ok s' -> Inv s'.
Proof.
  intros HI Ei Hreq H. unfold bufferFileDoneDelaying, deref in H.
  rewrite Ei in H. inv H.
  pose proof (inv_writer s HI i Ei) as Hw. unfold writer_ok in Hw.
  rewrite Hreq in Hw.
  eapply pre_file_Inv.
  - eapply pre_file_writer; [apply Inv_pre_file; eassumption | reflexivity ..].
  - unfold writer_ok. simpl. destruct (writerState i); try contradiction.
    exact I.
Qed.

Arguments queue : simpl never.

Lemma queue_set_inFileMode (o : option InFileMode) (s : FBC) :
  queue (set_inFileMode o s) = queue s.
Proof. reflexivity. Qed.

Lemma queue_ok_set_inFileMode (o : option InFileMode) (s : FBC) :
  queue_ok s -> queue_ok (set_inFileMode o s).
Proof. intros []. constructor; assumption. Qed.

Lemma popBuffer_set_inFileMode (o : option InFileMode) (s : FBC) :
  popBuffer (set_inFileMode o s) = set_inFileMode o (popBuffer s).
Proof. unfold popBuffer. simpl. destruct (moreBuffers s); reflexivity. Qed.

Lemma callbackReset_false (g : Z) (s : FBC) :
  generation (channel s) = g -> mode_ge_ERROR (mode s) = false ->
  callbackReset g s = false.
Proof.
  intros Hg Hm. unfold callbackReset. rewrite Hg, Z.eqb_refl, Hm. reflexivity.
Qed.

Lemma callbackReset_true (g : Z) (s : FBC) :
  mode_ge_ERROR (mode s) = true -> callbackReset g s = true.
Proof. intros Hm. unfold callbackReset. rewrite Hm. apply orb_true_r. Qed.

Lemma generation_feed (b : mbuf) (c : Channel) :
  generation (Channel_feedWithoutRefGuard b c) = generation c.
Proof. unfold Channel_feedWithoutRefGuard. destruct (empty b); reflexivity. Qed.

(** With the writer's request gone but its state still creating or moving,
    [cancelWriter] dereferences a null request. *)
Lemma setError_crash_writer (e : Z) (s s' : FBC) (i : InFileMode) :
  inFileMode s = Some i -> mode s = IN_FILE_MODE ->
  writerRequest i = None ->
  writerState i = WS_CREATING_FILE \/ writerState i = WS_MOVING ->
  setError e s <> Ok s'.
Proof.
  intros Ei Hm Hreq Hw H. unfold setError in H. rewrite Hm in H. simpl in H.
  unfold bind in H.
  destruct (cancelReader s) as [s1| |] eqn:E1; try discriminate.
  assert (exists i1, inFileMode s1 = Some i1 /\ mode s1 = IN_FILE_MODE
            /\ writerState i1 = writerState i /\ writerRequest i1 = None)
    as (i1 & Ei1 & Hm1 & W1 & W2).
  { unfold cancelReader, deref in E1. rewrite Ei in E1.
    destruct (readerState s); try solve [inv E1; exists i; auto].
    destruct (readRequest i); inv E1. eexists. simpl. auto. }
  rewrite Hm1 in H. simpl in H. unfold cancelWriter, deref in H.
  rewrite Ei1, W1, W2 in H. destruct Hw as [Hw|Hw]; rewrite Hw in H;
    discriminate.
Qed.

(** With the read request gone but the reader still reading from the file,
    [cancelReader] dereferences a null request. *)
Lemma setError_crash_reader (e : Z) (s s' : FBC) (i : InFileMode) :
  inFileMode s = Some i -> mode s = IN_FILE_MODE ->
  readRequest i = None -> readerState s = RS_READING_FROM_FILE ->
  setError e s <> Ok s'.
Proof.
  intros Ei Hm Hreq Hr H. unfold setError in H. rewrite Hm in H. simpl in H.
  unfold cancelReader, deref in H. rewrite Hr, Ei, Hreq in H. discriminate.
Qed.

Lemma bufferFileCreated_Inv (result e : Z) (s s' : FBC) (i : InFileMode) :
  Inv s -> inFileMode s = Some i ->
  writerRequest i = Some FileCreationOpen ->
  bufferFileCreated result e s = Ok s' -> Inv s'.
Proof.
  intros HI Ei Hreq H. unfold bufferFileCreated, deref in H.
  rewrite Ei in H. simpl in H.
  pose proof (Inv_pre_file s i HI Ei) as HP.
  pose proof (inv_writer s HI i Ei) as Hw. unfold writer_ok in Hw.
  rewrite Hreq in Hw.
  destruct (negb (result =? -1)).
  - assert (HP1 : pre_file (set_inFileMode
                (Some (set_fd result (set_writerRequest None i))) s)
                (set_fd result (set_writerRequest None i)))
      by (eapply pre_file_writer; [exact HP | reflexivity ..]).
    eapply moveNextBufferToFile_Inv; [exact HP1 | reflexivity | exact H].
  - destruct (e =? EEXIST config).
    + assert (HP1 : pre_file (set_inFileMode
                (Some (set_writerState WS_INACTIVE (set_writerRequest None i))) s)
                (set_writerState WS_INACTIVE (set_writerRequest None i)))
        by (eapply pre_file_writer; [exact HP | reflexivity ..]).
      eapply createBufferFile_Inv; [exact HP1 | exact H].
    + exfalso. eapply setError_crash_writer; [| | | |exact H].
      * reflexivity.
      * exact (pf_mode s i HP).
      * reflexivity.
      * simpl. destruct (writerState i); try contradiction. left. reflexivity.
Qed.

Lemma bufferWrittenToFile_Inv (mc : MoveContext) (data : mbuf) (off : Z)
    (result e : Z) (s s' : FBC) (i : InFileMode) :
  Inv s -> inFileMode s = Some i ->
  writerRequest i = Some (Move mc data off) ->
  (result = -1 -> e <> 0) ->
  (result <> -1 -> 0 <= result <= size data) ->
  bufferWrittenToFile mc result e s = Ok s' -> Inv s'.
Proof.
  intros HI Ei Hreq He Hres H. unfold bufferWrittenToFile, deref in H.
  pose proof (Inv_pre_file s i HI Ei) as HP.
  pose proof (inv_writer s HI i Ei) as Hw. unfold writer_ok in Hw.
  rewrite Hreq in Hw.
  destruct (writerState i) eqn:Ews; try contradiction.
  destruct Hw as (Hn & Hbuf & Hmw & Hdata & Hoff).
  assert (Hn0 : nbuffers s <> 0) by lia.
  assert (Hsd : size data = size (mc_buffer mc) - mc_written mc).
  { subst data. unfold size in *. rewrite length_skipn. lia. }
  destruct (negb (result =? -1)) eqn:Er; simpl in H.
  - apply negb_true_iff in Er. apply Z.eqb_neq in Er. specialize (Hres Er).
    destruct (mc_written mc + result =? size (mc_buffer mc)) eqn:Efull.
    + (* the move is complete *)
      rewrite Ei in H. rewrite popBuffer_set_inFileMode in H.
      assert (Ecb : callbackReset (generation (channel s))
                (set_inFileMode
                   (Some (set_cursors (readOffset i)
                            (written i + size (mc_buffer mc)) i))
                   (popBuffer s)) = false).
      { apply callbackReset_false; simpl.
        - destruct (popBuffer_fields s) as [Hc _]. rewrite Hc. reflexivity.
        - destruct (popBuffer_fields s) as (_ & Hm & _). rewrite Hm.
          rewrite (pf_mode s i HP). reflexivity. }
      rewrite Ecb in H. simpl in H.
      set (i1 := set_writerRequest None
                   (set_cursors (readOffset i)
                      (written i + size (mc_buffer mc)) i)) in *.
      assert (HP1 : pre_file (set_inFileMode (Some i1) (popBuffer s)) i1);
        [|eapply moveNextBufferToFile_Inv;
          [exact HP1 | reflexivity | exact H]].
      destruct (popBuffer_fields s) as (_ & Hm & Hr & Herr & _).
      destruct HP as [HQ HS Hmode Herr0 _ Hrd Hal].
      constructor; simpl; rewrite ?queue_set_inFileMode.
      * apply queue_ok_set_inFileMode. apply queue_ok_popBuffer; assumption.
      * rewrite queue_popBuffer by assumption. apply sentinel_last_tl. exact HS.
      * rewrite Hm. exact Hmode.
      * rewrite Herr. exact Herr0.
      * reflexivity.
      * unfold reader_ok in *. simpl. rewrite Hr.
        destruct (readRequest i); [|exact Hrd].
        destruct Hrd as (R1 & R2 & R3 & R4). repeat split; try assumption; lia.
      * intros Hle. rewrite queue_popBuffer by assumption.
        rewrite (queue_nonempty s Hn0) in *. simpl tl.
        assert (Hwneg : written i < 0) by lia.
        replace (- (written i + size (mc_buffer mc)))
          with (- written i - size (firstBuffer s)) by (rewrite Hbuf; lia).
        apply aligned_pop; [apply Hal; lia | lia].
    + (* the move is incomplete *)
      apply Z.eqb_neq in Efull. rewrite Ei in H. inv H.
      eapply pre_file_Inv.
      * eapply pre_file_writer; [exact HP | reflexivity ..].
      * unfold writer_ok. simpl. rewrite Ews. simpl.
        repeat split; try assumption; try reflexivity; lia.
  - rewrite Ei in H. apply negb_false_iff in Er. apply Z.eqb_eq in Er.
    eapply setError_Inv; [| |exact H]; [|apply He; exact Er].
    eapply pre_file_Inv.
    + eapply pre_file_writer; [exact HP | reflexivity ..].
    + unfold writer_ok. simpl. exact I.
Qed.

(** ** The reader *)

(** The reader moves both cursors by the same amount. *)
Lemma writer_ok_cursors (s s1 : FBC) (i : InFileMode) (ro w : Z) :
  writer_ok s i -> nbuffers s1 = nbuffers s ->
  firstBuffer s1 = firstBuffer s ->
  ro + w = readOffset i + written i ->
  writer_ok s1 (set_cursors ro w i).
Proof.
  unfold writer_ok. simpl. intros Hw Hn Hf Hc. rewrite Hn, Hf.
  destruct (writerState i); destruct (writerRequest i) as [[| |mc d o]|];
    try exact Hw.
  destruct Hw as (W1 & W2 & W3 & W4 & W5). repeat split; try assumption; lia.
Qed.

Lemma readNextChunkFromFile_Inv (s s' : FBC) (i : InFileMode) :
  Inv s -> inFileMode s = Some i -> 0 < written i ->
  readNextChunkFromFile s = Ok s' -> Inv s'.
Proof.
  intros HI Ei Hw H. unfold readNextChunkFromFile, deref in H.
  rewrite Ei in H. inv H.
  pose proof (Inv_pre_file s i HI Ei) as [HQ HS Hm He _ Hr Ha].
  pose proof (inv_writer s HI i Ei) as Hwr.
  apply Inv_in_file with
    (i := set_readRequest
            (Some {| rc_size := Z.min (written i) (mbuf_pool_data_size config);
                     rc_offset := readOffset i |}) i);
    simpl; try assumption; try reflexivity.
  - destruct HQ. constructor; assumption.
  - unfold reader_ok. simpl. repeat split; try reflexivity; lia.
Qed.

Lemma Inv_terminateReader (s : FBC) :
  Inv s -> mode_ge_ERROR (mode s) = false ->
  readerState s <> RS_READING_FROM_FILE ->
  Inv (terminateReaderBecauseOfEOF s).
Proof.
  intros HI Hm Hr. unfold terminateReaderBecauseOfEOF, callDataFlushedCallback.
  apply Inv_add_flushed. apply Inv_set_readerState; try assumption. discriminate.
Qed.

Lemma Inv_readNextWhenChannelIdle (s : FBC) :
  Inv s -> mode_ge_ERROR (mode s) = false ->
  readerState s <> RS_READING_FROM_FILE ->
  Inv (readNextWhenChannelIdle s).
Proof.
  intros HI Hm Hr. unfold readNextWhenChannelIdle.
  apply Inv_set_readerState; try assumption. discriminate.
Qed.

Lemma afterFeeding_Inv (s : FBC) :
  Inv s -> mode_ge_ERROR (mode s) = false ->
  readerState s <> RS_READING_FROM_FILE ->
  pass_Inv (afterFeeding s).
Proof.
  intros HI Hm Hr. unfold afterFeeding.
  destruct (acceptingInput (channel s)); simpl; [auto|].
  destruct (mayAcceptInputLater (channel s)); simpl.
  - apply Inv_readNextWhenChannelIdle; assumption.
  - apply Inv_terminateReader; assumption.
Qed.

Lemma Inv_popBuffer_in_memory (s : FBC) :
  Inv s -> mode s = IN_MEMORY_MODE -> nbuffers s <> 0 -> Inv (popBuffer s).
Proof.
  intros HI Hm Hn. destruct (popBuffer_fields s) as (_ & Hmo & Hr & He & Hi).
  apply Inv_in_memory.
  - apply queue_ok_popBuffer; [apply (inv_queue s HI) | exact Hn].
  - rewrite queue_popBuffer; [|apply (inv_queue s HI) | exact Hn].
    apply sentinel_last_tl. apply (inv_sentinel s HI).
  - congruence.
  - rewrite He. apply Inv_errcode_zero; [exact HI | rewrite Hm; reflexivity].
  - rewrite Hi. apply Inv_ifm_none; [exact HI | congruence].
  - rewrite Hr. intros K. pose proof (inv_reading s HI K). congruence.
Qed.

Lemma readNext_pass_Inv (s : FBC) :
  Inv s -> readerState s <> RS_READING_FROM_FILE ->
  pass_Inv (readNext_pass s).
Proof.
  intros HI Hr. unfold readNext_pass.
  destruct (mode s) eqn:Em; simpl; try exact I.
  - (* in-memory mode *)
    destruct (negb (hasBuffers s)) eqn:Eh; simpl.
    { apply Inv_add_flushed. apply Inv_set_readerState; try assumption.
      - rewrite Em. reflexivity.
      - discriminate. }
    assert (Hn : nbuffers s <> 0).
    { unfold hasBuffers in Eh. bool_hyps. apply Z.ltb_lt in Eh. lia. }
    destruct (empty (peekBuffer s)).
    + assert (K : Inv (feedChannel (peekBuffer s)
                         (set_readerState RS_FEEDING_EOF s))).
      { apply Inv_feedChannel. apply Inv_set_readerState; try assumption.
        - rewrite Em. reflexivity.
        - discriminate. }
      destruct (callbackReset _ _); simpl; [exact K|].
      apply Inv_terminateReader; [exact K | simpl; rewrite Em; reflexivity |
                                  simpl; discriminate].
    + pose proof (Inv_popBuffer_in_memory s HI Em Hn) as K.
      destruct (popBuffer_fields s) as (_ & Hmo & Hrs & _).
      destruct (callbackReset _ (popBuffer s)); simpl; [exact K|].
      assert (K2 : Inv (feedChannel (peekBuffer s)
                          (set_readerState RS_FEEDING (popBuffer s)))).
      { apply Inv_feedChannel. apply Inv_set_readerState; try assumption.
        - rewrite Hmo, Em. reflexivity.
        - discriminate.
        - congruence. }
      destruct (callbackReset _ _); simpl; [exact K2|].
      apply afterFeeding_Inv; [exact K2 | simpl; rewrite Hmo, Em; reflexivity |
                               simpl; discriminate].
  - (* in-file mode *)
    destruct (inFileMode s) as [i|] eqn:Ei; simpl; [|exact I].
    destruct (written i >? 0) eqn:Ew; simpl.
    { destruct (readNextChunkFromFile s) as [s'| |] eqn:E; try exact I.
      eapply readNextChunkFromFile_Inv; try eassumption.
      rewrite Z.gtb_ltb in Ew. apply Z.ltb_lt in Ew. exact Ew. }
    rewrite Z.gtb_ltb in Ew. apply Z.ltb_ge in Ew.
    rewrite (findBufferForReadProcessing_walk s i HI Ei Ew).
    destruct (walk_queue (- written i) 0 (queue s)) as [b|] eqn:Ewalk;
      cbn [served_result fst snd negb].
    + destruct (empty b) eqn:Eb.
      * assert (K : Inv (feedChannel b (set_readerState RS_FEEDING_EOF s))).
        { apply Inv_feedChannel. apply Inv_set_readerState; try assumption.
          - rewrite Em. reflexivity.
          - discriminate. }
        destruct (callbackReset _ _); simpl; [exact K|].
        apply Inv_terminateReader; [exact K | simpl; rewrite Em; reflexivity |
                                    simpl; discriminate].
      * apply empty_false_iff in Eb.
        destruct (walk_some_nonempty _ _ _ _ Ewalk Eb) as (q1 & q2 & Hq & Hs).
        pose proof (Inv_pre_file s i HI Ei) as [HQ HS Hm He _ Hrd Ha].
        pose proof (inv_writer s HI i Ei) as Hwr.
        assert (K : Inv (feedChannel b (set_readerState RS_FEEDING
                      (set_inFileMode
                         (Some (set_cursors (readOffset i + size b)
                                  (written i - size b) i)) s)))).
        { apply Inv_feedChannel.
          apply Inv_in_file with
            (i := set_cursors (readOffset i + size b) (written i - size b) i);
            simpl; try assumption; try reflexivity.
          - destruct HQ. constructor; assumption.
          - unfold reader_ok in *. simpl.
            destruct (readRequest i); [destruct Hrd; contradiction|].
            discriminate.
          - apply writer_ok_cursors with (s := s);
              [exact Hwr | reflexivity | reflexivity | lia].
          - intros _. change (aligned (- (written i - size b)) (queue s)).
            replace (- (written i - size b)) with (- written i + size b) by lia.
            eapply aligned_serve; [exact Hq | lia]. }
        destruct (callbackReset _ _); simpl; [exact K|].
        apply afterFeeding_Inv; [exact K | simpl; rewrite Em; reflexivity |
                                 simpl; discriminate].
    + assert (K : Inv (set_readerState RS_INACTIVE s)).
      { apply Inv_set_readerState; try assumption.
        - rewrite Em. reflexivity.
        - discriminate. }
      destruct (autoTruncateFile config); simpl.
      * destruct (switchToInMemoryMode (set_readerState RS_INACTIVE s))
          as [s2| |] eqn:E2; simpl; try exact I.
        apply Inv_add_flushed.
        eapply switchToInMemoryMode_Inv; [exact K | exact Em | | exact E2].
        simpl. discriminate.
      * apply Inv_add_flushed. exact K.
Qed.

Lemma readNextWithoutRefGuard_Inv (fuel : nat) (s s' : FBC) :
  Inv s -> readerState s <> RS_READING_FROM_FILE ->
  readNextWithoutRefGuard fuel s = Ok s' -> Inv s'.
Proof.
  revert s. induction fuel as [|fuel IH]; intros s HI Hr H; simpl in H;
    [discriminate|].
  pose proof (readNext_pass_Inv s HI Hr) as HP.
  destruct (readNext_pass s) as [r|s1]; simpl in HP.
  - subst r. exact HP.
  - destruct HP as [H1 H2]. eapply IH; eassumption.
Qed.

Lemma readNext_Inv (s s' : FBC) :
  Inv s -> readerState s <> RS_READING_FROM_FILE ->
  readNext s = Ok s' -> Inv s'.
Proof. unfold readNext. apply readNextWithoutRefGuard_Inv. Qed.

Lemma size_firstn_le (n : nat) (b : mbuf) : size (firstn n b) <= size b.
Proof. unfold size. rewrite length_firstn. lia. Qed.

Lemma size_read_at (f : list byte) (off n : Z) :
  size (read_at f off n) <= Z.max 0 n.
Proof. unfold read_at, size. rewrite length_firstn. lia. Qed.

Lemma nextChunkDoneReading_Inv (buffer : mbuf) (result e : Z) (s s' : FBC)
    (i : InFileMode) (rc : ReadContext) :
  Inv s -> inFileMode s = Some i -> readRequest i = Some rc ->
  size buffer <= Z.max 0 (rc_size rc) ->
  nextChunkDoneReading buffer result e s = Ok s' -> Inv s'.
Proof.
  intros HI Ei Hreq Hsize H. unfold nextChunkDoneReading, deref in H.
  rewrite Ei in H. simpl in H.
  pose proof (Inv_pre_file s i HI Ei) as [HQ HS Hm He _ Hrd Ha].
  pose proof (inv_writer s HI i Ei) as Hwr.
  unfold reader_ok in Hrd. rewrite Hreq in Hrd.
  destruct Hrd as (R1 & R2 & R3 & R4).
  destruct (negb (result =? -1)).
  - set (b := firstn (Z.to_nat result) buffer) in *.
    assert (Hb : size b <= written i).
    { pose proof (size_firstn_le (Z.to_nat result) buffer). fold b in H0. lia. }
    set (i2 := set_cursors (readOffset i + size b) (written i - size b)
                 (set_readRequest None i)) in *.
    assert (K : Inv (feedChannel b (set_readerState RS_FEEDING
                                      (set_inFileMode (Some i2) s)))).
    { apply Inv_feedChannel.
      apply Inv_in_file with (i := i2); simpl; try assumption; try reflexivity.
      - destruct HQ. constructor; assumption.
      - unfold reader_ok. simpl. discriminate.
      - unfold i2. apply writer_ok_cursors with (s := s);
          [exact Hwr | reflexivity | reflexivity | simpl; lia].
      - intros K. replace (written i - size b) with 0 by lia.
        apply aligned_zero. }
    change (feedChannel b
              (set_readerState RS_FEEDING
                 (set_inFileMode (Some i2)
                    (set_inFileMode (Some (set_readRequest None i)) s))))
      with (feedChannel b (set_readerState RS_FEEDING
                             (set_inFileMode (Some i2) s))) in H.
    destruct (callbackReset _ _); [inv H; exact K|].
    destruct (acceptingInput _).
    + eapply readNext_Inv; [| |exact H].
      * apply Inv_set_readerState; [exact K | simpl; rewrite Hm; reflexivity |
                                    discriminate | simpl; discriminate].
      * simpl. discriminate.
    + destruct (mayAcceptInputLater _); inv H.
      * apply Inv_readNextWhenChannelIdle;
          [exact K | simpl; rewrite Hm; reflexivity | simpl; discriminate].
      * apply Inv_terminateReader;
          [exact K | simpl; rewrite Hm; reflexivity | simpl; discriminate].
  - exfalso. eapply setError_crash_reader; [| | | |exact H]; simpl;
      try reflexivity; assumption.
Qed.

Lemma onChannelConsumed_Inv (s s' : FBC) :
  Inv s -> onChannelConsumed s = Ok s' -> Inv s'.
Proof.
  intros HI H. unfold onChannelConsumed in H.
  destruct (ReaderState_eqb (readerState s) RS_WAITING_FOR_CHANNEL_IDLE) eqn:Er.
  - assert (Hr : readerState s = RS_WAITING_FOR_CHANNEL_IDLE)
      by (destruct (readerState s); try discriminate; reflexivity).
    assert (Hm : mode_ge_ERROR (mode s) = false).
    { destruct (mode_ge_ERROR (mode s)) eqn:Em; [|reflexivity].
      destruct (gi_error s (inv_global s HI) Em). congruence. }
    destruct (acceptingInput (channel s)).
    + eapply readNext_Inv; [exact HI | congruence | exact H].
    + inv H. apply Inv_terminateReader; [assumption | assumption | congruence].
  - destruct (Mode_eqb (mode s) ERROR_WAITING); inv H; [|exact HI].
    unfold feedErrorWhenChannelIdleOrEnded.
    destruct (isIdle (channel s)); [apply Inv_set_channel|]; exact HI.
Qed.

Lemma consumed_Inv (sz : Z) (end_ : bool) (s s' : FBC) :
  Inv s -> consumed sz end_ s = Ok s' -> Inv s'.
Proof.
  intros HI H. unfold consumed in H.
  destruct (state (channel s)); try (inv H; exact HI).
  eapply onChannelConsumed_Inv; [|exact H]. apply Inv_set_channel. exact HI.
Qed.

Lemma Inv_pushBuffer (buffer : mbuf) (s : FBC) :
  Inv s -> ended s = false ->
  bytesBuffered s + size buffer <= MAX_MEMORY_BUFFERING ->
  nbuffers s < MAX_BUFFERS ->
  Inv (pushBuffer buffer s).
Proof.
  intros HI He Hb Hn.
  pose proof (inv_queue s HI) as HQ.
  pose proof (queue_pushBuffer buffer s HQ Hn) as Hq.
  destruct (pushBuffer_fields buffer s) as (_ & Hm & Hr & Herr & Hi & _).
  destruct HI as [_ HS [G1 G2 G3] HR Hrd Hwr Hal].
  constructor.
  - apply queue_ok_pushBuffer; assumption.
  - rewrite Hq. apply sentinel_last_app; [exact HS|].
    apply not_ended_queue; assumption.
  - constructor; rewrite ?Hm, ?Herr, ?Hi, ?Hr; assumption.
  - rewrite Hr, Hm. exact HR.
  - intros i Ei. rewrite Hi in Ei. specialize (Hrd i Ei).
    unfold reader_ok in *. rewrite Hr. exact Hrd.
  - intros i Ei. rewrite Hi in Ei. specialize (Hwr i Ei).
    unfold writer_ok in *.
    destruct (writerState i); destruct (writerRequest i) as [[| |mc d o]|];
      try exact Hwr.
    destruct Hwr as (W1 & W2 & W3 & W4 & W5).
    pose proof (queue_ok_nbuffers_nonneg s HQ).
    unfold pushBuffer. simpl.
    replace (nbuffers s =? 0) with false by (symmetry; apply Z.eqb_neq; lia).
    rewrite uint27_small by lia. repeat split; try assumption; lia.
  - intros i Ei Hw. rewrite Hi in Ei. rewrite Hq. apply aligned_push.
    apply Hal; assumption.
Qed.

Lemma feedWithoutRefGuard_Inv (buffer : mbuf) (s s' : FBC) :
  Inv s -> enabled (EvFeed buffer) s = true ->
  feedWithoutRefGuard buffer s = Ok s' -> Inv s'.
Proof.
  intros HI Hen H. unfold feedWithoutRefGuard in H. simpl in Hen.
  destruct (ended s) eqn:Ee; [inv H; exact HI|].
  simpl in Hen. bool_hyps.
  pose proof (Inv_pushBuffer buffer s HI Ee H0 H1) as K.
  destruct (pushBuffer_fields buffer s) as (_ & Hm & Hr & _).
  unfold bind in H.
  match type of H with
  | match ?X with _ => _ end = _ => destruct X as [s2| |] eqn:E2; try discriminate
  end.
  assert (K2 : Inv s2 /\ readerState s2 = readerState s
               /\ mode_ge_ERROR (mode s2) = mode_ge_ERROR (mode s)).
  { destruct (Mode_eqb (mode (pushBuffer buffer s)) IN_MEMORY_MODE
              && passedThreshold (pushBuffer buffer s)) eqn:E3.
    - bool_hyps.
      assert (Hmm : mode (pushBuffer buffer s) = IN_MEMORY_MODE)
        by (destruct (mode (pushBuffer buffer s)); try discriminate; reflexivity).
      split; [eapply switchToInFileMode_Inv; eassumption|].
      unfold switchToInFileMode, createBufferFile, deref in E2. simpl in E2.
      inv E2. simpl. split; [reflexivity|].
      rewrite <- Hm, Hmm. reflexivity.
    - destruct (Mode_eqb (mode (pushBuffer buffer s)) IN_FILE_MODE) eqn:E4;
        [|inv E2; rewrite Hr, Hm; auto].
      unfold deref in E2.
      destruct (inFileMode (pushBuffer buffer s)) as [i|] eqn:Ei;
        [|discriminate].
      destruct (WriterState_eqb (writerState i) WS_INACTIVE
                && autoStartMover config) eqn:E5;
        [|inv E2; rewrite Hr, Hm; auto].
      bool_hyps.
      pose proof (inv_writer _ K i Ei) as Hw. unfold writer_ok in Hw.
      destruct (writerState i); try discriminate.
      destruct (writerRequest i) eqn:Eq; [contradiction|].
      split; [eapply moveNextBufferToFile_Inv;
              [apply Inv_pre_file; eassumption | exact Eq | exact E2]|].
      unfold moveNextBufferToFile, deref in E2. rewrite Ei in E2.
      destruct (nbuffers (pushBuffer buffer s) =? 0);
        [|destruct (empty _)]; inv E2; simpl; rewrite ?Hr, ?Hm; auto. }
  destruct K2 as (K2 & Hr2 & Hm2).
  destruct (ReaderState_eqb (readerState s2) RS_INACTIVE) eqn:E6;
    [|inv H; exact K2].
  assert (Hri : readerState s2 = RS_INACTIVE)
    by (destruct (readerState s2); try discriminate; reflexivity).
  assert (Hmf : mode_ge_ERROR (mode s2) = false).
  { rewrite Hm2. unfold ended in Ee. bool_hyps. assumption. }
  destruct (acceptingInput (channel s2)).
  - eapply readNextWithoutRefGuard_Inv; [exact K2 | congruence | exact H].
  - inv H. apply Inv_readNextWhenChannelIdle; [assumption | assumption | congruence].
Qed.

(** ** Every event keeps the invariant *)

Lemma Inv_set_file (f : list byte) (s : FBC) (i : InFileMode) :
  Inv s -> inFileMode s = Some i ->
  Inv (set_inFileMode (Some (set_file f i)) s).
Proof.
  intros HI Ei. eapply pre_file_Inv.
  - eapply pre_file_writer; [apply Inv_pre_file; eassumption | reflexivity ..].
  - pose proof (inv_writer s HI i Ei) as Hw. exact Hw.
Qed.

Lemma step_Inv (ev : Event) (s s' : FBC) :
  Inv s -> enabled ev s = true -> step ev s = Ok s' -> Inv s'.
Proof.
  intros HI Hen H. destruct ev; simpl in H.
  - eapply feedWithoutRefGuard_Inv; eassumption.
  - simpl in Hen. bool_hyps. eapply setError_Inv; eassumption.
  - inv H. apply reinitialize_Inv. exact HI.
  - eapply deinitialize_Inv; eassumption.
  - eapply consumed_Inv; eassumption.
  - destruct (inFileMode s) as [i|] eqn:Ei; [|inv H; exact HI].
    destruct (writerRequest i) as [[| |mc d o]|] eqn:Eq; try (inv H; exact HI).
    eapply bufferFileDoneDelaying_Inv; eassumption.
  - destruct (inFileMode s) as [i|] eqn:Ei; [|inv H; exact HI].
    destruct (writerRequest i) as [[| |mc d o]|] eqn:Eq; try (inv H; exact HI).
    eapply bufferFileCreated_Inv; eassumption.
  - simpl in Hen.
    destruct (inFileMode s) as [i|] eqn:Ei; [|inv H; exact HI].
    destruct (writerRequest i) as [[| |mc d o]|] eqn:Eq; try (inv H; exact HI).
    eapply bufferWrittenToFile_Inv; [| | | | |exact H].
    + apply Inv_set_file; eassumption.
    + reflexivity.
    + simpl. exact Eq.
    + intros Hr. rewrite Hr in Hen. simpl in Hen. bool_hyps. exact Hen.
    + intros Hr. apply Z.eqb_neq in Hr. rewrite Hr in Hen. bool_hyps. lia.
  - destruct (inFileMode s) as [i|] eqn:Ei; [|inv H; exact HI].
    destruct (readRequest i) as [rc|] eqn:Eq; [|inv H; exact HI].
    eapply nextChunkDoneReading_Inv; [exact HI | exact Ei | exact Eq | | exact H].
    apply size_read_at.
Qed.

Lemma reachable_Inv (s : FBC) : reachable s -> Inv s.
Proof.
  induction 1 as [|s s' ev Hr IH Hen Hs].
  - exact Inv_init.
  - eapply step_Inv; eassumption.
Qed.

Lemma run_reachable (evs : list Event) (s s' : FBC) :
  reachable s -> enabled_all evs s = true -> run evs s = Ok s' ->
  reachable s'.
Proof.
  revert s. induction evs as [|ev evs IH]; intros s Hr Hen H; simpl in *.
  - inv H. exact Hr.
  - apply andb_true_iff in Hen. destruct Hen as [He Hen].
    destruct (step ev s) as [s1| |] eqn:E; try discriminate.
    simpl in H. eapply IH; [|exact Hen | exact H].
    eapply reachable_step; eassumption.
Qed.

(** ** Two handlers that do not return

    When the creation of the file fails with an error other than EEXIST,
    [bufferFileCreated] clears [writerRequest] and calls [setError] with
    the writer still in WS_CREATING_FILE; when a read fails,
    [nextChunkDoneReading] clears [readRequest] and calls [setError] with
    the reader still in RS_READING_FROM_FILE.  In both cases the
    cancellation inside [setError] dereferences the null request. *)

Lemma setError_after_cancelReader (e : Z) (s : FBC) :
  mode s = IN_FILE_MODE ->
  (forall s1, cancelReader s = Ok s1 -> cancelWriter s1 = Crash) ->
  setError e s = Crash.
Proof.
  intros Hm Hc. unfold setError. rewrite Hm. simpl. unfold bind.
  destruct (cancelReader s) as [s1| |] eqn:E1.
  - pose proof (cancelReader_only_ifm _ _ E1) as O1.
    assert (Hm1 : mode s1 = IN_FILE_MODE) by (rewrite O1; exact Hm).
    rewrite Hm1. simpl. rewrite (Hc s1 eq_refl). reflexivity.
  - unfold cancelReader, deref in E1.
    destruct (readerState s); try discriminate.
    destruct (inFileMode s) as [i|]; [|discriminate].
    destruct (readRequest i); discriminate.
  - reflexivity.
Qed.

Lemma file_creation_failure_crashes (e : Z) (s : FBC) (i : InFileMode) :
  reachable s -> inFileMode s = Some i ->
  writerRequest i = Some FileCreationOpen -> e <> EEXIST config ->
  step (EvFileCreated (-1) e) s = Crash.
Proof.
  intros Hr Ei Hreq He. pose proof (reachable_Inv s Hr) as HI.
  pose proof (inv_writer s HI i Ei) as Hw. unfold writer_ok in Hw.
  rewrite Hreq in Hw. destruct (writerState i) eqn:Ews; try contradiction.
  simpl. rewrite Ei, Hreq. unfold bufferFileCreated, deref. rewrite Ei.
  simpl negb. cbv iota.
  replace (e =? EEXIST config) with false by (symmetry; apply Z.eqb_neq; exact He).
  apply setError_after_cancelReader.
  - simpl. eapply Inv_ifm_mode; eassumption.
  - intros s1 E1. unfold cancelReader, deref in E1. simpl in E1.
    unfold cancelWriter, deref.
    destruct (readerState s); try (inv E1; simpl; rewrite Ews; reflexivity).
    destruct (readRequest i); inv E1. simpl. rewrite Ews. reflexivity.
Qed.

Lemma read_failure_crashes (e : Z) (s : FBC) (i : InFileMode)
    (rc : ReadContext) :
  reachable s -> inFileMode s = Some i -> readRequest i = Some rc ->
  step (EvRead (-1) e) s = Crash.
Proof.
  intros Hr Ei Hreq. pose proof (reachable_Inv s Hr) as HI.
  pose proof (inv_reader s HI i Ei) as Hrd. unfold reader_ok in Hrd.
  rewrite Hreq in Hrd. destruct Hrd as (R1 & _).
  simpl. rewrite Ei, Hreq. unfold nextChunkDoneReading, deref. rewrite Ei.
  simpl negb. cbv iota.
  unfold setError. simpl.
  rewrite (Inv_ifm_mode s i HI Ei). simpl.
  unfold cancelReader, deref. simpl. rewrite R1. reflexivity.
Qed.

(** * The claims *)

(** C5 (amended). Provided the error codes passed to [feedError] and
    reported by failed I/O are not 0, and the user's callbacks do not call
    back into the object: after every public entry point and every
    completion handler that returns, that is in every reachable state, the
    global invariants hold: [errcode == 0] iff the mode is in-memory or
    in-file, the in-file record exists iff the mode is in-file, and in an
    error mode the reader is terminated and the in-file record is
    absent. *)
Theorem global_invariants_hold (s : FBC) :
  reachable s ->
  (errcode s = 0 <-> (mode s = IN_MEMORY_MODE \/ mode s = IN_FILE_MODE))
  /\ (inFileMode s <> None <-> mode s = IN_FILE_MODE)
  /\ (mode s = ERROR \/ mode s = ERROR_WAITING ->
      readerState s = RS_TERMINATED /\ inFileMode s = None).
Proof.
  intros Hr. destruct (inv_global s (reachable_Inv s Hr)) as [G1 G2 G3].
  split; [|split].
  - rewrite G1. destruct (mode s); simpl; split; intros H; auto;
      try discriminate; destruct H; discriminate.
  - exact G2.
  - intros H. apply G3. destruct H as [H|H]; rewrite H; reflexivity.
Qed.

(** C9. [getWriterState] reads the writer state through the in-file record
    without a check: in every reachable state it has a value to return
    exactly when the mode is in-file, and dereferences a null pointer in
    every other mode. *)
Theorem getWriterState_defined_iff_in_file (s : FBC) :
  reachable s ->
  (mode s = IN_FILE_MODE ->
   exists i, inFileMode s = Some i /\ getWriterState s = Ok (writerState i))
  /\ (mode s <> IN_FILE_MODE -> getWriterState s = Crash)
  /\ ((exists w, getWriterState s = Ok w) <-> mode s = IN_FILE_MODE).
Proof.
  intros Hr. pose proof (reachable_Inv s Hr) as HI.
  unfold getWriterState, deref.
  assert (A : mode s = IN_FILE_MODE ->
              exists i, inFileMode s = Some i
                        /\ match inFileMode s with
                           | Some i0 => Ok (writerState i0)
                           | None => Crash
                           end = Ok (writerState i)).
  { intros Hm. destruct (Inv_ifm_some s HI Hm) as [i Ei].
    exists i. rewrite Ei. auto. }
  assert (B : mode s <> IN_FILE_MODE ->
              match inFileMode s with
              | Some i0 => Ok (writerState i0)
              | None => Crash
              end = Crash).
  { intros Hm. rewrite (Inv_ifm_none s HI Hm). reflexivity. }
  split; [exact A | split; [exact B|]].
  split.
  - intros [w Hw]. destruct (inFileMode s) as [i|] eqn:Ei; [|discriminate].
    eapply Inv_ifm_mode; eassumption.
  - intros Hm. destruct (A Hm) as (i & _ & E). eexists. exact E.
Qed.

(** C6. In every state in which [ended()] is true, that is when the last
    buffer of the queue is the empty sentinel, or the mode is ERROR or
    ERROR_WAITING, or the underlying channel has ended, [feed(buffer)]
    returns with the object exactly as it was: the buffer is not enqueued,
    and the counters, the mode, the reader and writer states and the
    underlying channel are unchanged. *)
Theorem feed_when_ended_is_noop (buffer : mbuf) (s : FBC) :
  (0 < nbuffers s /\ peekLastBuffer s = [])
  \/ mode s = ERROR \/ mode s = ERROR_WAITING
  \/ Channel_ended (channel s) = true ->
  ended s = true /\ feed buffer s = Ok s.
Proof.
  intros H.
  assert (He : ended s = true).
  { unfold ended, hasBuffers. destruct H as [[Hn Hl]|[Hm|[Hm|Hc]]].
    - rewrite Hl. simpl. replace (nbuffers s >? 0) with true
        by (symmetry; rewrite Z.gtb_ltb; apply Z.ltb_lt; exact Hn).
      reflexivity.
    - rewrite Hm. simpl. rewrite orb_true_r. reflexivity.
    - rewrite Hm. simpl. rewrite orb_true_r. reflexivity.
    - rewrite Hc. apply orb_true_r. }
  split; [exact He|].
  unfold feed, feedWithoutRefGuard. rewrite He. reflexivity.
Qed.

(** C8. In the modes ERROR and ERROR_WAITING a further [setError(e)], and so
    [feedError(e)], returns with the object exactly as it was, whatever
    [e]: mode, error code, reader state, queue and in-file record are
    unchanged and nothing is fed to the underlying channel. *)
Theorem setError_idempotent_in_error_mode (e : Z) (s : FBC) :
  mode s = ERROR \/ mode s = ERROR_WAITING ->
  setError e s = Ok s /\ feedError e s = Ok s.
Proof.
  intros Hm. unfold feedError, setError.
  destruct Hm as [Hm|Hm]; rewrite Hm; simpl; split; reflexivity.
Qed.

(** In an error mode no handler changes the mode, [deinitialize] apart. *)
Lemma moveNextBufferToFile_mode (s s' : FBC) :
  moveNextBufferToFile s = Ok s' -> mode s' = mode s.
Proof.
  unfold moveNextBufferToFile, deref. intros H.
  split_match H; inv H; reflexivity.
Qed.

Lemma createBufferFile_mode (s s' : FBC) :
  createBufferFile s = Ok s' -> mode s' = mode s.
Proof.
  unfold createBufferFile, deref. intros H.
  split_match H; inv H; reflexivity.
Qed.

Lemma setError_in_error_mode (e : Z) (s : FBC) :
  mode_ge_ERROR (mode s) = true -> setError e s = Ok s.
Proof. intros Hm. unfold setError. rewrite Hm. reflexivity. Qed.

Arguments popBuffer : simpl never.

Lemma bufferWrittenToFile_in_error_mode (mc : MoveContext) (res err : Z)
    (s s' : FBC) :
  mode_ge_ERROR (mode s) = true ->
  bufferWrittenToFile mc res err s = Ok s' -> mode s' = mode s.
Proof.
  intros Hm H. unfold bufferWrittenToFile, deref in H.
  destruct (inFileMode s) as [i|] eqn:Ei;
    [|destruct (negb (res =? -1)); [destruct (_ =? _)|]; discriminate].
  destruct (negb (res =? -1)).
  - cbn [mc_written mc_buffer] in H.
    destruct (mc_written mc + res =? size (mc_buffer mc)).
    + rewrite popBuffer_set_inFileMode in H.
      destruct (popBuffer_fields s) as (_ & Hmo & _).
      rewrite callbackReset_true in H
        by (cbn [mode set_inFileMode]; rewrite Hmo; exact Hm).
      inv H. cbn [mode set_inFileMode]. exact Hmo.
    + inv H. reflexivity.
  - rewrite setError_in_error_mode in H by exact Hm. inv H. reflexivity.
Qed.

Lemma step_keeps_ERROR_WAITING (ev : Event) (s s' : FBC) :
  mode s = ERROR_WAITING -> ev <> EvDeinitialize ->
  step ev s = Ok s' -> mode s' = ERROR_WAITING.
Proof.
  intros Hm Hev H.
  destruct ev as [b|e| | |sz end_| |res err|res err|res err];
    simpl in H; try contradiction.
  - unfold feed, feedWithoutRefGuard, ended in H. rewrite Hm in H.
    simpl in H. rewrite orb_true_r in H. inv H. exact Hm.
  - unfold feedError in H. rewrite setError_in_error_mode in H
      by (rewrite Hm; reflexivity). inv H. exact Hm.
  - inv H. exact Hm.
  - unfold consumed in H.
    destruct (state (channel s)); try (inv H; exact Hm).
    unfold onChannelConsumed in H. simpl in H.
    destruct (ReaderState_eqb (readerState s) RS_WAITING_FOR_CHANNEL_IDLE).
    + destruct end_; simpl in H.
      * inv H. exact Hm.
      * unfold channelHasBecomeIdle, readNext in H. simpl in H.
        unfold readNext_pass in H. simpl in H. rewrite Hm in H. discriminate.
    + rewrite Hm in H. simpl in H. inv H.
      unfold feedErrorWhenChannelIdleOrEnded.
      destruct (isIdle _); simpl; exact Hm.
  - destruct (inFileMode s) as [i|] eqn:Ei; [|inv H; exact Hm].
    destruct (writerRequest i) as [[| |mc d o]|]; try (inv H; exact Hm).
    unfold bufferFileDoneDelaying, deref in H. rewrite Ei in H. inv H. exact Hm.
  - destruct (inFileMode s) as [i|] eqn:Ei; [|inv H; exact Hm].
    destruct (writerRequest i) as [[| |mc d o]|]; try (inv H; exact Hm).
    unfold bufferFileCreated, deref in H. rewrite Ei in H. simpl in H.
    destruct (negb (res =? -1)).
    + apply moveNextBufferToFile_mode in H. rewrite H. exact Hm.
    + destruct (err =? EEXIST config).
      * apply createBufferFile_mode in H. rewrite H. exact Hm.
      * rewrite setError_in_error_mode in H by (simpl; rewrite Hm; reflexivity).
        inv H. exact Hm.
  - destruct (inFileMode s) as [i|] eqn:Ei; [|inv H; exact Hm].
    destruct (writerRequest i) as [[| |mc d o]|]; try (inv H; exact Hm).
    apply bufferWrittenToFile_in_error_mode in H;
      [rewrite H; exact Hm | simpl; rewrite Hm; reflexivity].
  - destruct (inFileMode s) as [i|] eqn:Ei; [|inv H; exact Hm].
    destruct (readRequest i) as [rc|]; [|inv H; exact Hm].
    unfold nextChunkDoneReading, deref in H. rewrite Ei in H. simpl in H.
    destruct (negb (res =? -1)).
    + rewrite callbackReset_true in H by (simpl; rewrite Hm; reflexivity).
      inv H. exact Hm.
    + rewrite setError_in_error_mode in H by (simpl; rewrite Hm; reflexivity).
      inv H. exact Hm.
Qed.

(** C10. Once the mode is ERROR_WAITING it remains ERROR_WAITING through
    every sequence of entry points and completions that contains no
    [deinitialize]; in particular the consumed notification that hands the
    deferred error to the idle underlying channel feeds the error and leaves
    the mode as it is, so [getMode()] never returns ERROR. *)
Theorem error_waiting_never_becomes_error (evs : list Event) (s s' : FBC) :
  mode s = ERROR_WAITING -> ~ In EvDeinitialize evs -> run evs s = Ok s' ->
  getMode s' = ERROR_WAITING
  /\ (readerState s = RS_TERMINATED -> isIdle (channel s) = true ->
      onChannelConsumed s
      = Ok (set_channel (Channel_feedError (errcode s) (channel s)) s)
      /\ getMode (set_channel (Channel_feedError (errcode s) (channel s)) s)
         = ERROR_WAITING).
Proof.
  intros Hm Hin H. split.
  - revert s Hm H. induction evs as [|ev evs IH]; intros s Hm H; simpl in H.
    + inv H. exact Hm.
    + destruct (step ev s) as [s1| |] eqn:E; try discriminate. simpl in H.
      apply (IH (fun K => Hin (or_intror K)) s1); [|exact H].
      eapply step_keeps_ERROR_WAITING; [exact Hm | | exact E].
      intros K. apply Hin. left. rewrite K. reflexivity.
  - intros Hr Hidle. unfold onChannelConsumed, feedErrorWhenChannelIdleOrEnded.
    rewrite Hr, Hm, Hidle. simpl. split; [reflexivity | exact Hm].
Qed.

Lemma log_feed (b : mbuf) (c : Channel) :
  log (Channel_feedWithoutRefGuard b c) = log c ++ [delivery b].
Proof.
  unfold Channel_feedWithoutRefGuard, delivery. destruct (empty b); reflexivity.
Qed.

Lemma afterFeeding_state (s : FBC) :
  exists s', pass_state (afterFeeding s) = Some s' /\ channel s' = channel s.
Proof.
  unfold afterFeeding. destruct (acceptingInput _); [|destruct (mayAcceptInputLater _)];
    eexists; split; reflexivity.
Qed.

(** C3. In in-file mode with [written <= 0] and a non-empty queue, the
    search of the reader is the walk of the specification: it accumulates
    sizes until the cumulative size equals [-written] and returns that
    buffer, or an earlier one that is empty; a sentinel in the queue, the
    first buffer included, is found rather than reported as a drained
    queue; and the reader feeds the buffer found to the underlying
    channel. *)
Theorem reader_serves_walk_target (s : FBC) (i : InFileMode) :
  reachable s -> mode s = IN_FILE_MODE -> inFileMode s = Some i ->
  written i <= 0 -> 0 < nbuffers s ->
  findBufferForReadProcessing s
  = Ok (served_result (walk_queue (- written i) 0 (queue s)))
  /\ (In [] (queue s) -> exists b, findBufferForReadProcessing s = Ok (b, true))
  /\ (forall b, walk_queue (- written i) 0 (queue s) = Some b ->
      exists s', pass_state (readNext_pass s) = Some s'
                 /\ log (channel s') = log (channel s) ++ [delivery b]).
Proof.
  intros Hr Hm Ei Hw Hn. pose proof (reachable_Inv s Hr) as HI.
  pose proof (findBufferForReadProcessing_walk s i HI Ei Hw) as Hfind.
  split; [exact Hfind | split].
  - intros Hin. rewrite Hfind.
    destruct (walk_finds_sentinel (queue s) (- written i) 0 Hin) as [b Hb].
    rewrite Hb. exists b. reflexivity.
  - intros b Hb. unfold readNext_pass. rewrite Hm, Ei.
    replace (written i >? 0) with false
      by (symmetry; rewrite Z.gtb_ltb; apply Z.ltb_ge; exact Hw).
    rewrite Hfind, Hb. cbn [served_result fst snd negb].
    destruct (empty b) eqn:Eb.
    + rewrite callbackReset_false;
        [|simpl; apply generation_feed | simpl; rewrite Hm; reflexivity].
      eexists. split; [reflexivity|]. simpl. apply log_feed.
    + rewrite callbackReset_false;
        [|simpl; apply generation_feed | simpl; rewrite Hm; reflexivity].
      match goal with
      | |- context [afterFeeding ?x] =>
          destruct (afterFeeding_state x) as (s' & E1 & E2)
      end.
      exists s'. split; [exact E1|]. rewrite E2. simpl. apply log_feed.
Qed.

(** C2 (what the code does). When a write of the front buffer completes
    partially, the writer issues the write of the remaining bytes at the
    offset [readOffset + written] at which the first write of the buffer was
    issued: the offset is not advanced by the bytes already written, and the
    remainder lands on top of them. *)
Theorem partial_write_reissued_at_same_offset (s : FBC) (i : InFileMode)
    (mc : MoveContext) (data : mbuf) (off res err : Z) :
  reachable s -> inFileMode s = Some i ->
  writerRequest i = Some (Move mc data off) ->
  0 <= res < size data ->
  off = readOffset i + written i
  /\ exists s1 i1,
       step (EvWritten res err) s = Ok s1
       /\ inFileMode s1 = Some i1
       /\ writerRequest i1
          = Some (Move {| mc_buffer := mc_buffer mc;
                          mc_written := mc_written mc + res |}
                       (skipn (Z.to_nat (mc_written mc + res)) (mc_buffer mc))
                       off)
       /\ file i1 = write_at (file i) off (firstn (Z.to_nat res) data).
Proof.
  intros Hr Ei Hreq Hres. pose proof (reachable_Inv s Hr) as HI.
  pose proof (inv_writer s HI i Ei) as Hw. unfold writer_ok in Hw.
  rewrite Hreq in Hw. destruct (writerState i); try contradiction.
  destruct Hw as (W1 & W2 & W3 & W4 & W5).
  assert (Hsd : size data = size (mc_buffer mc) - mc_written mc).
  { subst data. unfold size in *. rewrite length_skipn. lia. }
  split; [exact W5|].
  simpl. rewrite Ei, Hreq. unfold bufferWrittenToFile, deref.
  replace (res =? -1) with false by (symmetry; apply Z.eqb_neq; lia).
  cbn [negb mc_written mc_buffer].
  replace (mc_written mc + res =? size (mc_buffer mc)) with false
    by (symmetry; apply Z.eqb_neq; lia).
  cbn [inFileMode set_inFileMode]. eexists. eexists.
  split; [reflexivity|]. cbn [inFileMode set_inFileMode].
  split; [reflexivity|]. simpl. rewrite W5. split; reflexivity.
Qed.

(** The functions with the record of cancellations are the functions
    without it. *)
Lemma cancelReader_requests_state (s : FBC) :
  cancelReader s = (r <- cancelReader_requests s ;; Ok (fst r)).
Proof.
  unfold cancelReader, cancelReader_requests, deref.
  destruct (readerState s); try reflexivity.
  destruct (inFileMode s) as [i|]; [|reflexivity].
  destruct (readRequest i); reflexivity.
Qed.

Lemma cancelWriter_requests_state (s : FBC) :
  cancelWriter s = (r <- cancelWriter_requests s ;; Ok (fst r)).
Proof.
  unfold cancelWriter, cancelWriter_requests, deref.
  destruct (inFileMode s) as [i|]; [|reflexivity].
  destruct (writerState i); try reflexivity;
    destruct (writerRequest i); reflexivity.
Qed.

Lemma deinitialize_requests_state (s : FBC) :
  deinitialize s = (r <- deinitialize_requests s ;; Ok (fst r)).
Proof.
  unfold deinitialize, deinitialize_requests.
  rewrite cancelReader_requests_state.
  destruct (cancelReader_requests s) as [[s1 l1]| |]; try reflexivity.
  cbn [bind fst snd].
  destruct (Mode_eqb (mode s1) IN_FILE_MODE); [|reflexivity].
  rewrite cancelWriter_requests_state.
  destruct (cancelWriter_requests s1) as [[s2 l2]| |]; reflexivity.
Qed.

(** [cancelReader] cancels the read in flight, if there is one. *)
Lemma cancelReader_requests_trace (s s1 : FBC) (l1 : list Request) :
  Inv s -> cancelReader_requests s = Ok (s1, l1) ->
  mode s1 = mode s
  /\ match inFileMode s with
     | None => inFileMode s1 = None /\ l1 = []
     | Some i =>
         l1 = match readRequest i with
              | Some rc => [ReadRequest rc]
              | None => []
              end
         /\ exists i1, inFileMode s1 = Some i1
              /\ writerState i1 = writerState i
              /\ writerRequest i1 = writerRequest i
     end.
Proof.
  intros HI H. unfold cancelReader_requests, deref in H.
  assert (Hnr : readerState s <> RS_READING_FROM_FILE ->
                forall i, inFileMode s = Some i -> readRequest i = None).
  { intros Hr i Ei. pose proof (inv_reader s HI i Ei) as K.
    unfold reader_ok in K. destruct (readRequest i); [|reflexivity].
    destruct K as (K & _). contradiction. }
  destruct (readerState s) eqn:Er;
    try (inv H; split; [reflexivity|];
         destruct (inFileMode s1) as [i|] eqn:Ei; [|auto];
         rewrite (Hnr ltac:(discriminate) i eq_refl);
         split; [reflexivity | exists i; auto]).
  destruct (inFileMode s) as [i|] eqn:Ei; [|discriminate H].
  destruct (readRequest i) as [rc|] eqn:Eq; [|discriminate H].
  inv H. split; [reflexivity|]. split; [reflexivity|].
  eexists. split; [reflexivity|]. split; reflexivity.
Qed.

(** [cancelWriter] cancels the writer's request, if there is one. *)
Lemma cancelWriter_requests_trace (s s2 : FBC) (i : InFileMode)
    (l2 : list Request) :
  inFileMode s = Some i ->
  match writerState i, writerRequest i with
  | WS_INACTIVE, None | WS_TERMINATED, None => True
  | WS_CREATING_FILE, Some _ | WS_MOVING, Some _ => True
  | _, _ => False
  end ->
  cancelWriter_requests s = Ok (s2, l2) ->
  l2 = match writerRequest i with
       | Some w => [WriterRequest w]
       | None => []
       end.
Proof.
  intros Ei Hw H. unfold cancelWriter_requests, deref in H. rewrite Ei in H.
  destruct (writerState i); destruct (writerRequest i); try contradiction;
    inv H; reflexivity.
Qed.

Lemma deinitialize_requests_trace (s s' : FBC) (l : list Request) :
  Inv s -> deinitialize_requests s = Ok (s', l) -> l = outstanding s.
Proof.
  intros HI H. unfold deinitialize_requests, bind in H.
  destruct (cancelReader_requests s) as [[s1 l1]| |] eqn:E1;
    try discriminate H.
  cbn [fst snd] in H.
  destruct (cancelReader_requests_trace s s1 l1 HI E1) as (Hm1 & T1).
  destruct (inv_global s HI) as [_ G2 _]. unfold outstanding.
  destruct (inFileMode s) as [i|] eqn:Ei.
  - destruct T1 as (L1 & i1 & Ei1 & W1 & W2).
    assert (Hm : mode s = IN_FILE_MODE)
      by (apply G2; discriminate).
    rewrite Hm1, Hm in H. cbn [Mode_eqb] in H.
    destruct (cancelWriter_requests s1) as [[s2 l2]| |] eqn:E2;
      try discriminate H.
    cbn [fst snd] in H. inv H. f_equal.
    rewrite <- W2.
    apply (cancelWriter_requests_trace s1 s2 i1 l2 Ei1); [|exact E2].
    pose proof (inv_writer s HI i Ei) as Hw. unfold writer_ok in Hw.
    rewrite W1, W2.
    destruct (writerState i); destruct (writerRequest i) as [[| |mc d o]|];
      try contradiction; exact I.
  - destruct T1 as (Ei1 & L1).
    assert (Hm : mode s <> IN_FILE_MODE)
      by (intros Q; apply G2 in Q; contradiction).
    rewrite Hm1 in H.
    destruct (Mode_eqb (mode s) IN_FILE_MODE) eqn:Em.
    + destruct (mode s); try discriminate Em. contradiction Hm. reflexivity.
    + cbn [fst snd] in H. inv H. reflexivity.
Qed.

(** After [cancel()] the completion callbacks of a context leave the
    object alone. *)
Lemma isCanceled_cancel (c : IOContextFlags) :
  isCanceled (eioFinished (IOContext_cancel c)) = true.
Proof. reflexivity. Qed.

(** The completion callbacks of a context that was not cancelled call the
    handlers, which is what the event loop runs for the request the object
    points to. *)
Lemma callbacks_call_handlers (c : IOContextFlags) (buffer : mbuf)
    (moveContext : MoveContext) (result errcode : Z) (s : FBC) :
  isCanceled (eioFinished c) = false ->
  nextChunkDoneReading_callback c buffer result errcode s
  = nextChunkDoneReading buffer result errcode s
  /\ bufferFileDoneDelaying_callback c s = bufferFileDoneDelaying s
  /\ bufferFileCreated_callback c result errcode s
     = bufferFileCreated result errcode s
  /\ bufferWrittenToFile_callback c moveContext result errcode s
     = bufferWrittenToFile moveContext result errcode s.
Proof.
  intros H.
  unfold nextChunkDoneReading_callback, bufferFileDoneDelaying_callback,
    bufferFileCreated_callback, bufferWrittenToFile_callback,
    nextChunkDoneReading_onEventLoopThread,
    bufferFileDoneDelaying_onEventLoopThread,
    bufferFileCreated_onEventLoopThread,
    bufferWrittenToFile_onEventLoopThread.
  cbv zeta. rewrite H. repeat split.
Qed.

(** C7 (amended). Provided the user's callbacks do not call back into the
    object: from every reachable state, ERROR and ERROR_WAITING included,
    [deinitialize()] calls [cancel()] on every request the object has in
    flight, the reader's and the writer's, and returns with the in-file
    record and its requests dropped, the queue empty, the mode in-memory,
    the reader inactive, the error code cleared and the generation
    bumped; after [cancel()] the completion callbacks of a request, on
    either level, return without calling into the object.  [reinitialize()] only reinitializes
    the underlying channel, which bumps the generation: it leaves the
    mode, the reader state, the error code, the queue and the in-file
    record with its requests as they are. *)
Theorem deinitialize_resets_reinitialize_delegates (s : FBC) :
  reachable s ->
  (exists s',
     deinitialize_requests s = Ok (s', outstanding s)
     /\ deinitialize s = Ok s'
     /\ mode s' = IN_MEMORY_MODE /\ readerState s' = RS_INACTIVE
     /\ errcode s' = 0 /\ nbuffers s' = 0 /\ bytesBuffered s' = 0
     /\ queue s' = [] /\ inFileMode s' = None /\ outstanding s' = []
     /\ generation (channel s') = uint32 (generation (channel s) + 1))
  /\ (forall c buffer moveContext result errcode x,
        nextChunkDoneReading_callback (IOContext_cancel c) buffer result
          errcode x = Ok x
        /\ bufferFileDoneDelaying_callback (IOContext_cancel c) x = Ok x
        /\ bufferFileCreated_callback (IOContext_cancel c) result errcode x
           = Ok x
        /\ bufferWrittenToFile_callback (IOContext_cancel c) moveContext
             result errcode x = Ok x
        /\ nextChunkDoneReading_onEventLoopThread (IOContext_cancel c) buffer
             result errcode x = Ok x
        /\ bufferFileDoneDelaying_onEventLoopThread (IOContext_cancel c) x
           = Ok x
        /\ bufferFileCreated_onEventLoopThread (IOContext_cancel c) result
             errcode x = Ok x
        /\ bufferWrittenToFile_onEventLoopThread (IOContext_cancel c)
             moveContext result errcode x = Ok x)
  /\ (mode (reinitialize s) = mode s
      /\ readerState (reinitialize s) = readerState s
      /\ errcode (reinitialize s) = errcode s
      /\ nbuffers (reinitialize s) = nbuffers s
      /\ bytesBuffered (reinitialize s) = bytesBuffered s
      /\ queue (reinitialize s) = queue s
      /\ inFileMode (reinitialize s) = inFileMode s
      /\ outstanding (reinitialize s) = outstanding s
      /\ generation (channel (reinitialize s))
         = uint32 (generation (channel s) + 1)).
Proof.
  intros Hr. pose proof (reachable_Inv s Hr) as HI. split; [|split].
  - destruct (deinitialize_returns s HI)
      as (s' & E & Hm & Hrs & He & Hn & Hb & Hf & Hmo & Hi & Hg).
    exists s'.
    pose proof (deinitialize_requests_state s) as K. rewrite E in K.
    destruct (deinitialize_requests s) as [[s0 l]| |] eqn:Er;
      try discriminate K.
    cbn [bind fst] in K. inv K.
    rewrite (deinitialize_requests_trace s s0 l HI Er).
    repeat split; try assumption.
    + apply queue_empty. exact Hn.
    + unfold outstanding. rewrite Hi. reflexivity.
  - intros c buffer moveContext result errcode x.
    assert (K : isCanceled (IOContext_cancel c) = true)
      by (unfold isCanceled, IOContext_cancel; cbn; apply orb_true_r).
    unfold nextChunkDoneReading_callback, bufferFileDoneDelaying_callback,
      bufferFileCreated_callback, bufferWrittenToFile_callback,
      nextChunkDoneReading_onEventLoopThread,
      bufferFileDoneDelaying_onEventLoopThread,
      bufferFileCreated_onEventLoopThread,
      bufferWrittenToFile_onEventLoopThread.
    cbv zeta. rewrite isCanceled_cancel, K. repeat split.
  - unfold reinitialize. simpl. repeat split; reflexivity.
Qed.

(** ** Leaving in-file mode *)

Lemma afterFeeding_mode (s : FBC) :
  match afterFeeding s with
  | Return (Ok s') => mode s' = mode s
  | Return _ => True
  | GotoBegin s' => mode s' = mode s
  end.
Proof.
  unfold afterFeeding. destruct (acceptingInput _); [reflexivity|].
  destruct (mayAcceptInputLater _); reflexivity.
Qed.

Lemma readNext_pass_switch (s : FBC) :
  Inv s -> mode s = IN_FILE_MODE ->
  match readNext_pass s with
  | GotoBegin s1 => mode s1 = IN_FILE_MODE
  | Return (Ok s') =>
      mode s' = IN_FILE_MODE
      \/ (autoTruncateFile config = true /\ reader_switch s s')
  | Return _ => True
  end.
Proof.
  intros HI Hm. unfold readNext_pass. rewrite Hm.
  destruct (inFileMode s) as [i|] eqn:Ei; [|exact I].
  destruct (written i >? 0) eqn:Ew.
  { unfold readNextChunkFromFile, deref. rewrite Ei. left. exact Hm. }
  rewrite Z.gtb_ltb in Ew. apply Z.ltb_ge in Ew.
  pose proof (findBufferForReadProcessing_walk s i HI Ei Ew) as Hfind.
  rewrite Hfind.
  destruct (walk_queue (- written i) 0 (queue s)) as [b|] eqn:Ewalk;
    cbn [served_result fst snd negb].
  - destruct (empty b).
    + destruct (callbackReset _ _); left; exact Hm.
    + destruct (callbackReset _ _); [left; exact Hm|].
      match goal with
      | |- context [afterFeeding ?x] =>
          pose proof (afterFeeding_mode x) as K; destruct (afterFeeding x) as [[s'| |]|s1]
      end; try exact I.
      * left. rewrite K. exact Hm.
      * rewrite K. exact Hm.
  - destruct (autoTruncateFile config) eqn:Eat.
    + destruct (switchToInMemoryMode (set_readerState RS_INACTIVE s))
        as [s2| |] eqn:E2; simpl; try exact I.
      right. split; [reflexivity|].
      exists i, s2. repeat split; try assumption.
      destruct (walk_none (queue s) (- written i) 0 Ewalk) as [K _].
      * apply (inv_aligned s HI i Ei Ew).
      * lia.
    + simpl. left. exact Hm.
Qed.

Lemma setError_mode (e : Z) (s s' : FBC) :
  setError e s = Ok s' -> mode s' <> IN_MEMORY_MODE \/ mode s' = mode s.
Proof.
  intros H. unfold setError in H.
  destruct (mode_ge_ERROR (mode s)); [inv H; right; reflexivity|].
  unfold bind in H.
  destruct (cancelReader s); try discriminate.
  destruct (if Mode_eqb _ _ then _ else _); try discriminate.
  destruct (acceptingInput _); inv H; left; simpl; discriminate.
Qed.

(** The state in which [feedWithoutRefGuard] starts the reader. *)
Lemma feed_enqueued (buffer : mbuf) (s s2 : FBC) :
  Inv s -> ended s = false ->
  bytesBuffered s + size buffer <= MAX_MEMORY_BUFFERING ->
  nbuffers s < MAX_BUFFERS ->
  (let s1 := pushBuffer buffer s in
   if Mode_eqb (mode s1) IN_MEMORY_MODE && passedThreshold s1 then
     switchToInFileMode s1
   else if Mode_eqb (mode s1) IN_FILE_MODE then
     deref s1 (fun i =>
       if WriterState_eqb (writerState i) WS_INACTIVE && autoStartMover config
       then moveNextBufferToFile s1 else Ok s1)
   else Ok s1) = Ok s2 ->
  Inv s2 /\ readerState s2 = readerState s /\ channel s2 = channel s
  /\ (mode s2 = mode s \/ (mode s = IN_MEMORY_MODE /\ mode s2 = IN_FILE_MODE)).
Proof.
  intros HI Ee Hb Hn E2. cbv zeta in E2.
  pose proof (Inv_pushBuffer buffer s HI Ee Hb Hn) as K.
  destruct (pushBuffer_fields buffer s) as (Hc & Hm & Hr & _).
  destruct (Mode_eqb (mode (pushBuffer buffer s)) IN_MEMORY_MODE
            && passedThreshold (pushBuffer buffer s)) eqn:E3.
  - bool_hyps.
    assert (Hmm : mode (pushBuffer buffer s) = IN_MEMORY_MODE)
      by (destruct (mode (pushBuffer buffer s)); try discriminate; reflexivity).
    split; [eapply switchToInFileMode_Inv; eassumption|].
    unfold switchToInFileMode, createBufferFile, deref in E2. simpl in E2.
    inv E2. simpl. repeat split; try assumption.
    right. split; [congruence | reflexivity].
  - destruct (Mode_eqb (mode (pushBuffer buffer s)) IN_FILE_MODE) eqn:E4;
      [|inv E2; auto].
    unfold deref in E2.
    destruct (inFileMode (pushBuffer buffer s)) as [i|] eqn:Ei; [|discriminate].
    destruct (WriterState_eqb (writerState i) WS_INACTIVE
              && autoStartMover config) eqn:E5; [|inv E2; auto].
    bool_hyps.
    pose proof (inv_writer _ K i Ei) as Hw. unfold writer_ok in Hw.
    destruct (writerState i); try discriminate.
    destruct (writerRequest i) eqn:Eq; [contradiction|].
    split; [eapply moveNextBufferToFile_Inv;
            [apply Inv_pre_file; eassumption | exact Eq | exact E2]|].
    unfold moveNextBufferToFile, deref in E2. rewrite Ei in E2.
    destruct (nbuffers (pushBuffer buffer s) =? 0);
      [|destruct (empty _)]; inv E2; simpl; auto.
Qed.

(** ** The byte stream: lists, the file and the pending bytes *)

Lemma delivered_app (l l' : list Delivery) :
  delivered (l ++ l') = delivered l ++ delivered l'.
Proof.
  induction l as [|d l IH]; simpl; [reflexivity|].
  destruct d; rewrite IH; [rewrite app_assoc|..]; reflexivity.
Qed.

Lemma delivered_feed (l : list Delivery) (b : mbuf) :
  delivered (l ++ [delivery b]) = delivered l ++ b.
Proof.
  rewrite delivered_app. unfold delivery. destruct b; simpl;
    rewrite ?app_nil_r; reflexivity.
Qed.

Lemma firstn_add_split {A : Type} (n m : nat) (l : list A) :
  firstn (n + m) l = firstn n l ++ firstn m (skipn n l).
Proof.
  revert l. induction n as [|n IH]; intros l; simpl; [reflexivity|].
  destruct l as [|a l]; simpl.
  - rewrite firstn_nil. reflexivity.
  - rewrite IH. reflexivity.
Qed.

Lemma read_at_zero (f : list byte) (off : Z) : read_at f off 0 = [].
Proof. reflexivity. Qed.

Lemma read_at_split (f : list byte) (off r n : Z) :
  0 <= off -> 0 <= r <= n ->
  read_at f off n = read_at f off r ++ read_at f (off + r) (n - r).
Proof.
  intros Ho Hr. unfold read_at.
  replace (Z.to_nat n) with (Z.to_nat r + Z.to_nat (n - r))%nat by lia.
  rewrite firstn_add_split, skipn_skipn.
  replace (Z.to_nat r + Z.to_nat off)%nat with (Z.to_nat (off + r)) by lia.
  reflexivity.
Qed.

Lemma size_read_at_full (f : list byte) (off n : Z) :
  0 <= off -> 0 <= n -> off + n <= Z.of_nat (length f) ->
  size (read_at f off n) = n.
Proof.
  intros Ho Hn Hl. unfold read_at, size.
  rewrite length_firstn, length_skipn. lia.
Qed.

Lemma firstn_read_at (f : list byte) (off r n : Z) :
  0 <= r <= n -> firstn (Z.to_nat r) (read_at f off n) = read_at f off r.
Proof.
  intros Hr. unfold read_at. rewrite firstn_firstn.
  replace (Init.Nat.min (Z.to_nat r) (Z.to_nat n)) with (Z.to_nat r) by lia.
  reflexivity.
Qed.

Lemma length_write_at (f : list byte) (off : Z) (d : list byte) :
  0 <= off -> off + size d <= Z.of_nat (length (write_at f off d)).
Proof.
  intros Ho. unfold write_at, size.
  rewrite !length_app, length_firstn, length_app, repeat_length. lia.
Qed.

Lemma read_at_write_at (f : list byte) (off w : Z) (d : list byte) :
  0 <= off -> 0 <= w -> off + w <= Z.of_nat (length f) ->
  read_at (write_at f (off + w) d) off (w + size d) = read_at f off w ++ d.
Proof.
  intros Ho Hw Hl. unfold read_at, write_at, size.
  replace (Z.to_nat (off + w) - length f)%nat with 0%nat by lia.
  simpl repeat. rewrite app_nil_r.
  replace (Z.to_nat (off + w)) with (Z.to_nat off + Z.to_nat w)%nat by lia.
  replace (Z.to_nat (w + Z.of_nat (length d)))
    with (Z.to_nat w + length d)%nat by lia.
  set (o := Z.to_nat off). set (k := Z.to_nat w).
  assert (Hlen : length (firstn (o + k) f) = (o + k)%nat)
    by (rewrite length_firstn; lia).
  rewrite skipn_app, Hlen.
  replace (o - (o + k))%nat with 0%nat by lia. simpl skipn at 2.
  rewrite <- firstn_skipn_comm.
  assert (Hk : length (firstn k (skipn o f)) = k)
    by (rewrite length_firstn, length_skipn; lia).
  rewrite firstn_app, Hk.
  rewrite firstn_all2 by (rewrite Hk; lia).
  replace (k + length d - k)%nat with (length d) by lia.
  rewrite firstn_app, firstn_all, Nat.sub_diag. simpl.
  rewrite app_nil_r. reflexivity.
Qed.

Lemma skipn_concat_prefix (q1 r : list mbuf) :
  skipn (Z.to_nat (total_size q1)) (concat (q1 ++ r)) = concat r.
Proof.
  rewrite concat_app, <- total_size_concat. unfold size.
  rewrite Nat2Z.id, skipn_app, skipn_all, Nat.sub_diag. reflexivity.
Qed.

Lemma pending_in_memory (s : FBC) :
  inFileMode s = None -> pending s = concat (queue s).
Proof. intros H. unfold pending. rewrite H. reflexivity. Qed.

Lemma pending_ahead (s : FBC) (i : InFileMode) :
  inFileMode s = Some i -> written i <= 0 ->
  pending s = skipn (Z.to_nat (- written i)) (concat (queue s)).
Proof.
  intros Ei Hw. unfold pending. rewrite Ei.
  destruct (0 <=? written i) eqn:E; [|reflexivity].
  apply Z.leb_le in E. replace (written i) with 0 by lia. reflexivity.
Qed.

Lemma pending_behind (s : FBC) (i : InFileMode) :
  inFileMode s = Some i -> 0 <= written i ->
  pending s = read_at (file i) (readOffset i) (written i) ++ concat (queue s).
Proof.
  intros Ei Hw. unfold pending. rewrite Ei.
  replace (0 <=? written i) with true by (symmetry; apply Z.leb_le; exact Hw).
  reflexivity.
Qed.

Lemma drained_pending (s : FBC) : drained s -> pending s = [].
Proof.
  unfold drained. intros H. destruct (inFileMode s) as [i|] eqn:Ei.
  - destruct H as [Hw Ht]. rewrite (pending_ahead s i Ei Hw), Ht.
    rewrite <- (app_nil_r (queue s)) at 2.
    rewrite skipn_concat_prefix. reflexivity.
  - rewrite (pending_in_memory s Ei).
    pose proof (total_size_concat (queue s)) as K. rewrite H in K.
    apply size_zero_iff in K. exact K.
Qed.

(** ** Fault-free runs *)

Section FaultFree.

Hypothesis pool_positive : 0 < mbuf_pool_data_size config.

(** The consumer always accepts: it never asks the channel to end. *)
Hypothesis consumer_accepts :
  forall seen b, dataCallback seen b <> ConsumedEnd.

Lemma pending_core (s s' : FBC) :
  inFileMode s' = inFileMode s -> queue s' = queue s -> pending s' = pending s.
Proof. intros Hi Hq. unfold pending. rewrite Hi, Hq. reflexivity. Qed.

Lemma remaining_core (s s' : FBC) :
  inFileMode s' = inFileMode s -> queue s' = queue s ->
  remaining s' = remaining s.
Proof. intros Hi Hq. unfold remaining. rewrite Hi, Hq. reflexivity. Qed.

Lemma file_ok_core (s s' : FBC) :
  inFileMode s' = inFileMode s -> file_ok s -> file_ok s'.
Proof. intros Hi H i Ei. apply H. congruence. Qed.

Lemma feed_state_data (b : mbuf) (c : Channel) :
  b <> [] ->
  state (Channel_feedWithoutRefGuard b c) = IDLE
  \/ state (Channel_feedWithoutRefGuard b c) = CALLING.
Proof.
  intros Hb. unfold Channel_feedWithoutRefGuard.
  apply empty_false_iff in Hb. rewrite Hb. simpl.
  pose proof (consumer_accepts (log c) b) as K.
  destruct (dataCallback (log c) b); auto. contradiction.
Qed.

Lemma feed_state_eof (c : Channel) :
  state (Channel_feedWithoutRefGuard [] c) = EOF_REACHED.
Proof. reflexivity. Qed.

Lemma forallb_is_data_snoc (l : list Delivery) (b : mbuf) :
  forallb is_data l = true -> forallb is_data (l ++ [Data b]) = true.
Proof. intros H. rewrite forallb_app, H. reflexivity. Qed.

Lemma delivery_nonempty (b : mbuf) : b <> [] -> delivery b = Data b.
Proof. intros H. unfold delivery. apply empty_false_iff in H. rewrite H. reflexivity. Qed.

(** After a data feed the reader goes round or waits for the channel. *)
Lemma afterFeeding_good (X s0 : FBC) (b : mbuf) :
  Inv X -> mode_ge_ERROR (mode X) = false ->
  readerState X = RS_FEEDING ->
  state (channel X) = IDLE \/ state (channel X) = CALLING ->
  forallb is_data (log (channel X)) = true ->
  file_ok X ->
  stream X = stream s0 ->
  (In [] (queue X) <-> In [] (queue s0)) ->
  (remaining X < remaining s0)%nat ->
  pass_good s0 (afterFeeding X).
Proof.
  intros HI Hm Hr Hst Hlog Hf Hs Hq Hrem. unfold afterFeeding, acceptingInput,
    mayAcceptInputLater.
  destruct Hst as [Hst|Hst]; rewrite Hst; simpl.
  - split; [|auto].
    constructor; try assumption. split; rewrite Hr; discriminate.
  - split; [|split; [exact Hs | exact Hq]].
    constructor; simpl; try assumption.
    + apply Inv_readNextWhenChannelIdle; [assumption | assumption |
                                          rewrite Hr; discriminate].
    + exists (log (channel X)). rewrite app_nil_r. auto.
Qed.

Lemma Good_LoopInv_parts (s : FBC) :
  LoopInv s -> Inv s /\ mode_ge_ERROR (mode s) = false
               /\ readerState s <> RS_READING_FROM_FILE.
Proof. intros [H1 H2 _ [H3 _] _ _]. auto. Qed.

(** The reader feeds the end of the stream and terminates. *)
Lemma eof_pass_good (s : FBC) :
  LoopInv s -> drained s -> In [] (queue s) ->
  Good (terminateReaderBecauseOfEOF
          (feedChannel [] (set_readerState RS_FEEDING_EOF s)))
  /\ stream (terminateReaderBecauseOfEOF
               (feedChannel [] (set_readerState RS_FEEDING_EOF s)))
     = stream s.
Proof.
  intros [HI Hm Hidle [Hr1 Hr2] Hlog Hf] Hd Hin. split.
  - constructor; simpl; try assumption.
    + apply Inv_terminateReader; [|simpl; assumption | simpl; discriminate].
      apply Inv_feedChannel. apply Inv_set_readerState; try assumption.
      discriminate.
    + repeat split; assumption.
    + exists (log (channel s)). split; [exact Hlog | reflexivity].
  - unfold stream. simpl. rewrite delivered_app. simpl. rewrite app_nil_r.
    reflexivity.
Qed.

(** The reader finds nothing to serve and becomes inactive. *)
Lemma inactive_good (s : FBC) :
  LoopInv s -> drained s -> ~ In [] (queue s) ->
  Good (callDataFlushedCallback (set_readerState RS_INACTIVE s)).
Proof.
  intros [HI Hm Hidle [Hr1 Hr2] Hlog Hf] Hd Hin.
  constructor; simpl; try assumption.
  - apply Inv_add_flushed. apply Inv_set_readerState; try assumption.
    discriminate.
  - repeat split; assumption.
  - exists (log (channel s)). rewrite app_nil_r. auto.
Qed.

Lemma walk_in (q : list mbuf) (t c : Z) (b : mbuf) :
  walk_queue t c q = Some b -> In b q.
Proof.
  revert c. induction q as [|a q IH]; intros c H; simpl in *; [discriminate|].
  destruct ((c =? t) || empty a).
  - inv H. left. reflexivity.
  - right. eapply IH. exact H.
Qed.

Lemma served_count_advance (q : list mbuf) (t c : Z) (b : mbuf) :
  walk_queue t c q = Some b -> b <> [] ->
  (served_count t c q < length q)%nat
  /\ (served_count t c q < served_count (t + size b) c q)%nat.
Proof.
  revert c. induction q as [|a q IH]; intros c Hw Hb; [discriminate|].
  assert (Hsz : 0 < size b).
  { pose proof (size_nonneg b). destruct (Z.eq_dec (size b) 0) as [E|E];
      [apply size_zero_iff in E; contradiction | lia]. }
  destruct (walk_some_nonempty _ _ _ _ Hw Hb) as (q1 & q2 & Hq & Hs).
  pose proof (total_size_nonneg q1) as Hq1.
  simpl in Hw. simpl served_count. simpl length.
  destruct (c =? t) eqn:Ect.
  - apply Z.eqb_eq in Ect.
    replace (c =? t + size b) with false
      by (symmetry; apply Z.eqb_neq; lia).
    split; lia.
  - simpl in Hw. destruct (empty a) eqn:Ea.
    + apply empty_true_iff in Ea. congruence.
    + replace (c =? t + size b) with false
        by (symmetry; apply Z.eqb_neq; lia).
      destruct (IH _ Hw Hb) as [I1 I2]. split; lia.
Qed.

Lemma pending_ifm (s s' : FBC) (i i' : InFileMode) :
  inFileMode s = Some i -> inFileMode s' = Some i' ->
  written i' = written i -> readOffset i' = readOffset i ->
  file i' = file i -> queue s' = queue s ->
  pending s' = pending s.
Proof.
  intros Ei Ei' Hw Hr Hf Hq. unfold pending.
  rewrite Ei, Ei', Hw, Hr, Hf, Hq. reflexivity.
Qed.

Lemma switchToInMemoryMode_result (s s' : FBC) :
  switchToInMemoryMode s = Ok s' ->
  s' = set_inFileMode None (set_mode IN_MEMORY_MODE (clearBuffers s)).
Proof.
  unfold switchToInMemoryMode, bind. intros H.
  destruct (cancelWriter s) as [s1| |] eqn:E1; try discriminate.
  pose proof (cancelWriter_only_ifm _ _ E1) as O. inv H.
  unfold only_ifm in O. rewrite O. reflexivity.
Qed.

Lemma in_nil_tl (b : mbuf) (q : list mbuf) :
  b <> [] -> (In [] q <-> In [] (b :: q)).
Proof.
  intros Hb. simpl. split; [auto|]. intros [H|H]; [contradiction | exact H].
Qed.

(** A pass of the reader in in-memory mode. *)
Lemma readNext_pass_good_in_memory (s : FBC) :
  LoopInv s -> mode s = IN_MEMORY_MODE -> pass_good s (readNext_pass s).
Proof.
  intros HL Hm. pose proof HL as [HI Hme Hidle [Hr1 Hr2] Hlog Hf].
  assert (Hi : inFileMode s = None)
    by (apply Inv_ifm_none; [exact HI | congruence]).
  pose proof (inv_queue s HI) as HQ.
  pose proof (queue_ok_nbuffers_nonneg s HQ) as Hn0.
  unfold readNext_pass. rewrite Hm.
  destruct (negb (hasBuffers s)) eqn:Eh.
  - (* the queue is empty *)
    unfold hasBuffers in Eh. bool_hyps. apply Z.ltb_ge in Eh.
    assert (Hq : queue s = []) by (apply queue_empty; lia).
    simpl. split; [|split; [reflexivity | reflexivity]].
    apply inactive_good; [exact HL | |rewrite Hq; intros []].
    unfold drained. rewrite Hi, Hq. reflexivity.
  - unfold hasBuffers in Eh. bool_hyps. apply Z.ltb_lt in Eh.
    assert (Hn : nbuffers s <> 0) by lia.
    pose proof (queue_nonempty s Hn) as Hq. unfold peekBuffer.
    destruct (empty (firstBuffer s)) eqn:Ee.
    + (* the sentinel *)
      apply empty_true_iff in Ee. rewrite Ee.
      rewrite callbackReset_false;
        [|simpl; reflexivity | simpl; exact Hme].
      simpl.
      pose proof (inv_sentinel s HI) as HS. rewrite Hq, Ee in HS.
      destruct HS as [[HS|HS] _]; [|contradiction HS; reflexivity].
      assert (Hq' : queue s = [[]]) by (rewrite Hq, Ee, HS; reflexivity).
      destruct (eof_pass_good s HL) as [G1 G2].
      * unfold drained. rewrite Hi, Hq'. reflexivity.
      * rewrite Hq'. left. reflexivity.
      * split; [exact G1 | split; [exact G2 | reflexivity]].
    + (* a data buffer *)
      apply empty_false_iff in Ee.
      destruct (popBuffer_fields s) as (Hpc & Hpm & Hpr & Hpe & Hpi).
      rewrite callbackReset_false;
        [|rewrite Hpc; reflexivity | rewrite Hpm; exact Hme].
      rewrite callbackReset_false;
        [|simpl; rewrite generation_feed, Hpc; reflexivity
         |simpl; rewrite Hpm; exact Hme].
      pose proof (queue_popBuffer s HQ Hn) as Hpq. rewrite Hq in Hpq.
      simpl tl in Hpq.
      apply afterFeeding_good with (b := firstBuffer s); simpl.
      * apply Inv_feedChannel. apply Inv_set_readerState.
        -- apply Inv_popBuffer_in_memory; assumption.
        -- rewrite Hpm. exact Hme.
        -- discriminate.
        -- rewrite Hpr. exact Hr1.
      * rewrite Hpm. exact Hme.
      * reflexivity.
      * apply feed_state_data. exact Ee.
      * rewrite log_feed, delivery_nonempty by exact Ee.
        rewrite Hpc. apply forallb_is_data_snoc. exact Hlog.
      * apply file_ok_core with (s := s); [simpl; exact Hpi | exact Hf].
      * unfold stream. simpl. rewrite log_feed, delivered_feed, Hpc.
        rewrite (pending_in_memory s Hi), Hq.
        rewrite pending_in_memory by (simpl; congruence).
        change (queue (feedChannel (firstBuffer s)
                         (set_readerState RS_FEEDING (popBuffer s))))
          with (queue (popBuffer s)).
        rewrite Hpq. simpl. rewrite app_assoc. reflexivity.
      * change (queue (feedChannel (firstBuffer s)
                         (set_readerState RS_FEEDING (popBuffer s))))
          with (queue (popBuffer s)).
        rewrite Hpq, Hq. apply in_nil_tl. exact Ee.
      * unfold remaining. simpl. rewrite Hpi, Hi.
        change (queue (feedChannel (firstBuffer s)
                         (set_readerState RS_FEEDING (popBuffer s))))
          with (queue (popBuffer s)).
        rewrite Hpq, Hq. simpl. lia.
Qed.

Lemma file_ok_cursors (s s1 : FBC) (i : InFileMode) (ro w : Z) :
  file_ok s -> inFileMode s = Some i ->
  inFileMode s1 = Some (set_cursors ro w i) ->
  readOffset i <= ro -> ro + w = readOffset i + written i ->
  file_ok s1.
Proof.
  intros Hf Ei E1 Hro Hsum i1 Ei1. rewrite E1 in Ei1. inv Ei1. simpl.
  destruct (Hf i Ei) as (F1 & F2 & F3 & F4).
  repeat split; try lia; assumption.
Qed.

(** A pass of the reader in in-file mode. *)
Lemma readNext_pass_good_in_file (s : FBC) :
  LoopInv s -> mode s = IN_FILE_MODE -> pass_good s (readNext_pass s).
Proof.
  intros HL Hm. pose proof HL as [HI Hme Hidle [Hr1 Hr2] Hlog Hf].
  destruct (Inv_ifm_some s HI Hm) as [i Ei].
  unfold readNext_pass. rewrite Hm, Ei.
  destruct (written i >? 0) eqn:Ew.
  - (* unread data in the file *)
    rewrite Z.gtb_ltb in Ew. apply Z.ltb_lt in Ew.
    destruct (readNextChunkFromFile s) as [s'| |] eqn:E;
      try (unfold readNextChunkFromFile, deref in E; rewrite Ei in E;
           discriminate).
    pose proof (readNextChunkFromFile_Inv s s' i HI Ei Ew E) as HI'.
    unfold readNextChunkFromFile, deref in E. rewrite Ei in E. inv E.
    split; [|split; [|reflexivity]].
    + constructor; simpl; try assumption.
      * exists (log (channel s)). rewrite app_nil_r. auto.
      * intros i1 Ei1. simpl in Ei1. inv Ei1. simpl.
        destruct (Hf i Ei) as (F1 & F2 & F3 & F4).
        repeat split; try lia; try assumption.
        intros rc Hrc. inv Hrc. simpl. lia.
    + unfold stream. simpl. f_equal.
      eapply pending_ifm; [exact Ei | simpl; reflexivity | reflexivity ..].
  - rewrite Z.gtb_ltb in Ew. apply Z.ltb_ge in Ew.
    rewrite (findBufferForReadProcessing_walk s i HI Ei Ew).
    pose proof (inv_aligned s HI i Ei Ew) as Hal.
    destruct (walk_queue (- written i) 0 (queue s)) as [b|] eqn:Ewalk;
      cbn [served_result fst snd negb].
    + destruct (empty b) eqn:Eb.
      * (* the sentinel *)
        apply empty_true_iff in Eb. subst b.
        rewrite callbackReset_false;
          [|simpl; reflexivity | simpl; exact Hme].
        destruct (eof_pass_good s HL) as [G1 G2].
        -- unfold drained. rewrite Ei. split; [exact Ew|].
           pose proof (walk_some_empty _ _ _ Ewalk (inv_sentinel s HI) Hal).
           lia.
        -- eapply walk_in. exact Ewalk.
        -- split; [exact G1 | split; [exact G2 | reflexivity]].
      * (* a data buffer served from memory *)
        apply empty_false_iff in Eb.
        destruct (walk_some_nonempty _ _ _ _ Ewalk Eb) as (q1 & q2 & Hq & Hs).
        simpl in Hs.
        rewrite callbackReset_false;
          [|simpl; rewrite generation_feed; reflexivity | simpl; exact Hme].
        set (i' := set_cursors (readOffset i + size b) (written i - size b) i).
        pose proof (size_nonneg b) as Hsz.
        assert (Hsz' : 0 < size b).
        { destruct (Z.eq_dec (size b) 0) as [E|E];
            [apply size_zero_iff in E; contradiction | lia]. }
        assert (HIX : Inv (feedChannel b (set_readerState RS_FEEDING
                             (set_inFileMode (Some i') s)))).
        { pose proof (Inv_pre_file s i HI Ei) as [HQ HS Hm' He _ Hrd Ha].
          pose proof (inv_writer s HI i Ei) as Hwr.
          apply Inv_feedChannel.
          apply Inv_in_file with (i := i'); simpl; try assumption;
            try reflexivity.
          - destruct HQ. constructor; assumption.
          - unfold reader_ok in *. simpl.
            destruct (readRequest i); [destruct Hrd; contradiction|].
            discriminate.
          - apply writer_ok_cursors with (s := s);
              [exact Hwr | reflexivity | reflexivity | lia].
          - intros _. change (aligned (- (written i - size b)) (queue s)).
            replace (- (written i - size b)) with (- written i + size b) by lia.
            eapply aligned_serve; [exact Hq | lia]. }
        apply afterFeeding_good with (b := b); simpl; try assumption.
        -- reflexivity.
        -- apply feed_state_data. exact Eb.
        -- rewrite log_feed, delivery_nonempty by exact Eb.
           apply forallb_is_data_snoc. exact Hlog.
        -- apply file_ok_cursors with (s := s) (i := i)
             (ro := readOffset i + size b) (w := written i - size b);
             [exact Hf | exact Ei | reflexivity | lia | lia].
        -- unfold stream. simpl. rewrite log_feed, delivered_feed.
           rewrite (pending_ahead s i Ei Ew).
           rewrite (pending_ahead _ i') by (simpl; try reflexivity; lia).
           change (queue (feedChannel b (set_readerState RS_FEEDING
                            (set_inFileMode (Some i') s)))) with (queue s).
           simpl written. rewrite Hq. rewrite <- Hs.
           rewrite skipn_concat_prefix.
           replace (- (written i - size b))
             with (total_size (q1 ++ [b]))
             by (rewrite total_size_app; simpl; lia).
           replace (q1 ++ b :: q2) with ((q1 ++ [b]) ++ q2)
             by (rewrite <- app_assoc; reflexivity).
           rewrite skipn_concat_prefix. simpl. rewrite app_assoc. reflexivity.
        -- reflexivity.
        -- unfold remaining. simpl. rewrite Ei.
           change (queue (feedChannel b (set_readerState RS_FEEDING
                            (set_inFileMode (Some i') s)))) with (queue s).
           destruct (served_count_advance _ _ _ _ Ewalk Eb) as [S1 S2].
           replace (- (written i - size b)) with (- written i + size b) by lia.
           lia.
    + (* nothing to serve *)
      destruct (walk_none _ _ _ Ewalk Hal) as [Wt Wn]. simpl in Wt.
      assert (Hd : drained s) by (unfold drained; rewrite Ei; split; lia).
      destruct (autoTruncateFile config).
      * assert (K : Inv (set_readerState RS_INACTIVE s))
          by (apply Inv_set_readerState; try assumption; discriminate).
        destruct (switchToInMemoryMode_returns _ K Hm) as [s2 E2].
        rewrite E2. simpl.
        pose proof (switchToInMemoryMode_Inv _ _ K Hm
                      ltac:(simpl; discriminate) E2) as (K2 & Km & Kr & Kc).
        pose proof (switchToInMemoryMode_result _ _ E2) as R.
        assert (Hq2 : queue s2 = []) by (rewrite R; reflexivity).
        assert (Hi2 : inFileMode s2 = None) by (rewrite R; reflexivity).
        split; [|split].
        -- constructor; simpl.
           ++ apply Inv_add_flushed. exact K2.
           ++ rewrite Km. reflexivity.
           ++ unfold at_rest. simpl. rewrite Kr. simpl. rewrite Kc. simpl.
              split; [exact Hidle|]. split.
              ** unfold drained. simpl. rewrite Hi2.
                 change (queue (callDataFlushedCallback s2)) with (queue s2).
                 rewrite Hq2. reflexivity.
              ** change (queue (callDataFlushedCallback s2)) with (queue s2).
                 rewrite Hq2. intros [].
           ++ unfold log_ok. simpl. rewrite Kr, Kc. simpl.
              exists (log (channel s)). rewrite app_nil_r. auto.
           ++ intros i1 Ei1. simpl in Ei1. congruence.
        -- unfold stream. simpl. rewrite Kc. simpl. f_equal.
           rewrite (drained_pending s Hd).
           rewrite pending_in_memory by (simpl; exact Hi2).
           change (queue (callDataFlushedCallback s2)) with (queue s2).
           rewrite Hq2. reflexivity.
        -- change (queue (callDataFlushedCallback s2)) with (queue s2).
           rewrite Hq2. simpl. tauto.
      * simpl. split; [|split; reflexivity].
        apply inactive_good; assumption.
Qed.

Lemma readNext_pass_good_any (s : FBC) :
  LoopInv s -> pass_good s (readNext_pass s).
Proof.
  intros HL. pose proof (li_mode s HL) as Hm.
  destruct (mode s) eqn:Em; try discriminate.
  - apply readNext_pass_good_in_memory; assumption.
  - apply readNext_pass_good_in_file; assumption.
Qed.

(** With fuel for one pass more than there are buffers to serve, the loop
    of the reader returns. *)
Lemma readNextWithoutRefGuard_good (fuel : nat) (s : FBC) :
  LoopInv s -> (remaining s < fuel)%nat ->
  exists s', readNextWithoutRefGuard fuel s = Ok s'
             /\ Good s' /\ stream s' = stream s
             /\ (In [] (queue s') <-> In [] (queue s)).
Proof.
  revert s. induction fuel as [|fuel IH]; intros s HL Hrem; [lia|].
  simpl. pose proof (readNext_pass_good_any s HL) as HP.
  destruct (readNext_pass s) as [[s'| |]|s1]; simpl in HP; try contradiction.
  - exists s'. destruct HP as (P1 & P2 & P3). auto.
  - destruct HP as (P1 & P2 & P3 & P4).
    destruct (IH s1 P1) as (s' & E & G & S1 & S2); [lia|].
    exists s'. split; [exact E|]. split; [exact G|].
    split; [congruence | tauto].
Qed.

Lemma remaining_le (s : FBC) :
  Inv s -> (remaining s <= Z.to_nat (nbuffers s))%nat.
Proof.
  intros HI. rewrite (q_count s (inv_queue s HI)), Nat2Z.id.
  unfold remaining. destruct (inFileMode s); lia.
Qed.

Lemma readNext_good (s : FBC) :
  LoopInv s ->
  exists s', readNextWithoutRefGuard (S (Z.to_nat (nbuffers s))) s = Ok s'
             /\ Good s' /\ stream s' = stream s
             /\ (In [] (queue s') <-> In [] (queue s)).
Proof.
  intros HL. apply readNextWithoutRefGuard_good; [exact HL|].
  pose proof (remaining_le s (li_inv s HL)). lia.
Qed.

(** In a state at rest the log is data unless the reader has terminated. *)
Lemma Good_log_data (s : FBC) :
  Good s -> readerState s <> RS_TERMINATED ->
  forallb is_data (log (channel s)) = true.
Proof.
  intros HG Hr. destruct (good_log s HG) as (ds & D1 & D2).
  rewrite D2. destruct (readerState s); try contradiction;
    rewrite app_nil_r; exact D1.
Qed.

Lemma last_in {A : Type} (q : list A) (d : A) : q <> [] -> In (last q d) q.
Proof.
  induction q as [|a q IH]; intros H; [contradiction|].
  destruct q as [|a' q']; [left; reflexivity|].
  right. apply IH. discriminate.
Qed.

Lemma ended_false_of_no_sentinel (s : FBC) :
  Good s -> ~ In [] (queue s) -> ended s = false.
Proof.
  intros HG Hin. pose proof (good_inv s HG) as HI.
  pose proof (inv_queue s HI) as HQ.
  unfold ended. rewrite (good_mode s HG).
  assert (E1 : hasBuffers s && empty (peekLastBuffer s) = false).
  { unfold hasBuffers. destruct (nbuffers s >? 0) eqn:En; [|reflexivity].
    rewrite Z.gtb_ltb in En. apply Z.ltb_lt in En. simpl.
    apply empty_false_iff. intros K. apply Hin.
    rewrite (peekLastBuffer_last s HQ) in K by lia.
    rewrite <- K. apply last_in. rewrite (queue_nonempty s) by lia.
    discriminate. }
  rewrite E1. simpl.
  pose proof (good_rest s HG) as Hrest. unfold at_rest in Hrest.
  unfold Channel_ended.
  destruct (readerState s); try contradiction;
    try (rewrite Hrest; reflexivity).
  - destruct Hrest as [Hst _]. rewrite Hst. reflexivity.
  - destruct Hrest as (_ & _ & K). contradiction.
Qed.

Lemma pending_pushBuffer (b : mbuf) (s : FBC) :
  Inv s -> nbuffers s < MAX_BUFFERS ->
  pending (pushBuffer b s) = pending s ++ b.
Proof.
  intros HI Hn. pose proof (queue_pushBuffer b s (inv_queue s HI) Hn) as Hq.
  destruct (pushBuffer_fields b s) as (_ & _ & _ & _ & Hi & _).
  unfold pending. rewrite Hi, Hq, concat_app. simpl. rewrite app_nil_r.
  destruct (inFileMode s) as [i|] eqn:Ei; [|reflexivity].
  destruct (0 <=? written i) eqn:Ew.
  - rewrite app_assoc. reflexivity.
  - apply Z.leb_gt in Ew.
    pose proof (aligned_bounds _ _ (inv_aligned s HI i Ei ltac:(lia))) as Hb.
    rewrite skipn_app.
    replace (Z.to_nat (- written i) - length (concat (queue s)))%nat
      with 0%nat; [reflexivity|].
    pose proof (total_size_concat (queue s)) as K. unfold size in K. lia.
Qed.

(** The buffer is queued, the mode switched or the mover started. *)
Lemma feed_enqueued_good (buffer : mbuf) (s : FBC) :
  Good s -> ended s = false ->
  bytesBuffered s + size buffer <= MAX_MEMORY_BUFFERING ->
  nbuffers s < MAX_BUFFERS ->
  exists s2,
    (let s1 := pushBuffer buffer s in
     if Mode_eqb (mode s1) IN_MEMORY_MODE && passedThreshold s1 then
       switchToInFileMode s1
     else if Mode_eqb (mode s1) IN_FILE_MODE then
       deref s1 (fun i =>
         if WriterState_eqb (writerState i) WS_INACTIVE && autoStartMover config
         then moveNextBufferToFile s1 else Ok s1)
     else Ok s1) = Ok s2
    /\ Inv s2 /\ readerState s2 = readerState s /\ channel s2 = channel s
    /\ mode_ge_ERROR (mode s2) = false
    /\ queue s2 = queue s ++ [buffer]
    /\ pending s2 = pending s ++ buffer
    /\ file_ok s2.
Proof.
  intros HG Ee Hb Hn. pose proof (good_inv s HG) as HI.
  pose proof (Inv_pushBuffer buffer s HI Ee Hb Hn) as K.
  pose proof (queue_pushBuffer buffer s (inv_queue s HI) Hn) as Hq.
  pose proof (pending_pushBuffer buffer s HI Hn) as Hp.
  destruct (pushBuffer_fields buffer s) as (Hc & Hm & Hr & _ & Hi & _).
  pose proof (good_file s HG) as Hf.
  assert (Hf1 : file_ok (pushBuffer buffer s))
    by (apply file_ok_core with (s := s); assumption).
  pose proof (good_mode s HG) as Hme.
  assert (Ex : exists s2,
    (let s1 := pushBuffer buffer s in
     if Mode_eqb (mode s1) IN_MEMORY_MODE && passedThreshold s1 then
       switchToInFileMode s1
     else if Mode_eqb (mode s1) IN_FILE_MODE then
       deref s1 (fun i =>
         if WriterState_eqb (writerState i) WS_INACTIVE && autoStartMover config
         then moveNextBufferToFile s1 else Ok s1)
     else Ok s1) = Ok s2
    /\ queue s2 = queue (pushBuffer buffer s)
    /\ pending s2 = pending (pushBuffer buffer s)
    /\ file_ok s2).
  { cbv zeta.
    destruct (Mode_eqb (mode (pushBuffer buffer s)) IN_MEMORY_MODE
              && passedThreshold (pushBuffer buffer s)) eqn:E3.
    - bool_hyps.
      assert (Hmm : mode (pushBuffer buffer s) = IN_MEMORY_MODE)
        by (destruct (mode (pushBuffer buffer s)); try discriminate; reflexivity).
      assert (Hin : inFileMode (pushBuffer buffer s) = None)
        by (apply Inv_ifm_none; [exact K | congruence]).
      unfold switchToInFileMode, createBufferFile, deref. simpl.
      eexists. split; [reflexivity|]. split; [reflexivity|]. split.
      + rewrite (pending_in_memory _ Hin). unfold pending. simpl.
        reflexivity.
      + intros i Ei. simpl in Ei. inv Ei. simpl.
        repeat split; try lia.
        * intros mc d o Hreq.
          destruct (delayInFileModeSwitching config =? 0); discriminate.
        * intros rc Hrc. discriminate.
    - destruct (Mode_eqb (mode (pushBuffer buffer s)) IN_FILE_MODE) eqn:E4;
        [|eexists; split; [reflexivity | auto]].
      assert (Hmf : mode (pushBuffer buffer s) = IN_FILE_MODE)
        by (destruct (mode (pushBuffer buffer s)); try discriminate; reflexivity).
      destruct (Inv_ifm_some _ K Hmf) as [i Ei]. unfold deref. rewrite Ei.
      destruct (WriterState_eqb (writerState i) WS_INACTIVE
                && autoStartMover config) eqn:E5;
        [|eexists; split; [reflexivity | auto]].
      unfold moveNextBufferToFile, deref. rewrite Ei.
      destruct (Hf1 i Ei) as (F1 & F2 & F3 & F4).
      destruct (nbuffers (pushBuffer buffer s) =? 0);
        [|destruct (empty _)]; eexists; (split; [reflexivity|]);
        (split; [reflexivity|]);
        (split; [eapply pending_ifm; [exact Ei | reflexivity ..]|]);
        intros i1 Ei1; simpl in Ei1; inv Ei1; simpl;
        repeat split; try lia; try assumption.
      intros mc d o Hreq. inv Hreq. reflexivity. }
  destruct Ex as (s2 & E2 & Q2 & P2 & F2). exists s2.
  split; [exact E2|].
  destruct (feed_enqueued buffer s s2 HI Ee Hb Hn E2) as (I2 & R2 & C2 & M2).
  split; [exact I2|]. split; [exact R2|].
  split; [exact C2|]. split; [|split; [|split]].
  - destruct M2 as [M2|[_ M2]]; rewrite M2; [exact Hme | reflexivity].
  - rewrite Q2. exact Hq.
  - rewrite P2. exact Hp.
  - exact F2.
Qed.

Lemma in_nil_snoc (q : list mbuf) (b : mbuf) :
  In [] (q ++ [b]) <-> In [] q \/ EvFeed b = EvFeed [].
Proof.
  rewrite in_app_iff. simpl. split.
  - intros [H|[H|[]]]; [left; exact H | right; rewrite H; reflexivity].
  - intros [H|H]; [left; exact H | right; left; congruence].
Qed.

(** [feed] of a buffer, before the sentinel has been fed. *)
Lemma feed_good (buffer : mbuf) (s : FBC) :
  Good s -> enabled (EvFeed buffer) s = true -> ~ In [] (queue s) ->
  exists s', feed buffer s = Ok s' /\ step_good (EvFeed buffer) s s'.
Proof.
  intros HG Hen Hin. pose proof (ended_false_of_no_sentinel s HG Hin) as Ee.
  simpl in Hen. rewrite Ee in Hen. simpl in Hen. bool_hyps.
  destruct (feed_enqueued_good buffer s HG Ee H H0)
    as (s2 & E2 & I2 & R2 & C2 & M2 & Q2 & P2 & F2).
  unfold feed, feedWithoutRefGuard. rewrite Ee. cbv zeta in E2.
  unfold bind. rewrite E2.
  pose proof (good_rest s HG) as Hrest. unfold at_rest in Hrest.
  assert (Hstream : stream s2 = stream s ++ buffer).
  { unfold stream. rewrite C2, P2, app_assoc. reflexivity. }
  destruct (readerState s) eqn:Er; try contradiction.
  - (* the reader is inactive *)
    rewrite R2. simpl. destruct Hrest as (Hst & _ & _).
    unfold acceptingInput. rewrite C2, Hst.
    destruct (readNext_good s2) as (s' & E & G & S1 & S2).
    { constructor; try assumption.
      - rewrite C2. exact Hst.
      - rewrite R2. split; discriminate.
      - rewrite C2. apply Good_log_data; [exact HG | rewrite Er; discriminate]. }
    exists s'. split; [exact E|]. split; [exact G|]. split.
    + rewrite S1. exact Hstream.
    + rewrite S2, Q2. apply in_nil_snoc.
  - (* the reader waits for the channel *)
    rewrite R2. simpl. exists s2. split; [reflexivity|]. split; [|split].
    + constructor; try assumption.
      * unfold at_rest. rewrite R2, C2. exact Hrest.
      * destruct (good_log s HG) as (ds & D1 & D2). exists ds.
        rewrite R2, C2. rewrite Er in D2. auto.
    + exact Hstream.
    + rewrite Q2. apply in_nil_snoc.
  - (* the reader reads from the file *)
    rewrite R2. simpl. exists s2. split; [reflexivity|]. split; [|split].
    + constructor; try assumption.
      * unfold at_rest. rewrite R2, C2. exact Hrest.
      * destruct (good_log s HG) as (ds & D1 & D2). exists ds.
        rewrite R2, C2. rewrite Er in D2. auto.
    + exact Hstream.
    + rewrite Q2. apply in_nil_snoc.
  - destruct Hrest as (_ & _ & K). contradiction.
Qed.

(** The consumer acknowledges the buffer it was handed. *)
Lemma consumed_good (sz : Z) (s : FBC) :
  Good s -> enabled (EvConsumed sz false) s = true ->
  exists s', consumed sz false s = Ok s'
             /\ step_good (EvConsumed sz false) s s'.
Proof.
  intros HG Hen. simpl in Hen. unfold consumed.
  destruct (state (channel s)) eqn:Est; try discriminate.
  pose proof (good_rest s HG) as Hrest. unfold at_rest in Hrest.
  destruct (readerState s) eqn:Er; try contradiction;
    try (destruct Hrest as (K & _); congruence); try congruence.
  unfold onChannelConsumed. simpl. rewrite Er. simpl.
  unfold channelHasBecomeIdle, readNext.
  destruct (readNext_good (set_channel (Channel_consumed false (channel s)) s))
    as (s' & E & G & S1 & S2).
  { pose proof (good_inv s HG) as HI. constructor; simpl.
    - apply Inv_set_channel. exact HI.
    - apply (good_mode s HG).
    - reflexivity.
    - rewrite Er. split; discriminate.
    - apply Good_log_data; [exact HG | rewrite Er; discriminate].
    - apply file_ok_core with (s := s); [reflexivity | apply (good_file s HG)]. }
  exists s'. split; [exact E|]. split; [exact G|]. split.
  - rewrite S1. rewrite app_nil_r. reflexivity.
  - rewrite S2. split; [auto|]. intros [K|K]; [exact K | discriminate].
Qed.

(** A handler of the writer that leaves the cursors, the file and the queue
    alone keeps the state at rest and the stream. *)
Lemma Good_writer_step (s s' : FBC) (i i' : InFileMode) :
  Good s -> Inv s' ->
  inFileMode s = Some i -> inFileMode s' = Some i' ->
  channel s' = channel s -> readerState s' = readerState s ->
  mode s' = mode s -> queue s' = queue s ->
  written i' = written i -> readOffset i' = readOffset i ->
  file i' = file i -> readRequest i' = readRequest i ->
  (forall mc d o, writerRequest i' = Some (Move mc d o) -> mc_written mc = 0) ->
  Good s' /\ stream s' = stream s.
Proof.
  intros HG HI' Ei Ei' Hc Hr Hm Hq Hw Hro Hf Hrr Hmv.
  assert (Hp : pending s' = pending s)
    by (eapply pending_ifm; eassumption).
  split; [|unfold stream; rewrite Hc, Hp; reflexivity].
  constructor.
  - exact HI'.
  - rewrite Hm. apply (good_mode s HG).
  - pose proof (good_rest s HG) as Hrest. unfold at_rest, drained in *.
    rewrite Hr, Hc, Hq, Ei', Hw. rewrite Ei in Hrest. exact Hrest.
  - destruct (good_log s HG) as (ds & D1 & D2). exists ds.
    rewrite Hr, Hc. auto.
  - intros i1 Ei1. rewrite Ei' in Ei1. inv Ei1.
    destruct (good_file s HG i Ei) as (F1 & F2 & F3 & F4).
    rewrite Hw, Hro, Hf, Hrr. repeat split; try lia; assumption.
Qed.

Lemma doneDelaying_good (s : FBC) :
  Good s -> enabled EvDoneDelaying s = true ->
  exists s', step EvDoneDelaying s = Ok s' /\ step_good EvDoneDelaying s s'.
Proof.
  intros HG Hen. simpl in Hen. simpl.
  destruct (inFileMode s) as [i|] eqn:Ei; [|discriminate].
  destruct (writerRequest i) as [[| |mc d o]|] eqn:Eq; try discriminate.
  unfold bufferFileDoneDelaying, deref. rewrite Ei.
  eexists. split; [reflexivity|].
  destruct (Good_writer_step s
              (set_inFileMode (Some (set_writerRequest (Some FileCreationOpen) i)) s)
              i (set_writerRequest (Some FileCreationOpen) i)) as [G S];
    try reflexivity; try assumption.
  - eapply bufferFileDoneDelaying_Inv;
      [apply (good_inv s HG) | exact Ei | exact Eq |].
    unfold bufferFileDoneDelaying, deref. rewrite Ei. reflexivity.
  - simpl. intros mc d o K. discriminate.
  - split; [exact G|]. split.
    + rewrite S, app_nil_r. reflexivity.
    + simpl. split; [auto|]. intros [K|K]; [exact K | discriminate].
Qed.

Lemma fileCreated_good (res err : Z) (s : FBC) :
  Good s -> enabled (EvFileCreated res err) s = true ->
  fault_free (EvFileCreated res err) s = true ->
  exists s', step (EvFileCreated res err) s = Ok s'
             /\ step_good (EvFileCreated res err) s s'.
Proof.
  intros HG Hen Hff. simpl in Hen, Hff. simpl.
  destruct (inFileMode s) as [i|] eqn:Ei; [|discriminate].
  destruct (writerRequest i) as [[| |mc d o]|] eqn:Eq; try discriminate.
  pose proof (good_inv s HG) as HI.
  assert (Ex : exists s' i', bufferFileCreated res err s = Ok s'
            /\ s' = set_inFileMode (Some i') s
            /\ written i' = written i /\ readOffset i' = readOffset i
            /\ file i' = file i /\ readRequest i' = readRequest i
            /\ (forall mc d o, writerRequest i' = Some (Move mc d o) ->
                mc_written mc = 0)).
  { unfold bufferFileCreated, deref. rewrite Ei. simpl.
    destruct (negb (res =? -1)) eqn:Er.
    - unfold moveNextBufferToFile, deref. simpl.
      destruct (nbuffers s =? 0); [|destruct (empty _)];
        eexists; eexists; (split; [reflexivity|]);
        (split; [reflexivity|]); simpl; repeat split; try reflexivity;
        intros mc d o K; inv K; reflexivity.
    - simpl in Hff. rewrite Hff.
      unfold createBufferFile, deref. simpl.
      eexists; eexists; (split; [reflexivity|]);
        (split; [reflexivity|]); simpl; repeat split; try reflexivity.
      intros mc d o K.
      destruct (delayInFileModeSwitching config =? 0); discriminate. }
  destruct Ex as (s' & i' & E & Es & X1 & X2 & X3 & X4 & X5).
  exists s'. split; [exact E|].
  pose proof (bufferFileCreated_Inv res err s s' i HI Ei Eq E) as HI'.
  destruct (Good_writer_step s s' i i') as [G S]; try assumption;
    try (rewrite Es; reflexivity).
  split; [exact G|]. split.
  - rewrite S, app_nil_r. reflexivity.
  - rewrite Es. simpl. split; [auto|]. intros [K|K]; [exact K | discriminate].
Qed.

Lemma pending_written (s s' : FBC) (i i' : InFileMode) (b : mbuf)
    (q' : list mbuf) :
  Inv s -> file_ok s -> inFileMode s = Some i -> inFileMode s' = Some i' ->
  queue s = b :: q' -> queue s' = q' ->
  written i' = written i + size b -> readOffset i' = readOffset i ->
  file i' = write_at (file i) (readOffset i + written i) b ->
  pending s' = pending s.
Proof.
  intros HI Hf Ei Ei' Hq Hq' Hw Hro Hfile.
  destruct (Hf i Ei) as (F1 & F2 & _).
  pose proof (size_nonneg b) as Hb.
  destruct (Z_le_gt_dec 0 (written i)) as [Hpos|Hneg].
  - rewrite (pending_behind s i Ei Hpos).
    rewrite (pending_behind s' i' Ei') by lia.
    rewrite Hq, Hq', Hw, Hro, Hfile. simpl concat.
    rewrite read_at_write_at by lia. rewrite <- app_assoc. reflexivity.
  - assert (Hal : aligned (- written i) (b :: q'))
      by (rewrite <- Hq; apply (inv_aligned s HI i Ei); lia).
    assert (Hal' : aligned (- written i - size b) q')
      by (apply aligned_pop; [exact Hal | lia]).
    pose proof (aligned_bounds _ _ Hal') as Hbd.
    rewrite (pending_ahead s i Ei) by lia.
    rewrite (pending_ahead s' i' Ei') by lia.
    rewrite Hq, Hq', Hw. simpl concat.
    replace (Z.to_nat (- written i))
      with (length b + Z.to_nat (- (written i + size b)))%nat
      by (unfold size in *; lia).
    rewrite skipn_app.
    assert (Hsk : skipn (length b + Z.to_nat (- (written i + size b))) b = [])
      by (apply skipn_all2; lia).
    rewrite Hsk. simpl app.
    replace (length b + Z.to_nat (- (written i + size b)) - length b)%nat
      with (Z.to_nat (- (written i + size b))) by lia.
    reflexivity.
Qed.

Lemma firstn_size (b : mbuf) : firstn (Z.to_nat (size b)) b = b.
Proof. unfold size. rewrite Nat2Z.id. apply firstn_all. Qed.

(** A write of the front buffer completes in full. *)
Lemma written_good (res err : Z) (s : FBC) :
  Good s -> enabled (EvWritten res err) s = true ->
  fault_free (EvWritten res err) s = true ->
  exists s', step (EvWritten res err) s = Ok s'
             /\ step_good (EvWritten res err) s s'.
Proof.
  intros HG Hen Hff. pose proof (good_inv s HG) as HI.
  pose proof Hen as Hen0. simpl in Hen, Hff.
  destruct (inFileMode s) as [i|] eqn:Ei; [|discriminate].
  destruct (writerRequest i) as [[| |mc d o]|] eqn:Eq; try discriminate.
  apply Z.eqb_eq in Hff.
  pose proof (inv_writer s HI i Ei) as Hw. unfold writer_ok in Hw.
  rewrite Eq in Hw. destruct (writerState i) eqn:Ews; try contradiction.
  destruct Hw as (W1 & W2 & W3 & W4 & W5).
  destruct (good_file s HG i Ei) as (F1 & F2 & F3 & F4).
  pose proof (F3 mc d o Eq) as Hmc0. rewrite Hmc0 in *. simpl in W4.
  subst d. pose proof (size_nonneg (mc_buffer mc)) as Hsz.
  assert (Hn0 : nbuffers s <> 0) by lia.
  pose proof (queue_nonempty s Hn0) as Hq.
  pose proof (queue_popBuffer s (inv_queue s HI) Hn0) as Hpq.
  rewrite Hq in Hpq. simpl tl in Hpq.
  destruct (popBuffer_fields s) as (Hpc & Hpm & Hpr & Hpe & Hpi).
  assert (Ex : exists s' i', step (EvWritten res err) s = Ok s'
            /\ s' = set_inFileMode (Some i') (popBuffer s)
            /\ written i' = written i + size (firstBuffer s)
            /\ readOffset i' = readOffset i
            /\ file i' = write_at (file i) (readOffset i + written i)
                           (firstBuffer s)
            /\ readRequest i' = readRequest i
            /\ (forall mc d o, writerRequest i' = Some (Move mc d o) ->
                mc_written mc = 0)).
  { simpl step. rewrite Ei, Eq. unfold bufferWrittenToFile, deref.
    replace (res =? -1) with false by (symmetry; apply Z.eqb_neq; lia).
    cbn [negb inFileMode set_inFileMode mc_written mc_buffer].
    rewrite Hmc0. replace (0 + res =? size (mc_buffer mc)) with true
      by (symmetry; apply Z.eqb_eq; lia).
    rewrite !popBuffer_set_inFileMode.
    rewrite callbackReset_false;
      [|cbn [channel set_inFileMode]; rewrite Hpc; reflexivity
       |cbn [mode set_inFileMode]; rewrite Hpm; apply (good_mode s HG)].
    cbn [inFileMode set_inFileMode].
    unfold moveNextBufferToFile, deref. cbn [inFileMode set_inFileMode].
    rewrite Hff, firstn_size, W2, W5.
    destruct (nbuffers _ =? 0); [|destruct (empty _)];
      eexists; eexists; (split; [reflexivity|]);
      (split; [reflexivity|]); simpl; repeat split; try reflexivity;
      intros mc' d' o' K; inv K; reflexivity. }
  destruct Ex as (s' & i' & E & Es & X1 & X2 & X3 & X4 & X5).
  exists s'. split; [exact E|].
  pose proof (step_Inv _ _ _ HI Hen0 E) as HI'.
  assert (Ei' : inFileMode s' = Some i') by (rewrite Es; reflexivity).
  assert (Hq' : queue s' = moreBuffers s) by (rewrite Es; exact Hpq).
  assert (Hp : pending s' = pending s)
    by (eapply pending_written; try eassumption; apply (good_file s HG)).
  assert (Hne : firstBuffer s <> []).
  { intros K. rewrite W2, K in W3. unfold size in W3. simpl in W3. lia. }
  assert (Hin : In [] (queue s') <-> In [] (queue s))
    by (rewrite Hq', Hq; apply in_nil_tl; exact Hne).
  split; [|split].
  - constructor.
    + exact HI'.
    + rewrite Es. cbn [mode set_inFileMode]. rewrite Hpm. apply (good_mode s HG).
    + pose proof (good_rest s HG) as Hrest. unfold at_rest in *.
      assert (Hd : drained s -> drained s').
      { unfold drained. rewrite Ei, Ei', Hq', Hq, X1. simpl total_size.
        pose proof (total_size_nonneg (moreBuffers s)). lia. }
      rewrite Es. cbn [readerState channel set_inFileMode].
      rewrite Hpr, Hpc. rewrite <- Es.
      destruct (readerState s); try exact Hrest;
        destruct Hrest as (R1 & R2 & R3); repeat split; auto; tauto.
    + destruct (good_log s HG) as (ds & D1 & D2). exists ds.
      rewrite Es. cbn [readerState channel set_inFileMode].
      rewrite Hpr, Hpc. auto.
    + intros i1 Ei1. rewrite Ei' in Ei1. inv Ei1.
      rewrite X1, X2, X3, X4.
      pose proof (length_write_at (file i) (readOffset i + written i)
                    (firstBuffer s) ltac:(lia)) as Hl.
      pose proof (size_nonneg (firstBuffer s)).
      repeat split; try lia; assumption.
  - unfold stream. rewrite Hp, app_nil_r. rewrite Es.
    cbn [channel set_inFileMode]. rewrite Hpc. reflexivity.
  - rewrite Hin. split; [auto|]. intros [K|K]; [exact K | discriminate].
Qed.

(** The state in which the chunk read from the file has been fed. *)
Lemma read_fed_Inv (s : FBC) (i : InFileMode) (rc : ReadContext) (b : mbuf) :
  Inv s -> inFileMode s = Some i -> readRequest i = Some rc ->
  size b <= written i ->
  Inv (feedChannel b
         (set_readerState RS_FEEDING
            (set_inFileMode
               (Some (set_cursors (readOffset i + size b) (written i - size b)
                        (set_readRequest None i))) s))).
Proof.
  intros HI Ei Hreq Hb.
  pose proof (Inv_pre_file s i HI Ei) as [HQ HS Hm He _ Hrd Ha].
  pose proof (inv_writer s HI i Ei) as Hwr.
  apply Inv_feedChannel.
  apply Inv_in_file with
    (i := set_cursors (readOffset i + size b) (written i - size b)
            (set_readRequest None i));
    simpl; try assumption; try reflexivity.
  - destruct HQ. constructor; assumption.
  - unfold reader_ok. simpl. discriminate.
  - apply writer_ok_cursors with (s := s);
      [exact Hwr | reflexivity | reflexivity | simpl; lia].
  - intros K. replace (written i - size b) with 0 by lia.
    apply aligned_zero.
Qed.

(** A read from the file completes. *)
Lemma read_good (res err : Z) (s : FBC) :
  Good s -> enabled (EvRead res err) s = true ->
  fault_free (EvRead res err) s = true ->
  exists s', step (EvRead res err) s = Ok s'
             /\ step_good (EvRead res err) s s'.
Proof.
  intros HG Hen Hff. pose proof (good_inv s HG) as HI.
  simpl in Hen, Hff. simpl step.
  destruct (inFileMode s) as [i|] eqn:Ei; [|discriminate].
  destruct (readRequest i) as [rc|] eqn:Eq; [|discriminate].
  pose proof (inv_reader s HI i Ei) as Hrd. unfold reader_ok in Hrd.
  rewrite Eq in Hrd. destruct Hrd as (R1 & R2 & R3 & R4).
  destruct (good_file s HG i Ei) as (F1 & F2 & F3 & F4).
  pose proof (F4 rc Eq) as Hrc.
  pose proof (good_mode s HG) as Hme.
  pose proof (good_rest s HG) as Hrest. unfold at_rest in Hrest.
  rewrite R1 in Hrest.
  apply negb_true_iff in Hff. rewrite Hff in Hen.
  assert (Hav : size (read_at (file i) (rc_offset rc) (rc_size rc)) = rc_size rc)
    by (rewrite R4; apply size_read_at_full; lia).
  rewrite Hav in Hen.
  apply andb_true_iff in Hen. destruct Hen as [Hen H3].
  apply andb_true_iff in Hen. destruct Hen as [H1 H2].
  apply Z.leb_le in H1. apply Z.leb_le in H2. apply orb_true_iff in H3.
  assert (Hres : 0 < res)
    by (destruct H3 as [K|K]; [apply Z.ltb_lt in K | apply Z.eqb_eq in K]; lia).
  set (b := firstn (Z.to_nat res)
              (read_at (file i) (rc_offset rc) (rc_size rc))).
  assert (Eb : b = read_at (file i) (readOffset i) res)
    by (unfold b; rewrite R4; apply firstn_read_at; lia).
  assert (Hsb : size b = res)
    by (rewrite Eb; apply size_read_at_full; lia).
  assert (Hbne : b <> []).
  { intros K. rewrite K in Hsb. unfold size in Hsb. simpl in Hsb. lia. }
  set (i2 := set_cursors (readOffset i + size b) (written i - size b)
               (set_readRequest None i)).
  set (X := feedChannel b
              (set_readerState RS_FEEDING (set_inFileMode (Some i2) s))).
  assert (HIX : Inv X) by (apply (read_fed_Inv s i rc b); try assumption; lia).
  assert (Hlog : forallb is_data (log (channel X)) = true).
  { unfold X. simpl. rewrite log_feed, delivery_nonempty by exact Hbne.
    apply forallb_is_data_snoc. apply Good_log_data; [exact HG|].
    rewrite R1. discriminate. }
  assert (HfX : file_ok X).
  { intros i1 Ei1. unfold X in Ei1. simpl in Ei1.
    injection Ei1 as Hi1. rewrite <- Hi1. simpl.
    repeat split; try lia; try assumption. intros rc' K. discriminate. }
  assert (HsX : stream X = stream s).
  { unfold stream, X. simpl. rewrite log_feed, delivered_feed.
    rewrite (pending_behind s i Ei) by lia.
    rewrite (pending_behind _ i2) by (simpl; try reflexivity; lia).
    simpl. rewrite Hsb.
    rewrite (read_at_split (file i) (readOffset i) res (written i)) by lia.
    rewrite Eb, <- !app_assoc. reflexivity. }
  unfold nextChunkDoneReading, deref. rewrite Ei. simpl inFileMode.
  rewrite Hff. cbn [negb]. fold b.
  change (feedChannel b
            (set_readerState RS_FEEDING
               (set_inFileMode
                  (Some (set_cursors
                           (readOffset (set_readRequest None i) + size b)
                           (written (set_readRequest None i) - size b)
                           (set_readRequest None i)))
                  (set_inFileMode (Some (set_readRequest None i)) s))))
    with X.
  rewrite callbackReset_false;
    [|unfold X; simpl; apply generation_feed | unfold X; simpl; exact Hme].
  unfold acceptingInput, mayAcceptInputLater.
  destruct (feed_state_data b (channel s) Hbne) as [Hst|Hst];
    change (state (channel X)) with (state (Channel_feedWithoutRefGuard b (channel s)));
    rewrite Hst.
  - destruct (readNext_good (set_readerState RS_INACTIVE X))
      as (s' & E & G & S1 & S2).
    { constructor; simpl; try assumption.
      - apply Inv_set_readerState; [exact HIX | exact Hme | discriminate |
                                    simpl; discriminate].
      - split; discriminate. }
    exists s'. split; [exact E|]. split; [exact G|]. split.
    + rewrite S1, app_nil_r. exact HsX.
    + rewrite S2. split; [auto|]. intros [K|K]; [exact K | discriminate].
  - eexists. split; [reflexivity|]. split; [|split].
    + constructor; simpl; try assumption.
      * apply Inv_readNextWhenChannelIdle;
          [exact HIX | exact Hme | simpl; discriminate].
      * exists (log (channel X)). rewrite app_nil_r. auto.
    + rewrite app_nil_r. exact HsX.
    + split; [auto|]. intros [K|K]; [exact K | discriminate].
Qed.

(** Every enabled, fault-free event returns and leaves the object at rest
    with the stream extended by what was fed. *)
Lemma step_fault_free (ev : Event) (s : FBC) :
  Good s -> enabled ev s = true -> fault_free ev s = true ->
  (forall b, ev = EvFeed b -> ~ In [] (queue s)) ->
  exists s', step ev s = Ok s' /\ step_good ev s s'.
Proof.
  intros HG Hen Hff Hfeed.
  destruct ev as [b|e| | |sz end_| |res err|res err|res err];
    try discriminate Hff.
  - apply feed_good; [assumption | assumption | apply (Hfeed b); reflexivity].
  - simpl in Hff. apply negb_true_iff in Hff. subst end_.
    apply consumed_good; assumption.
  - apply doneDelaying_good; assumption.
  - apply fileCreated_good; assumption.
  - apply written_good; assumption.
  - apply read_good; assumption.
Qed.

Lemma Good_init : Good init.
Proof.
  constructor.
  - exact Inv_init.
  - reflexivity.
  - unfold at_rest, drained. simpl. repeat split. intros [].
  - exists []. split; reflexivity.
  - intros i Ei. discriminate.
Qed.

Lemma run_fault_free (evs : list Event) (s : FBC) :
  Good s -> (In [] (queue s) -> fed evs = []) ->
  fault_free_run evs s = true -> sentinel_last (fed evs) ->
  exists s', run evs s = Ok s' /\ Good s'
             /\ stream s' = stream s ++ concat (fed evs)
             /\ (In [] (queue s') <-> In [] (queue s) \/ In [] (fed evs)).
Proof.
  revert s. induction evs as [|ev evs IH]; intros s HG Hq Hrun Hsl.
  - exists s. simpl. rewrite app_nil_r. split; [reflexivity|].
    split; [exact HG|]. split; [reflexivity|]. tauto.
  - simpl in Hrun. apply andb_true_iff in Hrun. destruct Hrun as [Hrun Hrest].
    apply andb_true_iff in Hrun. destruct Hrun as [Hen Hff].
    destruct (step_fault_free ev s HG Hen Hff) as (s1 & E1 & G1 & S1 & Q1).
    { intros b Eb Hin. subst ev. specialize (Hq Hin). discriminate. }
    rewrite E1 in Hrest. simpl run. rewrite E1. cbn [bind].
    assert (Hfed : fed (ev :: evs)
                   = match ev with EvFeed b => [b] | _ => [] end ++ fed evs)
      by (destruct ev; reflexivity).
    assert (Hsl1 : sentinel_last (fed evs)).
    { rewrite Hfed in Hsl. destruct ev; simpl in Hsl; try exact Hsl.
      apply Hsl. }
    destruct (IH s1 G1) as (s' & E & G & S & Q); try assumption.
    { intros Hin. apply Q1 in Hin. destruct Hin as [Hin|Hin].
      - specialize (Hq Hin). rewrite Hfed in Hq.
        destruct ev; simpl in Hq; try exact Hq. discriminate.
      - subst ev. simpl in Hsl. destruct Hsl as [[K|K] _];
          [exact K | contradiction K; reflexivity]. }
    exists s'. split; [exact E|]. split; [exact G|]. split.
    + rewrite S, S1, Hfed, concat_app, <- app_assoc. f_equal. f_equal.
      destruct ev; simpl; rewrite ?app_nil_r; reflexivity.
    + rewrite Q, Q1, Hfed, in_app_iff.
      destruct ev as [b|e| | |sz end_| |res err|res err|res err]; simpl.
      1: { split.
           - intros [[K|K]|K]; auto. inv K. auto.
           - intros [K|[[K|[]]|K]]; auto. left. right. rewrite K. reflexivity. }
      all: split; [intros [[K|K]|K]; [auto | discriminate K | auto]
                  | intros [K|[[]|K]]; auto].
Qed.

(** C1 (amended). For every sequence of buffers fed with no sentinel except
    possibly last, each fed from outside the user's callbacks, which do
    not call back into the object, with a consumer that always accepts,
    and provided no operation on the spill file fails and every write
    completes in full: every event returns; what the consumer has been handed followed by what
    is still pending is at every moment the concatenation of the buffers
    fed, so that bytes are handed over in order, none twice and none
    skipped; once the reader is at rest (inactive or terminated) nothing is
    pending and the consumer has been handed exactly the bytes fed; the
    consumer sees data only, followed by the end of the stream iff the
    reader has terminated, which it does only if the sentinel was fed and
    which is the only way it comes to rest once the sentinel was fed; and
    while the reader is not at rest some event of the consumer or of the
    file is enabled.  All of this holds across the transitions between
    in-memory and in-file mode. *)
Theorem order_preservation (evs : list Event) :
  fault_free_run evs init = true -> sentinel_last (fed evs) ->
  exists s,
    run evs init = Ok s
    /\ delivered (log (channel s)) ++ pending s = concat (fed evs)
    /\ (readerState s = RS_INACTIVE \/ readerState s = RS_TERMINATED ->
        pending s = [] /\ delivered (log (channel s)) = concat (fed evs))
    /\ (exists ds, forallb is_data ds = true
          /\ log (channel s)
             = ds ++ match readerState s with
                     | RS_TERMINATED => [Eof]
                     | _ => []
                     end)
    /\ (readerState s = RS_TERMINATED -> In [] (fed evs))
    /\ (In [] (fed evs) -> readerState s <> RS_INACTIVE)
    /\ (readerState s <> RS_INACTIVE -> readerState s <> RS_TERMINATED ->
        exists ev, fed [ev] = [] /\ enabled ev s = true
                   /\ fault_free ev s = true).
Proof.
  intros Hrun Hsl.
  destruct (run_fault_free evs init Good_init) as (s & E & G & S & Q);
    try assumption.
  { intros []. }
  exists s. split; [exact E|].
  unfold stream in S. simpl in S.
  pose proof (good_rest s G) as Hrest. unfold at_rest in Hrest.
  assert (Hq : In [] (queue s) <-> In [] (fed evs)).
  { rewrite Q. simpl. tauto. }
  split; [exact S|]. split; [|split; [|split; [|split]]].
  - intros Hr.
    assert (Hd : drained s).
    { destruct Hr as [Hr|Hr]; rewrite Hr in Hrest; apply Hrest. }
    pose proof (drained_pending s Hd) as Hp. split; [exact Hp|].
    rewrite Hp, app_nil_r in S. exact S.
  - apply (good_log s G).
  - intros Hr. rewrite Hr in Hrest. apply Hq. apply Hrest.
  - intros Hin Hr. rewrite Hr in Hrest. apply Hq in Hin.
    destruct Hrest as (_ & _ & K). contradiction.
  - intros H1 H2. destruct (readerState s) eqn:Er; try contradiction.
    + exists (EvConsumed 0 false). simpl. rewrite Hrest. auto.
    + pose proof (good_inv s G) as HI.
      pose proof (inv_reading s HI Er) as Hm.
      destruct (Inv_ifm_some s HI Hm) as [i Ei].
      pose proof (inv_reader s HI i Ei) as Hrd. unfold reader_ok in Hrd.
      destruct (readRequest i) as [rc|] eqn:Eq; [|contradiction].
      destruct Hrd as (_ & R2 & R3 & R4).
      destruct (good_file s G i Ei) as (F1 & F2 & F3 & F4).
      pose proof (F4 rc Eq) as Hrc.
      exists (EvRead (rc_size rc) 0). simpl. rewrite Ei, Eq.
      assert (Hav : size (read_at (file i) (rc_offset rc) (rc_size rc))
                    = rc_size rc)
        by (rewrite R4; apply size_read_at_full; lia).
      rewrite Hav.
      replace (rc_size rc =? -1) with false
        by (symmetry; apply Z.eqb_neq; lia).
      split; [reflexivity|]. split; [|reflexivity].
      apply andb_true_iff. split; [apply andb_true_iff; split|].
      * apply Z.leb_le. lia.
      * apply Z.leb_le. lia.
      * apply orb_true_iff. left. apply Z.ltb_lt. lia.
Qed.

End FaultFree.

(** * Further properties of the code *)

(** ** What the reader leaves alone *)

Lemma same_writer_refl (i : InFileMode) : same_writer i i.
Proof. repeat split. Qed.

Lemma same_queue_refl (s : FBC) : same_queue s s.
Proof. repeat split. Qed.

Lemma same_queue_queue (s s' : FBC) : same_queue s s' -> queue s' = queue s.
Proof. intros (A & B & C & D). unfold queue. rewrite A, C, D. reflexivity. Qed.

Lemma hasInFileMode_some (s : FBC) (i : InFileMode) :
  inFileMode s = Some i -> hasInFileMode s = true.
Proof. intros E. unfold hasInFileMode. rewrite E. reflexivity. Qed.

Lemma hasInFileMode_none (s : FBC) :
  inFileMode s = None -> hasInFileMode s = false.
Proof. intros E. unfold hasInFileMode. rewrite E. reflexivity. Qed.

Lemma reader_frame_refl (s : FBC) : reader_frame s s.
Proof.
  unfold reader_frame. split; [reflexivity|]. split; [reflexivity|].
  split; [auto|]. destruct (inFileMode s) as [i|] eqn:Ei; [|auto].
  right. exists i. split; [reflexivity|]. split; [apply same_writer_refl|].
  split; [lia|]. split; [reflexivity|]. split; [apply same_queue_refl|].
  reflexivity.
Qed.

(** The frame does not look at the reader state, at what the channel has
    been handed, or at the record of callbacks. *)
Lemma reader_frame_target (s X X' : FBC) :
  reader_frame s X ->
  errcode X' = errcode X ->
  generation (channel X') = generation (channel X) ->
  same_queue X X' -> inFileMode X' = inFileMode X -> mode X' = mode X ->
  reader_frame s X'.
Proof.
  intros (F1 & F2 & F3 & F4) He Hg Hq Hi Hm.
  pose proof (same_queue_queue _ _ Hq) as Q.
  destruct Hq as (Q1 & Q2 & Q3 & Q4).
  unfold reader_frame. split; [congruence|]. split; [congruence|].
  split; [rewrite Q; exact F3|].
  destruct (inFileMode s) as [i|].
  - destruct F4 as [(A & B & C & D & E)|(i' & A & B & C & D & (E1 & E2 & E3 & E4) & F)].
    + left. repeat split; first [congruence | exact E].
    + right. exists i'. split; [congruence|]. split; [exact B|].
      split; [exact C|]. split; [exact D|].
      split; [repeat split; congruence | congruence].
  - destruct F4. split; congruence.
Qed.

Lemma reader_frame_trans (s s1 s2 : FBC) :
  reader_frame s s1 -> hasInFileMode s1 = hasInFileMode s ->
  reader_frame s1 s2 -> reader_frame s s2.
Proof.
  intros (F1 & F2 & F3 & F4) Hh (G1 & G2 & G3 & G4).
  unfold reader_frame. split; [congruence|]. split; [congruence|].
  split; [auto|]. unfold hasInFileMode in Hh.
  destruct (inFileMode s) as [i|].
  - destruct F4 as [(A & _)|(i1 & A & B & C & D & E & F)];
      [rewrite A in Hh; discriminate|].
    rewrite A in G4.
    destruct G4 as [(A' & B' & C' & D' & E')
                   |(i2 & A' & B' & C' & D' & E' & F')].
    + left. repeat split; try assumption.
      rewrite <- (same_queue_queue _ _ E). exact E'.
    + right. exists i2. split; [exact A'|].
      destruct B as (b1 & b2 & b3 & b4). destruct B' as (c1 & c2 & c3 & c4).
      split; [repeat split; congruence|].
      split; [lia|]. split; [lia|].
      destruct E as (e1 & e2 & e3 & e4). destruct E' as (f1 & f2 & f3 & f4).
      split; [repeat split; congruence | congruence].
  - destruct F4 as (A & B). rewrite A in G4. destruct G4 as (A' & B').
    split; congruence.
Qed.

Lemma afterFeeding_frame (s X : FBC) :
  reader_frame s X -> hasInFileMode X = hasInFileMode s ->
  match afterFeeding X with
  | Return (Ok s') => reader_frame s s'
  | Return _ => True
  | GotoBegin s' => reader_frame s s' /\ hasInFileMode s' = hasInFileMode s
  end.
Proof.
  intros HF Hh. unfold afterFeeding.
  destruct (acceptingInput (channel X)); [split; assumption|].
  destruct (mayAcceptInputLater (channel X)); cbv iota;
    (apply reader_frame_target with (X := X); try reflexivity;
     [exact HF | repeat split]).
Qed.

Lemma in_nil_pop (b : mbuf) (q : list mbuf) :
  b <> [] -> In [] (b :: q) -> In [] q.
Proof. intros Hb [E|E]; [congruence | exact E]. Qed.

Lemma walk_none_no_sentinel (q : list mbuf) (t c : Z) :
  walk_queue t c q = None -> ~ In [] q.
Proof.
  intros E K. destruct (walk_finds_sentinel q t c K) as (b & E').
  congruence.
Qed.

Lemma readNext_pass_frame (s : FBC) :
  Inv s -> mode_ge_ERROR (mode s) = false ->
  match readNext_pass s with
  | Return (Ok s') => reader_frame s s'
  | Return _ => True
  | GotoBegin s' => reader_frame s s' /\ hasInFileMode s' = hasInFileMode s
  end.
Proof.
  intros HI Hm. unfold readNext_pass.
  destruct (mode s) eqn:Em; try discriminate.
  - (* in-memory mode *)
    assert (Ei : inFileMode s = None)
      by (apply Inv_ifm_none; [exact HI | congruence]).
    destruct (negb (hasBuffers s)) eqn:Eh.
    { eapply reader_frame_target; [apply reader_frame_refl|..];
        try reflexivity. repeat split. }
    assert (Hn : nbuffers s <> 0).
    { unfold hasBuffers in Eh. bool_hyps. apply Z.ltb_lt in Eh. lia. }
    destruct (empty (peekBuffer s)) eqn:Eb.
    + assert (K : reader_frame s (feedChannel (peekBuffer s)
                                   (set_readerState RS_FEEDING_EOF s))).
      { eapply reader_frame_target; [apply reader_frame_refl|..];
          try reflexivity; [apply generation_feed | repeat split]. }
      destruct (callbackReset _ _); [exact K|].
      eapply reader_frame_target; [exact K|..]; try reflexivity.
      repeat split.
    + apply empty_false_iff in Eb. unfold peekBuffer in Eb.
      destruct (popBuffer_fields s) as (Hc & Hmo & Hrs & He & Hi).
      assert (K : reader_frame s (popBuffer s)).
      { unfold reader_frame. split; [exact He|]. split; [congruence|].
        split.
        - rewrite queue_popBuffer; [|apply (inv_queue s HI) | exact Hn].
          rewrite (queue_nonempty s Hn). simpl. apply in_nil_pop. exact Eb.
        - rewrite Ei. split; congruence. }
      assert (Kh : hasInFileMode (popBuffer s) = hasInFileMode s)
        by (unfold hasInFileMode; rewrite Hi; reflexivity).
      destruct (callbackReset _ (popBuffer s)); [exact K|].
      assert (K2 : reader_frame s (feedChannel (peekBuffer s)
                                     (set_readerState RS_FEEDING (popBuffer s)))).
      { eapply reader_frame_target; [exact K|..]; try reflexivity;
          [apply generation_feed | repeat split]. }
      destruct (callbackReset _ _); [exact K2|].
      apply afterFeeding_frame; [exact K2 | exact Kh].
  - (* in-file mode *)
    destruct (inFileMode s) as [i|] eqn:Ei; [|exact I].
    destruct (written i >? 0) eqn:Ew.
    { unfold readNextChunkFromFile, deref. rewrite Ei.
      unfold reader_frame. cbn. split; [reflexivity|]. split; [reflexivity|].
      split; [rewrite queue_set_inFileMode; auto|].
      rewrite Ei. right. eexists. split; [reflexivity|].
      split; [repeat split|]. cbn. split; [lia|]. split; [lia|].
      split; [repeat split | first [reflexivity | exact Em]]. }
    rewrite Z.gtb_ltb in Ew. apply Z.ltb_ge in Ew.
    rewrite (findBufferForReadProcessing_walk s i HI Ei Ew).
    destruct (walk_queue (- written i) 0 (queue s)) as [b|] eqn:Ewalk;
      cbn [served_result fst snd negb].
    + destruct (empty b) eqn:Eb.
      * assert (K : reader_frame s (feedChannel b
                                     (set_readerState RS_FEEDING_EOF s))).
        { eapply reader_frame_target; [apply reader_frame_refl|..];
            try reflexivity; [apply generation_feed | repeat split]. }
        destruct (callbackReset _ _); [exact K|].
        eapply reader_frame_target; [exact K|..]; try reflexivity.
        repeat split.
      * assert (K : reader_frame s
                      (feedChannel b (set_readerState RS_FEEDING
                         (set_inFileMode
                            (Some (set_cursors (readOffset i + size b)
                                     (written i - size b) i)) s)))).
        { apply reader_frame_target
            with (X := set_inFileMode
                         (Some (set_cursors (readOffset i + size b)
                                  (written i - size b) i)) s);
            try reflexivity; [|apply generation_feed | repeat split].
          unfold reader_frame. split; [reflexivity|]. split; [reflexivity|].
          split; [rewrite queue_set_inFileMode; auto|].
          rewrite Ei. right. eexists. split; [reflexivity|].
          split; [repeat split|]. cbn.
          pose proof (size_nonneg b).
          split; [lia|]. split; [lia|]. split; [repeat split | reflexivity]. }
        destruct (callbackReset _ _); [exact K|].
        apply afterFeeding_frame; [exact K|].
        unfold hasInFileMode. cbn. rewrite Ei. reflexivity.
    + pose proof (walk_none_no_sentinel _ _ _ Ewalk) as Hns.
      destruct (autoTruncateFile config) eqn:Eat.
      * destruct (switchToInMemoryMode (set_readerState RS_INACTIVE s))
          as [s2| |] eqn:Esw; cbn [bind]; try exact I.
        apply switchToInMemoryMode_result in Esw. subst s2.
        unfold reader_frame. cbn. split; [reflexivity|]. split; [reflexivity|].
        split; [intros K; contradiction|].
        rewrite Ei. left. repeat split; try reflexivity; assumption.
      * cbn [bind].
        eapply reader_frame_target; [apply reader_frame_refl|..];
          try reflexivity. repeat split.
Qed.

Lemma reader_frame_mode (s s' : FBC) :
  reader_frame s s' -> hasInFileMode s' = hasInFileMode s -> mode s' = mode s.
Proof.
  intros (_ & _ & _ & F) Hh. unfold hasInFileMode in Hh.
  destruct (inFileMode s) as [i|].
  - destruct F as [(A & _)|(i' & _ & _ & _ & _ & _ & M)];
      [rewrite A in Hh; discriminate | exact M].
  - apply F.
Qed.

Lemma readNextWithoutRefGuard_frame (fuel : nat) (s s' : FBC) :
  Inv s -> readerState s <> RS_READING_FROM_FILE ->
  mode_ge_ERROR (mode s) = false ->
  readNextWithoutRefGuard fuel s = Ok s' -> reader_frame s s'.
Proof.
  revert s. induction fuel as [|fuel IH]; intros s HI Hr Hm E;
    simpl in E; [discriminate|].
  pose proof (readNext_pass_Inv s HI Hr) as P.
  pose proof (readNext_pass_frame s HI Hm) as F.
  destruct (readNext_pass s) as [r|s1].
  - subst r. exact F.
  - destruct P as (P1 & P2). destruct F as (F1 & F2).
    eapply reader_frame_trans; [exact F1 | exact F2 |].
    apply IH; try assumption.
    rewrite (reader_frame_mode _ _ F1 F2). exact Hm.
Qed.

(** ** The reader's loop comes to an end *)

Lemma served_count_le (q : list mbuf) (t c : Z) :
  (served_count t c q <= length q)%nat.
Proof.
  revert c. induction q as [|b q IH]; intros c; simpl; [lia|].
  destruct (c =? t); [lia|]. specialize (IH (c + size b)). lia.
Qed.

Lemma afterFeeding_returns (s X : FBC) :
  readerState X = RS_FEEDING -> mode_ge_ERROR (mode X) = false ->
  (remaining X < remaining s)%nat ->
  pass_returns s (afterFeeding X).
Proof.
  intros Hr Hm Hrem. unfold afterFeeding, acceptingInput, mayAcceptInputLater.
  destruct (state (channel X)) eqn:Es; cbn.
  - repeat split; assumption.
  - discriminate.
  - discriminate.
Qed.

Lemma readNext_pass_returns (s : FBC) :
  Inv s -> mode_ge_ERROR (mode s) = false -> state (channel s) = IDLE ->
  readerState s <> RS_READING_FROM_FILE ->
  pass_returns s (readNext_pass s).
Proof.
  intros HI Hm Hs Hr. unfold readNext_pass.
  destruct (mode s) eqn:Em; try discriminate.
  - (* in-memory mode *)
    assert (Ei : inFileMode s = None)
      by (apply Inv_ifm_none; [exact HI | congruence]).
    destruct (negb (hasBuffers s)) eqn:Eh; [cbn; discriminate|].
    assert (Hn : nbuffers s <> 0).
    { unfold hasBuffers in Eh. bool_hyps. apply Z.ltb_lt in Eh. lia. }
    destruct (empty (peekBuffer s)) eqn:Eb.
    + destruct (callbackReset _ _); cbn; discriminate.
    + destruct (popBuffer_fields s) as (Hc & Hmo & Hrs & He & Hi).
      destruct (callbackReset _ (popBuffer s)); [cbn; congruence|].
      destruct (callbackReset _ _); [cbn; discriminate|].
      apply afterFeeding_returns; [reflexivity | cbn; congruence |].
      unfold remaining. cbn [inFileMode feedChannel set_channel
                               set_readerState].
      rewrite Hi, Ei.
      change (queue (feedChannel (peekBuffer s)
                       (set_readerState RS_FEEDING (popBuffer s))))
        with (queue (popBuffer s)).
      rewrite queue_popBuffer; [|apply (inv_queue s HI) | exact Hn].
      rewrite (queue_nonempty s Hn). simpl. lia.
  - (* in-file mode *)
    destruct (inFileMode s) as [i|] eqn:Ei.
    2:{ destruct (Inv_ifm_some s HI Em) as (i & K). congruence. }
    destruct (written i >? 0) eqn:Ew.
    { unfold readNextChunkFromFile, deref. rewrite Ei. cbn.
      intros _. exact Hs. }
    rewrite Z.gtb_ltb in Ew. apply Z.ltb_ge in Ew.
    rewrite (findBufferForReadProcessing_walk s i HI Ei Ew).
    destruct (walk_queue (- written i) 0 (queue s)) as [b|] eqn:Ewalk;
      cbn [served_result fst snd negb].
    + destruct (empty b) eqn:Eb.
      * destruct (callbackReset _ _); cbn; discriminate.
      * apply empty_false_iff in Eb.
        destruct (callbackReset _ _); [cbn; discriminate|].
        apply afterFeeding_returns; [reflexivity | cbn; rewrite Em; reflexivity |].
        unfold remaining. cbn [inFileMode feedChannel set_channel
                                 set_readerState set_inFileMode].
        rewrite Ei.
        change (queue (feedChannel b (set_readerState RS_FEEDING
                  (set_inFileMode
                     (Some (set_cursors (readOffset i + size b)
                              (written i - size b) i)) s))))
          with (queue s).
        cbn [written set_cursors].
        destruct (served_count_advance _ _ _ _ Ewalk Eb) as (A & B).
        replace (- (written i - size b)) with (- written i + size b) by lia.
        pose proof (served_count_le (queue s) (- written i + size b) 0).
        lia.
    + destruct (autoTruncateFile config) eqn:Eat.
      * assert (K : Inv (set_readerState RS_INACTIVE s)).
        { apply Inv_set_readerState; try assumption;
            [rewrite Em; reflexivity | discriminate]. }
        destruct (switchToInMemoryMode_returns _ K Em) as (s2 & Esw).
        rewrite Esw. cbn [bind].
        apply switchToInMemoryMode_result in Esw. subst s2. cbn.
        discriminate.
      * cbn. discriminate.
Qed.

Lemma readNextWithoutRefGuard_returns (fuel : nat) (s : FBC) :
  Inv s -> mode_ge_ERROR (mode s) = false -> state (channel s) = IDLE ->
  readerState s <> RS_READING_FROM_FILE -> (remaining s < fuel)%nat ->
  exists s', readNextWithoutRefGuard fuel s = Ok s'
             /\ (readerState s' = RS_READING_FROM_FILE ->
                 state (channel s') = IDLE).
Proof.
  revert s. induction fuel as [|fuel IH]; intros s HI Hm Hs Hr Hf; [lia|].
  simpl.
  pose proof (readNext_pass_Inv s HI Hr) as P.
  pose proof (readNext_pass_returns s HI Hm Hs Hr) as R.
  destruct (readNext_pass s) as [r|s1].
  - destruct r as [s'| |]; try contradiction. exists s'. split; [reflexivity|].
    exact R.
  - destruct P as (P1 & P2). destruct R as (R1 & R2 & R3).
    apply IH; try assumption. lia.
Qed.

Lemma readNext_returns (s : FBC) :
  Inv s -> mode_ge_ERROR (mode s) = false -> state (channel s) = IDLE ->
  readerState s <> RS_READING_FROM_FILE ->
  exists s', readNextWithoutRefGuard (S (Z.to_nat (nbuffers s))) s = Ok s'
             /\ (readerState s' = RS_READING_FROM_FILE ->
                 state (channel s') = IDLE).
Proof.
  intros HI Hm Hs Hr. apply readNextWithoutRefGuard_returns; try assumption.
  pose proof (remaining_le s HI). lia.
Qed.

(** ** The descriptor and the writer states *)

Lemma Inv2_frame (s s' : FBC) :
  (forall i, inFileMode s = Some i -> fd_ok i /\ writer_state_ok s i) ->
  reader_frame s s' ->
  forall i', inFileMode s' = Some i' -> fd_ok i' /\ writer_state_ok s' i'.
Proof.
  intros H (_ & _ & _ & F) i' Ei'.
  destruct (inFileMode s) as [i|]; [|destruct F; congruence].
  destruct F as [(A & _)|(i1 & A & (B1 & B2 & B3 & B4) & C & D & E & M)];
    [congruence|].
  assert (i1 = i') by congruence. subst i1.
  destruct (H i eq_refl) as ((F1 & F2 & F3 & F4 & F5) & W). split.
  - unfold fd_ok. rewrite B1, B2. repeat split; try tauto; try lia.
  - pose proof (same_queue_queue _ _ E) as Q.
    destruct E as (E1 & E2 & E3 & E4).
    unfold writer_state_ok in *. rewrite B2.
    unfold passedThreshold, peekBuffer in *. rewrite E1, E2, E3, Q.
    exact W.
Qed.

Lemma queue_sentinel_front (s : FBC) :
  queue_ok s -> sentinel_last (queue s) -> nbuffers s <> 0 ->
  firstBuffer s = [] -> queue s = [[]].
Proof.
  intros HQ HS Hn Hf. rewrite (queue_nonempty s Hn) in *. rewrite Hf in *.
  simpl in HS. destruct HS as ([E|E] & _); [rewrite E; reflexivity|].
  congruence.
Qed.

(** What [moveNextBufferToFile] leaves: the writer inactive when the queue
    is empty, terminated at the sentinel, moving otherwise. *)
Lemma moveNextBufferToFile_effect (s : FBC) (i : InFileMode) :
  inFileMode s = Some i ->
  exists i',
    moveNextBufferToFile s = Ok (set_inFileMode (Some i') s)
    /\ fd i' = fd i /\ readRequest i' = readRequest i
    /\ readOffset i' = readOffset i /\ written i' = written i
    /\ file i' = file i
    /\ match writerState i' with
       | WS_INACTIVE => nbuffers s = 0
       | WS_CREATING_FILE => False
       | WS_MOVING => nbuffers s <> 0 /\ firstBuffer s <> []
       | WS_TERMINATED => nbuffers s <> 0 /\ firstBuffer s = []
       end.
Proof.
  intros Ei. unfold moveNextBufferToFile, deref. rewrite Ei.
  destruct (nbuffers s =? 0) eqn:En.
  - eexists. split; [reflexivity|]. cbn. repeat split. bool_hyps. exact En.
  - bool_hyps. unfold peekBuffer. destruct (empty (firstBuffer s)) eqn:Eb.
    + eexists. split; [reflexivity|]. cbn. repeat split; try assumption.
      apply empty_true_iff. exact Eb.
    + eexists. split; [reflexivity|]. cbn. repeat split; try assumption.
      apply empty_false_iff. exact Eb.
Qed.

Lemma moveNextBufferToFile_Inv2 (s : FBC) (i' : InFileMode) :
  queue_ok s -> sentinel_last (queue s) ->
  0 <= fd i' -> 0 <= readOffset i' -> 0 <= readOffset i' + written i' ->
  match writerState i' with
  | WS_INACTIVE => nbuffers s = 0
  | WS_CREATING_FILE => False
  | WS_MOVING => nbuffers s <> 0 /\ firstBuffer s <> []
  | WS_TERMINATED => nbuffers s <> 0 /\ firstBuffer s = []
  end ->
  fd_ok i' /\ writer_state_ok (set_inFileMode (Some i') s) i'.
Proof.
  intros HQ HS Hfd Hro Hsum Hw. split.
  - unfold fd_ok. repeat split; try lia; intros K; try lia.
    rewrite K in Hw. contradiction.
  - unfold writer_state_ok. pose proof (queue_ok_nbuffers_nonneg s HQ).
    destruct (writerState i'); cbn.
    + intros _. exact Hw.
    + contradiction.
    + destruct Hw. split; [lia | assumption].
    + destruct Hw. rewrite queue_set_inFileMode.
      apply queue_sentinel_front; assumption.
Qed.

Lemma ended_of_sentinel (s : FBC) :
  queue_ok s -> queue s = [[]] -> ended s = true.
Proof.
  intros HQ E. unfold ended, hasBuffers, peekLastBuffer.
  pose proof (q_count s HQ) as Hc. rewrite E in Hc. simpl in Hc.
  rewrite Hc. simpl.
  assert (Hn : nbuffers s <> 0) by lia.
  rewrite (queue_nonempty s Hn) in E. inv E. rewrite H0. reflexivity.
Qed.

Lemma writer_state_ok_push (b : mbuf) (s : FBC) (i : InFileMode) :
  Inv s -> ended s = false ->
  bytesBuffered s + size b <= MAX_MEMORY_BUFFERING ->
  nbuffers s < MAX_BUFFERS ->
  writer_state_ok s i ->
  (writerState i = WS_INACTIVE -> autoStartMover config = false) ->
  writer_state_ok (pushBuffer b s) i.
Proof.
  intros HI He Hb Hn Hw Hauto. pose proof (inv_queue s HI) as HQ.
  pose proof (queue_ok_nbuffers_nonneg s HQ) as Hnn.
  pose proof (q_bytes s HQ) as Hbytes.
  pose proof (total_size_nonneg (queue s)) as Hts.
  pose proof (size_nonneg b) as Hsb.
  unfold writer_state_ok in *. destruct (writerState i).
  - intros K. rewrite (Hauto eq_refl) in K. discriminate.
  - unfold passedThreshold in *. unfold pushBuffer. cbn.
    rewrite uint32_small by lia. rewrite Z.geb_leb in *.
    apply Z.leb_le. apply Z.leb_le in Hw. lia.
  - destruct Hw as (W1 & W2). unfold pushBuffer, peekBuffer in *. cbn.
    replace (nbuffers s =? 0) with false by (symmetry; apply Z.eqb_neq; lia).
    rewrite uint27_small by lia. split; [lia | exact W2].
  - rewrite (ended_of_sentinel s HQ Hw) in He. discriminate.
Qed.


Lemma writer_state_ok_core (s s' : FBC) (i i' : InFileMode) :
  same_queue s s' -> writerState i' = writerState i ->
  writer_state_ok s i -> writer_state_ok s' i'.
Proof.
  intros E Hw W. pose proof (same_queue_queue _ _ E) as Q.
  destruct E as (E1 & E2 & E3 & E4).
  unfold writer_state_ok in *. rewrite Hw.
  unfold passedThreshold, peekBuffer in *. rewrite E1, E2, E3, Q. exact W.
Qed.

Lemma fd_ok_core (i i' : InFileMode) :
  fd i' = fd i -> writerState i' = writerState i ->
  readOffset i <= readOffset i' ->
  readOffset i' + written i' = readOffset i + written i ->
  fd_ok i -> fd_ok i'.
Proof.
  intros A B C D (F1 & F2 & F3 & F4 & F5). unfold fd_ok. rewrite A, B.
  repeat split; try tauto; try lia.
Qed.

(** The parts of [Inv2] on the in-file record do not look at the reader
    state, at the underlying channel or at the record of callbacks. *)
Lemma Inv2_parts_target (s X : FBC) :
  (forall i, inFileMode s = Some i -> fd_ok i /\ writer_state_ok s i) ->
  same_queue s X -> inFileMode X = inFileMode s ->
  forall i, inFileMode X = Some i -> fd_ok i /\ writer_state_ok X i.
Proof.
  intros H Q E i Ei. rewrite E in Ei. destruct (H i Ei) as (A & B).
  split; [exact A|]. eapply writer_state_ok_core; [exact Q | reflexivity | exact B].
Qed.

Lemma Inv2_parts (s : FBC) :
  Inv2 s -> forall i, inFileMode s = Some i -> fd_ok i /\ writer_state_ok s i.
Proof. intros [_ A B] i Ei. split; [apply A | apply B]; exact Ei. Qed.

Lemma Inv2_error (s : FBC) :
  Inv s -> mode_ge_ERROR (mode s) = true -> Inv2 s.
Proof.
  intros HI Hm. destruct (gi_error s (inv_global s HI) Hm) as (A & B).
  constructor; intros; congruence.
Qed.

Lemma setError_error_mode (e : Z) (s s' : FBC) :
  setError e s = Ok s' -> mode_ge_ERROR (mode s') = true.
Proof.
  unfold setError. destruct (mode_ge_ERROR (mode s)) eqn:Em;
    [intros H; inv H; exact Em|].
  unfold bind. destruct (cancelReader s) as [s1| |]; try discriminate.
  destruct (if Mode_eqb (mode s1) IN_FILE_MODE then cancelWriter s1 else Ok s1)
    as [s2| |]; try discriminate.
  destruct (acceptingInput _); intros H; inv H; reflexivity.
Qed.

Lemma setError_Inv2 (e : Z) (s s' : FBC) :
  Inv s -> Inv2 s -> e <> 0 -> setError e s = Ok s' -> Inv2 s'.
Proof.
  intros HI H2 He H.
  apply Inv2_error; [eapply setError_Inv; eassumption|].
  eapply setError_error_mode; exact H.
Qed.

Lemma feed_enqueued_Inv2 (buffer : mbuf) (s : FBC) :
  Inv s -> Inv2 s -> ended s = false ->
  bytesBuffered s + size buffer <= MAX_MEMORY_BUFFERING ->
  nbuffers s < MAX_BUFFERS ->
  exists s2,
    (let s1 := pushBuffer buffer s in
     if Mode_eqb (mode s1) IN_MEMORY_MODE && passedThreshold s1 then
       switchToInFileMode s1
     else if Mode_eqb (mode s1) IN_FILE_MODE then
       deref s1 (fun i =>
         if WriterState_eqb (writerState i) WS_INACTIVE && autoStartMover config
         then moveNextBufferToFile s1 else Ok s1)
     else Ok s1) = Ok s2
    /\ forall i, inFileMode s2 = Some i -> fd_ok i /\ writer_state_ok s2 i.
Proof.
  intros HI H2 Ee Hb Hn. cbv zeta.
  pose proof (Inv_pushBuffer buffer s HI Ee Hb Hn) as K.
  destruct (pushBuffer_fields buffer s) as (_ & Hm & Hr & _ & Hi & _).
  destruct (Mode_eqb (mode (pushBuffer buffer s)) IN_MEMORY_MODE
            && passedThreshold (pushBuffer buffer s)) eqn:E3.
  - bool_hyps. unfold switchToInFileMode, createBufferFile, deref. cbn.
    eexists. split; [reflexivity|]. intros i Ei. cbn in Ei. inv Ei. split.
    + unfold fd_ok. cbn. repeat split; try lia; try reflexivity.
    + unfold writer_state_ok. cbn. unfold passedThreshold in *. exact H0.
  - destruct (Mode_eqb (mode (pushBuffer buffer s)) IN_FILE_MODE) eqn:E4.
    + assert (Hmf : mode s = IN_FILE_MODE).
      { rewrite Hm in E4. destruct (mode s); try discriminate; reflexivity. }
      destruct (Inv_ifm_some s HI Hmf) as (i & Ei).
      destruct (Inv2_parts s H2 i Ei) as (F & W).
      unfold deref. rewrite Hi, Ei.
      destruct (WriterState_eqb (writerState i) WS_INACTIVE
                && autoStartMover config) eqn:E5.
      * bool_hyps.
        assert (Hws : writerState i = WS_INACTIVE)
          by (destruct (writerState i); try discriminate; reflexivity).
        assert (Ei1 : inFileMode (pushBuffer buffer s) = Some i) by congruence.
        destruct (moveNextBufferToFile_effect _ i Ei1)
          as (i' & E & A1 & A2 & A3 & A4 & A5 & A6).
        rewrite E. eexists. split; [reflexivity|].
        intros i0 Ei0. cbn in Ei0. inv Ei0.
        destruct F as (F1 & F2 & F3 & F4 & F5).
        apply moveNextBufferToFile_Inv2; try assumption.
        -- apply (inv_queue _ K).
        -- apply (inv_sentinel _ K).
        -- assert (fd i <> -1) by (intros Q; apply F1 in Q; congruence). lia.
        -- lia.
        -- lia.
      * eexists. split; [reflexivity|]. intros i0 Ei0.
        assert (i0 = i) by congruence. subst i0. split; [exact F|].
        apply writer_state_ok_push; try assumption.
        intros Hws. rewrite Hws in E5. simpl in E5. exact E5.
    + eexists. split; [reflexivity|]. intros i Ei. exfalso.
      assert (Hnf : mode s <> IN_FILE_MODE).
      { rewrite Hm in E4. intros Q. rewrite Q in E4. discriminate. }
      rewrite Hi in Ei. rewrite (Inv_ifm_none s HI Hnf) in Ei. discriminate.
Qed.

Lemma feed_Inv2 (buffer : mbuf) (s : FBC) :
  Inv s -> Inv2 s -> enabled (EvFeed buffer) s = true ->
  exists s', feed buffer s = Ok s' /\ Inv2 s'.
Proof.
  intros HI H2 Hen. unfold feed, feedWithoutRefGuard. simpl in Hen.
  destruct (ended s) eqn:Ee; [exists s; split; [reflexivity | exact H2]|].
  simpl in Hen. bool_hyps.
  destruct (feed_enqueued_Inv2 buffer s HI H2 Ee H H0) as (s2 & E2 & HW).
  pose proof (feed_enqueued buffer s s2 HI Ee H H0 E2) as (K2 & Hr2 & Hc2 & Hm2).
  cbv zeta in E2. rewrite E2. cbn [bind].
  assert (Hmf : mode_ge_ERROR (mode s2) = false).
  { unfold ended in Ee. bool_hyps.
    destruct Hm2 as [Q|(_ & Q)]; rewrite Q; [assumption | reflexivity]. }
  destruct (ReaderState_eqb (readerState s2) RS_INACTIVE) eqn:E6.
  - assert (Hri : readerState s2 = RS_INACTIVE)
      by (destruct (readerState s2); try discriminate; reflexivity).
    destruct (acceptingInput (channel s2)) eqn:Ea.
    + assert (Hs : state (channel s2) = IDLE).
      { unfold acceptingInput in Ea.
        destruct (state (channel s2)); try discriminate; reflexivity. }
      assert (Hrd : readerState s2 <> RS_READING_FROM_FILE) by congruence.
      destruct (readNext_returns s2 K2 Hmf Hs Hrd) as (s' & E & J).
      exists s'. split; [exact E|].
      pose proof (readNextWithoutRefGuard_frame _ _ _ K2 Hrd Hmf E) as F.
      constructor; [exact J | |]; intros i Ei;
        apply (Inv2_frame s2 s' HW F i Ei).
    + eexists. split; [reflexivity|].
      constructor; [cbn; discriminate | |]; intros i Ei;
        apply (Inv2_parts_target s2 (readNextWhenChannelIdle s2) HW
                 ltac:(repeat split) eq_refl i Ei).
  - exists s2. split; [reflexivity|].
    constructor; [|intros i Ei; apply (HW i Ei)..].
    rewrite Hr2, Hc2. apply (inv2_reading s H2).
Qed.

Lemma consumed_Inv2 (sz : Z) (end_ : bool) (s : FBC) :
  Inv s -> Inv2 s -> enabled (EvConsumed sz end_) s = true ->
  exists s', consumed sz end_ s = Ok s' /\ Inv2 s'.
Proof.
  intros HI H2 Hen. simpl in Hen. unfold consumed.
  destruct (state (channel s)) eqn:Es; try discriminate.
  assert (Hnr : readerState s <> RS_READING_FROM_FILE).
  { intros Q. pose proof (inv2_reading s H2 Q). congruence. }
  set (s1 := set_channel (Channel_consumed end_ (channel s)) s).
  assert (K1 : Inv s1) by (apply Inv_set_channel; exact HI).
  assert (HW : forall i, inFileMode s1 = Some i ->
                         fd_ok i /\ writer_state_ok s1 i).
  { apply (Inv2_parts_target s s1 (Inv2_parts s H2)); [repeat split | reflexivity]. }
  unfold onChannelConsumed.
  destruct (ReaderState_eqb (readerState s1) RS_WAITING_FOR_CHANNEL_IDLE) eqn:Er.
  - assert (Hm : mode_ge_ERROR (mode s1) = false).
    { destruct (mode_ge_ERROR (mode s1)) eqn:Em; [|reflexivity].
      destruct (gi_error s1 (inv_global s1 K1) Em) as (Q & _).
      rewrite Q in Er. discriminate. }
    destruct (acceptingInput (channel s1)) eqn:Ea.
    + assert (Hs : state (channel s1) = IDLE).
      { unfold acceptingInput in Ea.
        destruct (state (channel s1)); try discriminate; reflexivity. }
      destruct (readNext_returns s1 K1 Hm Hs Hnr) as (s' & E & J).
      exists s'. split; [exact E|].
      pose proof (readNextWithoutRefGuard_frame _ _ _ K1 Hnr Hm E) as F.
      constructor; [exact J | |]; intros i Ei;
        apply (Inv2_frame s1 s' HW F i Ei).
    + eexists. split; [reflexivity|].
      constructor; [cbn; discriminate | |]; intros i Ei;
        apply (Inv2_parts_target s1 (terminateReaderBecauseOfEOF s1) HW
                 ltac:(repeat split) eq_refl i Ei).
  - destruct (Mode_eqb (mode s1) ERROR_WAITING).
    + eexists. split; [reflexivity|].
      unfold feedErrorWhenChannelIdleOrEnded.
      destruct (isIdle (channel s1));
        (constructor; [intros Q; exfalso; apply Hnr; exact Q | |];
         intros i Ei;
         eapply (Inv2_parts_target s1 _ HW ltac:(repeat split) eq_refl i Ei)).
    + exists s1. split; [reflexivity|].
      constructor; [intros Q; exfalso; apply Hnr; exact Q | |];
        intros i Ei; apply (HW i Ei).
Qed.


Lemma writer_of_request (s : FBC) (i : InFileMode) :
  writer_ok s i ->
  match writerRequest i with
  | Some FileCreationDelay | Some FileCreationOpen =>
      writerState i = WS_CREATING_FILE
  | Some (Move _ _ _) => writerState i = WS_MOVING
  | None => writerState i = WS_INACTIVE \/ writerState i = WS_TERMINATED
  end.
Proof.
  unfold writer_ok.
  destruct (writerState i); destruct (writerRequest i) as [[| |mc d o]|];
    intros H; try contradiction; auto.
Qed.

Lemma doneDelaying_Inv2 (s : FBC) :
  Inv s -> Inv2 s -> enabled EvDoneDelaying s = true ->
  exists s', step EvDoneDelaying s = Ok s' /\ Inv2 s'.
Proof.
  intros HI H2 Hen. simpl in *.
  destruct (inFileMode s) as [i|] eqn:Ei; [|discriminate].
  destruct (writerRequest i) as [[| |mc d o]|] eqn:Eq; try discriminate.
  unfold bufferFileDoneDelaying, deref. rewrite Ei.
  eexists. split; [reflexivity|].
  destruct (Inv2_parts s H2 i Ei) as (F & W).
  constructor.
  - apply (inv2_reading s H2).
  - intros i0 Ei0. cbn in Ei0. inv Ei0.
    eapply fd_ok_core; [..|exact F]; try reflexivity; cbn; lia.
  - intros i0 Ei0. cbn in Ei0. inv Ei0.
    eapply writer_state_ok_core; [|reflexivity|exact W]. repeat split.
Qed.

Lemma fileCreated_Inv2 (res e : Z) (s : FBC) :
  Inv s -> Inv2 s -> enabled (EvFileCreated res e) s = true ->
  io_failure (EvFileCreated res e) = false ->
  exists s', step (EvFileCreated res e) s = Ok s' /\ Inv2 s'.
Proof.
  intros HI H2 Hen Hio. simpl in *.
  destruct (inFileMode s) as [i|] eqn:Ei; [|discriminate].
  destruct (writerRequest i) as [[| |mc d o]|] eqn:Eq; try discriminate.
  pose proof (writer_of_request s i (inv_writer s HI i Ei)) as Hws.
  rewrite Eq in Hws.
  destruct (Inv2_parts s H2 i Ei) as (F & W).
  pose proof F as (F1 & F2 & F3 & F4 & F5).
  unfold bufferFileCreated, deref. rewrite Ei. cbn [inFileMode set_inFileMode].
  destruct (res =? -1) eqn:Er; cbn [negb].
  - simpl in Hio. apply negb_false_iff in Hio. rewrite Hio.
    unfold createBufferFile, deref. cbn [inFileMode set_inFileMode].
    eexists. split; [reflexivity|]. constructor.
    + apply (inv2_reading s H2).
    + intros i0 Ei0. cbn in Ei0. inv Ei0.
      eapply fd_ok_core; [..|exact F]; try reflexivity; cbn;
        try lia. symmetry. exact Hws.
    + intros i0 Ei0. cbn in Ei0. inv Ei0.
      unfold writer_state_ok in *. cbn. rewrite Hws in W. exact W.
  - apply Z.leb_le in Hen.
    set (X := set_inFileMode (Some (set_fd res (set_writerRequest None i)))
                (set_inFileMode (Some (set_writerRequest None i)) s)).
    assert (EX : inFileMode X = Some (set_fd res (set_writerRequest None i)))
      by reflexivity.
    destruct (moveNextBufferToFile_effect X _ EX)
      as (i' & E & A1 & A2 & A3 & A4 & A5 & A6).
    rewrite E. eexists. split; [reflexivity|].
    assert (P : fd_ok i' /\ writer_state_ok (set_inFileMode (Some i') X) i').
    { apply moveNextBufferToFile_Inv2.
      - unfold X. apply queue_ok_set_inFileMode. apply queue_ok_set_inFileMode.
        apply (inv_queue s HI).
      - unfold X. rewrite !queue_set_inFileMode. apply (inv_sentinel s HI).
      - rewrite A1. cbn. exact Hen.
      - rewrite A3. cbn. exact F4.
      - rewrite A3, A4. cbn. exact F5.
      - exact A6. }
    constructor.
    + apply (inv2_reading s H2).
    + intros i0 Ei0. cbn in Ei0. inv Ei0. apply P.
    + intros i0 Ei0. cbn in Ei0. inv Ei0. apply P.
Qed.

Lemma written_Inv2 (res e : Z) (s : FBC) :
  Inv s -> Inv2 s -> enabled (EvWritten res e) s = true ->
  exists s', step (EvWritten res e) s = Ok s' /\ Inv2 s'.
Proof.
  intros HI H2 Hen.
  assert (HS : forall s', step (EvWritten res e) s = Ok s' -> Inv s')
    by (intros s' Q; eapply step_Inv; eassumption).
  simpl in *.
  destruct (inFileMode s) as [i|] eqn:Ei; [|discriminate].
  destruct (writerRequest i) as [[| |mc d o]|] eqn:Eq; try discriminate.
  pose proof (inv_writer s HI i Ei) as Hw. unfold writer_ok in Hw.
  rewrite Eq in Hw. destruct (writerState i) eqn:Ews; try contradiction.
  destruct Hw as (Hn & Hbuf & Hmw & Hdata & Hoff).
  destruct (Inv2_parts s H2 i Ei) as (F & W).
  pose proof F as (F1 & F2 & F3 & F4 & F5).
  assert (Hfd : 0 <= fd i).
  { assert (fd i <> -1) by (intros Q; apply F1 in Q; congruence). lia. }
  assert (Hmode : mode s = IN_FILE_MODE) by (eapply Inv_ifm_mode; eassumption).
  set (f := if res =? -1 then file i
            else write_at (file i) o (firstn (Z.to_nat res) d)) in *.
  unfold bufferWrittenToFile in *. unfold deref in *.
  cbn [inFileMode set_inFileMode] in *.
  destruct (res =? -1) eqn:Er; cbn [negb] in *.
  - (* the write failed *)
    match goal with
    | |- exists s', setError e ?X = Ok s' /\ _ =>
        assert (K : Inv X);
        [|destruct (setError_returns e X K) as (s' & E); exists s';
          split; [exact E|];
          apply Inv2_error; [apply HS; exact E
                            | eapply setError_error_mode; exact E]]
    end.
    eapply pre_file_Inv.
    + eapply pre_file_writer;
        [apply Inv_pre_file; [apply Inv_set_file; eassumption | reflexivity]
        | reflexivity ..].
    + unfold writer_ok. simpl. exact I.
  - bool_hyps. cbn [mc_written mc_buffer] in *.
    destruct (mc_written mc + res =? size (mc_buffer mc)) eqn:Efull.
    + (* the move is complete *)
      rewrite popBuffer_set_inFileMode in *.
      rewrite popBuffer_set_inFileMode in *.
      assert (Ecb : forall o', callbackReset (generation (channel s))
                (set_inFileMode o' (set_inFileMode (Some (set_file f i))
                   (popBuffer s))) = false).
      { intros o'. apply callbackReset_false; simpl.
        - destruct (popBuffer_fields s) as [Hc _]. rewrite Hc. reflexivity.
        - destruct (popBuffer_fields s) as (_ & Hm & _). rewrite Hm.
          rewrite Hmode. reflexivity. }
      cbn [channel set_inFileMode] in *.
      rewrite Ecb in *. cbn [inFileMode set_inFileMode] in *.
      match goal with
      | |- exists s', moveNextBufferToFile ?X = Ok s' /\ _ =>
          set (Y := X) in *
      end.
      match type of Y with
      | _ => match eval unfold Y in Y with
             | set_inFileMode (Some ?r) _ =>
                 assert (EY : inFileMode Y = Some r) by reflexivity
             end
      end.
      destruct (moveNextBufferToFile_effect Y _ EY)
        as (i' & E & A1 & A2 & A3 & A4 & A5 & A6).
      rewrite E in *. eexists. split; [reflexivity|].
      assert (Hn0 : nbuffers s <> 0) by lia.
      assert (P : fd_ok i' /\ writer_state_ok (set_inFileMode (Some i') Y) i').
      { apply moveNextBufferToFile_Inv2.
        - unfold Y. repeat apply queue_ok_set_inFileMode.
          apply queue_ok_popBuffer; [apply (inv_queue s HI) | exact Hn0].
        - unfold Y. rewrite !queue_set_inFileMode.
          rewrite queue_popBuffer; [|apply (inv_queue s HI) | exact Hn0].
          apply sentinel_last_tl. apply (inv_sentinel s HI).
        - rewrite A1. cbn. exact Hfd.
        - rewrite A3. cbn. exact F4.
        - rewrite A3, A4. cbn. pose proof (size_nonneg (mc_buffer mc)). lia.
        - exact A6. }
      constructor.
      * cbn. destruct (popBuffer_fields s) as (Hc & _ & Hr & _).
        rewrite Hc, Hr. apply (inv2_reading s H2).
      * intros i0 Ei0. cbn in Ei0. inv Ei0. apply P.
      * intros i0 Ei0. cbn in Ei0. inv Ei0. apply P.
    + (* the move is incomplete *)
      eexists. split; [reflexivity|]. constructor.
      * apply (inv2_reading s H2).
      * intros i0 Ei0. cbn in Ei0. inv Ei0.
        eapply fd_ok_core; [..|exact F]; try reflexivity; cbn; lia.
      * intros i0 Ei0. cbn in Ei0. inv Ei0.
        eapply writer_state_ok_core; [|reflexivity|exact W]. repeat split.
Qed.


Lemma read_Inv2 (res e : Z) (s : FBC) :
  Inv s -> Inv2 s -> enabled (EvRead res e) s = true ->
  io_failure (EvRead res e) = false ->
  exists s', step (EvRead res e) s = Ok s' /\ Inv2 s'.
Proof.
  intros HI H2 Hen Hio. simpl in *.
  destruct (inFileMode s) as [i|] eqn:Ei; [|discriminate].
  destruct (readRequest i) as [rc|] eqn:Eq; [|discriminate].
  rewrite Hio in Hen. bool_hyps.
  pose proof (Inv_pre_file s i HI Ei) as [HQ HS Hm He _ Hrd Ha].
  unfold reader_ok in Hrd. rewrite Eq in Hrd.
  destruct Hrd as (R1 & R2 & R3 & R4).
  destruct (Inv2_parts s H2 i Ei) as (F & W).
  set (buffer := read_at (file i) (rc_offset rc) (rc_size rc)) in *.
  unfold nextChunkDoneReading, deref. rewrite Ei.
  cbn [inFileMode set_inFileMode].
  replace (res =? -1) with false by (symmetry; apply Z.eqb_neq; exact Hio).
  cbn [negb].
  set (b := firstn (Z.to_nat res) buffer).
  assert (Hb : size b <= written i).
  { pose proof (size_firstn_le (Z.to_nat res) buffer).
    pose proof (size_read_at (file i) (rc_offset rc) (rc_size rc)).
    fold buffer in H4. fold b in H3. lia. }
  set (i2 := set_cursors (readOffset i + size b) (written i - size b)
               (set_readRequest None i)).
  set (s3 := feedChannel b (set_readerState RS_FEEDING
                              (set_inFileMode (Some i2) s))).
  match goal with
  | |- context [callbackReset _ ?X] => change X with s3
  end.
  assert (K : Inv s3) by (apply (read_fed_Inv s i rc b HI Ei Eq Hb)).
  assert (HW : forall i0, inFileMode s3 = Some i0 ->
                          fd_ok i0 /\ writer_state_ok s3 i0).
  { intros i0 Ei0. cbn in Ei0. inv Ei0. split.
    - pose proof (size_nonneg b).
      eapply fd_ok_core; [..|exact F]; try reflexivity; cbn; lia.
    - eapply writer_state_ok_core; [|reflexivity|exact W]. repeat split. }
  assert (Ecb : callbackReset
                  (generation
                     (channel (set_inFileMode (Some (set_readRequest None i)) s)))
                  s3 = false).
  { apply callbackReset_false; [apply generation_feed|].
    cbn. rewrite Hm. reflexivity. }
  rewrite Ecb.
  destruct (acceptingInput (channel s3)) eqn:Ea.
  - assert (Hs : state (channel s3) = IDLE).
    { unfold acceptingInput in Ea.
      destruct (state (channel s3)); try discriminate; reflexivity. }
    set (s4 := set_readerState RS_INACTIVE s3).
    assert (K4 : Inv s4).
    { apply Inv_set_readerState; [exact K | cbn; rewrite Hm; reflexivity |
                                  discriminate | cbn; discriminate]. }
    assert (Hm4 : mode_ge_ERROR (mode s4) = false)
      by (cbn; rewrite Hm; reflexivity).
    assert (Hr4 : readerState s4 <> RS_READING_FROM_FILE)
      by (cbn; discriminate).
    destruct (readNext_returns s4 K4 Hm4 Hs Hr4) as (s' & E & J).
    exists s'. split; [exact E|].
    pose proof (readNextWithoutRefGuard_frame _ _ _ K4 Hr4 Hm4 E) as Fr.
    assert (HW4 : forall i0, inFileMode s4 = Some i0 ->
                             fd_ok i0 /\ writer_state_ok s4 i0)
      by (apply (Inv2_parts_target s3 s4 HW); [repeat split | reflexivity]).
    constructor; [exact J | |]; intros i0 Ei0;
      apply (Inv2_frame s4 s' HW4 Fr i0 Ei0).
  - destruct (mayAcceptInputLater (channel s3));
      (eexists; split; [reflexivity|];
       constructor; [cbn; discriminate | |]; intros i0 Ei0;
       eapply (Inv2_parts_target s3 _ HW ltac:(repeat split) eq_refl i0 Ei0)).
Qed.

Lemma deinitialize_Inv2 (s s' : FBC) :
  Inv s -> deinitialize s = Ok s' -> Inv2 s'.
Proof.
  intros HI H. destruct (deinitialize_returns s HI)
    as (s'' & E & _ & Hr & _ & _ & _ & _ & _ & Hi & _).
  assert (s'' = s') by congruence. subst s''.
  constructor; intros; congruence.
Qed.

Lemma reinitialize_Inv2 (s : FBC) : Inv2 s -> Inv2 (reinitialize s).
Proof.
  intros H2. constructor.
  - reflexivity.
  - intros i Ei. apply (inv2_fd s H2 i Ei).
  - intros i Ei.
    apply (Inv2_parts_target s (reinitialize s) (Inv2_parts s H2)
             ltac:(repeat split) eq_refl i Ei).
Qed.

Lemma Inv2_init : Inv2 init.
Proof. constructor; cbn; intros; discriminate. Qed.

(** Every enabled event returns, the two failed completions apart, and
    keeps the invariants. *)
Lemma step_Inv2 (ev : Event) (s : FBC) :
  Inv s -> Inv2 s -> enabled ev s = true -> io_failure ev = false ->
  exists s', step ev s = Ok s' /\ Inv2 s'.
Proof.
  intros HI H2 Hen Hio. destruct ev as [b|e| | |sz end_| |res e|res e|res e].
  - apply feed_Inv2; assumption.
  - simpl in Hen. bool_hyps. simpl. unfold feedError.
    destruct (setError_returns e s HI) as (s' & E). exists s'.
    split; [exact E|]. eapply setError_Inv2; eassumption.
  - eexists. split; [reflexivity|]. apply reinitialize_Inv2. exact H2.
  - destruct (deinitialize_returns s HI) as (s' & E & _). exists s'.
    split; [exact E|]. eapply deinitialize_Inv2; eassumption.
  - apply consumed_Inv2; assumption.
  - apply doneDelaying_Inv2; assumption.
  - apply fileCreated_Inv2; assumption.
  - apply written_Inv2; assumption.
  - apply read_Inv2; assumption.
Qed.

Lemma io_failure_crashes (ev : Event) (s : FBC) :
  reachable s -> enabled ev s = true -> io_failure ev = true ->
  step ev s = Crash.
Proof.
  intros Hr Hen Hio. destruct ev as [b|e| | |sz end_| |res e|res e|res e];
    try discriminate; simpl in Hio, Hen.
  - bool_hyps. subst res.
    destruct (inFileMode s) as [i|] eqn:Ei; [|discriminate].
    destruct (writerRequest i) as [[| |mc d o]|] eqn:Eq; try discriminate.
    eapply file_creation_failure_crashes; eassumption.
  - bool_hyps. subst res.
    destruct (inFileMode s) as [i|] eqn:Ei; [|discriminate].
    destruct (readRequest i) as [rc|] eqn:Eq; [|discriminate].
    eapply read_failure_crashes; eassumption.
Qed.

Lemma reachable_Inv2 (s : FBC) : reachable s -> Inv2 s.
Proof.
  induction 1 as [|s s' ev Hr IH Hen Hs].
  - exact Inv2_init.
  - destruct (io_failure ev) eqn:Hio.
    + rewrite (io_failure_crashes ev s Hr Hen Hio) in Hs. discriminate.
    + destruct (step_Inv2 ev s (reachable_Inv s Hr) IH Hen Hio) as (s'' & E & K).
      congruence.
Qed.


(** ** Properties of the assertions, the queue and the requests *)

(** X1. [verifyInvariants] never fails between events: in every reachable
    state each of its assertions passes, and the assertions on the read
    request do not dereference a null [inFileMode]. *)
Theorem verifyInvariants_never_fails (s : FBC) :
  reachable s -> verifyInvariants s = Ok true.
Proof.
  intros Hr. pose proof (reachable_Inv s Hr) as HI.
  destruct (inv_global s HI) as [G1 G2 G3].
  unfold verifyInvariants.
  destruct (mode_ge_ERROR (mode s)) eqn:Em.
  - destruct (G3 eq_refl) as (A & B). rewrite A.
    unfold hasInFileMode. rewrite B. cbn.
    assert (He : errcode s <> 0) by (intros Q; apply G1 in Q; discriminate).
    apply Z.eqb_neq in He. rewrite He.
    destruct (mode s); try discriminate; reflexivity.
  - cbn [andb].
    assert (He : errcode s = 0) by (apply G1; reflexivity).
    rewrite He. cbn [Z.eqb negb].
    assert (Hh : Bool.eqb (hasInFileMode s) (Mode_eqb (mode s) IN_FILE_MODE)
                 = true).
    { unfold hasInFileMode. destruct (inFileMode s) as [i|] eqn:Ei.
      - assert (Q : mode s = IN_FILE_MODE) by (apply G2; discriminate).
        rewrite Q. reflexivity.
      - destruct (mode s) eqn:Q; try reflexivity.
        assert (None <> @None InFileMode) by (apply G2; reflexivity).
        congruence. }
    rewrite Hh.
    destruct (readerState s) eqn:Ers; try reflexivity.
    pose proof (inv_reading s HI Ers) as Q. rewrite Q. cbn [Mode_eqb].
    destruct (Inv_ifm_some s HI Q) as (i & Ei). unfold deref. rewrite Ei.
    pose proof (inv_reader s HI i Ei) as R. unfold reader_ok in R.
    destruct (readRequest i) as [rc|]; [|congruence].
    destruct R as (_ & _ & R3 & _). cbn [bind andb].
    replace (written i >? 0) with true
      by (symmetry; rewrite Z.gtb_ltb; apply Z.ltb_lt; exact R3).
    reflexivity.
Qed.

(** X2. The counters describe the queue.  In every reachable state
    [nbuffers] is the number of buffers in [firstBuffer] and [moreBuffers]
    ([moreBuffers] is empty when it is 0), [getBytesBuffered] is the sum of
    their sizes, neither exceeds its limit, and when there are buffers the
    first is no larger than [bytesBuffered], which is what [popBuffer]
    asserts. *)
Theorem counters_describe_queue (s : FBC) :
  reachable s ->
  nbuffers s = Z.of_nat (length (queue s))
  /\ (nbuffers s = 0 -> moreBuffers s = [])
  /\ getBytesBuffered s = total_size (queue s)
  /\ 0 <= nbuffers s <= MAX_BUFFERS
  /\ 0 <= getBytesBuffered s <= MAX_MEMORY_BUFFERING
  /\ (hasBuffers s = true ->
      queue s = peekBuffer s :: moreBuffers s
      /\ peekLastBuffer s = last (queue s) []
      /\ size (peekBuffer s) <= getBytesBuffered s).
Proof.
  intros Hr. pose proof (reachable_Inv s Hr) as HI.
  pose proof (inv_queue s HI) as [Q1 Q2 Q3 Q4 Q5].
  pose proof (total_size_nonneg (queue s)) as Hts.
  unfold getBytesBuffered.
  split; [exact Q1|]. split; [exact Q2|]. split; [exact Q3|].
  split; [lia|]. split; [lia|].
  intros Hh. unfold hasBuffers in Hh. rewrite Z.gtb_ltb in Hh.
  apply Z.ltb_lt in Hh. assert (Hn : nbuffers s <> 0) by lia.
  split; [apply queue_nonempty; exact Hn|].
  split; [apply peekLastBuffer_last; [apply (inv_queue s HI) | exact Hn]|].
  rewrite Q3, (queue_nonempty s Hn). unfold peekBuffer. simpl.
  pose proof (total_size_nonneg (moreBuffers s)). lia.
Qed.

(** X3. The queue is first in, first out.  In a reachable state and within
    the limits [pushBuffer] asserts, [pushBuffer] appends the buffer at the
    end and adds its size to [bytesBuffered]; when there are buffers,
    [popBuffer] removes the first one, subtracts its size, and calls
    [buffersFlushedCallback] exactly when it leaves the queue empty. *)
Theorem pushBuffer_popBuffer_fifo (b : mbuf) (s : FBC) :
  reachable s -> nbuffers s < MAX_BUFFERS ->
  bytesBuffered s + size b <= MAX_MEMORY_BUFFERING ->
  queue (pushBuffer b s) = queue s ++ [b]
  /\ getBytesBuffered (pushBuffer b s) = getBytesBuffered s + size b
  /\ peekLastBuffer (pushBuffer b s) = b
  /\ (hasBuffers s = true ->
      queue (popBuffer s) = tl (queue s)
      /\ getBytesBuffered (popBuffer s)
         = getBytesBuffered s - size (peekBuffer s)
      /\ (queue (popBuffer s) = [] ->
          flushed (popBuffer s) = flushed s ++ [BuffersFlushed])
      /\ (queue (popBuffer s) <> [] -> flushed (popBuffer s) = flushed s)).
Proof.
  intros Hr Hn Hb. pose proof (reachable_Inv s Hr) as HI.
  pose proof (inv_queue s HI) as HQ.
  pose proof (queue_ok_pushBuffer b s HQ Hn Hb) as HQ1.
  pose proof (queue_pushBuffer b s HQ Hn) as E1.
  pose proof (queue_ok_nbuffers_nonneg s HQ) as Hnn.
  split; [exact E1|]. split.
  { unfold getBytesBuffered. rewrite (q_bytes _ HQ1), E1, total_size_app.
    rewrite (q_bytes s HQ). simpl. lia. }
  split.
  { rewrite peekLastBuffer_last; [|exact HQ1|].
    - rewrite E1. apply last_last.
    - pose proof (q_count _ HQ1) as C. rewrite E1, length_app in C.
      cbn [length] in C. lia. }
  intros Hh. unfold hasBuffers in Hh. rewrite Z.gtb_ltb in Hh.
  apply Z.ltb_lt in Hh. assert (Hn0 : nbuffers s <> 0) by lia.
  pose proof (queue_ok_popBuffer s HQ Hn0) as HQ2.
  pose proof (queue_popBuffer s HQ Hn0) as E2.
  split; [exact E2|]. split.
  { unfold getBytesBuffered, peekBuffer. rewrite (q_bytes _ HQ2), E2.
    rewrite (q_bytes s HQ), (queue_nonempty s Hn0). simpl. lia. }
  rewrite E2, (queue_nonempty s Hn0). simpl tl.
  unfold popBuffer. destruct (moreBuffers s) as [|b' more].
  - split; [reflexivity | intros Q; congruence].
  - split; [intros Q; discriminate | reflexivity].
Qed.

(** X4. The requests match the states, as the comments on [InFileMode]
    require: a read request is outstanding iff the reader is reading from
    the file, a writer request iff the writer is creating the file or
    moving; the reader reads from the file only when the file holds unread
    data, and [written] is negative only when buffers are queued. *)
Theorem io_requests_match_states (s : FBC) (i : InFileMode) :
  reachable s -> inFileMode s = Some i ->
  (readRequest i <> None <-> readerState s = RS_READING_FROM_FILE)
  /\ (writerRequest i <> None <->
      writerState i = WS_CREATING_FILE \/ writerState i = WS_MOVING)
  /\ (readerState s = RS_READING_FROM_FILE -> 0 < written i)
  /\ (written i < 0 -> 0 < nbuffers s).
Proof.
  intros Hr Ei. pose proof (reachable_Inv s Hr) as HI.
  pose proof (inv_reader s HI i Ei) as R. unfold reader_ok in R.
  pose proof (inv_writer s HI i Ei) as W. unfold writer_ok in W.
  split; [|split; [|split]].
  - destruct (readRequest i) as [rc|].
    + split; [intros _; apply R | discriminate].
    + split; [congruence | intros Q; contradiction].
  - destruct (writerState i); destruct (writerRequest i) as [[| |mc d o]|];
      try contradiction; split; intros Q; try discriminate; try congruence;
      auto; destruct Q; discriminate.
  - intros Q. destruct (readRequest i) as [rc|]; [apply R | contradiction].
  - intros Q. destruct (inv_aligned s HI i Ei ltac:(lia)) as (k & Hk & Hs).
    pose proof (q_count s (inv_queue s HI)) as C.
    destruct (queue s) as [|b q]; [|simpl in C; lia].
    destruct k; simpl in Hs; lia.
Qed.

(** ** Every handler returns *)


(** X6. When the creation of the spill file fails with an error other
    than EEXIST, [bufferFileCreated] dereferences a null pointer: it has
    set [writerRequest] to NULL and left the writer in WS_CREATING_FILE
    when it calls [setError], whose [cancelWriter] then calls
    [writerRequest->cancel()]. *)
Theorem failed_file_creation_dereferences_null (e : Z) (s : FBC) :
  reachable s -> enabled (EvFileCreated (-1) e) s = true ->
  e <> EEXIST config ->
  step (EvFileCreated (-1) e) s = Crash
  /\ exists i, inFileMode s = Some i
       /\ writerState i = WS_CREATING_FILE
       /\ bufferFileCreated (-1) e s = Crash
       /\ cancelWriter (set_inFileMode (Some (set_writerRequest None i)) s)
          = Crash.
Proof.
  intros Hr Hen He. pose proof (reachable_Inv s Hr) as HI.
  pose proof Hen as Hen'. simpl in Hen'.
  destruct (inFileMode s) as [i|] eqn:Ei; [|discriminate].
  destruct (writerRequest i) as [[| |mc d o]|] eqn:Eq; try discriminate.
  pose proof (file_creation_failure_crashes e s i Hr Ei Eq He) as C.
  split; [exact C|]. exists i. split; [reflexivity|].
  pose proof (writer_of_request s i (inv_writer s HI i Ei)) as Hws.
  rewrite Eq in Hws. split; [exact Hws|]. split.
  - simpl in C. rewrite Ei, Eq in C. exact C.
  - unfold cancelWriter, deref. cbn. rewrite Hws. reflexivity.
Qed.

(** X7. When a read from the spill file fails, [nextChunkDoneReading]
    dereferences a null pointer: it has set [readRequest] to NULL and left
    the reader in RS_READING_FROM_FILE when it calls [setError], whose
    [cancelReader] then calls [readRequest->cancel()]. *)
Theorem failed_read_dereferences_null (e : Z) (s : FBC) :
  reachable s -> enabled (EvRead (-1) e) s = true ->
  step (EvRead (-1) e) s = Crash
  /\ exists i, inFileMode s = Some i
       /\ readerState s = RS_READING_FROM_FILE
       /\ cancelReader (set_inFileMode (Some (set_readRequest None i)) s)
          = Crash.
Proof.
  intros Hr Hen. pose proof (reachable_Inv s Hr) as HI.
  pose proof Hen as Hen'. simpl in Hen'.
  destruct (inFileMode s) as [i|] eqn:Ei; [|discriminate].
  destruct (readRequest i) as [rc|] eqn:Eq; [|discriminate].
  split; [eapply read_failure_crashes; eassumption|].
  exists i. split; [reflexivity|].
  pose proof (inv_reader s HI i Ei) as R. unfold reader_ok in R.
  rewrite Eq in R. destruct R as (R1 & _). split; [exact R1|].
  unfold cancelReader, deref. cbn. rewrite R1. reflexivity.
Qed.

(** ** The descriptor and the writer states *)

(** X8. The descriptor of the spill file is valid whenever it is used.
    In every reachable state in in-file mode [fd] is -1 exactly while the
    writer is creating the file; so it is a descriptor the creation has
    returned whenever a write or a read is outstanding, and whenever
    [feed] finds the writer inactive and starts the mover, as
    [moveNextBufferToFile] asserts. *)
Theorem descriptor_valid_when_used (s : FBC) (i : InFileMode) :
  reachable s -> inFileMode s = Some i ->
  (fd i = -1 <-> writerState i = WS_CREATING_FILE)
  /\ (forall mc data off,
        writerRequest i = Some (Move mc data off) -> 0 <= fd i)
  /\ (forall rc, readRequest i = Some rc -> 0 <= fd i)
  /\ (writerState i = WS_INACTIVE -> 0 <= fd i).
Proof.
  intros Hr Ei. pose proof (reachable_Inv s Hr) as HI.
  destruct (inv2_fd s (reachable_Inv2 s Hr) i Ei) as (F1 & F2 & F3 & F4 & F5).
  pose proof (writer_of_request s i (inv_writer s HI i Ei)) as Hws.
  pose proof (inv_reader s HI i Ei) as R. unfold reader_ok in R.
  split; [tauto|]. split; [|split].
  - intros mc data off Eq. rewrite Eq in Hws.
    assert (fd i <> -1) by (intros Q; apply F1 in Q; congruence). lia.
  - intros rc Eq. rewrite Eq in R. destruct R as (_ & _ & R3 & _).
    assert (fd i <> -1) by (intros Q; specialize (F3 Q); lia). lia.
  - intros Q. assert (fd i <> -1) by (intros Q'; apply F1 in Q'; congruence).
    lia.
Qed.

(** X9. The writer states mean what their comments say.  In every
    reachable state in in-file mode: while the writer is creating the file
    the threshold is passed; while it is moving there are buffers and the
    first is not empty; once it has terminated the queue holds the
    sentinel and nothing else; and, when [autoStartMover] is on, it is
    inactive only when no buffer is queued, so that the threshold, if
    positive, is not passed. *)
Theorem writer_state_invariants (s : FBC) (i : InFileMode) :
  reachable s -> inFileMode s = Some i ->
  match writerState i with
  | WS_INACTIVE =>
      autoStartMover config = true ->
      nbuffers s = 0 /\ (0 < threshold config -> passedThreshold s = false)
  | WS_CREATING_FILE => passedThreshold s = true
  | WS_MOVING => 0 < nbuffers s /\ peekBuffer s <> []
  | WS_TERMINATED => queue s = [[]]
  end.
Proof.
  intros Hr Ei. pose proof (reachable_Inv s Hr) as HI.
  pose proof (inv2_writer s (reachable_Inv2 s Hr) i Ei) as W.
  unfold writer_state_ok in W. destruct (writerState i); try exact W.
  intros Ha. specialize (W Ha). split; [exact W|]. intros Ht.
  pose proof (inv_queue s HI) as HQ.
  pose proof (q_bytes s HQ) as B. rewrite (queue_empty s W) in B. simpl in B.
  unfold passedThreshold. rewrite B, Z.geb_leb. apply Z.leb_gt. exact Ht.
Qed.


(** ** Errors and the underlying channel *)

(** What [setError] does when no error has been set before. *)
Lemma setError_effect (e : Z) (s s' : FBC) :
  setError e s = Ok s' -> mode_ge_ERROR (mode s) = false ->
  errcode s' = e /\ readerState s' = RS_TERMINATED /\ inFileMode s' = None
  /\ same_queue s s' /\ flushed s' = flushed s
  /\ if acceptingInput (channel s)
     then mode s' = ERROR /\ channel s' = Channel_feedError e (channel s)
     else mode s' = ERROR_WAITING /\ channel s' = channel s.
Proof.
  intros H Em. unfold setError in H. rewrite Em in H. unfold bind in H.
  destruct (cancelReader s) as [s1| |] eqn:E1; try discriminate.
  pose proof (cancelReader_only_ifm _ _ E1) as O1.
  destruct (if Mode_eqb (mode s1) IN_FILE_MODE then cancelWriter s1 else Ok s1)
    as [s2| |] eqn:E2; try discriminate.
  assert (O2 : only_ifm s s2).
  { destruct (Mode_eqb (mode s1) IN_FILE_MODE).
    - eapply only_ifm_trans; [exact O1|]. eapply cancelWriter_only_ifm; eassumption.
    - inv E2. exact O1. }
  unfold only_ifm in O2. rewrite O2 in H. simpl in H.
  destruct (acceptingInput (channel s)); inv H; cbn; repeat split.
Qed.

Lemma setError_channel_busy (e : Z) (s s' : FBC) :
  setError e s = Ok s' -> acceptingInput (channel s) = false ->
  channel s' = channel s.
Proof.
  intros H Ha. destruct (mode_ge_ERROR (mode s)) eqn:Em.
  - rewrite (setError_in_error_mode e s Em) in H. inv H. reflexivity.
  - destruct (setError_effect e s s' H Em) as (_ & _ & _ & _ & _ & K).
    rewrite Ha in K. apply K.
Qed.

Lemma moveNextBufferToFile_channel (s s' : FBC) :
  moveNextBufferToFile s = Ok s' ->
  channel s' = channel s /\ readerState s' = readerState s
  /\ same_queue s s' /\ flushed s' = flushed s.
Proof.
  intros H. unfold moveNextBufferToFile, deref in H.
  destruct (inFileMode s) as [i|] eqn:Ei; [|discriminate].
  destruct (moveNextBufferToFile_effect s i Ei) as (i' & E & _).
  unfold moveNextBufferToFile, deref in E. rewrite Ei in E.
  rewrite E in H. inv H. repeat split.
Qed.

Lemma bufferWrittenToFile_channel_busy (mc : MoveContext) (res e : Z)
    (s s' : FBC) :
  bufferWrittenToFile mc res e s = Ok s' ->
  acceptingInput (channel s) = false -> channel s' = channel s.
Proof.
  intros H Ha. unfold bufferWrittenToFile, deref in H.
  destruct (inFileMode s) as [i|] eqn:Ei.
  2:{ destruct (negb (res =? -1)); [|discriminate].
      destruct (_ =? _); discriminate. }
  destruct (negb (res =? -1)).
  - cbn [mc_written mc_buffer] in H.
    destruct (mc_written mc + res =? size (mc_buffer mc)).
    + rewrite popBuffer_set_inFileMode in H.
      destruct (popBuffer_fields s) as (Hc & _).
      destruct (callbackReset _ _); [inv H; cbn; exact Hc|].
      cbn [inFileMode set_inFileMode] in H.
      apply moveNextBufferToFile_channel in H. destruct H as (K & _).
      rewrite K. cbn. exact Hc.
    + inv H. reflexivity.
  - apply setError_channel_busy in H; [|exact Ha]. rewrite H. reflexivity.
Qed.

Lemma deinitialize_log (s s' : FBC) :
  deinitialize s = Ok s' ->
  log (channel s') = log (channel s) /\ flushed s' = flushed s.
Proof.
  intros H. unfold deinitialize, bind in H.
  destruct (cancelReader s) as [s1| |] eqn:E1; try discriminate.
  pose proof (cancelReader_only_ifm _ _ E1) as O1.
  destruct (if Mode_eqb (mode s1) IN_FILE_MODE then cancelWriter s1 else Ok s1)
    as [s2| |] eqn:E2; try discriminate.
  assert (O2 : only_ifm s s2).
  { destruct (Mode_eqb (mode s1) IN_FILE_MODE).
    - eapply only_ifm_trans; [exact O1|]. eapply cancelWriter_only_ifm; eassumption.
    - inv E2. exact O1. }
  unfold only_ifm in O2. rewrite O2 in H. cbn in H.
  destruct (inFileMode s2); inv H; split; reflexivity.
Qed.

Lemma not_accepting (c : Channel) :
  state c <> IDLE -> acceptingInput c = false.
Proof. unfold acceptingInput. destruct (state c); congruence. Qed.

Lemma accepting_idle (c : Channel) :
  acceptingInput c = true -> state c = IDLE.
Proof. unfold acceptingInput. destruct (state c); congruence. Qed.

(** X10. Nothing is handed to a consumer that is busy.  When the
    underlying channel is not idle, no entry point and no completion
    handler other than the consumer's own acknowledgement feeds it data,
    the end of the stream or an error: what the consumer has been handed
    is the same when the handler returns. *)
Theorem busy_channel_is_not_fed (ev : Event) (s s' : FBC) :
  reachable s -> enabled ev s = true -> step ev s = Ok s' ->
  state (channel s) <> IDLE ->
  (forall sz end_, ev <> EvConsumed sz end_) ->
  log (channel s') = log (channel s).
Proof.
  intros Hr Hen H Hs Hev. pose proof (reachable_Inv s Hr) as HI.
  pose proof (reachable_Inv2 s Hr) as H2.
  pose proof (not_accepting _ Hs) as Ha.
  destruct ev as [b|e| | |sz end_| |res e|res e|res e]; simpl in H.
  - unfold feed, feedWithoutRefGuard in H. simpl in Hen.
    destruct (ended s) eqn:Ee; [inv H; reflexivity|].
    simpl in Hen. bool_hyps. unfold bind in H.
    match type of H with
    | match ?X with _ => _ end = _ =>
        destruct X as [s2| |] eqn:E2; try discriminate
    end.
    pose proof (feed_enqueued b s s2 HI Ee H0 H1 E2) as (_ & _ & Hc & _).
    rewrite Hc, Ha in H.
    destruct (ReaderState_eqb (readerState s2) RS_INACTIVE); inv H;
      cbn; rewrite Hc; reflexivity.
  - unfold feedError in H. rewrite (setError_channel_busy e s s' H Ha).
    reflexivity.
  - inv H. reflexivity.
  - apply deinitialize_log in H. apply H.
  - exfalso. apply (Hev sz end_). reflexivity.
  - destruct (inFileMode s) as [i|] eqn:Ei; [|inv H; reflexivity].
    destruct (writerRequest i) as [[| |mc d o]|]; try (inv H; reflexivity).
    unfold bufferFileDoneDelaying, deref in H. rewrite Ei in H. inv H.
    reflexivity.
  - destruct (inFileMode s) as [i|] eqn:Ei; [|inv H; reflexivity].
    destruct (writerRequest i) as [[| |mc d o]|]; try (inv H; reflexivity).
    unfold bufferFileCreated, deref in H. rewrite Ei in H.
    cbn [inFileMode set_inFileMode] in H.
    destruct (negb (res =? -1)).
    + apply moveNextBufferToFile_channel in H. destruct H as (K & _).
      rewrite K. reflexivity.
    + destruct (e =? EEXIST config).
      * unfold createBufferFile, deref in H. inv H. reflexivity.
      * apply setError_channel_busy in H; [|exact Ha]. rewrite H. reflexivity.
  - destruct (inFileMode s) as [i|] eqn:Ei; [|inv H; reflexivity].
    destruct (writerRequest i) as [[| |mc d o]|]; try (inv H; reflexivity).
    apply bufferWrittenToFile_channel_busy in H; [|exact Ha].
    rewrite H. reflexivity.
  - destruct (inFileMode s) as [i|] eqn:Ei; [|inv H; reflexivity].
    destruct (readRequest i) as [rc|] eqn:Eq; [|inv H; reflexivity].
    exfalso. apply Hs. apply (inv2_reading s H2).
    pose proof (inv_reader s HI i Ei) as R. unfold reader_ok in R.
    rewrite Eq in R. apply R.
Qed.

(** ** The reader's switch back to in-memory mode *)

(** What the switch leaves. *)
Lemma reader_switch_result (sm s' : FBC) :
  Inv sm -> reader_switch sm s' ->
  channel s' = channel sm /\ mode s' = IN_MEMORY_MODE
  /\ readerState s' = RS_INACTIVE /\ nbuffers s' = 0
  /\ inFileMode s' = None /\ errcode s' = errcode sm
  /\ flushed s' = flushed sm ++ [DataFlushed]
  /\ pending sm = [] /\ ~ In [] (queue sm).
Proof.
  intros HI (im & s2 & Hm & Ei & Hw & Hfind & Ht & Esw & Es').
  pose proof (switchToInMemoryMode_result _ _ Esw) as R.
  assert (Hd : drained sm) by (unfold drained; rewrite Ei; split; assumption).
  rewrite Es', R. cbn. repeat split.
  - apply drained_pending. exact Hd.
  - rewrite (findBufferForReadProcessing_walk sm im HI Ei Hw) in Hfind.
    destruct (walk_queue (- written im) 0 (queue sm)) as [b|] eqn:Ewalk;
      [discriminate Hfind|].
    apply (walk_none _ _ _ Ewalk (inv_aligned sm HI im Ei Hw)).
Qed.

(** A pass that goes round has served a buffer from memory: the queue is
    as it was, and so is the stream. *)
Lemma readNext_pass_tied (s : FBC) :
  Inv s -> mode s = IN_FILE_MODE ->
  match readNext_pass s with
  | GotoBegin s1 => queue s1 = queue s /\ stream s1 = stream s
  | Return _ => True
  end.
Proof.
  intros HI Hm. unfold readNext_pass. rewrite Hm.
  destruct (inFileMode s) as [i|] eqn:Ei; [|exact I].
  destruct (written i >? 0) eqn:Ew; [exact I|].
  rewrite Z.gtb_ltb in Ew. apply Z.ltb_ge in Ew.
  rewrite (findBufferForReadProcessing_walk s i HI Ei Ew).
  destruct (walk_queue (- written i) 0 (queue s)) as [b|] eqn:Ewalk;
    cbn [served_result fst snd negb]; [|exact I].
  destruct (empty b) eqn:Eb.
  { destruct (callbackReset _ _); exact I. }
  destruct (callbackReset _ _); [exact I|].
  apply empty_false_iff in Eb.
  destruct (walk_some_nonempty _ _ _ _ Ewalk Eb) as (q1 & q2 & Hq & Hs).
  simpl in Hs.
  unfold afterFeeding.
  destruct (acceptingInput _); [|destruct (mayAcceptInputLater _); exact I].
  split; [reflexivity|].
  set (i' := set_cursors (readOffset i + size b) (written i - size b) i).
  pose proof (size_nonneg b) as Hsz.
  unfold stream. simpl. rewrite log_feed, delivered_feed.
  rewrite (pending_ahead s i Ei Ew).
  rewrite (pending_ahead _ i') by (simpl; try reflexivity; lia).
  change (queue (feedChannel b (set_readerState RS_FEEDING
                   (set_inFileMode (Some i') s)))) with (queue s).
  simpl written. rewrite Hq. rewrite <- Hs.
  rewrite skipn_concat_prefix.
  replace (- (written i - size b))
    with (total_size (q1 ++ [b]))
    by (rewrite total_size_app; simpl; lia).
  replace (q1 ++ b :: q2) with ((q1 ++ [b]) ++ q2)
    by (rewrite <- app_assoc; reflexivity).
  rewrite skipn_concat_prefix. simpl. rewrite app_assoc. reflexivity.
Qed.

Lemma readNextWithoutRefGuard_switched_from (fuel : nat) (s s' : FBC) :
  Inv s -> readerState s <> RS_READING_FROM_FILE -> mode s = IN_FILE_MODE ->
  readNextWithoutRefGuard fuel s = Ok s' -> mode s' = IN_MEMORY_MODE ->
  switched_from s s'.
Proof.
  revert s. induction fuel as [|fuel IH]; intros s HI Hr Hm H Hm'; simpl in H;
    [discriminate|].
  pose proof (readNext_pass_Inv s HI Hr) as HP.
  pose proof (readNext_pass_switch s HI Hm) as HS.
  pose proof (readNext_pass_tied s HI Hm) as HT.
  destruct (readNext_pass s) as [r|s1] eqn:Epass; simpl in HP.
  - subst r. destruct HS as [HS|[HS1 HS2]]; [congruence|].
    split; [exact HS1|]. exists s. split; [apply reaches_start|].
    split; [exact Epass|]. split; [exact HI|]. split; [exact HS2|].
    split; [reflexivity|].
    destruct (reader_switch_result s s' HI HS2)
      as (_ & _ & _ & _ & _ & _ & _ & Hp & _).
    unfold stream. rewrite Hp, app_nil_r. reflexivity.
  - destruct HP as [H1 H2]. destruct HT as [T1 T2].
    destruct (IH s1 H1 H2 HS H Hm') as (A & sm & R & P & B & C & D & E).
    split; [exact A|]. exists sm.
    split; [eapply reaches_round; eassumption|].
    split; [exact P|]. split; [exact B|]. split; [exact C|].
    split; congruence.
Qed.

(** The state in which [feedWithoutRefGuard] starts the reader, in in-file
    mode: the buffer is queued and pending. *)
Lemma feed_enqueued_stream (buffer : mbuf) (s s2 : FBC) :
  Inv s -> mode s = IN_FILE_MODE -> nbuffers s < MAX_BUFFERS ->
  (let s1 := pushBuffer buffer s in
   if Mode_eqb (mode s1) IN_MEMORY_MODE && passedThreshold s1 then
     switchToInFileMode s1
   else if Mode_eqb (mode s1) IN_FILE_MODE then
     deref s1 (fun i =>
       if WriterState_eqb (writerState i) WS_INACTIVE && autoStartMover config
       then moveNextBufferToFile s1 else Ok s1)
   else Ok s1) = Ok s2 ->
  queue s2 = queue s ++ [buffer] /\ stream s2 = stream s ++ buffer.
Proof.
  intros HI Hm Hn E2. cbv zeta in E2.
  destruct (pushBuffer_fields buffer s) as (Hc & Hm1 & _ & _ & Hi1 & _).
  pose proof (queue_pushBuffer buffer s (inv_queue s HI) Hn) as Hq.
  pose proof (pending_pushBuffer buffer s HI Hn) as Hp.
  rewrite Hm1, Hm in E2. cbn [Mode_eqb andb] in E2.
  unfold deref in E2.
  destruct (inFileMode (pushBuffer buffer s)) as [i|] eqn:Ei;
    [|discriminate E2].
  assert (K : queue s2 = queue (pushBuffer buffer s)
              /\ pending s2 = pending (pushBuffer buffer s)
              /\ channel s2 = channel (pushBuffer buffer s)).
  { destruct (WriterState_eqb (writerState i) WS_INACTIVE
              && autoStartMover config).
    - destruct (moveNextBufferToFile_effect _ i Ei)
        as (i' & E & _ & _ & A & B & C & _).
      rewrite E in E2. inv E2. split; [reflexivity|]. split; [|reflexivity].
      eapply pending_ifm; [exact Ei | reflexivity | assumption ..|reflexivity].
    - inv E2. auto. }
  destruct K as (K1 & K2 & K3). split; [congruence|].
  unfold stream. rewrite K2, K3, Hc, Hp, app_assoc. reflexivity.
Qed.

(** The state in which [nextChunkDoneReading] has fed the chunk read: the
    queue is as it was, and so is the stream. *)
Lemma read_fed_stream (res : Z) (s : FBC) (i : InFileMode) (rc : ReadContext) :
  Inv s -> inFileMode s = Some i -> readRequest i = Some rc ->
  0 <= readOffset i ->
  0 <= res <= size (read_at (file i) (rc_offset rc) (rc_size rc)) ->
  let b := firstn (Z.to_nat res)
             (read_at (file i) (rc_offset rc) (rc_size rc)) in
  let i2 := set_cursors (readOffset i + size b) (written i - size b)
              (set_readRequest None i) in
  stream (feedChannel b (set_readerState RS_FEEDING
                           (set_inFileMode (Some i2) s)))
  = stream s.
Proof.
  intros HI Ei Eq Hro Hres b i2.
  pose proof (inv_reader s HI i Ei) as Hrd. unfold reader_ok in Hrd.
  rewrite Eq in Hrd. destruct Hrd as (R1 & R2 & R3 & R4).
  pose proof (size_read_at (file i) (rc_offset rc) (rc_size rc)) as Hav.
  assert (Eb : b = read_at (file i) (readOffset i) res).
  { unfold b. rewrite R4. destruct (Z.eq_dec res 0) as [E0|E0].
    - rewrite E0. reflexivity.
    - apply firstn_read_at. lia. }
  assert (Hsb : size b = res).
  { rewrite Eb. rewrite R4 in Hres. revert Hres. unfold read_at, size.
    rewrite !length_firstn, !length_skipn. lia. }
  unfold stream. simpl. rewrite log_feed, delivered_feed.
  rewrite (pending_behind s i Ei) by lia.
  rewrite (pending_behind _ i2) by (simpl; try reflexivity; lia).
  simpl. rewrite Hsb.
  rewrite (read_at_split (file i) (readOffset i) res (written i)) by lia.
  rewrite Eb, <- !app_assoc. reflexivity.
Qed.

Lemma nextChunkDoneReading_switched_from (res e : Z) (s s' : FBC)
    (i : InFileMode) (rc : ReadContext) :
  Inv s -> inFileMode s = Some i -> readRequest i = Some rc ->
  0 <= readOffset i ->
  0 <= res <= size (read_at (file i) (rc_offset rc) (rc_size rc)) ->
  nextChunkDoneReading (read_at (file i) (rc_offset rc) (rc_size rc)) res e s
  = Ok s' ->
  mode s' = IN_MEMORY_MODE -> switched_by (EvRead res e) s s'.
Proof.
  intros HI Ei Hreq Hro Hres H Hm'.
  pose proof (read_fed_stream res s i rc HI Ei Hreq Hro Hres) as HS.
  cbv zeta in HS.
  unfold nextChunkDoneReading, deref in H. rewrite Ei in H. simpl in H.
  pose proof (Inv_pre_file s i HI Ei) as [HQ HSe Hm He _ Hrd Ha].
  pose proof (inv_writer s HI i Ei) as Hwr.
  unfold reader_ok in Hrd. rewrite Hreq in Hrd.
  destruct Hrd as (R1 & R2 & R3 & R4).
  replace (negb (res =? -1)) with true in H
    by (symmetry; apply negb_true_iff; apply Z.eqb_neq; lia).
  set (b := firstn (Z.to_nat res)
              (read_at (file i) (rc_offset rc) (rc_size rc))) in *.
  assert (Hb : size b <= written i).
  { pose proof (size_firstn_le (Z.to_nat res)
                  (read_at (file i) (rc_offset rc) (rc_size rc))).
    pose proof (size_read_at (file i) (rc_offset rc) (rc_size rc)).
    fold b in H0. lia. }
  set (i2 := set_cursors (readOffset i + size b) (written i - size b)
               (set_readRequest None i)) in *.
  assert (K : Inv (feedChannel b (set_readerState RS_FEEDING
                                    (set_inFileMode (Some i2) s)))).
  { apply Inv_feedChannel.
    apply Inv_in_file with (i := i2); simpl; try assumption; try reflexivity.
    - destruct HQ. constructor; assumption.
    - unfold reader_ok. simpl. discriminate.
    - unfold i2. apply writer_ok_cursors with (s := s);
        [exact Hwr | reflexivity | reflexivity | simpl; lia].
    - intros K. replace (written i - size b) with 0 by lia.
      apply aligned_zero. }
  change (feedChannel b
            (set_readerState RS_FEEDING
               (set_inFileMode (Some i2)
                  (set_inFileMode (Some (set_readRequest None i)) s))))
    with (feedChannel b (set_readerState RS_FEEDING
                           (set_inFileMode (Some i2) s))) in H.
  destruct (callbackReset _ _);
    [inv H; simpl in Hm'; congruence|].
  destruct (acceptingInput _).
  - match type of H with
    | readNext ?X = _ => assert (KI : Inv X)
    end.
    { apply Inv_set_readerState;
        [exact K | simpl; rewrite Hm; reflexivity
        | discriminate | simpl; discriminate]. }
    pose proof (readNextWithoutRefGuard_switched_from _ _ _ KI
                  ltac:(simpl; discriminate) ltac:(simpl; exact Hm) H Hm')
      as SF.
    eexists. split; [exact H|]. split; [|split; [|exact SF]].
    + simpl. rewrite app_nil_r. reflexivity.
    + simpl. rewrite app_nil_r. exact HS.
  - destruct (mayAcceptInputLater _); inv H; simpl in Hm'; congruence.
Qed.

(** Every step from in-file to in-memory mode other than [deinitialize()]
    is the reader's switch, made once everything pending had been handed
    to the consumer. *)
Lemma step_switched_by (ev : Event) (s s' : FBC) :
  Inv s -> Inv2 s -> enabled ev s = true -> step ev s = Ok s' ->
  mode s = IN_FILE_MODE -> ev <> EvDeinitialize ->
  mode s' = IN_MEMORY_MODE -> switched_by ev s s'.
Proof.
  intros HI H2 Hen H Hm Hev.
  assert (Stay : forall x, mode x = IN_FILE_MODE ->
                 mode x = IN_MEMORY_MODE -> switched_by ev s x)
    by (intros x Hx Hx'; congruence).
  destruct ev as [b|e| | |sz end_| |res err|res err|res err];
    simpl in H; try contradiction.
  - (* feed *)
    unfold feed, feedWithoutRefGuard in H. simpl in Hen.
    destruct (ended s) eqn:Ee; [inv H; apply Stay; exact Hm|].
    simpl in Hen. bool_hyps. unfold bind in H.
    match type of H with
    | match ?X with _ => _ end = _ =>
        destruct X as [s2| |] eqn:E2; try discriminate
    end.
    destruct (feed_enqueued b s s2 HI Ee H0 H1 E2) as (K & Hr2 & Hc2 & Hm2).
    destruct (feed_enqueued_stream b s s2 HI Hm H1 E2) as (Q2 & S2).
    assert (Hm2' : mode s2 = IN_FILE_MODE)
      by (destruct Hm2 as [Hm2|[Hm2 _]]; congruence).
    destruct (ReaderState_eqb (readerState s2) RS_INACTIVE) eqn:E6;
      [|inv H; apply Stay; exact Hm2'].
    assert (Hri : readerState s2 = RS_INACTIVE)
      by (destruct (readerState s2); try discriminate; reflexivity).
    destruct (acceptingInput (channel s2)).
    + intros Hm'.
      pose proof (readNextWithoutRefGuard_switched_from _ s2 s' K
                    ltac:(congruence) Hm2' H Hm') as SF.
      exists s2. split; [exact H|]. split; [exact Q2|].
      split; [|exact SF]. rewrite S2. simpl. rewrite app_nil_r. reflexivity.
    + inv H. apply Stay. exact Hm2'.
  - (* feedError *)
    intros Hm'. destruct (setError_mode e s s' H) as [K|K]; congruence.
  - inv H. apply Stay. exact Hm.
  - (* consumed *)
    unfold consumed in H.
    destruct (state (channel s)); try (inv H; apply Stay; exact Hm).
    unfold onChannelConsumed in H. simpl in H.
    destruct (ReaderState_eqb (readerState s) RS_WAITING_FOR_CHANNEL_IDLE) eqn:Er.
    + assert (Hr : readerState s = RS_WAITING_FOR_CHANNEL_IDLE)
        by (destruct (readerState s); try discriminate; reflexivity).
      destruct (acceptingInput _).
      * intros Hm'.
        pose proof (readNextWithoutRefGuard_switched_from _ _ s'
                      (Inv_set_channel _ s HI)
                      ltac:(simpl; congruence) Hm H Hm') as SF.
        eexists. split; [exact H|]. split; [|split; [|exact SF]].
        -- simpl. rewrite app_nil_r. reflexivity.
        -- simpl. rewrite app_nil_r. reflexivity.
      * inv H. apply Stay. exact Hm.
    + destruct (Mode_eqb (mode s) ERROR_WAITING); inv H; apply Stay; [|exact Hm].
      unfold feedErrorWhenChannelIdleOrEnded. destruct (isIdle _); exact Hm.
  - destruct (inFileMode s) as [i|] eqn:Ei; [|inv H; apply Stay; exact Hm].
    destruct (writerRequest i) as [[| |mc d o]|]; try (inv H; apply Stay; exact Hm).
    unfold bufferFileDoneDelaying, deref in H. rewrite Ei in H. inv H.
    apply Stay. exact Hm.
  - destruct (inFileMode s) as [i|] eqn:Ei; [|inv H; apply Stay; exact Hm].
    destruct (writerRequest i) as [[| |mc d o]|]; try (inv H; apply Stay; exact Hm).
    unfold bufferFileCreated, deref in H. rewrite Ei in H. simpl in H.
    destruct (negb (res =? -1)).
    + apply moveNextBufferToFile_mode in H. apply Stay. rewrite H. exact Hm.
    + destruct (err =? EEXIST config).
      * apply createBufferFile_mode in H. apply Stay. rewrite H. exact Hm.
      * intros Hm'. destruct (setError_mode _ _ _ H) as [K|K];
          [congruence | simpl in K; congruence].
  - destruct (inFileMode s) as [i|] eqn:Ei; [|inv H; apply Stay; exact Hm].
    destruct (writerRequest i) as [[| |mc d o]|]; try (inv H; apply Stay; exact Hm).
    unfold bufferWrittenToFile, deref in H.
    cbn [inFileMode set_inFileMode mc_written mc_buffer] in H.
    destruct (negb (res =? -1)).
    + destruct (mc_written mc + res =? size (mc_buffer mc)).
      * rewrite popBuffer_set_inFileMode in H.
        destruct (callbackReset _ _).
        -- inv H. apply Stay. cbn [mode set_inFileMode].
           destruct (popBuffer_fields s) as (_ & Hmo & _).
           rewrite popBuffer_set_inFileMode. cbn [mode set_inFileMode].
           congruence.
        -- cbn [inFileMode set_inFileMode] in H.
           apply moveNextBufferToFile_mode in H. apply Stay. rewrite H.
           cbn [mode set_inFileMode].
           destruct (popBuffer_fields s) as (_ & Hmo & _).
           rewrite popBuffer_set_inFileMode. cbn [mode set_inFileMode].
           congruence.
      * inv H. apply Stay. exact Hm.
    + intros Hm'. destruct (setError_mode _ _ _ H) as [K|K];
        [congruence | simpl in K; congruence].
  - destruct (inFileMode s) as [i|] eqn:Ei; [|inv H; apply Stay; exact Hm].
    destruct (readRequest i) as [rc|] eqn:Eq; [|inv H; apply Stay; exact Hm].
    simpl in Hen. rewrite Ei, Eq in Hen.
    destruct (res =? -1) eqn:Eres.
    { apply Z.eqb_eq in Eres. subst res. exfalso.
      unfold nextChunkDoneReading, deref in H. rewrite Ei in H. simpl in H.
      pose proof (Inv_pre_file s i HI Ei) as [_ _ Hm0 _ _ Hrd _].
      unfold reader_ok in Hrd. rewrite Eq in Hrd. destruct Hrd as (R1 & _).
      eapply setError_crash_reader; [| | | |exact H]; simpl;
        try reflexivity; assumption. }
    bool_hyps.
    apply nextChunkDoneReading_switched_from with (i := i) (rc := rc);
      try assumption.
    + destruct (inv2_fd s H2 i Ei) as (_ & _ & _ & F & _). exact F.
    + lia.
Qed.

(** C4 (amended). Provided the user's callbacks do not call back into the
    object: once the mode is in-file, the only steps that return it to
    in-memory are [deinitialize()] and the reader's switch with
    [autoTruncateFile] enabled, made in a state of the handler's own run,
    with the queue the handler worked on, in which the reader found no
    buffer to serve with [written <= 0] and all the bytes queued already
    served; by then every byte that was pending when the handler was
    called, and every byte it was fed, has been handed to the consumer.
    So, apart from [deinitialize()], the mode never goes from in-file to
    in-memory when [autoTruncateFile] is false, or while the queue holds
    undelivered data or [written > 0]. *)
Theorem in_file_left_by_reader_switch_or_deinitialize (ev : Event) (s s' : FBC) :
  reachable s -> enabled ev s = true -> step ev s = Ok s' ->
  mode s = IN_FILE_MODE -> mode s' = IN_MEMORY_MODE ->
  ev = EvDeinitialize
  \/ (autoTruncateFile config = true
      /\ (exists s0 sm,
            readNext s0 = Ok s'
            /\ queue s0 = queue s ++ fed [ev]
            /\ stream s0 = stream s ++ concat (fed [ev])
            /\ reader_reaches s0 sm
            /\ readNext_pass sm = Return (Ok s')
            /\ Inv sm /\ reader_switch sm s'
            /\ queue sm = queue s ++ fed [ev]
            /\ channel sm = channel s')
      /\ delivered (log (channel s'))
         = delivered (log (channel s)) ++ pending s ++ concat (fed [ev])
      /\ nbuffers s' = 0 /\ inFileMode s' = None).
Proof.
  intros Hr Hen H Hm Hm'.
  assert (D : ev = EvDeinitialize \/ ev <> EvDeinitialize)
    by (destruct ev; (left; reflexivity) || (right; discriminate)).
  destruct D as [D|D]; [left; exact D|]. right.
  destruct (step_switched_by ev s s' (reachable_Inv s Hr) (reachable_Inv2 s Hr)
              Hen H Hm D Hm')
    as (s0 & E0 & Q0 & S0 & A & sm & R & P & B & C & Q & E).
  destruct (reader_switch_result sm s' B C)
    as (R1 & _ & _ & R4 & R5 & _).
  split; [exact A|]. split.
  - exists s0, sm. split; [exact E0|]. split; [exact Q0|]. split; [exact S0|].
    split; [exact R|]. split; [exact P|]. split; [exact B|].
    split; [exact C|]. split; [congruence|]. symmetry. exact R1.
  - split; [|split; assumption].
    rewrite R1, E, S0. unfold stream. rewrite <- app_assoc. reflexivity.
Qed.

(** ** The threshold *)

Lemma feed_returns (b : mbuf) (s : FBC) :
  reachable s -> enabled (EvFeed b) s = true -> exists s', feed b s = Ok s'.
Proof.
  intros Hr Hen.
  destruct (feed_Inv2 b s (reachable_Inv s Hr) (reachable_Inv2 s Hr) Hen)
    as (s' & E & _).
  exists s'. exact E.
Qed.

(** X11. Below the threshold nothing goes to disk.  A [feed] in in-memory
    mode that leaves fewer than [threshold] bytes buffered returns with
    the object still in in-memory mode and without an in-file record, so
    no file is created. *)
Theorem feed_below_threshold_stays_in_memory (b : mbuf) (s : FBC) :
  reachable s -> enabled (EvFeed b) s = true ->
  mode s = IN_MEMORY_MODE ->
  bytesBuffered s + size b < threshold config ->
  exists s', feed b s = Ok s'
             /\ mode s' = IN_MEMORY_MODE /\ inFileMode s' = None.
Proof.
  intros Hr Hen Hm Hlt. pose proof (reachable_Inv s Hr) as HI.
  assert (Ei : inFileMode s = None)
    by (apply Inv_ifm_none; [exact HI | congruence]).
  destruct (feed_returns b s Hr Hen) as (s' & E). exists s'.
  split; [exact E|].
  unfold feed, feedWithoutRefGuard in E. simpl in Hen.
  destruct (ended s) eqn:Ee; [inv E; split; assumption|].
  simpl in Hen. bool_hyps.
  pose proof (Inv_pushBuffer b s HI Ee H H0) as K.
  destruct (pushBuffer_fields b s) as (_ & Hm1 & Hr1 & _ & Hi1 & _).
  assert (Hpt : passedThreshold (pushBuffer b s) = false).
  { unfold passedThreshold, pushBuffer. cbn.
    pose proof (q_bytes s (inv_queue s HI)).
    pose proof (total_size_nonneg (queue s)). pose proof (size_nonneg b).
    rewrite uint32_small by lia. rewrite Z.geb_leb. apply Z.leb_gt. exact Hlt. }
  rewrite Hpt, Hm1, Hm in E. cbn [Mode_eqb andb bind] in E.
  destruct (ReaderState_eqb (readerState (pushBuffer b s)) RS_INACTIVE) eqn:E6;
    [|inv E; split; congruence].
  destruct (acceptingInput (channel (pushBuffer b s)));
    [|inv E; cbn; split; congruence].
  assert (Hri : readerState (pushBuffer b s) <> RS_READING_FROM_FILE).
  { destruct (readerState (pushBuffer b s)); try discriminate. }
  assert (Hmf : mode_ge_ERROR (mode (pushBuffer b s)) = false)
    by (rewrite Hm1, Hm; reflexivity).
  pose proof (readNextWithoutRefGuard_frame _ _ _ K Hri Hmf E)
    as (_ & _ & _ & F).
  rewrite Hi1, Ei in F. destruct F as (F1 & F2). split; congruence.
Qed.

(** X12. Passing the threshold starts the creation of the spill file.  A
    [feed] that is accepted in in-memory mode and leaves at least
    [threshold] bytes buffered switches to in-file mode and issues the
    creation of the file, after the delay if one is configured, and keeps
    the buffer queued for the writer; unless the reader, run by the same
    [feed], has served the whole queue, so that the consumer has been
    handed every byte that was queued and the buffer fed, and,
    [autoTruncateFile] being on, has switched back and emptied the
    queue. *)
Theorem feed_past_threshold_starts_file_creation (b : mbuf) (s : FBC) :
  reachable s -> mode s = IN_MEMORY_MODE -> ended s = false ->
  nbuffers s < MAX_BUFFERS ->
  bytesBuffered s + size b <= MAX_MEMORY_BUFFERING ->
  threshold config <= bytesBuffered s + size b ->
  exists s',
    feed b s = Ok s'
    /\ ((mode s' = IN_FILE_MODE
         /\ queue s' = queue s ++ [b]
         /\ exists i, inFileMode s' = Some i
              /\ writerState i = WS_CREATING_FILE /\ fd i = -1
              /\ writerRequest i
                 = Some (if delayInFileModeSwitching config =? 0
                         then FileCreationOpen else FileCreationDelay))
        \/ (autoTruncateFile config = true /\ mode s' = IN_MEMORY_MODE
            /\ nbuffers s' = 0 /\ inFileMode s' = None
            /\ delivered (log (channel s'))
               = delivered (log (channel s)) ++ concat (queue s) ++ b)).
Proof.
  intros Hr Hm Ee Hn Hb Hge. pose proof (reachable_Inv s Hr) as HI.
  assert (Hen : enabled (EvFeed b) s = true).
  { simpl. rewrite Ee. simpl. apply andb_true_iff.
    split; [apply Z.leb_le | apply Z.ltb_lt]; assumption. }
  destruct (feed_returns b s Hr Hen) as (s' & E). exists s'.
  split; [exact E|].
  unfold feed, feedWithoutRefGuard in E. rewrite Ee in E.
  pose proof (Inv_pushBuffer b s HI Ee Hb Hn) as K.
  destruct (pushBuffer_fields b s) as (Hc1 & Hm1 & Hr1 & _ & Hi1 & _).
  assert (Hpt : passedThreshold (pushBuffer b s) = true).
  { unfold passedThreshold, pushBuffer. cbn.
    pose proof (q_bytes s (inv_queue s HI)).
    pose proof (total_size_nonneg (queue s)). pose proof (size_nonneg b).
    rewrite uint32_small by lia. rewrite Z.geb_leb. apply Z.leb_le. exact Hge. }
  rewrite Hpt, Hm1, Hm in E. cbn [Mode_eqb andb] in E.
  unfold switchToInFileMode, createBufferFile, deref in E.
  cbn [inFileMode set_inFileMode bind] in E.
  match type of E with
  | context [ReaderState_eqb (readerState ?X) _] => set (s2 := X) in *
  end.
  assert (K2 : Inv s2).
  { apply (switchToInFileMode_Inv (pushBuffer b s) s2 K);
      [congruence | reflexivity]. }
  assert (Q2 : queue s2 = queue s ++ [b]).
  { unfold s2. rewrite queue_set_inFileMode.
    change (queue (set_inFileMode (Some new_InFileMode)
                     (set_mode IN_FILE_MODE (pushBuffer b s))))
      with (queue (pushBuffer b s)).
    apply queue_pushBuffer; [apply (inv_queue s HI) | exact Hn]. }
  assert (Here : mode s2 = IN_FILE_MODE
    /\ queue s2 = queue s ++ [b]
    /\ exists i, inFileMode s2 = Some i
         /\ writerState i = WS_CREATING_FILE /\ fd i = -1
         /\ writerRequest i
            = Some (if delayInFileModeSwitching config =? 0
                    then FileCreationOpen else FileCreationDelay)).
  { split; [reflexivity|]. split; [exact Q2|]. eexists.
    split; [reflexivity|]. cbn. repeat split. }
  destruct (ReaderState_eqb (readerState s2) RS_INACTIVE) eqn:E6;
    [|inv E; left; exact Here].
  destruct (acceptingInput (channel s2)).
  2:{ inv E. left. exact Here. }
  assert (Hri : readerState s2 <> RS_READING_FROM_FILE).
  { destruct (readerState s2); try discriminate. }
  pose proof (readNextWithoutRefGuard_frame _ _ _ K2 Hri eq_refl E)
    as (_ & _ & _ & F).
  destruct Here as (A & B & i & C & D1 & D2 & D3). rewrite C in F.
  destruct F as [(F1 & F2 & F3 & F4 & _)
                |(i' & F1 & (G1 & G2 & G3 & G4) & _ & _ & F5 & F6)].
  - right. repeat split; try assumption.
    destruct (readNextWithoutRefGuard_switched_from _ s2 s' K2 Hri eq_refl E F2)
      as (_ & sm & _ & _ & S1 & S2 & _ & S4).
    destruct (reader_switch_result sm s' S1 S2) as (R1 & _).
    rewrite R1, S4. unfold stream. f_equal.
    rewrite (pending_behind s2 i C) by (inv C; simpl; lia).
    rewrite B, concat_app. inv C. simpl. rewrite app_nil_r. reflexivity.
  - left. split; [congruence|].
    split; [rewrite (same_queue_queue _ _ F5); exact B|].
    exists i'. repeat split; congruence.
Qed.


(** ** A consumer that keeps up *)

(** Reduction of the field projections over the field updates. *)
Ltac fields :=
  cbn [channel mode readerState nbuffers errcode bytesBuffered firstBuffer
       moreBuffers inFileMode flushed set_queue set_channel set_mode
       set_readerState set_errcode set_inFileMode add_flushed
       state generation log].

Lemma pushBuffer_first (b : mbuf) (s : FBC) :
  nbuffers s = 0 -> bytesBuffered s = 0 -> size b <= MAX_MEMORY_BUFFERING ->
  pushBuffer b s = set_queue 1 (size b) b (moreBuffers s) s.
Proof.
  intros Hn Hb Hs. unfold pushBuffer. rewrite Hn, Hb. cbn [Z.eqb Z.add].
  pose proof (size_nonneg b). rewrite uint32_small by lia. reflexivity.
Qed.

Lemma popBuffer_last (s : FBC) :
  moreBuffers s = [] -> nbuffers s = 1 ->
  bytesBuffered s = size (firstBuffer s) ->
  popBuffer s = callBuffersFlushedCallback (set_queue 0 0 [] [] s).
Proof.
  intros Hm Hn Hb. unfold popBuffer. rewrite Hm, Hn, Hb, !Z.sub_diag.
  reflexivity.
Qed.

(** X13. A consumer that keeps up is served without buffering.  When the
    object is in in-memory mode with nothing queued, the reader inactive
    and the underlying channel idle, [feed] of a non-empty buffer smaller
    than the threshold hands that buffer to the consumer before it
    returns and leaves nothing queued; [buffersFlushedCallback] is called,
    and [dataFlushedCallback] too unless the consumer has not finished
    with the buffer yet. *)
Theorem feed_to_idle_consumer_is_not_buffered (b : mbuf) (s : FBC) :
  reachable s -> mode s = IN_MEMORY_MODE -> readerState s = RS_INACTIVE ->
  state (channel s) = IDLE -> nbuffers s = 0 ->
  b <> [] -> size b < threshold config -> size b <= MAX_MEMORY_BUFFERING ->
  exists s',
    feed b s = Ok s'
    /\ log (channel s') = log (channel s) ++ [Data b]
    /\ nbuffers s' = 0 /\ getBytesBuffered s' = 0 /\ moreBuffers s' = []
    /\ mode s' = IN_MEMORY_MODE
    /\ readerState s'
       = match dataCallback (log (channel s)) b with
         | Consumed => RS_INACTIVE
         | ConsumedEnd => RS_TERMINATED
         | NotYet => RS_WAITING_FOR_CHANNEL_IDLE
         end
    /\ flushed s'
       = flushed s ++ BuffersFlushed
           :: match dataCallback (log (channel s)) b with
              | NotYet => []
              | _ => [DataFlushed]
              end.
Proof.
  intros Hr Hm Hrs Hs Hn Hb Hlt Hmax. pose proof (reachable_Inv s Hr) as HI.
  pose proof (inv_queue s HI) as HQ.
  assert (Hmb : moreBuffers s = []) by (apply (q_more s HQ); exact Hn).
  assert (Hbb : bytesBuffered s = 0).
  { rewrite (q_bytes s HQ), (queue_empty s Hn). reflexivity. }
  assert (Ee : ended s = false).
  { unfold ended, hasBuffers, Channel_ended. rewrite Hn, Hm, Hs. reflexivity. }
  assert (Hpt : (size b >=? threshold config) = false).
  { rewrite Z.geb_leb. apply Z.leb_gt. exact Hlt. }
  apply empty_false_iff in Hb.
  unfold feed, feedWithoutRefGuard. rewrite Ee.
  rewrite (pushBuffer_first b s Hn Hbb Hmax).
  unfold passedThreshold. fields. rewrite Hm, Hpt.
  cbn [Mode_eqb andb bind]. fields. rewrite Hrs.
  cbn [ReaderState_eqb]. unfold acceptingInput at 1.
  rewrite Hs. change (Z.to_nat 1) with 1%nat.
  cbn [readNextWithoutRefGuard]. unfold readNext_pass at 1.
  fields. rewrite Hm.
  unfold hasBuffers, peekBuffer. fields. cbn [Z.gtb Z.compare negb].
  rewrite Hb.
  rewrite popBuffer_last by (fields; auto).
  unfold callbackReset at 1, callBuffersFlushedCallback. fields.
  rewrite Z.eqb_refl, Hm. cbn [negb orb mode_ge_ERROR].
  unfold callbackReset at 1, feedChannel, Channel_feedWithoutRefGuard.
  fields. rewrite Hb. fields.
  rewrite Z.eqb_refl, Hm. cbn [negb orb mode_ge_ERROR].
  unfold afterFeeding, acceptingInput, mayAcceptInputLater. fields.
  destruct (dataCallback (log (channel s)) b).
  - unfold readNext_pass. fields. rewrite Hm. unfold hasBuffers. fields.
    cbn [Z.gtb Z.compare negb].
    eexists. split; [reflexivity|]. unfold callDataFlushedCallback.
    fields. rewrite <- app_assoc. repeat split; exact Hm.
  - eexists. split; [reflexivity|].
    unfold terminateReaderBecauseOfEOF, callDataFlushedCallback. fields.
    rewrite <- app_assoc. repeat split; exact Hm.
  - eexists. split; [reflexivity|]. unfold readNextWhenChannelIdle. fields.
    repeat split; exact Hm.
Qed.


(** ** The mover *)


(** ** Errors *)

(** X15. [feedError] on an object without an error stores the error code,
    terminates the reader and drops the in-file record, but leaves the
    queue as it is; the error is handed to the consumer at once when the
    underlying channel is idle (mode ERROR), and otherwise deferred (mode
    ERROR_WAITING). *)
Theorem feedError_sets_error (e : Z) (s : FBC) :
  reachable s -> mode s = IN_MEMORY_MODE \/ mode s = IN_FILE_MODE ->
  exists s',
    feedError e s = Ok s'
    /\ errcode s' = e /\ getReaderState s' = RS_TERMINATED
    /\ inFileMode s' = None /\ queue s' = queue s
    /\ getBytesBuffered s' = getBytesBuffered s
    /\ (state (channel s) = IDLE ->
        getMode s' = ERROR
        /\ log (channel s') = log (channel s) ++ [Err e])
    /\ (state (channel s) <> IDLE ->
        getMode s' = ERROR_WAITING /\ channel s' = channel s).
Proof.
  intros Hr Hm. pose proof (reachable_Inv s Hr) as HI.
  assert (Hmf : mode_ge_ERROR (mode s) = false)
    by (destruct Hm as [Q|Q]; rewrite Q; reflexivity).
  unfold feedError. destruct (setError_returns e s HI) as (s' & E).
  exists s'. split; [exact E|].
  destruct (setError_effect e s s' E Hmf) as (A & B & C & D & _ & F).
  pose proof (same_queue_queue _ _ D) as Q. destruct D as (_ & D2 & _).
  unfold getReaderState, getMode, getBytesBuffered.
  split; [exact A|]. split; [exact B|]. split; [exact C|].
  split; [exact Q|]. split; [exact D2|]. split; intros Hs.
  - unfold acceptingInput in F. rewrite Hs in F. destruct F as (F1 & F2).
    split; [exact F1 | rewrite F2; reflexivity].
  - rewrite (not_accepting _ Hs) in F. exact F.
Qed.

Lemma failed_write_effect (e : Z) (s : FBC) (i : InFileMode)
    (mc : MoveContext) (data : mbuf) (off : Z) :
  Inv s -> inFileMode s = Some i ->
  writerRequest i = Some (Move mc data off) ->
  exists s',
    step (EvWritten (-1) e) s = Ok s'
    /\ errcode s' = e /\ getReaderState s' = RS_TERMINATED
    /\ inFileMode s' = None /\ queue s' = queue s
    /\ (state (channel s) = IDLE ->
        getMode s' = ERROR
        /\ log (channel s') = log (channel s) ++ [Err e])
    /\ (state (channel s) <> IDLE ->
        getMode s' = ERROR_WAITING /\ channel s' = channel s).
Proof.
  intros HI Ei Eq.
  assert (Hmode : mode s = IN_FILE_MODE) by (eapply Inv_ifm_mode; eassumption).
  simpl. rewrite Ei, Eq. unfold bufferWrittenToFile, deref.
  cbn [Z.eqb Pos.eqb negb inFileMode set_inFileMode].
  match goal with
  | |- exists s', setError e ?X = Ok s' /\ _ => set (Y := X)
  end.
  assert (K : Inv Y).
  { eapply pre_file_Inv.
    - eapply pre_file_writer;
        [apply Inv_pre_file; [apply Inv_set_file; eassumption | reflexivity]
        | reflexivity ..].
    - unfold writer_ok. simpl. exact I. }
  destruct (setError_returns e Y K) as (s' & E).
  exists s'. split; [exact E|].
  assert (Hmf : mode_ge_ERROR (mode Y) = false)
    by (unfold Y; fields; rewrite Hmode; reflexivity).
  destruct (setError_effect e Y s' E Hmf) as (A & B & C & D & _ & F).
  pose proof (same_queue_queue _ _ D) as Q.
  change (queue Y) with (queue s) in Q.
  change (channel Y) with (channel s) in F.
  unfold getReaderState, getMode.
  split; [exact A|]. split; [exact B|]. split; [exact C|].
  split; [exact Q|]. split; intros Hs.
  - unfold acceptingInput in F. rewrite Hs in F. destruct F as (F1 & F2).
    split; [exact F1 | rewrite F2; reflexivity].
  - rewrite (not_accepting _ Hs) in F. exact F.
Qed.

(** X16. A failed write to the spill file is handled: unlike the other
    two failures, [bufferWrittenToFile] terminates the writer before it
    calls [setError], which then returns with the error code stored, the
    reader terminated and the in-file record dropped.  The buffers still
    queued stay queued; the error is handed to the consumer at once when
    the underlying channel is idle, and otherwise deferred. *)
Theorem failed_write_sets_error (e : Z) (s : FBC) (i : InFileMode)
    (mc : MoveContext) (data : mbuf) (off : Z) :
  reachable s -> inFileMode s = Some i ->
  writerRequest i = Some (Move mc data off) ->
  exists s',
    step (EvWritten (-1) e) s = Ok s'
    /\ errcode s' = e /\ getReaderState s' = RS_TERMINATED
    /\ inFileMode s' = None /\ queue s' = queue s
    /\ (state (channel s) = IDLE ->
        getMode s' = ERROR
        /\ log (channel s') = log (channel s) ++ [Err e])
    /\ (state (channel s) <> IDLE ->
        getMode s' = ERROR_WAITING /\ channel s' = channel s).
Proof.
  intros Hr Ei Eq.
  eapply failed_write_effect; [apply reachable_Inv; exact Hr | eassumption ..].
Qed.

(** X17. A deferred error is delivered by the consumer's acknowledgement.
    In ERROR_WAITING mode, [consumed(size, false)] hands the stored error
    code to the consumer, which ends the underlying channel;
    [consumed(size, true)] ends the channel first, and the error is then
    never handed over. *)
Theorem deferred_error_is_fed_on_acknowledgement (sz : Z) (s : FBC) :
  reachable s -> mode s = ERROR_WAITING -> state (channel s) = CALLING ->
  errcode s <> 0
  /\ (exists s',
        consumed sz false s = Ok s'
        /\ log (channel s') = log (channel s) ++ [Err (errcode s)]
        /\ state (channel s') = EOF_REACHED
        /\ getMode s' = ERROR_WAITING)
  /\ (exists s',
        consumed sz true s = Ok s'
        /\ log (channel s') = log (channel s)
        /\ state (channel s') = EOF_REACHED
        /\ getMode s' = ERROR_WAITING).
Proof.
  intros Hr Hm Hs. pose proof (reachable_Inv s Hr) as HI.
  destruct (inv_global s HI) as [G1 _ G3].
  assert (Hmf : mode_ge_ERROR (mode s) = true) by (rewrite Hm; reflexivity).
  destruct (G3 Hmf) as (Hrs & _).
  split; [intros Q; apply G1 in Q; congruence|].
  unfold consumed, onChannelConsumed. rewrite Hs. fields. rewrite Hrs, Hm.
  cbn [ReaderState_eqb Mode_eqb].
  unfold feedErrorWhenChannelIdleOrEnded, isIdle, acceptingInput,
    Channel_consumed. fields.
  split; (eexists; split; [reflexivity|]); unfold getMode; fields;
    repeat split; exact Hm.
Qed.

(** ** The destructor *)

(** X18. Destroying the object cancels its I/O.  In every reachable state
    [~FileBufferedChannel] returns, having changed nothing but the
    in-file record; the record it releases has neither a read nor a
    writer request, as [~InFileMode] asserts, and [~InFileMode] closes
    the descriptor unless the file was still being created. *)
Theorem destructor_cancels_io (s : FBC) :
  reachable s ->
  exists s',
    FileBufferedChannel_destructor s = Ok s'
    /\ s' = set_inFileMode (inFileMode s') s
    /\ (inFileMode s = None -> inFileMode s' = None)
    /\ forall i, inFileMode s = Some i ->
       exists i', inFileMode s' = Some i'
         /\ readRequest i' = None /\ writerRequest i' = None
         /\ fd i' = fd i
         /\ InFileMode_destructor i'
            = (true, match writerState i with
                     | WS_CREATING_FILE => None
                     | _ => Some (fd i)
                     end).
Proof.
  intros Hr. pose proof (reachable_Inv s Hr) as HI.
  unfold FileBufferedChannel_destructor.
  destruct (cancelReader_returns s HI) as (s1 & E1). rewrite E1. cbn [bind].
  pose proof (cancelReader_only_ifm _ _ E1) as O1.
  assert (Hm1 : mode s1 = mode s) by (rewrite O1; reflexivity).
  rewrite Hm1.
  destruct (inFileMode s) as [i|] eqn:Ei.
  - pose proof (Inv_ifm_mode s i HI Ei) as Hm. rewrite Hm. cbn [Mode_eqb].
    pose proof (inv_reader s HI i Ei) as R. unfold reader_ok in R.
    pose proof (inv_writer s HI i Ei) as W. unfold writer_ok in W.
    destruct (inv2_fd s (reachable_Inv2 s Hr) i Ei) as (F1 & F2 & _).
    assert (Hfd : writerState i <> WS_CREATING_FILE -> (fd i =? -1) = false).
    { intros Q. apply Z.eqb_neq. intros Q'. apply F1 in Q'. congruence. }
    assert (Hfd' : writerState i = WS_CREATING_FILE -> (fd i =? -1) = true).
    { intros Q. apply Z.eqb_eq. apply F1. exact Q. }
    assert (E1' : exists i1, s1 = set_inFileMode (Some i1) s
                  /\ readRequest i1 = None
                  /\ writerState i1 = writerState i
                  /\ writerRequest i1 = writerRequest i /\ fd i1 = fd i).
    { unfold cancelReader, deref in E1. rewrite Ei in E1.
      destruct (readRequest i) as [rc|] eqn:Erq.
      - destruct R as (R1 & _). rewrite R1 in E1. inv E1.
        eexists. split; [reflexivity|]. repeat split.
      - assert (s1 = s) by (destruct (readerState s); inv E1; reflexivity).
        subst s1. exists i.
        split; [destruct s; cbn in *; subst; reflexivity|].
        repeat split. exact Erq. }
    destruct E1' as (i1 & -> & A1 & A2 & A3 & A4).
    unfold cancelWriter, deref. fields. rewrite A2, A3.
    destruct (writerState i) eqn:Ews;
      destruct (writerRequest i) as [[| |mc d o]|] eqn:Erq;
      try contradiction;
      (eexists; split; [reflexivity|]; split; [reflexivity|];
       split; [discriminate|]; intros i0 Ei0; inv Ei0;
       eexists; split; [reflexivity|];
       unfold InFileMode_destructor; cbn; rewrite ?A1, ?A3, ?A4, ?Erq;
       rewrite ?Hfd by discriminate;
       rewrite ?Hfd' by reflexivity; rewrite ?Ews; repeat split).
  - assert (Hm : mode s <> IN_FILE_MODE).
    { intros Q. destruct (Inv_ifm_some s HI Q) as (i & K). congruence. }
    replace (Mode_eqb (mode s) IN_FILE_MODE) with false
      by (destruct (mode s); try reflexivity; congruence).
    exists s1. split; [reflexivity|]. split; [exact O1|].
    assert (Ei1 : inFileMode s1 = None).
    { unfold cancelReader, deref in E1. rewrite Ei in E1.
      destruct (readerState s); inv E1; exact Ei. }
    split; [intros _; exact Ei1 | intros i Q; discriminate].
Qed.

(** ** Retrying the creation of the file *)

(** X19. When the creation of the spill file fails with EEXIST the
    writer tries again: it stays in WS_CREATING_FILE and issues the
    creation anew, through the delay if one is configured, and nothing
    else in the object changes. *)
Theorem eexist_retries_file_creation (s : FBC) :
  reachable s -> enabled (EvFileCreated (-1) (EEXIST config)) s = true ->
  exists i,
    inFileMode s = Some i /\ writerState i = WS_CREATING_FILE
    /\ step (EvFileCreated (-1) (EEXIST config)) s
       = Ok (set_inFileMode
               (Some (set_writerRequest
                        (Some (if delayInFileModeSwitching config =? 0
                               then FileCreationOpen else FileCreationDelay))
                        i)) s).
Proof.
  intros Hr Hen. pose proof (reachable_Inv s Hr) as HI. simpl in Hen. simpl.
  destruct (inFileMode s) as [i|] eqn:Ei; [|discriminate].
  destruct (writerRequest i) as [[| |mc d o]|] eqn:Eq; try discriminate.
  pose proof (writer_of_request s i (inv_writer s HI i Ei)) as Hws.
  rewrite Eq in Hws. exists i. split; [reflexivity|]. split; [exact Hws|].
  unfold bufferFileCreated, deref. rewrite Ei. cbn [Z.eqb negb].
  rewrite Z.eqb_refl. unfold createBufferFile, deref. fields.
  f_equal. destruct s; destruct i; cbn in *. subst. reflexivity.
Qed.


(** ** The reader's handlers and the queue *)

Lemma reader_frame_source (s X s' : FBC) :
  reader_frame X s' ->
  errcode X = errcode s -> generation (channel X) = generation (channel s) ->
  same_queue s X -> inFileMode X = inFileMode s -> mode X = mode s ->
  reader_frame s s'.
Proof.
  intros F He Hg Hq Hi Hm.
  apply reader_frame_trans with (s1 := X); [|unfold hasInFileMode; rewrite Hi;
                                              reflexivity | exact F].
  eapply reader_frame_target; [apply reader_frame_refl|..]; assumption.
Qed.

Lemma consumed_frame (sz : Z) (end_ : bool) (s s' : FBC) :
  Inv s -> Inv2 s -> enabled (EvConsumed sz end_) s = true ->
  consumed sz end_ s = Ok s' -> reader_frame s s'.
Proof.
  intros HI H2 Hen H. simpl in Hen. unfold consumed in H.
  destruct (state (channel s)) eqn:Es; try discriminate.
  assert (Hnr : readerState s <> RS_READING_FROM_FILE).
  { intros Q. pose proof (inv2_reading s H2 Q). congruence. }
  set (s1 := set_channel (Channel_consumed end_ (channel s)) s) in *.
  assert (K1 : Inv s1) by (apply Inv_set_channel; exact HI).
  assert (T : forall X, errcode X = errcode s1 ->
                        generation (channel X) = generation (channel s1) ->
                        same_queue s1 X -> inFileMode X = inFileMode s1 ->
                        mode X = mode s1 -> reader_frame s X).
  { intros X A B C D E.
    eapply reader_frame_target; [apply reader_frame_refl|..]; assumption. }
  unfold onChannelConsumed in H.
  destruct (ReaderState_eqb (readerState s1) RS_WAITING_FOR_CHANNEL_IDLE) eqn:Er.
  - assert (Hm : mode_ge_ERROR (mode s1) = false).
    { destruct (mode_ge_ERROR (mode s1)) eqn:Em; [|reflexivity].
      destruct (gi_error s1 (inv_global s1 K1) Em) as (Q & _).
      rewrite Q in Er. discriminate. }
    destruct (acceptingInput (channel s1)).
    + pose proof (readNextWithoutRefGuard_frame _ _ _ K1 Hnr Hm H) as F.
      eapply reader_frame_source; [exact F|..]; try reflexivity.
      repeat split.
    + inv H. apply T; try reflexivity. repeat split.
  - destruct (Mode_eqb (mode s1) ERROR_WAITING); inv H.
    + unfold feedErrorWhenChannelIdleOrEnded.
      destruct (isIdle (channel s1)); apply T; try reflexivity; repeat split.
    + apply T; try reflexivity. repeat split.
Qed.

Lemma read_frame (res e : Z) (s s' : FBC) :
  Inv s -> Inv2 s -> enabled (EvRead res e) s = true ->
  step (EvRead res e) s = Ok s' -> reader_frame s s'.
Proof.
  intros HI H2 Hen H.
  destruct (res =? -1) eqn:Hio.
  { bool_hyps. subst res. simpl in Hen, H.
    destruct (inFileMode s) as [i|] eqn:Ei; [|discriminate].
    destruct (readRequest i) as [rc|] eqn:Eq; [|discriminate].
    exfalso. unfold nextChunkDoneReading, deref in H. rewrite Ei in H.
    cbn [Z.eqb Pos.eqb negb] in H.
    eapply setError_crash_reader; [| | | |exact H]; cbn; try reflexivity.
    - eapply Inv_ifm_mode; eassumption.
    - pose proof (inv_reader s HI i Ei) as R. unfold reader_ok in R.
      rewrite Eq in R. apply R. }
  simpl in Hen, H.
  destruct (inFileMode s) as [i|] eqn:Ei; [|discriminate].
  destruct (readRequest i) as [rc|] eqn:Eq; [|discriminate].
  rewrite Hio in Hen. bool_hyps.
  pose proof (Inv_pre_file s i HI Ei) as [HQ HS Hm He _ Hrd Ha].
  unfold reader_ok in Hrd. rewrite Eq in Hrd.
  destruct Hrd as (R1 & R2 & R3 & R4).
  set (buffer := read_at (file i) (rc_offset rc) (rc_size rc)) in *.
  unfold nextChunkDoneReading, deref in H. rewrite Ei in H.
  cbn [inFileMode set_inFileMode] in H.
  replace (res =? -1) with false in H
    by (symmetry; apply Z.eqb_neq; exact Hio).
  cbn [negb] in H.
  set (b := firstn (Z.to_nat res) buffer) in *.
  assert (Hb : size b <= written i).
  { pose proof (size_firstn_le (Z.to_nat res) buffer).
    pose proof (size_read_at (file i) (rc_offset rc) (rc_size rc)).
    fold buffer in H5. fold b in H4. lia. }
  set (i2 := set_cursors (readOffset i + size b) (written i - size b)
               (set_readRequest None i)) in *.
  set (s3 := feedChannel b (set_readerState RS_FEEDING
                              (set_inFileMode (Some i2) s))).
  match type of H with
  | context [callbackReset _ ?X] => change X with s3 in H
  end.
  assert (K : Inv s3) by (apply (read_fed_Inv s i rc b HI Ei Eq Hb)).
  assert (F3 : reader_frame s (set_inFileMode (Some i2) s)).
  { unfold reader_frame. split; [reflexivity|]. split; [reflexivity|].
    split; [rewrite queue_set_inFileMode; auto|].
    rewrite Ei. right. exists i2. split; [reflexivity|].
    split; [repeat split|]. cbn. pose proof (size_nonneg b).
    split; [lia|]. split; [lia|]. split; [repeat split | reflexivity]. }
  assert (T : forall X, errcode X = errcode s ->
                        generation (channel X) = generation (channel s) ->
                        same_queue s X -> inFileMode X = Some i2 ->
                        mode X = mode s -> reader_frame s X).
  { intros X A B C D E.
    eapply reader_frame_target; [exact F3|..]; try assumption.
    all: try (destruct C as (C1 & C2 & C3 & C4); repeat split; assumption).
    all: try (cbn; congruence). }
  assert (Ecb : callbackReset
                  (generation
                     (channel (set_inFileMode (Some (set_readRequest None i)) s)))
                  s3 = false).
  { apply callbackReset_false; [apply generation_feed|].
    cbn. rewrite Hm. reflexivity. }
  rewrite Ecb in H.
  destruct (acceptingInput (channel s3)) eqn:Ea.
  - set (s4 := set_readerState RS_INACTIVE s3) in *.
    assert (K4 : Inv s4).
    { apply Inv_set_readerState; [exact K | cbn; rewrite Hm; reflexivity |
                                  discriminate | cbn; discriminate]. }
    assert (Hm4 : mode_ge_ERROR (mode s4) = false)
      by (cbn; rewrite Hm; reflexivity).
    assert (Hr4 : readerState s4 <> RS_READING_FROM_FILE)
      by (cbn; discriminate).
    pose proof (readNextWithoutRefGuard_frame _ _ _ K4 Hr4 Hm4 H) as Fr.
    apply reader_frame_trans with (s1 := s4); [| |exact Fr].
    + apply T; try reflexivity; [apply generation_feed | repeat split].
    + unfold hasInFileMode. rewrite Ei. reflexivity.
  - destruct (mayAcceptInputLater (channel s3)); inv H;
      (apply T; try reflexivity; [apply generation_feed | repeat split]).
Qed.

(** X20. In in-file mode the queue belongs to the writer.  The handlers
    that run the reader, the consumer's acknowledgement and the completion
    of a read, leave the queue, its counters and the writer's fields of
    the in-file record as they are, move [readOffset] forward and keep the
    write cursor [readOffset + written] where it is; unless the reader
    finds nothing left to serve, every byte that was pending having been
    handed to the consumer, and, [autoTruncateFile] being on, switches
    back to in-memory mode with an empty queue. *)
Theorem reader_leaves_queue_to_writer (ev : Event) (s s' : FBC)
    (i : InFileMode) :
  reachable s -> enabled ev s = true -> step ev s = Ok s' ->
  inFileMode s = Some i ->
  (exists sz end_, ev = EvConsumed sz end_)
  \/ (exists res e, ev = EvRead res e) ->
  (exists i', inFileMode s' = Some i'
     /\ mode s' = IN_FILE_MODE
     /\ nbuffers s' = nbuffers s /\ bytesBuffered s' = bytesBuffered s
     /\ firstBuffer s' = firstBuffer s /\ moreBuffers s' = moreBuffers s
     /\ fd i' = fd i /\ writerState i' = writerState i
     /\ writerRequest i' = writerRequest i /\ file i' = file i
     /\ readOffset i <= readOffset i'
     /\ readOffset i' + written i' = readOffset i + written i)
  \/ (autoTruncateFile config = true /\ mode s' = IN_MEMORY_MODE
      /\ inFileMode s' = None /\ nbuffers s' = 0
      /\ delivered (log (channel s'))
         = delivered (log (channel s)) ++ pending s).
Proof.
  intros Hr Hen H Ei Hev. pose proof (reachable_Inv s Hr) as HI.
  pose proof (reachable_Inv2 s Hr) as H2.
  assert (F : reader_frame s s').
  { destruct Hev as [(sz & end_ & ->)|(res & e & ->)].
    - eapply consumed_frame; eassumption.
    - eapply read_frame; eassumption. }
  destruct F as (_ & _ & _ & F). rewrite Ei in F.
  destruct F as [(A & B & C & D & _)
                |(i' & A & (B1 & B2 & B3 & B4) & C & D & (E1 & E2 & E3 & E4) & M)].
  - right. repeat split; try assumption.
    assert (Hfed : fed [ev] = [])
      by (destruct Hev as [(sz & end_ & ->)|(res & e & ->)]; reflexivity).
    destruct (step_switched_by ev s s' HI H2 Hen H (Inv_ifm_mode s i HI Ei)
                ltac:(destruct Hev as [(sz & end_ & ->)|(res & e & ->)];
                      discriminate) B)
      as (s0 & _ & _ & S0 & _ & sm & _ & _ & S1 & S2 & _ & S4).
    destruct (reader_switch_result sm s' S1 S2) as (R1 & _).
    rewrite R1, S4, S0, Hfed. simpl. rewrite app_nil_r. reflexivity.
  - left. exists i'. rewrite M, (Inv_ifm_mode s i HI Ei).
    repeat split; assumption.
Qed.

(** X21. A read that returns no bytes ends the stream.  When the
    outstanding read completes with 0 the reader feeds the empty buffer,
    which the underlying channel takes as the end of the stream, and
    terminates; no error is recorded and the object stays in in-file
    mode, although [written] says that bytes of the file are unread. *)
Theorem empty_read_ends_the_stream (e : Z) (s : FBC) (i : InFileMode)
    (rc : ReadContext) :
  reachable s -> inFileMode s = Some i -> readRequest i = Some rc ->
  enabled (EvRead 0 e) s = true ->
  exists s' i',
    step (EvRead 0 e) s = Ok s'
    /\ log (channel s') = log (channel s) ++ [Eof]
    /\ getReaderState s' = RS_TERMINATED
    /\ getMode s' = IN_FILE_MODE /\ errcode s' = 0
    /\ inFileMode s' = Some i'
    /\ readOffset i' = readOffset i /\ written i' = written i
    /\ 0 < written i
    /\ ended s' = true.
Proof.
  intros Hr Ei Eq Hen. pose proof (reachable_Inv s Hr) as HI.
  pose proof (Inv_pre_file s i HI Ei) as [HQ HS Hm He _ Hrd Ha].
  unfold reader_ok in Hrd. rewrite Eq in Hrd.
  destruct Hrd as (R1 & R2 & R3 & R4).
  simpl. rewrite Ei, Eq. unfold nextChunkDoneReading, deref. rewrite Ei.
  cbn [Z.eqb negb inFileMode set_inFileMode Z.to_nat firstn].
  unfold callbackReset, feedChannel, Channel_feedWithoutRefGuard.
  cbn [empty]. fields. rewrite Z.eqb_refl, Hm.
  cbn [negb orb mode_ge_ERROR]. unfold acceptingInput, mayAcceptInputLater.
  fields. eexists. eexists. split; [reflexivity|].
  unfold terminateReaderBecauseOfEOF, callDataFlushedCallback, getReaderState,
    getMode, ended, Channel_ended. fields.
  split; [reflexivity|]. split; [reflexivity|]. split; [exact Hm|].
  split; [exact He|]. split; [reflexivity|]. cbn.
  split; [lia|]. split; [lia|]. split; [exact R3|].
  apply orb_true_r.
Qed.


(** ** The sentinel *)

Lemma ended_of_sentinel_in (s : FBC) :
  Inv s -> In [] (queue s) -> ended s = true.
Proof.
  intros HI Hin. pose proof (inv_queue s HI) as HQ.
  pose proof (q_count s HQ) as C.
  assert (Hn : nbuffers s <> 0).
  { destruct (queue s); [contradiction | simpl in C; lia]. }
  pose proof (queue_ok_nbuffers_nonneg s HQ).
  unfold ended, hasBuffers.
  rewrite (peekLastBuffer_last s HQ Hn).
  rewrite (sentinel_last_empty_in _ (inv_sentinel s HI) Hin).
  replace (nbuffers s >? 0) with true
    by (symmetry; rewrite Z.gtb_ltb; apply Z.ltb_lt; lia).
  reflexivity.
Qed.

Lemma setError_queue (e : Z) (s s' : FBC) :
  setError e s = Ok s' -> queue s' = queue s.
Proof.
  intros H. destruct (mode_ge_ERROR (mode s)) eqn:Em.
  - rewrite (setError_in_error_mode e s Em) in H. inv H. reflexivity.
  - destruct (setError_effect e s s' H Em) as (_ & _ & _ & D & _).
    apply same_queue_queue. exact D.
Qed.

Lemma bufferWrittenToFile_queue (mc : MoveContext) (res e : Z) (s s' : FBC) :
  bufferWrittenToFile mc res e s = Ok s' -> queue_ok s -> nbuffers s <> 0 ->
  queue s' = queue s \/ queue s' = tl (queue s).
Proof.
  intros H HQ Hn. unfold bufferWrittenToFile, deref in H.
  destruct (inFileMode s) as [i|] eqn:Ei.
  2:{ destruct (negb (res =? -1)); [|discriminate].
      destruct (_ =? _); discriminate. }
  destruct (negb (res =? -1)).
  - cbn [mc_written mc_buffer] in H.
    destruct (mc_written mc + res =? size (mc_buffer mc)).
    + right. rewrite popBuffer_set_inFileMode in H.
      pose proof (queue_popBuffer s HQ Hn) as Q.
      destruct (callbackReset _ _).
      * inv H. rewrite queue_set_inFileMode. exact Q.
      * cbn [inFileMode set_inFileMode] in H.
        apply moveNextBufferToFile_channel in H.
        destruct H as (_ & _ & K & _).
        rewrite (same_queue_queue _ _ K), !queue_set_inFileMode. exact Q.
    + left. inv H. apply queue_set_inFileMode.
  - left. apply setError_queue in H. rewrite H. apply queue_set_inFileMode.
Qed.

(** No handler but [deinitialize] takes the sentinel out of the queue. *)
Lemma step_keeps_sentinel (ev : Event) (s s' : FBC) :
  Inv s -> Inv2 s -> enabled ev s = true -> step ev s = Ok s' ->
  ev <> EvDeinitialize -> In [] (queue s) -> In [] (queue s').
Proof.
  intros HI H2 Hen H Hev Hin.
  destruct ev as [b|e| | |sz end_| |res e|res e|res e].
  - simpl in H. unfold feed, feedWithoutRefGuard in H.
    rewrite (ended_of_sentinel_in s HI Hin) in H. inv H. exact Hin.
  - simpl in H. unfold feedError in H. rewrite (setError_queue e s s' H).
    exact Hin.
  - inv H. exact Hin.
  - congruence.
  - pose proof (consumed_frame sz end_ s s' HI H2 Hen H) as (_ & _ & F & _).
    apply F. exact Hin.
  - simpl in H.
    destruct (inFileMode s) as [i|] eqn:Ei; [|inv H; exact Hin].
    destruct (writerRequest i) as [[| |mc d o]|]; try (inv H; exact Hin).
    unfold bufferFileDoneDelaying, deref in H. rewrite Ei in H. inv H.
    rewrite queue_set_inFileMode. exact Hin.
  - simpl in H.
    destruct (inFileMode s) as [i|] eqn:Ei; [|inv H; exact Hin].
    destruct (writerRequest i) as [[| |mc d o]|]; try (inv H; exact Hin).
    unfold bufferFileCreated, deref in H. rewrite Ei in H.
    cbn [inFileMode set_inFileMode] in H.
    destruct (negb (res =? -1)).
    + apply moveNextBufferToFile_channel in H. destruct H as (_ & _ & K & _).
      rewrite (same_queue_queue _ _ K), !queue_set_inFileMode. exact Hin.
    + destruct (e =? EEXIST config).
      * unfold createBufferFile, deref in H. inv H.
        rewrite !queue_set_inFileMode. exact Hin.
      * apply setError_queue in H. rewrite H, queue_set_inFileMode.
        exact Hin.
  - simpl in H.
    destruct (inFileMode s) as [i|] eqn:Ei; [|inv H; exact Hin].
    destruct (writerRequest i) as [[| |mc d o]|] eqn:Eq;
      try (inv H; exact Hin).
    pose proof (inv_writer s HI i Ei) as Hw. unfold writer_ok in Hw.
    rewrite Eq in Hw. destruct (writerState i) eqn:Ews; try contradiction.
    destruct Hw as (Hn & Hbuf & Hmw & _).
    assert (Hn0 : nbuffers s <> 0) by lia.
    apply bufferWrittenToFile_queue in H;
      [|apply queue_ok_set_inFileMode; apply (inv_queue s HI) | exact Hn0].
    rewrite queue_set_inFileMode in H. destruct H as [Q|Q]; rewrite Q.
    + exact Hin.
    + rewrite (queue_nonempty s Hn0) in *. simpl.
      apply in_nil_pop with (b := firstBuffer s); [|exact Hin].
      intros K. rewrite <- Hbuf in K. rewrite K in Hmw. unfold size in Hmw.
      simpl in Hmw. lia.
  - pose proof (read_frame res e s s' HI H2 Hen H) as (_ & _ & F & _).
    apply F. exact Hin.
Qed.

(** X22. The end of the stream is final.  Once the sentinel is in the
    queue it stays there through every entry point and completion handler
    other than [deinitialize]: neither the reader nor the writer pops it,
    and the switch back to in-memory mode, which clears the queue, does
    not happen while it is queued.  So [ended()] stays true and every
    later [feed] is discarded. *)
Theorem sentinel_stays_queued (evs : list Event) (s s' : FBC) :
  reachable s -> In [] (queue s) -> ~ In EvDeinitialize evs ->
  enabled_all evs s = true -> run evs s = Ok s' ->
  In [] (queue s') /\ ended s' = true
  /\ forall b, feed b s' = Ok s'.
Proof.
  intros Hr Hin Hno Hen H.
  assert (K : reachable s' /\ In [] (queue s')).
  { revert s Hr Hin Hen H.
    induction evs as [|ev evs IH]; intros s Hr Hin Hen H; simpl in *.
    - inv H. split; assumption.
    - apply andb_true_iff in Hen. destruct Hen as (He & Hen).
      unfold bind in H. destruct (step ev s) as [s1| |] eqn:E1;
        try discriminate.
      apply (IH ltac:(tauto) s1); try assumption.
      + eapply reachable_step; eassumption.
      + eapply step_keeps_sentinel; try eassumption.
        * apply reachable_Inv. exact Hr.
        * apply reachable_Inv2. exact Hr.
        * intros Q. apply Hno. left. exact Q. }
  destruct K as (Hr' & Hin').
  pose proof (ended_of_sentinel_in s' (reachable_Inv s' Hr') Hin') as Ee.
  split; [exact Hin'|]. split; [exact Ee|].
  intros b. unfold feed, feedWithoutRefGuard. rewrite Ee. reflexivity.
Qed.


(** ** Resetting, reading the next chunk, and the end of the stream *)

(** X23. [deinitialize()] followed by [reinitialize()] brings the object
    back to the state the constructor leaves, whatever state it was in:
    only the generation, twice bumped, and the record of what the
    consumer and the callbacks have seen differ.  In particular it
    accepts input again. *)
Theorem reset_restores_initial_state (s : FBC) :
  reachable s ->
  exists s',
    deinitialize s = Ok s'
    /\ reinitialize s'
       = {| channel :=
              {| state := IDLE;
                 generation := uint32 (uint32 (generation (channel s) + 1) + 1);
                 log := log (channel s) |};
            mode := mode init; readerState := readerState init;
            nbuffers := nbuffers init; errcode := errcode init;
            bytesBuffered := bytesBuffered init;
            firstBuffer := firstBuffer init; moreBuffers := moreBuffers init;
            inFileMode := inFileMode init; flushed := flushed s |}
    /\ ended (reinitialize s') = false.
Proof.
  intros Hr. pose proof (reachable_Inv s Hr) as HI.
  destruct (deinitialize_returns s HI)
    as (s' & E & A1 & A2 & A3 & A4 & A5 & A6 & A7 & A8 & A9).
  destruct (deinitialize_log s s' E) as (L1 & L2).
  exists s'. split; [exact E|].
  assert (R : reinitialize s'
       = {| channel :=
              {| state := IDLE;
                 generation := uint32 (uint32 (generation (channel s) + 1) + 1);
                 log := log (channel s) |};
            mode := mode init; readerState := readerState init;
            nbuffers := nbuffers init; errcode := errcode init;
            bytesBuffered := bytesBuffered init;
            firstBuffer := firstBuffer init; moreBuffers := moreBuffers init;
            inFileMode := inFileMode init; flushed := flushed s |}).
  { unfold reinitialize, Channel_reinitialize, set_channel.
    rewrite A1, A2, A3, A4, A5, A6, A7, A8, A9, L1, L2. reflexivity. }
  split; [exact R|]. rewrite R. reflexivity.
Qed.

(** X24. The reader reads the file before it serves from memory, one
    pool buffer at a time.  When the consumer acknowledges a buffer while
    the reader waits and the file holds unread data, the reader feeds
    nothing and issues a read at [readOffset] of [written] bytes, or of
    the size of a pool buffer if that is less. *)
Theorem acknowledgement_starts_read_of_next_chunk (sz : Z) (s : FBC)
    (i : InFileMode) :
  reachable s -> readerState s = RS_WAITING_FOR_CHANNEL_IDLE ->
  state (channel s) = CALLING -> inFileMode s = Some i -> 0 < written i ->
  consumed sz false s
  = Ok (set_inFileMode
          (Some (set_readRequest
                   (Some {| rc_size := Z.min (written i)
                                         (mbuf_pool_data_size config);
                            rc_offset := readOffset i |}) i))
          (set_readerState RS_READING_FROM_FILE
             (set_channel (Channel_consumed false (channel s)) s))).
Proof.
  intros Hr Hrs Hs Ei Hw. pose proof (reachable_Inv s Hr) as HI.
  pose proof (Inv_ifm_mode s i HI Ei) as Hm.
  unfold consumed, onChannelConsumed, channelHasBecomeIdle, readNext.
  rewrite Hs. fields. rewrite Hrs. cbn [ReaderState_eqb].
  unfold acceptingInput, Channel_consumed. fields.
  cbn [readNextWithoutRefGuard]. unfold readNext_pass. fields.
  rewrite Hm, Ei.
  replace (written i >? 0) with true
    by (symmetry; rewrite Z.gtb_ltb; apply Z.ltb_lt; exact Hw).
  unfold readNextChunkFromFile, deref. fields. rewrite Ei. reflexivity.
Qed.

(** X25. The sentinel is fed but never popped.  When the object is in
    in-memory mode with nothing queued, the reader inactive and the
    underlying channel idle, [feed] of the empty buffer hands the end of
    the stream to the consumer and terminates the reader; the sentinel
    stays in the queue, so that [nbuffers] is 1 and [ended()] is true
    from then on. *)
Theorem feed_of_sentinel_ends_the_stream (s : FBC) :
  reachable s -> mode s = IN_MEMORY_MODE -> readerState s = RS_INACTIVE ->
  state (channel s) = IDLE -> nbuffers s = 0 -> 0 < threshold config ->
  exists s',
    feed [] s = Ok s'
    /\ log (channel s') = log (channel s) ++ [Eof]
    /\ getReaderState s' = RS_TERMINATED /\ getMode s' = IN_MEMORY_MODE
    /\ nbuffers s' = 1 /\ getBytesBuffered s' = 0 /\ queue s' = [[]]
    /\ flushed s' = flushed s ++ [DataFlushed]
    /\ ended s' = true.
Proof.
  intros Hr Hm Hrs Hs Hn Ht. pose proof (reachable_Inv s Hr) as HI.
  pose proof (inv_queue s HI) as HQ.
  assert (Hmb : moreBuffers s = []) by (apply (q_more s HQ); exact Hn).
  assert (Hbb : bytesBuffered s = 0).
  { rewrite (q_bytes s HQ), (queue_empty s Hn). reflexivity. }
  assert (Ee : ended s = false).
  { unfold ended, hasBuffers, Channel_ended. rewrite Hn, Hm, Hs. reflexivity. }
  assert (Hpt : (0 >=? threshold config) = false).
  { rewrite Z.geb_leb. apply Z.leb_gt. exact Ht. }
  unfold feed, feedWithoutRefGuard. rewrite Ee.
  rewrite (pushBuffer_first [] s Hn Hbb)
    by (unfold size, MAX_MEMORY_BUFFERING; simpl; lia).
  change (size []) with 0.
  unfold passedThreshold. fields. rewrite Hm, Hpt.
  cbn [Mode_eqb andb bind]. fields. rewrite Hrs.
  cbn [ReaderState_eqb]. unfold acceptingInput at 1.
  rewrite Hs. change (Z.to_nat 1) with 1%nat.
  cbn [readNextWithoutRefGuard]. unfold readNext_pass at 1.
  fields. rewrite Hm.
  unfold hasBuffers, peekBuffer. fields. cbn [Z.gtb Z.compare negb empty].
  unfold callbackReset, feedChannel, Channel_feedWithoutRefGuard.
  cbn [empty]. fields. rewrite Z.eqb_refl, Hm. cbn [negb orb mode_ge_ERROR].
  eexists. split; [reflexivity|].
  unfold terminateReaderBecauseOfEOF, callDataFlushedCallback, getReaderState,
    getMode, getBytesBuffered, ended, hasBuffers, peekLastBuffer, queue.
  fields. rewrite Hmb, Hm. repeat split.
Qed.

(** ** Errors and the byte stream *)

Section Errors.

Hypothesis pool_positive : 0 < mbuf_pool_data_size config.

(** The consumer always accepts: it never asks the channel to end. *)
Hypothesis consumer_accepts :
  forall seen b, dataCallback seen b <> ConsumedEnd.

(** Once an error is set nothing more is handed to the consumer but,
    possibly, the error. *)
Lemma step_in_error_mode (ev : Event) (s : FBC) :
  Inv s -> mode_ge_ERROR (mode s) = true ->
  enabled ev s = true -> error_only ev s = true ->
  exists s', step ev s = Ok s' /\ mode_ge_ERROR (mode s') = true
             /\ delivered (log (channel s')) = delivered (log (channel s)).
Proof.
  intros HI Hm Hen Hff.
  destruct (inv_global s HI) as [_ _ G3]. destruct (G3 Hm) as (Hrs & Hifm).
  destruct ev as [b|e| | |sz end_| |res e|res e|res e]; simpl in Hen;
    rewrite ?Hifm in Hen; try discriminate Hen; try discriminate Hff.
  - exists s. simpl. unfold feed, feedWithoutRefGuard.
    assert (He : ended s = true)
      by (unfold ended; rewrite Hm, orb_true_r; reflexivity).
    rewrite He. repeat split. exact Hm.
  - exists s. simpl. unfold feedError.
    rewrite (setError_in_error_mode e s Hm). repeat split. exact Hm.
  - destruct (state (channel s)) eqn:Hs; try discriminate Hen.
    simpl. unfold consumed, onChannelConsumed. rewrite Hs. fields.
    rewrite Hrs. cbn [ReaderState_eqb].
    destruct (mode s) eqn:Emode; try discriminate Hm; cbn [Mode_eqb].
    + eexists. split; [reflexivity|]. fields. rewrite Emode.
      split; reflexivity.
    + destruct end_;
        unfold feedErrorWhenChannelIdleOrEnded, isIdle, acceptingInput,
          Channel_consumed; fields;
        (eexists; split; [reflexivity|]); fields;
        rewrite Emode; (split; [reflexivity|]).
      * reflexivity.
      * cbn. rewrite delivered_app. simpl. apply app_nil_r.
Qed.

Lemma step_prefix_state (ev : Event) (s : FBC) (F : list byte) :
  Inv s -> prefix_state s F ->
  enabled ev s = true -> error_only ev s = true ->
  exists s',
    step ev s = Ok s'
    /\ prefix_state s' (F ++ match ev with EvFeed b => b | _ => [] end).
Proof.
  intros HI [(HG & rest & EF & Hrest)|(Hm & rest & EF)] Hen Hff.
  - unfold error_only in Hff. apply orb_true_iff in Hff.
    destruct Hff as [Hff|Herr].
    + destruct (in_dec (list_eq_dec Byte.byte_eq_dec) [] (queue s))
        as [Hin|Hnin].
      * assert (Hother : (forall b, ev <> EvFeed b) ->
                  exists s', step ev s = Ok s' /\ Good s'
                             /\ stream s' = stream s /\ In [] (queue s')).
        { intros Hne.
          destruct (step_fault_free pool_positive consumer_accepts ev s
                      HG Hen Hff) as (s' & E & G' & S' & Q').
          { intros b Eb. contradiction (Hne b Eb). }
          exists s'. split; [exact E|]. split; [exact G'|]. split.
          - rewrite S'. destruct ev; try apply app_nil_r.
            contradiction (Hne buffer). reflexivity.
          - apply Q'. left. exact Hin. }
        destruct ev as [b|e| | |sz end_| |res e|res e|res e].
        1: { exists s. split.
             - simpl. unfold feed, feedWithoutRefGuard.
               rewrite (ended_of_sentinel_in s HI Hin). reflexivity.
             - left. split; [exact HG|]. exists (rest ++ b).
               split; [rewrite EF, app_assoc; reflexivity | left; exact Hin]. }
        all: destruct Hother as (s' & E & G' & S' & Q');
          [intros b Eb; discriminate Eb|];
          exists s'; (split; [exact E|]); left; (split; [exact G'|]);
          exists rest; rewrite S', app_nil_r;
          (split; [exact EF | left; exact Q']).
      * assert (rest = []) by (destruct Hrest; [contradiction | assumption]).
        subst rest.
        destruct (step_fault_free pool_positive consumer_accepts ev s
                    HG Hen Hff (fun _ _ => Hnin)) as (s' & E & G' & S' & Q').
        exists s'. split; [exact E|]. left. split; [exact G'|]. exists [].
        rewrite S', EF, !app_nil_r. split; [reflexivity | right; reflexivity].
    + destruct ev as [b|e| | |sz end_| |res e|res e|res e];
        try discriminate Herr.
      * simpl. unfold feedError.
        destruct (setError_returns e s HI) as (s' & E).
        exists s'. split; [exact E|].
        destruct (setError_effect e s s' E (good_mode s HG))
          as (_ & _ & _ & _ & _ & K).
        right. split.
        -- destruct (acceptingInput (channel s)); destruct K as (K1 & _);
             rewrite K1; reflexivity.
        -- exists (pending s ++ rest). rewrite app_nil_r, EF. unfold stream.
           rewrite <- app_assoc. f_equal.
           destruct (acceptingInput (channel s)); destruct K as (_ & K2);
             rewrite K2; [|reflexivity].
           cbn [log Channel_feedError]. rewrite delivered_app. simpl.
           symmetry. apply app_nil_r.
      * apply Z.eqb_eq in Herr. subst res. simpl in Hen.
        destruct (inFileMode s) as [i|] eqn:Ei; [|discriminate Hen].
        destruct (writerRequest i) as [[| |mc data off]|] eqn:Eq;
          try discriminate Hen.
        destruct (failed_write_effect e s i mc data off HI Ei Eq)
          as (s' & E & _ & _ & _ & _ & K1 & K2).
        exists s'. split; [exact E|]. unfold getMode in K1, K2. right.
        assert (K : mode_ge_ERROR (mode s') = true
                    /\ delivered (log (channel s'))
                       = delivered (log (channel s))).
        { destruct (state (channel s)) eqn:Hs.
          - destruct (K1 eq_refl) as (M & L). rewrite M, L, delivered_app.
            simpl. split; [reflexivity | apply app_nil_r].
          - destruct (K2 ltac:(discriminate)) as (M & C). rewrite M, C.
            split; reflexivity.
          - destruct (K2 ltac:(discriminate)) as (M & C). rewrite M, C.
            split; reflexivity. }
        destruct K as (M & D). split; [exact M|].
        exists (pending s ++ rest). rewrite app_nil_r, EF, D. unfold stream.
        rewrite <- app_assoc. reflexivity.
  - destruct (step_in_error_mode ev s HI Hm Hen Hff) as (s' & E & M & D).
    exists s'. split; [exact E|]. right. split; [exact M|].
    exists (rest ++ match ev with EvFeed b => b | _ => [] end).
    rewrite D, EF, app_assoc. reflexivity.
Qed.

Lemma run_error_only (evs : list Event) : forall (s : FBC) (F : list byte),
  Inv s -> prefix_state s F -> error_only_run evs s = true ->
  exists s', run evs s = Ok s' /\ Inv s'
             /\ prefix_state s' (F ++ concat (fed evs)).
Proof.
  induction evs as [|ev evs IH]; intros s F HI HP Hrun.
  - exists s. simpl. rewrite app_nil_r. auto.
  - simpl in Hrun. apply andb_true_iff in Hrun. destruct Hrun as [Hrun Hrest].
    apply andb_true_iff in Hrun. destruct Hrun as [Hen Hff].
    destruct (step_prefix_state ev s F HI HP Hen Hff) as (s1 & E1 & P1).
    rewrite E1 in Hrest.
    pose proof (step_Inv ev s s1 HI Hen E1) as HI1.
    destruct (IH s1 _ HI1 P1 Hrest) as (s' & E & HI' & P).
    exists s'. simpl run. rewrite E1. cbn [bind].
    split; [exact E|]. split; [exact HI'|].
    destruct ev; simpl fed; simpl concat; rewrite <- ?app_assoc in P;
      rewrite ?app_nil_r in P; exact P.
Qed.

(** In an error mode the consumer is handed the error at most once, and
    nothing else. *)
Lemma step_after_error (l : list Delivery) (e : Z) (ev : Event) (s : FBC) :
  Inv s -> after_error l e s ->
  enabled ev s = true -> error_only ev s = true ->
  exists s', step ev s = Ok s' /\ after_error l e s'.
Proof.
  intros HI (Hm & He & Hl) Hen Hff.
  destruct (inv_global s HI) as [_ _ G3]. destruct (G3 Hm) as (Hrs & Hifm).
  destruct ev as [b|e0| | |sz end_| |res e0|res e0|res e0]; simpl in Hen;
    rewrite ?Hifm in Hen; try discriminate Hen; try discriminate Hff.
  - exists s. simpl. unfold feed, feedWithoutRefGuard.
    assert (Hend : ended s = true)
      by (unfold ended; rewrite Hm, orb_true_r; reflexivity).
    rewrite Hend. split; [reflexivity|]. repeat split; assumption.
  - exists s. simpl. unfold feedError.
    rewrite (setError_in_error_mode e0 s Hm).
    split; [reflexivity|]. repeat split; assumption.
  - destruct (state (channel s)) eqn:Hs; try discriminate Hen.
    destruct Hl as [Hl|[_ Hl]]; [|discriminate Hl].
    simpl. unfold consumed, onChannelConsumed. rewrite Hs. fields.
    rewrite Hrs. cbn [ReaderState_eqb].
    destruct (mode s) eqn:Emode; try discriminate Hm; cbn [Mode_eqb].
    + eexists. split; [reflexivity|]. unfold after_error. fields.
      rewrite Emode. repeat split; [exact He | left; exact Hl].
    + destruct end_;
        unfold feedErrorWhenChannelIdleOrEnded, isIdle, acceptingInput,
          Channel_consumed; fields;
        (eexists; split; [reflexivity|]); unfold after_error; fields;
        rewrite Emode; (split; [reflexivity|]); (split; [exact He|]).
      * left. exact Hl.
      * right. cbn. rewrite Hl, He. split; reflexivity.
Qed.

Lemma run_after_error (l : list Delivery) (e : Z) (evs : list Event) :
  forall s : FBC,
    Inv s -> after_error l e s -> error_only_run evs s = true ->
    exists s', run evs s = Ok s' /\ after_error l e s'.
Proof.
  induction evs as [|ev evs IH]; intros s HI HA Hrun.
  - exists s. split; [reflexivity | exact HA].
  - simpl in Hrun. apply andb_true_iff in Hrun. destruct Hrun as [Hrun Hrest].
    apply andb_true_iff in Hrun. destruct Hrun as [Hen Hff].
    destruct (step_after_error l e ev s HI HA Hen Hff) as (s1 & E1 & A1).
    rewrite E1 in Hrest.
    pose proof (step_Inv ev s s1 HI Hen E1) as HI1.
    destruct (IH s1 HI1 A1 Hrest) as (s' & E & A).
    exists s'. simpl run. rewrite E1. cbn [bind]. split; [exact E | exact A].
Qed.

Lemma run_app (evs1 evs2 : list Event) (s : FBC) :
  run (evs1 ++ evs2) s = (s1 <- run evs1 s ;; run evs2 s1).
Proof.
  revert s. induction evs1 as [|ev evs1 IH]; intros s; simpl; [reflexivity|].
  destruct (step ev s) as [s1| |]; simpl; [apply IH | reflexivity ..].
Qed.

Lemma error_only_run_app (evs1 evs2 : list Event) (s s1 : FBC) :
  error_only_run (evs1 ++ evs2) s = true -> run evs1 s = Ok s1 ->
  error_only_run evs1 s = true /\ error_only_run evs2 s1 = true.
Proof.
  revert s. induction evs1 as [|ev evs1 IH]; intros s Hrun E; simpl in *.
  - inv E. split; [reflexivity | exact Hrun].
  - apply andb_true_iff in Hrun. destruct Hrun as [Hrun Hrest].
    rewrite Hrun. destruct (step ev s) as [s0| |]; try discriminate E.
    simpl in E. apply IH; assumption.
Qed.

(** X26. Errors do not corrupt the stream.  Provided the user's callbacks
    do not call back into the object: in every run from the constructor's
    state in which the consumer never ends the channel, no write is
    partial, no read and no creation of the file fails for good, and the
    object is not reset -- but errors may be fed and writes may fail --
    every event returns, and the bytes handed to the consumer are at every
    moment the first bytes fed, in order, none twice and none skipped;
    while no error is set the bytes pending are the bytes fed next; and
    from a moment at which an error is set, the consumer is handed nothing
    more but, at most once, that error. *)
Theorem errors_keep_delivered_prefix (evs1 evs2 : list Event) :
  error_only_run (evs1 ++ evs2) init = true ->
  exists s1 s2 rest,
    run evs1 init = Ok s1 /\ run evs2 s1 = Ok s2
    /\ concat (fed (evs1 ++ evs2)) = delivered (log (channel s2)) ++ rest
    /\ (mode_ge_ERROR (mode s2) = false ->
        exists rest', rest = pending s2 ++ rest')
    /\ (mode_ge_ERROR (mode s1) = true ->
        mode_ge_ERROR (mode s2) = true /\ errcode s2 = errcode s1
        /\ (log (channel s2) = log (channel s1)
            \/ log (channel s2) = log (channel s1) ++ [Err (errcode s1)])).
Proof.
  intros Hrun.
  assert (P0 : prefix_state init []).
  { left. split; [apply Good_init|]. exists []. split; [reflexivity|].
    right. reflexivity. }
  pose proof (reachable_Inv init reachable_init) as HI0.
  destruct (run_error_only (evs1 ++ evs2) init [] HI0 P0 Hrun)
    as (s2 & E & _ & HP).
  rewrite run_app in E.
  destruct (run evs1 init) as [s1| |] eqn:E1; try discriminate E.
  cbn [bind] in E.
  destruct (error_only_run_app evs1 evs2 init s1 Hrun E1) as (R1 & R2).
  destruct (run_error_only evs1 init [] HI0 P0 R1) as (s1' & E1' & HI1 & _).
  rewrite E1 in E1'. inv E1'.
  assert (Herr : mode_ge_ERROR (mode s1') = true ->
            mode_ge_ERROR (mode s2) = true /\ errcode s2 = errcode s1'
            /\ (log (channel s2) = log (channel s1')
                \/ log (channel s2)
                   = log (channel s1') ++ [Err (errcode s1')])).
  { intros Hm.
    destruct (run_after_error (log (channel s1')) (errcode s1') evs2 s1' HI1)
      as (s2' & E2 & A & B & C); [|exact R2|].
    - split; [exact Hm|]. split; [reflexivity | left; reflexivity].
    - rewrite E in E2. inv E2. split; [exact A|]. split; [exact B|].
      destruct C as [C|[C _]]; [left | right]; exact C. }
  destruct HP as [(HG & rest & EF & _)|(Hm & rest & EF)].
  - exists s1', s2, (pending s2 ++ rest). split; [reflexivity|].
    split; [exact E|]. split; [|split; [|exact Herr]].
    + simpl in EF. rewrite EF. unfold stream. rewrite <- app_assoc.
      reflexivity.
    + intros _. exists rest. reflexivity.
  - exists s1', s2, rest. split; [reflexivity|]. split; [exact E|].
    split; [exact EF|]. split; [|exact Herr].
    intros K. rewrite K in Hm. discriminate Hm.
Qed.

End Errors.


End Machine.

(** * The claims at concrete inputs *)

Lemma example_moving_reachable :
  reachable example_config busy_consumer example_moving.
Proof.
  apply (run_reachable example_config busy_consumer
           [EvFeed buf_ab; EvFeed buf_cdef; EvFileCreated 5 0] init);
    [apply reachable_init | reflexivity | reflexivity].
Qed.

Lemma example_error_waiting_reachable :
  reachable example_config busy_consumer example_error_waiting.
Proof.
  apply (run_reachable example_config busy_consumer
           [EvFeed buf_ab; EvFeedError 5] init);
    [apply reachable_init | reflexivity | reflexivity].
Qed.

Lemma example_ahead_reachable :
  reachable example_config_truncate busy_consumer example_ahead.
Proof.
  apply (run_reachable example_config_truncate busy_consumer
           [EvFeed buf_ab; EvFeed buf_cdef; EvConsumed 2 false] init);
    [apply reachable_init | reflexivity | reflexivity].
Qed.

(** C1, witness: "ab" and "cdef" go through the spill file and are followed
    by the sentinel. *)
Lemma order_preservation_witness :
  exists s,
    run example_config busy_consumer
      [EvFeed buf_ab; EvFeed buf_cdef; EvFileCreated 5 0; EvWritten 4 0;
       EvConsumed 2 false; EvRead 4 0; EvFeed []; EvConsumed 4 false] init
    = Ok s
    /\ delivered (log (channel s)) ++ pending s
       = concat [buf_ab; buf_cdef; []].
Proof.
  destruct (order_preservation example_config busy_consumer
              ltac:(reflexivity) ltac:(intros; discriminate)
              [EvFeed buf_ab; EvFeed buf_cdef; EvFileCreated 5 0; EvWritten 4 0;
               EvConsumed 2 false; EvRead 4 0; EvFeed []; EvConsumed 4 false]
              ltac:(reflexivity)
              ltac:(simpl; repeat split; auto; right; discriminate))
    as (s & E & S & _).
  exists s. split; [exact E | exact S].
Defined.

(** C1, counterexample: a write to the spill file fails; "cdef" is never
    handed to the consumer, which sees "ab" and the error. *)
Lemma write_failure_drops_data :
  enabled_all example_config busy_consumer
    [EvFeed buf_ab; EvFeed buf_cdef; EvFileCreated 5 0; EvWritten (-1) 28;
     EvConsumed 2 false] init = true
  /\ run example_config busy_consumer
       [EvFeed buf_ab; EvFeed buf_cdef; EvFileCreated 5 0; EvWritten (-1) 28;
        EvConsumed 2 false] init = Ok example_write_failed
  /\ readerState example_write_failed = RS_TERMINATED
  /\ log (channel example_write_failed) = [Data buf_ab; Err 28]
  /\ delivered (log (channel example_write_failed))
     <> concat [buf_ab; buf_cdef].
Proof.
  split; [reflexivity|]. split; [reflexivity|]. split; [reflexivity|].
  split; [reflexivity|]. discriminate.
Qed.

(** C2, witness: "cdef" is being written at offset 0 and the write returns
    2; the remainder "ef" is issued at offset 0 again. *)
Lemma partial_write_reissued_at_same_offset_witness :
  0 = 0 + 0
  /\ exists s1 i1,
       step example_config busy_consumer (EvWritten 2 0) example_moving = Ok s1
       /\ inFileMode s1 = Some i1
       /\ writerRequest i1
          = Some (Move {| mc_buffer := buf_cdef; mc_written := 0 + 2 |}
                       (skipn (Z.to_nat (0 + 2)) buf_cdef) 0)
       /\ file i1 = write_at [] 0 (firstn (Z.to_nat 2) buf_cdef).
Proof.
  apply (partial_write_reissued_at_same_offset example_config busy_consumer
           example_moving
           {| fd := 5; readRequest := None; writerState := WS_MOVING;
              writerRequest :=
                Some (Move {| mc_buffer := buf_cdef; mc_written := 0 |}
                           buf_cdef 0);
              readOffset := 0; written := 0; file := [] |}
           {| mc_buffer := buf_cdef; mc_written := 0 |} buf_cdef 0 2 0);
    [exact example_moving_reachable | reflexivity | reflexivity
     | unfold size; simpl; lia].
Defined.

Lemma example_walk_reachable :
  reachable example_config busy_consumer example_walk.
Proof.
  apply (run_reachable example_config busy_consumer
           [EvFeed buf_ab; EvFeed buf_cdef; EvConsumed 2 false; EvFeed buf_gh;
            EvFeed []] init);
    [apply reachable_init | reflexivity | reflexivity].
Qed.

Lemma example_walk_sentinel_reachable :
  reachable example_config busy_consumer example_walk_sentinel.
Proof.
  apply (run_reachable example_config busy_consumer
           [EvFeed buf_ab; EvFeed buf_cdef; EvConsumed 2 false; EvFeed buf_gh;
            EvFeed []; EvConsumed 4 false] init);
    [apply reachable_init | reflexivity | reflexivity].
Qed.

(** C3, witness: the queue is "cdef", "gh" and the sentinel.  With
    [written = -4] the walk passes "cdef", whose size brings the cumulative
    size to 4, and stops at "gh", which the reader feeds; with
    [written = -6] it passes "cdef" and "gh" and finds the sentinel, which
    the reader feeds as the end of the stream. *)
Lemma reader_serves_walk_target_witness :
  (findBufferForReadProcessing example_walk
   = Ok (served_result (walk_queue 4 0 [buf_cdef; buf_gh; []]))
   /\ walk_queue 4 0 [buf_cdef; buf_gh; []] = Some buf_gh
   /\ (In [] (queue example_walk) ->
       exists b, findBufferForReadProcessing example_walk = Ok (b, true))
   /\ (forall b, walk_queue 4 0 (queue example_walk) = Some b ->
       exists s',
         pass_state (readNext_pass example_config busy_consumer example_walk)
         = Some s'
         /\ log (channel s') = log (channel example_walk) ++ [delivery b]))
  /\ (findBufferForReadProcessing example_walk_sentinel
      = Ok (served_result (walk_queue 6 0 [buf_cdef; buf_gh; []]))
      /\ walk_queue 6 0 [buf_cdef; buf_gh; []] = Some []
      /\ (In [] (queue example_walk_sentinel) ->
          exists b,
            findBufferForReadProcessing example_walk_sentinel = Ok (b, true))
      /\ (forall b, walk_queue 6 0 (queue example_walk_sentinel) = Some b ->
          exists s',
            pass_state
              (readNext_pass example_config busy_consumer
                 example_walk_sentinel)
            = Some s'
            /\ log (channel s')
               = log (channel example_walk_sentinel) ++ [delivery b])).
Proof.
  split.
  - destruct (reader_serves_walk_target example_config busy_consumer
                example_walk example_walk_record example_walk_reachable
                ltac:(reflexivity) ltac:(reflexivity) ltac:(simpl; lia)
                ltac:(simpl; lia)) as (A & B & C).
    split; [exact A|]. split; [reflexivity|]. split; [exact B | exact C].
  - destruct (reader_serves_walk_target example_config busy_consumer
                example_walk_sentinel example_walk_sentinel_record
                example_walk_sentinel_reachable
                ltac:(reflexivity) ltac:(reflexivity) ltac:(simpl; lia)
                ltac:(simpl; lia)) as (A & B & C).
    split; [exact A|]. split; [reflexivity|]. split; [exact B | exact C].
Defined.

(** C4, counterexample: with [autoTruncateFile] off, [deinitialize()] takes
    the object from in-file to in-memory mode. *)
Lemma deinitialize_leaves_in_file_mode :
  ~ (forall ev s s',
        reachable example_config busy_consumer s ->
        enabled ev s = true ->
        step example_config busy_consumer ev s = Ok s' ->
        mode s = IN_FILE_MODE -> mode s' = IN_MEMORY_MODE ->
        autoTruncateFile example_config = true).
Proof.
  intros H.
  specialize (H EvDeinitialize example_moving example_deinitialized
                example_moving_reachable eq_refl eq_refl eq_refl eq_refl).
  discriminate H.
Qed.

Lemma example_queued_reachable :
  reachable example_config_truncate slow_start_consumer example_queued.
Proof.
  apply (run_reachable example_config_truncate slow_start_consumer
           [EvFeed buf_ab; EvFeed buf_cdef] init);
    [apply reachable_init | reflexivity | reflexivity].
Qed.

(** C4, witness: "cdef" is queued and pending while the consumer is busy
    with "ab"; on its acknowledgement the reader serves "cdef" from
    memory, goes round, finds nothing more to serve and switches back.
    The state of the switch has the queue "cdef" of the run, and the
    consumer has been handed "cdef" by then. *)
Lemma in_file_left_by_reader_switch_witness :
  autoTruncateFile example_config_truncate = true
  /\ (exists s0 sm,
        readNext example_config_truncate slow_start_consumer s0
        = Ok example_switched
        /\ queue s0 = [buf_cdef]
        /\ stream s0 = buf_ab ++ buf_cdef
        /\ reader_reaches example_config_truncate slow_start_consumer s0 sm
        /\ readNext_pass example_config_truncate slow_start_consumer sm
           = Return (Ok example_switched)
        /\ Inv sm /\ reader_switch sm example_switched
        /\ queue sm = [buf_cdef]
        /\ channel sm = channel example_switched)
  /\ pending example_queued = buf_cdef
  /\ delivered (log (channel example_switched))
     = delivered (log (channel example_queued)) ++ buf_cdef
  /\ nbuffers example_switched = 0 /\ inFileMode example_switched = None.
Proof.
  destruct (in_file_left_by_reader_switch_or_deinitialize
              example_config_truncate slow_start_consumer
              (EvConsumed 2 false) example_queued example_switched
              example_queued_reachable eq_refl eq_refl eq_refl eq_refl)
    as [D|(A & B & C & D & E)]; [discriminate D|].
  split; [exact A|]. split; [exact B|]. split; [reflexivity|].
  split; [exact C|]. split; assumption.
Defined.

(** C5, witness: the invariants in ERROR_WAITING mode. *)
Lemma global_invariants_hold_witness :
  (errcode example_error_waiting = 0 <->
   (mode example_error_waiting = IN_MEMORY_MODE
    \/ mode example_error_waiting = IN_FILE_MODE))
  /\ (inFileMode example_error_waiting <> None <->
      mode example_error_waiting = IN_FILE_MODE)
  /\ (mode example_error_waiting = ERROR
      \/ mode example_error_waiting = ERROR_WAITING ->
      readerState example_error_waiting = RS_TERMINATED
      /\ inFileMode example_error_waiting = None).
Proof.
  apply (global_invariants_hold example_config busy_consumer
           example_error_waiting).
  exact example_error_waiting_reachable.
Defined.

(** C5, counterexample: [feedError(0)] on a fresh object returns with the
    mode ERROR and the error code 0, so that [errcode == 0] no longer
    means that the mode is in-memory or in-file; [verifyInvariants] would
    then fail. *)
Lemma feedError_zero_breaks_invariant :
  exists s',
    feedError 0 init = Ok s'
    /\ mode s' = ERROR /\ errcode s' = 0
    /\ ~ (errcode s' = 0 <->
          (mode s' = IN_MEMORY_MODE \/ mode s' = IN_FILE_MODE))
    /\ verifyInvariants s' = Ok false.
Proof.
  eexists. split; [reflexivity|]. split; [reflexivity|].
  split; [reflexivity|]. split; [|reflexivity].
  intros [H _]. destruct (H eq_refl) as [K|K]; discriminate K.
Qed.

(** C6, witness: [feed("cdef")] in ERROR mode. *)
Lemma feed_when_ended_is_noop_witness :
  ended example_error = true
  /\ feed example_config busy_consumer buf_cdef example_error = Ok example_error.
Proof.
  apply (feed_when_ended_is_noop example_config busy_consumer buf_cdef
           example_error).
  right. left. reflexivity.
Defined.

(** C7, counterexample: [reinitialize()] in ERROR mode leaves the mode, the
    reader state and the error code as they are. *)
Lemma reinitialize_does_not_reset :
  step example_config busy_consumer (EvFeedError 5) init = Ok example_error
  /\ ~ (mode (reinitialize example_error) = IN_MEMORY_MODE
        /\ readerState (reinitialize example_error) = RS_INACTIVE
        /\ errcode (reinitialize example_error) = 0).
Proof.
  split; [reflexivity|]. intros (H & _). discriminate H.
Qed.

Lemma example_both_requests_reachable :
  reachable example_config busy_consumer example_both_requests.
Proof.
  apply (run_reachable example_config busy_consumer
           [EvFeed buf_ab; EvFeed buf_cdef; EvFileCreated 5 0; EvWritten 4 0;
            EvFeed buf_gh; EvConsumed 2 false] init);
    [apply reachable_init | reflexivity | reflexivity].
Qed.

(** C7, witness: [deinitialize()] and [reinitialize()] with the read of
    "cdef" and the write of "gh" in flight and "gh" queued:
    [deinitialize()] cancels both requests and empties the queue. *)
Lemma deinitialize_resets_witness :
  outstanding example_both_requests
  = [ReadRequest {| rc_size := 4; rc_offset := 0 |};
     WriterRequest (Move {| mc_buffer := buf_gh; mc_written := 0 |} buf_gh 4)]
  /\ queue example_both_requests = [buf_gh]
  /\ (exists s',
        deinitialize_requests example_both_requests
        = Ok (s', outstanding example_both_requests)
        /\ deinitialize example_both_requests = Ok s'
        /\ mode s' = IN_MEMORY_MODE /\ readerState s' = RS_INACTIVE
        /\ errcode s' = 0 /\ nbuffers s' = 0 /\ bytesBuffered s' = 0
        /\ queue s' = [] /\ inFileMode s' = None /\ outstanding s' = []
        /\ generation (channel s')
           = uint32 (generation (channel example_both_requests) + 1))
  /\ (forall c buffer moveContext result errcode x,
        nextChunkDoneReading_callback example_config busy_consumer
          (IOContext_cancel c) buffer result errcode x = Ok x
        /\ bufferFileDoneDelaying_callback (IOContext_cancel c) x = Ok x
        /\ bufferFileCreated_callback example_config (IOContext_cancel c)
             result errcode x = Ok x
        /\ bufferWrittenToFile_callback (IOContext_cancel c) moveContext
             result errcode x = Ok x
        /\ nextChunkDoneReading_onEventLoopThread example_config
             busy_consumer (IOContext_cancel c) buffer result errcode x
           = Ok x
        /\ bufferFileDoneDelaying_onEventLoopThread (IOContext_cancel c) x
           = Ok x
        /\ bufferFileCreated_onEventLoopThread example_config
             (IOContext_cancel c) result errcode x = Ok x
        /\ bufferWrittenToFile_onEventLoopThread (IOContext_cancel c)
             moveContext result errcode x = Ok x)
  /\ (mode (reinitialize example_both_requests) = mode example_both_requests
      /\ readerState (reinitialize example_both_requests)
         = readerState example_both_requests
      /\ errcode (reinitialize example_both_requests)
         = errcode example_both_requests
      /\ nbuffers (reinitialize example_both_requests)
         = nbuffers example_both_requests
      /\ bytesBuffered (reinitialize example_both_requests)
         = bytesBuffered example_both_requests
      /\ queue (reinitialize example_both_requests)
         = queue example_both_requests
      /\ inFileMode (reinitialize example_both_requests)
         = inFileMode example_both_requests
      /\ outstanding (reinitialize example_both_requests)
         = outstanding example_both_requests
      /\ generation (channel (reinitialize example_both_requests))
         = uint32 (generation (channel example_both_requests) + 1)).
Proof.
  split; [reflexivity|]. split; [reflexivity|].
  apply (deinitialize_resets_reinitialize_delegates example_config
           busy_consumer example_both_requests).
  exact example_both_requests_reachable.
Defined.

(** C8, witness: [setError(7)] in ERROR_WAITING mode. *)
Lemma setError_idempotent_witness :
  setError 7 example_error_waiting = Ok example_error_waiting
  /\ feedError 7 example_error_waiting = Ok example_error_waiting.
Proof.
  apply (setError_idempotent_in_error_mode 7 example_error_waiting).
  right. reflexivity.
Defined.

(** C9, witness: in in-file mode the writer state is there to read. *)
Lemma getWriterState_witness :
  (mode example_moving = IN_FILE_MODE ->
   exists i, inFileMode example_moving = Some i
             /\ getWriterState example_moving = Ok (writerState i))
  /\ (mode example_moving <> IN_FILE_MODE ->
      getWriterState example_moving = Crash)
  /\ ((exists w, getWriterState example_moving = Ok w)
      <-> mode example_moving = IN_FILE_MODE).
Proof.
  apply (getWriterState_defined_iff_in_file example_config busy_consumer
           example_moving).
  exact example_moving_reachable.
Defined.

(** C10, witness: a discarded [feed], the acknowledgement that hands over
    the error, a second [feedError] and [reinitialize] leave the mode
    ERROR_WAITING. *)
Lemma error_waiting_never_becomes_error_witness :
  getMode example_error_fed = ERROR_WAITING
  /\ (readerState example_error_waiting = RS_TERMINATED ->
      isIdle (channel example_error_waiting) = true ->
      onChannelConsumed example_config busy_consumer example_error_waiting
      = Ok (set_channel
              (Channel_feedError (errcode example_error_waiting)
                 (channel example_error_waiting)) example_error_waiting)
      /\ getMode (set_channel
                    (Channel_feedError (errcode example_error_waiting)
                       (channel example_error_waiting)) example_error_waiting)
         = ERROR_WAITING).
Proof.
  apply (error_waiting_never_becomes_error example_config busy_consumer
           [EvFeed buf_cdef; EvConsumed 2 false; EvFeedError 7; EvReinitialize]
           example_error_waiting example_error_fed);
    [reflexivity | simpl; intuition discriminate | reflexivity].
Defined.

(** * The further properties at concrete inputs *)

Lemma example_fed_ab_reachable :
  reachable example_config busy_consumer example_fed_ab.
Proof.
  apply (run_reachable example_config busy_consumer [EvFeed buf_ab] init);
    [apply reachable_init | reflexivity | reflexivity].
Qed.

Lemma example_written_reachable :
  reachable example_config busy_consumer example_written.
Proof.
  apply (run_reachable example_config busy_consumer
           [EvFeed buf_ab; EvFeed buf_cdef; EvFileCreated 5 0; EvWritten 4 0]
           init);
    [apply reachable_init | reflexivity | reflexivity].
Qed.

Lemma example_reading_reachable :
  reachable example_config busy_consumer example_reading.
Proof.
  apply (run_reachable example_config busy_consumer
           [EvFeed buf_ab; EvFeed buf_cdef; EvFileCreated 5 0; EvWritten 4 0;
            EvConsumed 2 false] init);
    [apply reachable_init | reflexivity | reflexivity].
Qed.

Lemma example_short_file_reachable :
  reachable example_config busy_consumer example_short_file.
Proof.
  apply (run_reachable example_config busy_consumer
           [EvFeed buf_ab; EvFeed buf_cdef; EvFileCreated 5 0; EvWritten 2 0;
            EvWritten 2 0; EvConsumed 2 false; EvRead 2 0; EvConsumed 2 false]
           init);
    [apply reachable_init | reflexivity | reflexivity].
Qed.

Lemma example_sentinel_reachable :
  reachable example_config busy_consumer example_sentinel.
Proof.
  apply (run_reachable example_config busy_consumer
           [EvFeed buf_ab; EvFeed []] init);
    [apply reachable_init | reflexivity | reflexivity].
Qed.

(** X1, witness: the assertions while the reader reads from the file. *)
Lemma verifyInvariants_never_fails_witness :
  verifyInvariants example_reading = Ok true.
Proof.
  apply (verifyInvariants_never_fails example_config busy_consumer
           example_reading).
  exact example_reading_reachable.
Defined.

(** X2, witness: one buffer of four bytes is queued. *)
Lemma counters_describe_queue_witness :
  nbuffers example_moving = Z.of_nat (length (queue example_moving))
  /\ (nbuffers example_moving = 0 -> moreBuffers example_moving = [])
  /\ getBytesBuffered example_moving = total_size (queue example_moving)
  /\ 0 <= nbuffers example_moving <= MAX_BUFFERS
  /\ 0 <= getBytesBuffered example_moving <= MAX_MEMORY_BUFFERING
  /\ (hasBuffers example_moving = true ->
      queue example_moving
      = peekBuffer example_moving :: moreBuffers example_moving
      /\ peekLastBuffer example_moving = last (queue example_moving) []
      /\ size (peekBuffer example_moving) <= getBytesBuffered example_moving).
Proof.
  apply (counters_describe_queue example_config busy_consumer example_moving).
  exact example_moving_reachable.
Defined.

(** X3, witness: "ab" is pushed behind "cdef", and "cdef" is popped. *)
Lemma pushBuffer_popBuffer_fifo_witness :
  queue (pushBuffer buf_ab example_moving) = [buf_cdef; buf_ab]
  /\ queue (popBuffer example_moving) = [].
Proof.
  destruct (pushBuffer_popBuffer_fifo example_config busy_consumer buf_ab
              example_moving example_moving_reachable
              ltac:(reflexivity) ltac:(vm_compute; discriminate))
    as (A & _ & _ & B).
  split; [exact A|]. destruct (B eq_refl) as (C & _). exact C.
Defined.

(** X4, witness: a read is outstanding and the reader is reading. *)
Lemma io_requests_match_states_witness :
  (readRequest example_reading_record <> None <->
   readerState example_reading = RS_READING_FROM_FILE)
  /\ (writerRequest example_reading_record <> None <->
      writerState example_reading_record = WS_CREATING_FILE
      \/ writerState example_reading_record = WS_MOVING)
  /\ (readerState example_reading = RS_READING_FROM_FILE ->
      0 < written example_reading_record)
  /\ (written example_reading_record < 0 -> 0 < nbuffers example_reading).
Proof.
  apply (io_requests_match_states example_config busy_consumer
           example_reading example_reading_record).
  - exact example_reading_reachable.
  - reflexivity.
Defined.


(** X6, witness: the creation of the file fails with EACCES. *)
Lemma failed_file_creation_dereferences_null_witness :
  step example_config_truncate busy_consumer (EvFileCreated (-1) 13)
    example_ahead = Crash
  /\ exists i, inFileMode example_ahead = Some i
       /\ writerState i = WS_CREATING_FILE
       /\ bufferFileCreated example_config_truncate (-1) 13 example_ahead
          = Crash
       /\ cancelWriter
            (set_inFileMode (Some (set_writerRequest None i)) example_ahead)
          = Crash.
Proof.
  apply (failed_file_creation_dereferences_null example_config_truncate
           busy_consumer 13 example_ahead).
  - exact example_ahead_reachable.
  - reflexivity.
  - vm_compute. discriminate.
Defined.

(** X7, witness: the read of "cdef" fails with EIO. *)
Lemma failed_read_dereferences_null_witness :
  step example_config busy_consumer (EvRead (-1) 5) example_reading = Crash
  /\ exists i, inFileMode example_reading = Some i
       /\ readerState example_reading = RS_READING_FROM_FILE
       /\ cancelReader
            (set_inFileMode (Some (set_readRequest None i)) example_reading)
          = Crash.
Proof.
  apply (failed_read_dereferences_null example_config busy_consumer 5
           example_reading).
  - exact example_reading_reachable.
  - reflexivity.
Defined.

(** X8, witness: the descriptor while "cdef" is being written. *)
Lemma descriptor_valid_when_used_witness :
  (fd example_moving_record = -1 <->
   writerState example_moving_record = WS_CREATING_FILE)
  /\ (forall mc data off,
        writerRequest example_moving_record = Some (Move mc data off) ->
        0 <= fd example_moving_record)
  /\ (forall rc, readRequest example_moving_record = Some rc ->
                 0 <= fd example_moving_record)
  /\ (writerState example_moving_record = WS_INACTIVE ->
      0 <= fd example_moving_record).
Proof.
  apply (descriptor_valid_when_used example_config busy_consumer
           example_moving example_moving_record).
  - exact example_moving_reachable.
  - reflexivity.
Defined.

(** X9, witness: the writer is moving "cdef". *)
Lemma writer_state_invariants_witness :
  0 < nbuffers example_moving /\ peekBuffer example_moving <> [].
Proof.
  apply (writer_state_invariants example_config busy_consumer
           example_moving example_moving_record).
  - exact example_moving_reachable.
  - reflexivity.
Defined.

(** X10, witness: [feedError] while the consumer is busy with "ab". *)
Lemma busy_channel_is_not_fed_witness :
  log (channel example_error_waiting) = log (channel example_fed_ab).
Proof.
  apply (busy_channel_is_not_fed example_config busy_consumer
           (EvFeedError 5) example_fed_ab example_error_waiting).
  - exact example_fed_ab_reachable.
  - reflexivity.
  - reflexivity.
  - simpl. discriminate.
  - intros sz end_. discriminate.
Defined.

(** X11, witness: two bytes with a threshold of four. *)
Lemma feed_below_threshold_stays_in_memory_witness :
  exists s', feed example_config busy_consumer buf_ab init = Ok s'
             /\ mode s' = IN_MEMORY_MODE /\ inFileMode s' = None.
Proof.
  apply (feed_below_threshold_stays_in_memory example_config busy_consumer
           buf_ab init).
  - apply reachable_init.
  - reflexivity.
  - reflexivity.
  - reflexivity.
Defined.

(** X12, witness: four more bytes behind a busy consumer start the
    creation of the file; and four bytes fed to a consumer that keeps up,
    with [autoTruncateFile] on, are handed over by the same [feed], after
    which the object is back in in-memory mode. *)
Lemma feed_past_threshold_starts_file_creation_witness :
  (exists s',
     feed example_config busy_consumer buf_cdef example_fed_ab = Ok s'
     /\ mode s' = IN_FILE_MODE
     /\ queue s' = [buf_cdef]
     /\ exists i, inFileMode s' = Some i
          /\ writerState i = WS_CREATING_FILE /\ fd i = -1
          /\ writerRequest i = Some FileCreationOpen)
  /\ (exists s',
        feed example_config_truncate eager_consumer buf_cdef init = Ok s'
        /\ mode s' = IN_MEMORY_MODE
        /\ nbuffers s' = 0 /\ inFileMode s' = None
        /\ delivered (log (channel s')) = buf_cdef).
Proof.
  split.
  - destruct (feed_past_threshold_starts_file_creation example_config
                busy_consumer buf_cdef example_fed_ab
                example_fed_ab_reachable ltac:(reflexivity)
                ltac:(reflexivity) ltac:(reflexivity)
                ltac:(vm_compute; discriminate)
                ltac:(vm_compute; discriminate))
      as (s' & E & [(A & B & C)|(A & _)]); [|discriminate A].
    exists s'. split; [exact E|]. split; [exact A|]. split; [exact B|].
    exact C.
  - destruct (feed_past_threshold_starts_file_creation
                example_config_truncate eager_consumer buf_cdef init
                (reachable_init _ _) ltac:(reflexivity)
                ltac:(reflexivity) ltac:(reflexivity)
                ltac:(vm_compute; discriminate)
                ltac:(vm_compute; discriminate))
      as (s' & E & [(A & _)|(_ & A & B & C & D)]).
    + vm_compute in E. injection E as E. subst s'. discriminate A.
    + exists s'. split; [exact E|]. split; [exact A|]. split; [exact B|].
      split; [exact C | exact D].
Defined.

(** X13, witness: "ab" goes straight to a consumer that keeps up. *)
Lemma feed_to_idle_consumer_is_not_buffered_witness :
  exists s',
    feed example_config eager_consumer buf_ab init = Ok s'
    /\ log (channel s') = [Data buf_ab]
    /\ nbuffers s' = 0 /\ readerState s' = RS_INACTIVE
    /\ flushed s' = [BuffersFlushed; DataFlushed].
Proof.
  destruct (feed_to_idle_consumer_is_not_buffered example_config
              eager_consumer buf_ab init (reachable_init _ _)
              ltac:(reflexivity) ltac:(reflexivity) ltac:(reflexivity)
              ltac:(reflexivity) ltac:(discriminate) ltac:(reflexivity)
              ltac:(vm_compute; discriminate))
    as (s' & E & L & N & _ & _ & _ & R & F).
  exists s'. repeat split; assumption.
Defined.


(** X15, witness: [feedError(5)] on a fresh object. *)
Lemma feedError_sets_error_witness :
  exists s',
    feedError 5 init = Ok s'
    /\ errcode s' = 5 /\ getReaderState s' = RS_TERMINATED
    /\ getMode s' = ERROR /\ log (channel s') = [Err 5].
Proof.
  destruct (feedError_sets_error example_config busy_consumer 5 init
              (reachable_init _ _) ltac:(left; reflexivity))
    as (s' & E & A & B & _ & _ & _ & C & _).
  exists s'. destruct (C eq_refl) as (C1 & C2). repeat split; assumption.
Defined.

(** X16, witness: the write of "cdef" fails with ENOSPC while the
    consumer is busy. *)
Lemma failed_write_sets_error_witness :
  exists s',
    step example_config busy_consumer (EvWritten (-1) 28) example_moving
    = Ok s'
    /\ errcode s' = 28 /\ getReaderState s' = RS_TERMINATED
    /\ inFileMode s' = None /\ queue s' = [buf_cdef]
    /\ getMode s' = ERROR_WAITING
    /\ channel s' = channel example_moving.
Proof.
  destruct (failed_write_sets_error example_config busy_consumer 28
              example_moving example_moving_record
              {| mc_buffer := buf_cdef; mc_written := 0 |} buf_cdef 0
              example_moving_reachable ltac:(reflexivity) ltac:(reflexivity))
    as (s' & E & A & B & C & D & _ & F).
  exists s'. destruct (F ltac:(simpl; discriminate)) as (F1 & F2).
  repeat split; assumption.
Defined.

(** X17, witness: the acknowledgement of "ab" in ERROR_WAITING mode. *)
Lemma deferred_error_is_fed_on_acknowledgement_witness :
  errcode example_error_waiting <> 0
  /\ (exists s',
        consumed example_config busy_consumer 2 false example_error_waiting
        = Ok s'
        /\ log (channel s')
           = log (channel example_error_waiting)
               ++ [Err (errcode example_error_waiting)]
        /\ state (channel s') = EOF_REACHED
        /\ getMode s' = ERROR_WAITING)
  /\ (exists s',
        consumed example_config busy_consumer 2 true example_error_waiting
        = Ok s'
        /\ log (channel s') = log (channel example_error_waiting)
        /\ state (channel s') = EOF_REACHED
        /\ getMode s' = ERROR_WAITING).
Proof.
  apply (deferred_error_is_fed_on_acknowledgement example_config
           busy_consumer 2 example_error_waiting).
  - exact example_error_waiting_reachable.
  - reflexivity.
  - reflexivity.
Defined.

(** X18, witness: the object is destroyed while "cdef" is being written. *)
Lemma destructor_cancels_io_witness :
  exists s' i',
    FileBufferedChannel_destructor example_moving = Ok s'
    /\ inFileMode s' = Some i'
    /\ readRequest i' = None /\ writerRequest i' = None
    /\ InFileMode_destructor i' = (true, Some 5).
Proof.
  destruct (destructor_cancels_io example_config busy_consumer example_moving
              example_moving_reachable) as (s' & E & _ & _ & K).
  destruct (K example_moving_record eq_refl) as (i' & A & B & C & _ & D).
  exists s', i'. repeat split; assumption.
Defined.

(** X19, witness: the name of the file is taken. *)
Lemma eexist_retries_file_creation_witness :
  exists i,
    inFileMode example_ahead = Some i /\ writerState i = WS_CREATING_FILE
    /\ step example_config_truncate busy_consumer (EvFileCreated (-1) 17)
         example_ahead
       = Ok (set_inFileMode
               (Some (set_writerRequest (Some FileCreationOpen) i))
               example_ahead).
Proof.
  apply (eexist_retries_file_creation example_config_truncate busy_consumer
           example_ahead).
  - exact example_ahead_reachable.
  - reflexivity.
Defined.

(** X20, witness: with the queue "cdef", "gh" and the sentinel, and
    "cdef" served ahead of the writer, the acknowledgement makes the
    reader serve "gh": the queue and the writer's fields stay, and
    [readOffset] and [written] move by 2, from 4 and -4 to 6 and -6.
    With [autoTruncateFile] on and "cdef" pending, the acknowledgement of
    "ab" makes the reader serve "cdef" and switch back. *)
Lemma reader_leaves_queue_to_writer_witness :
  (exists i', inFileMode example_walk_sentinel = Some i'
     /\ mode example_walk_sentinel = IN_FILE_MODE
     /\ nbuffers example_walk_sentinel = nbuffers example_walk
     /\ bytesBuffered example_walk_sentinel = bytesBuffered example_walk
     /\ firstBuffer example_walk_sentinel = firstBuffer example_walk
     /\ moreBuffers example_walk_sentinel = moreBuffers example_walk
     /\ fd i' = fd example_walk_record
     /\ writerState i' = writerState example_walk_record
     /\ writerRequest i' = writerRequest example_walk_record
     /\ file i' = file example_walk_record
     /\ readOffset example_walk_record <= readOffset i'
     /\ readOffset i' + written i'
        = readOffset example_walk_record + written example_walk_record)
  /\ (autoTruncateFile example_config_truncate = true
      /\ mode example_switched = IN_MEMORY_MODE
      /\ inFileMode example_switched = None
      /\ nbuffers example_switched = 0
      /\ delivered (log (channel example_switched))
         = delivered (log (channel example_queued)) ++ buf_cdef).
Proof.
  split.
  - destruct (reader_leaves_queue_to_writer example_config busy_consumer
                (EvConsumed 4 false) example_walk example_walk_sentinel
                example_walk_record example_walk_reachable
                ltac:(reflexivity) ltac:(reflexivity) ltac:(reflexivity)
                ltac:(left; exists 4, false; reflexivity))
      as [A|(A & _)]; [exact A | discriminate A].
  - destruct (reader_leaves_queue_to_writer example_config_truncate
                slow_start_consumer
                (EvConsumed 2 false) example_queued example_switched
                example_queued_record example_queued_reachable
                ltac:(reflexivity) ltac:(reflexivity) ltac:(reflexivity)
                ltac:(left; exists 2, false; reflexivity))
      as [(i' & A & _)|A]; [discriminate A | exact A].
Defined.

(** X21, witness: after the write in two parts the file holds two bytes,
    and the read at offset 2 returns none. *)
Lemma empty_read_ends_the_stream_witness :
  exists s' i',
    step example_config busy_consumer (EvRead 0 0) example_short_file = Ok s'
    /\ log (channel s') = log (channel example_short_file) ++ [Eof]
    /\ getReaderState s' = RS_TERMINATED
    /\ getMode s' = IN_FILE_MODE /\ errcode s' = 0
    /\ inFileMode s' = Some i'
    /\ readOffset i' = readOffset example_short_file_record
    /\ written i' = written example_short_file_record
    /\ 0 < written example_short_file_record
    /\ ended s' = true.
Proof.
  apply (empty_read_ends_the_stream example_config busy_consumer 0
           example_short_file example_short_file_record
           {| rc_size := 2; rc_offset := 2 |}).
  - exact example_short_file_reachable.
  - reflexivity.
  - reflexivity.
  - reflexivity.
Defined.

(** X22, witness: the sentinel is queued behind a busy consumer; the
    acknowledgement delivers it, and [feed("cdef")] is discarded. *)
Lemma sentinel_stays_queued_witness :
  In [] (queue example_sentinel_fed) /\ ended example_sentinel_fed = true
  /\ forall b, feed example_config busy_consumer b example_sentinel_fed
               = Ok example_sentinel_fed.
Proof.
  apply (sentinel_stays_queued example_config busy_consumer
           [EvConsumed 2 false; EvFeed buf_cdef]
           example_sentinel example_sentinel_fed).
  - exact example_sentinel_reachable.
  - left. reflexivity.
  - simpl. intuition discriminate.
  - reflexivity.
  - reflexivity.
Defined.

(** X23, witness: a reset in ERROR_WAITING mode. *)
Lemma reset_restores_initial_state_witness :
  exists s',
    deinitialize example_error_waiting = Ok s'
    /\ mode (reinitialize s') = IN_MEMORY_MODE
    /\ errcode (reinitialize s') = 0
    /\ ended (reinitialize s') = false.
Proof.
  destruct (reset_restores_initial_state example_config busy_consumer
              example_error_waiting example_error_waiting_reachable)
    as (s' & E & R & F).
  exists s'. rewrite R. repeat split. exact E.
Defined.

(** X24, witness: the acknowledgement of "ab" starts the read of
    "cdef". *)
Lemma acknowledgement_starts_read_of_next_chunk_witness :
  consumed example_config busy_consumer 2 false example_written
  = Ok example_reading.
Proof.
  apply (acknowledgement_starts_read_of_next_chunk example_config
           busy_consumer 2 example_written example_written_record).
  - exact example_written_reachable.
  - reflexivity.
  - reflexivity.
  - reflexivity.
  - reflexivity.
Defined.

(** X25, witness: [feed("")] on a fresh object. *)
Lemma feed_of_sentinel_ends_the_stream_witness :
  exists s',
    feed example_config busy_consumer [] init = Ok s'
    /\ log (channel s') = log (channel init) ++ [Eof]
    /\ getReaderState s' = RS_TERMINATED /\ getMode s' = IN_MEMORY_MODE
    /\ nbuffers s' = 1 /\ getBytesBuffered s' = 0 /\ queue s' = [[]]
    /\ flushed s' = flushed init ++ [DataFlushed]
    /\ ended s' = true.
Proof.
  apply (feed_of_sentinel_ends_the_stream example_config busy_consumer init).
  - apply reachable_init.
  - reflexivity.
  - reflexivity.
  - reflexivity.
  - reflexivity.
  - reflexivity.
Defined.

(** X26, witness: the write of "cdef" fails while "ab" is with the
    consumer, which sets the error; afterwards the consumer, having been
    handed "ab", is handed the error, and what is fed is dropped. *)
Lemma errors_keep_delivered_prefix_witness :
  exists s1 s2 rest,
    run example_config busy_consumer
      [EvFeed buf_ab; EvFeed buf_cdef; EvFileCreated 5 0; EvWritten (-1) 28]
      init = Ok s1
    /\ run example_config busy_consumer
         [EvConsumed 2 false; EvFeed buf_ab] s1 = Ok s2
    /\ concat [buf_ab; buf_cdef; buf_ab]
       = delivered (log (channel s2)) ++ rest
    /\ mode s1 = ERROR_WAITING
    /\ log (channel s2) = log (channel s1) ++ [Err 28].
Proof.
  destruct (errors_keep_delivered_prefix example_config busy_consumer
              ltac:(reflexivity) ltac:(intros; discriminate)
              [EvFeed buf_ab; EvFeed buf_cdef; EvFileCreated 5 0;
               EvWritten (-1) 28]
              [EvConsumed 2 false; EvFeed buf_ab]
              ltac:(reflexivity))
    as (s1 & s2 & rest & E1 & E2 & P & _ & _).
  exists s1, s2, rest. split; [exact E1|]. split; [exact E2|].
  split; [exact P|].
  vm_compute in E1. injection E1 as E1. subst s1.
  vm_compute in E2. injection E2 as E2. subst s2.
  split; reflexivity.
Defined.
